(* ===== verification/_CoqProject ===== *)
-Q . S2P
Prelude.v
JsNumber.v
Json.v
Errors.v
Effects.v
Concurrency.v
Backoff.v
Circuit.v
Base64.v
IpAddress.v
DateTime.v
Platform.v
Queue.v
ToNumber.v
RedisConnection.v
Schema.v
Registry.v
World.v
Config.v
TestPlatform.v
Signature.v
CircuitStore.v
TenantLimiter.v
SecretCipher.v
EndpointCache.v
HttpClient.v
Processor.v
Worker.v
Retries.v
Relay.v
RateLimit.v
Events.v
Deliveries.v
Ssrf.v
Endpoints.v
Tenancy.v
Footprint.v
Receiver.v
Ledger.v
Dtos.v
Sends.v
Api.v
Wire.v
Answers.v
Console.v
Pages.v
Onboarding.v
Views.v
Purge.v
DeliveryPool.v
OutboxPool.v
RelayLoop.v
Metrics.v
WorkerLoop.v
Integrity.v
Authentic.v
EndToEnd.v
Completion.v
Boot.v
Bench.v
