(* ===== verification/Prelude.v ===== *)
(** * HookRelay: a verification library for the webhook delivery platform

    HookRelay accepts events from tenants and delivers them as signed HTTP requests
    to the tenants' endpoints.  This library models the backend under
    [src/backend/src], the reference receiver [src/demo-receiver/server.js] and the
    console [src/frontend], and proves what makes them correct, up to the guarantees
    of the whole system with any number of processes running at once, and from a click
    in the console to the row in the database.  The load scripts of [src/bench/k6] are
    modelled too, as clients whose measurements are to mean something.

    ** The program

    Three kinds of processes share a PostgreSQL database, Redis and a BullMQ queue.
    The API stores an event, its deliveries and an outbox row in one transaction
    ([events/]), manages endpoints, tenants and keys ([endpoints/], [tenants/],
    [api-keys/], [auth/]) and shows and re-arms deliveries ([deliveries/]).  The
    relay ([relay/]) polls the outbox and enqueues a job per delivery.  The worker
    ([worker/]) takes a slot of the tenant, claims an attempt by inserting its row,
    sends the request and records the verdict; a failure raises a signal that makes
    the queue run the job again later.  A receiver checks signature and age and
    drops repetitions.  The console is a single-page client of the API: it keeps the
    keys in a session, registers endpoints, tells the demo receiver their secrets, and
    shows deliveries and attempts.

    ** The model

    An [async] function is a tree of atomic actions on a shared [World]
    ([Effects.v]): one action per statement or transaction, Redis command or script,
    queue call, HTTP exchange or local step.  [exec] runs a program alone, [run]
    with failures of services before or after the effect, and [Concurrency.v] runs a
    pool of programs interleaved at every action, with failures, crashes and steps
    of the environment, and gives a rely-guarantee logic for it.  Exceptions are
    values.  Code outside the repository is a parameter ([Platform.v]); every theorem
    holds for an arbitrary platform, and [TestPlatform.v] has a concrete one on which
    the examples run.

    The files, in order, with what they model:

    - [Prelude.v], [JsNumber.v], [Effects.v], [Concurrency.v], [Platform.v],
      [TestPlatform.v], [Json.v], [Base64.v], [DateTime.v], [ToNumber.v]: the shared
      base, the language's numbers, JSON text, base64, dates and [Number(s)].
    - [Errors.v]: [common/errors/].  [Config.v]: [common/config/env.validation.ts].
      [Schema.v]: [prisma/schema.prisma].  [World.v]: the shared state and the
      statements with the constraints they check.  [Registry.v]:
      [metrics/registry.ts], every metric with its labels; a call on one is an event
      of the trace in [World.v], made where the code makes it.
    - [Backoff.v], [Circuit.v], [CircuitStore.v], [Signature.v], [TenantLimiter.v],
      [EndpointCache.v], [HttpClient.v], [Processor.v], [Worker.v], [Retries.v],
      [WorkerLoop.v]: the files of [worker/].  Of [worker.service.ts], [Worker.v] holds
      the job handler and the queue gauge, [Retries.v] the retries of one job, and
      [WorkerLoop.v] the service: start, the jobs in flight, shutdown.
      [SecretCipher.v]: [common/crypto/secret-cipher.ts].
    - [Queue.v], [RedisConnection.v]: [queue/].  [Relay.v], [RelayLoop.v]:
      [relay/relay.service.ts], one pass and the polling loop.  [Purge.v]: [jobs/].
    - [RateLimit.v], [Events.v]: [events/].  [Deliveries.v]: [deliveries/].
      [IpAddress.v], [Ssrf.v]: [security/ssrf.service.ts].  [Endpoints.v]:
      [endpoints/].  [Tenancy.v]: [auth/], [api-keys/], [tenants/].  [Dtos.v]: the
      DTO classes and the validation pipe of [app.setup.ts].  [Api.v]: the
      controllers under guard, interceptor ([metrics/http.interceptor.ts]), pipes and
      exception filter.  [Wire.v]: the same on the wire, from method, URL, headers and
      body text over the route table to the response text.  [Answers.v]: what the API
      can answer, route by route, whatever its services do.  [Metrics.v]:
      [metrics/metrics.server.ts], and the time series of the deployed system.
    - [Receiver.v]: [demo-receiver/server.js].  [Console.v]: [api.ts], [auth.tsx]
      and the status colours of [src/frontend].  [Pages.v]: [App.tsx] and [pages/], the
      state of every page and every handler as a program of a browser tab.
      [Onboarding.v]: the console in front of [Wire.v] and [Receiver.v], as the proxy of
      [vite.config.ts] connects them.  [Views.v]: [ui.tsx] and the markup of [pages/] and
      [App.tsx], as partial functions from the state of a tab to a tree of elements with
      their handlers.
    - [Footprint.v]: the interface between invariants and programs.  [Ledger.v],
      [Sends.v], [DeliveryPool.v], [OutboxPool.v], [Integrity.v], [Authentic.v],
      [EndToEnd.v], [Completion.v]: the whole system.
    - [Boot.v]: [main.ts], [relay/main.ts], [worker/main.ts] and what their modules
      provide, from the environment to the process that runs.  [Bench.v]: [bench/k6].

    Definitions keep the source's names.  A record of the source is a record here,
    an enum an inductive type; a table is a finite map from the primary key.  A
    service's method [m] is a program [m]; the body of a [$transaction] and each
    query of interest have definitions of their own.

    ** What is proved

    - One run of [process]: the state machine of a delivery, what each skip means,
      what is sent under any faults, that success needs a 2xx to that very request,
      and what an exception after the claim leaves behind ([Processor.v], [Sends.v]).
    - The whole system: attempts are numbered without gaps or repetitions and bound
      the requests ([DeliveryPool.v]); no delivery is lost between the outbox and the
      queue, and undisturbed polling enqueues all of them ([OutboxPool.v]); the
      database keeps the constraints of its schema, which the theorems about single
      operations assume ([Integrity.v]); tenants are isolated and every request to a
      receiver is authentic ([Authentic.v]); with the receiver, a delivery that
      arrives in time is processed once ([EndToEnd.v]); a delivery that nothing stands
      in the way of completes ([Completion.v]); retries end ([Retries.v]);
      the relay's polling loop and the worker service are processes of this system
      ([RelayLoop.v], [WorkerLoop.v]), and the worker's shutdown ends.  Whatever tenants
      there are, the metrics have at most 202 time series ([Metrics.v]).
    - One API request under any faults: it is answered, and it writes only what
      belongs to the tenant of its key ([Api.v]); every route can be reached, with the
      arguments its client meant ([Wire.v]); the answer is of the kind and status of its
      route, or an error with a code and a message ([Answers.v]).
    - The console: whatever its handlers, the answers and the user do at once, a page
      shows what its own requests were answered ([Pages.v]); an operator who creates a
      tenant and registers an endpoint has a key that the guard accepts, and a receiver
      that accepts the deliveries of this endpoint ([Onboarding.v]).  In front of the API
      every answer has the interface the page casts it to, so no reachable page throws
      while it is rendered, and what it offers are exactly the handlers above ([Views.v]).
    - The deployment: three processes that are given the same Redis and the same master
      key work together, and start as the processes of the theorems above ([Boot.v]).  A
      sample of the isolation benchmark stands for a delivery that has succeeded, and
      says less than its comment claims ([Bench.v]).
    - The parts: the breaker on Redis refines its state machine, which refines the
      count of consecutive failures; one probe at a time; slots are bounded and given
      back; delays lie under their ceiling; cached settings are at most 30 s old;
      [send] always classifies and connects only to admitted addresses; the address
      rules denote exactly the listed ranges; a registration, update, subscription,
      ping, publication, rotation, redelivery on each of its branches; publishing is
      atomic and its retry is absorbed; pages list everything once; a window admits
      its cap; secrets and JSON round-trip; an accepted configuration is sane.
    - Several lemmas prove that the code does not do what it means to (a stranded
      claim, a forgotten slot, a bypass of the address check, unvalidated input that
      ends in a 500, errors counted as successes, a blank retention that deletes the
      whole history, a form that leaves an endpoint without subscriptions, a failed
      click that shows nothing, a benchmark that hides the delay it is to measure); their
      comments say so.

    ** Bounds and fuel

    [parse] of JSON takes the length of the text as fuel and
    [parse_stringify] shows that it is enough for every printed value; [retry_loop]
    takes the number of attempts left, and [retries_end] shows it suffices;
    [polling] in [Bench.v] takes the rounds left of the 40 of its loop;
    [polls] in [Relay.v] takes the number of passes, and the theorems say how many
    drain a backlog.  Everything else is structural.  Times are integers of
    milliseconds; [JsNumber.v] treats the overflow and rounding of the back-off's
    doubles, and 32-bit operations on addresses are written out.

    ** Approximations

    - Strings are sequences of 8-bit characters, so lengths that JavaScript counts in
      UTF-16 units are counted in bytes; JSON numbers that are not integers are kept
      as text; the parser knows no escape above [\u007f].
    - A transaction is one atomic action: interleavings inside a READ COMMITTED
      transaction, and lock waits, are not modelled.  A statement checks the unique
      and foreign keys and the column limits that can fail for its callers.
    - The rate limiter's lazy connection is part of its script call; a Redis script is
      atomic.  [Number(s)] of the receiver is exact, without the rounding to double.
    - UUIDs, random bytes, hashes, AES-GCM, the URL parser, [IsUrl], the resolver, the
      network and [jsonb] are functions of the platform or arguments; laws of theirs
      appear as hypotheses where a theorem needs them.
    - An object parsed from JSON keeps the order and the repetitions of its members.
      What a handler of the console closes over is its argument; two effects of one
      render, and the double effects of StrictMode, are separate runs of the handler.
    - The queue may run any job any number of times at any moment, which covers its
      delays, stalls and repetitions; only [Retries.v] follows one job alone.

    - Rendering is a function of the tab's state; effects, refs and keys of React are left
      out of it.  Of a list that the redelivery script gets, only an array is followed.

    ** Not modelled

    How NestJS builds the providers of a module, the closing of the relay's and the API's
    servers and connections, prom-client's text format, the [/received] listing of the
    receiver, the scheduling and statistics of k6, the shell scripts, and the
    configuration of linters and build tools.  The purge job ([Purge.v]) is a process of
    the system of [Integrity.v] only: [DeliveryPool.v] speaks of databases it has not
    purged. *)

From Stdlib Require Export ZArith Lia String Ascii Bool.
From Stdlib Require Import DecimalString DecimalN DecimalFacts.
From stdpp Require Export base tactics option list gmap strings fin_maps sorting.


Declare Scope hook_scope.
Delimit Scope hook_scope with hook.

Create HintDb hook.

(** ** Tactics *)

(** Split the hypotheses, simplify equations, decide closed tests. *)
Ltac hsimp :=
  repeat first
    [ progress simplify_eq/=
    | progress destruct_and?
    | case_bool_decide; [|done]
    | match goal with
      | H : exists _, _ |- _ => destruct H
      | H : _ /\ _ |- _ => destruct H
      end ].

(** Case analysis on the innermost scrutinee, keeping its equation. *)
Ltac hcase :=
  match goal with
  | |- context [match ?x with _ => _ end] =>
      lazymatch x with
      | context [match _ with _ => _ end] => fail
      | _ => destruct x eqn:?
      end
  end.

Ltac hcases := repeat (hcase; simplify_eq/=; try done).

(** ** Decimal numerals

    The template literals of the source print integers in decimal; [Number(s)]
    reads them back. *)

Definition dec (n : N) : string := NilZero.string_of_uint (N.to_uint n).

Definition undec (s : string) : option N := N.of_uint <$> NilZero.uint_of_string s.

Lemma to_uint_not_nil (n : N) : N.to_uint n <> Decimal.Nil.
Proof. destruct n as [|p]; [done|]. apply DecimalPos.Unsigned.to_uint_nonnil. Qed.

Lemma undec_dec (n : N) : undec (dec n) = Some n.
Proof.
  unfold undec, dec. rewrite NilZero.usu by apply to_uint_not_nil.
  simpl. by rewrite DecimalN.Unsigned.of_to.
Qed.

#[export] Instance dec_inj : Inj (=) (=) dec.
Proof. intros m n H. apply (f_equal undec) in H. rewrite !undec_dec in H. congruence. Qed.

(** Decimal printing of an integer, with the sign JavaScript prints. *)
Definition decZ (z : Z) : string :=
  match z with
  | Zneg _ => "-" +:+ dec (Z.to_N (- z))
  | _ => dec (Z.to_N z)
  end.

(** ** Characters of a string *)

Fixpoint str_forall (f : ascii -> bool) (s : string) : bool :=
  match s with
  | EmptyString => true
  | String c s' => f c && str_forall f s'
  end.

Definition is_digit (c : ascii) : bool :=
  (48 <=? N_of_ascii c)%N && (N_of_ascii c <=? 57)%N.

Lemma str_app_assoc (s1 s2 s3 : string) : (s1 +:+ s2) +:+ s3 = s1 +:+ (s2 +:+ s3).
Proof. induction s1 as [|c s1 IH]; [done|]. exact (f_equal (String c) IH). Qed.

Lemma str_length_app (s1 s2 : string) :
  String.length (s1 +:+ s2) = (String.length s1 + String.length s2)%nat.
Proof. induction s1 as [|c s1 IH]; [done|]. exact (f_equal S IH). Qed.

Lemma str_app_nil s : s +:+ EmptyString = s.
Proof. induction s as [|c s IH]; [done|exact (f_equal (String c) IH)]. Qed.

Lemma str_app_cancel_r (a b s : string) : a +:+ s = b +:+ s -> a = b.
Proof.
  revert b. induction a as [|x a IH]; intros [|y b] E; [done| | |].
  - apply (f_equal String.length) in E. rewrite !str_length_app in E. simpl in E. lia.
  - apply (f_equal String.length) in E. rewrite !str_length_app in E. simpl in E. lia.
  - injection E as -> E. f_equal. by apply IH.
Qed.

Lemma str_forall_app f s1 s2 :
  str_forall f (s1 +:+ s2) = str_forall f s1 && str_forall f s2.
Proof. induction s1 as [|c s1 IH]; simpl; [done|]. by rewrite IH, andb_assoc. Qed.

Lemma str_forall_impl (f g : ascii -> bool) s :
  (forall c, f c = true -> g c = true) -> str_forall f s = true -> str_forall g s = true.
Proof.
  intros Hfg. induction s as [|c s IH]; simpl; [done|].
  intros [Hc Hs]%andb_true_iff. by rewrite Hfg, IH.
Qed.

Lemma string_of_uint_digits d : str_forall is_digit (NilEmpty.string_of_uint d) = true.
Proof. induction d; simpl; auto. Qed.

Lemma dec_digits n : str_forall is_digit (dec n) = true.
Proof.
  unfold dec, NilZero.string_of_uint.
  destruct (N.to_uint n) eqn:E; try apply (string_of_uint_digits (_ _)). done.
Qed.

(** Splitting at the first occurrence of a separator that the left parts do
    not contain: the lemma behind every framing argument. *)
Lemma app_sep_inj (c : ascii) (l1 l2 r1 r2 : string) :
  str_forall (fun x => negb (Ascii.eqb x c)) l1 = true ->
  str_forall (fun x => negb (Ascii.eqb x c)) l2 = true ->
  l1 +:+ String c r1 = l2 +:+ String c r2 -> l1 = l2 /\ r1 = r2.
Proof.
  revert l2. induction l1 as [|x l1 IH]; intros [|y l2]; simpl; intros H1 H2 Heq.
  - by simplify_eq.
  - apply andb_true_iff in H2 as [H2 _]. simplify_eq. by rewrite Ascii.eqb_refl in H2.
  - apply andb_true_iff in H1 as [H1 _]. simplify_eq. by rewrite Ascii.eqb_refl in H1.
  - apply andb_true_iff in H1 as [_ H1], H2 as [_ H2]. simplify_eq.
    destruct (IH l2) as [-> ->]; auto.
Qed.

Lemma digits_no_sep (c : ascii) s :
  is_digit c = false -> str_forall is_digit s = true ->
  str_forall (fun x => negb (Ascii.eqb x c)) s = true.
Proof.
  intros Hc. apply str_forall_impl. intros x Hx.
  destruct (Ascii.eqb_spec x c); [congruence|done].
Qed.

#[export] Hint Resolve dec_digits digits_no_sep : hook.
