(* ===== verification/JsNumber.v ===== *)
(** * JavaScript numbers, as far as the back-off code uses them

    The values that reach [worker/backoff.ts] are integer-valued doubles,
    infinities and [NaN].  [Fin z] is the double whose value is the integer [z]
    (the products formed are an integer below [2^53] times a power of two, so
    they are exact until they overflow).  [Math.random()] is [k / 2^53] with
    [0 <= k < 2^53]; its product with an integer is rounded to nearest even, as
    IEEE-754 prescribes, and [round53] is that rounding on the scaled integer. *)

From S2P Require Import Prelude.
From Stdlib Require Import SpecFloat.
Open Scope Z_scope.

Inductive num := Fin (z : Z) | PInf | NInf | NaN.

#[export] Instance num_eq_dec : EqDecision num.
Proof. solve_decision. Defined.

(** The first power of two that is not a finite double. *)
Definition dbl_limit : Z := 2 ^ 1024.

Definition signed_inf (neg : bool) : num := if neg then NInf else PInf.

Definition js_mul (a b : num) : num :=
  match a, b with
  | Fin x, Fin y => if Z.abs (x * y) <? dbl_limit then Fin (x * y) else signed_inf (x * y <? 0)
  | NaN, _ | _, NaN => NaN
  | Fin x, PInf | PInf, Fin x => if x =? 0 then NaN else signed_inf (x <? 0)
  | Fin x, NInf | NInf, Fin x => if x =? 0 then NaN else signed_inf (0 <? x)
  | PInf, PInf | NInf, NInf => PInf
  | PInf, NInf | NInf, PInf => NInf
  end.

(** [2 ** e] for a non-negative integer [e]. *)
Definition js_pow2 (e : Z) : num := if e <? 1024 then Fin (2 ^ e) else PInf.

(** [Math.min]. *)
Definition js_min (a b : num) : num :=
  match a, b with
  | NaN, _ | _, NaN => NaN
  | NInf, _ | _, NInf => NInf
  | PInf, x | x, PInf => x
  | Fin x, Fin y => Fin (Z.min x y)
  end.

(** [x <= 0]; a comparison with [NaN] is false. *)
Definition js_le0 (a : num) : bool :=
  match a with
  | Fin z => z <=? 0
  | NInf => true
  | PInf | NaN => false
  end.

(** Round a non-negative integer to 53 significant bits, ties to even. *)
Definition round53 (m : Z) : Z :=
  if m <? 2 ^ 53 then m else
  let e := Z.log2 m - 52 in
  let q := m / 2 ^ e in
  let r := m mod 2 ^ e in
  let h := 2 ^ (e - 1) in
  (if r <? h then q else if h <? r then q + 1 else if Z.even q then q else q + 1) * 2 ^ e.

(** [Math.floor(random() * c)] with [random() = k / 2^53]. *)
Definition floor_random_mul (k : Z) (c : num) : num :=
  match c with
  | Fin z => if z <? 0 then Fin (- round53 (k * - z) / 2 ^ 53) else Fin (round53 (k * z) / 2 ^ 53)
  | NaN => NaN
  | PInf => if k =? 0 then NaN else PInf
  | NInf => if k =? 0 then NaN else NInf
  end.

(** [Number(s)] of a string of decimal digits. *)
Definition Number_digits (s : string) : num :=
  match undec s with
  | Some n => if round53 (Z.of_N n) <? dbl_limit then Fin (round53 (Z.of_N n)) else PInf
  | None => NaN
  end.

(** [`${x}`]: the shortest decimal form.  From [10^21] on JavaScript switches
    to exponent notation, which the model leaves out. *)
Definition num_to_string (a : num) : option string :=
  match a with
  | Fin z => if Z.abs z <? 10 ^ 21 then Some (decZ z) else None
  | PInf => Some "Infinity"
  | NInf => Some "-Infinity"
  | NaN => Some "NaN"
  end.

(** ** Bounds of the rounding *)

Lemma round53_small m : m < 2 ^ 53 -> round53 m = m.
Proof. intros H. unfold round53. apply Z.ltb_lt in H. by rewrite H. Qed.

Lemma round53_nonneg m : 0 <= m -> 0 <= round53 m.
Proof.
  intros Hm. unfold round53. destruct (Z.ltb_spec m (2 ^ 53)); [done|].
  assert (0 < 2 ^ (Z.log2 m - 52)) as He.
  { apply Z.pow_pos_nonneg; [lia|]. pose proof (Z.log2_le_pow2 m 53). lia. }
  assert (0 <= m / 2 ^ (Z.log2 m - 52)) by (apply Z.div_pos; lia).
  repeat case_match; nia.
Qed.

(** Rounding adds at most half a unit in the last place. *)
Lemma round53_le m :
  2 ^ 53 <= m -> round53 m <= m + 2 ^ (Z.log2 m - 53).
Proof.
  intros Hm. unfold round53. destruct (Z.ltb_spec m (2 ^ 53)); [lia|].
  pose proof (Z.log2_le_pow2 m 53 ltac:(lia)) as [Hl _]. specialize (Hl Hm).
  replace (Z.log2 m - 52 - 1) with (Z.log2 m - 53) by lia.
  set (h := 2 ^ (Z.log2 m - 53)).
  assert (2 ^ (Z.log2 m - 52) = 2 * h) as ->.
  { unfold h. rewrite <- Z.pow_succ_r by lia. f_equal. lia. }
  assert (0 < h) by (apply Z.pow_pos_nonneg; lia).
  pose proof (Z.div_mod m (2 * h) ltac:(lia)) as Hdm.
  pose proof (Z.mod_pos_bound m (2 * h) ltac:(lia)) as Hr.
  destruct (Z.ltb_spec (m mod (2 * h)) h); [lia|].
  destruct (Z.ltb_spec h (m mod (2 * h))); [lia|].
  destruct (Z.even _); lia.
Qed.

(** The rounded product [random() * c] stays strictly below [c]. *)
Lemma round53_random_lt k c :
  0 <= k < 2 ^ 53 -> 0 < c -> round53 (k * c) < 2 ^ 53 * c.
Proof.
  intros Hk Hc. destruct (Z.ltb_spec (k * c) (2 ^ 53)) as [Hs|Hs].
  { rewrite round53_small by done. nia. }
  pose proof (round53_le (k * c) Hs) as Hr.
  assert (k * c <= 2 ^ 53 * c - c) by nia.
  pose proof (Z.log2_spec c Hc) as [Hc1 Hc2].
  pose proof (Z.log2_spec (k * c) ltac:(lia)) as [Hm1 Hm2].
  pose proof (Z.log2_nonneg c) as Hlc.
  set (lc := Z.log2 c) in *. set (lm := Z.log2 (k * c)) in *.
  assert (53 <= lm) by (apply Z.log2_le_pow2; lia).
  assert (lm < 53 + lc + 1) as Hlm.
  { apply (Z.pow_lt_mono_r_iff 2); [lia|lia|].
    rewrite !Z.pow_add_r by lia. rewrite Z.pow_succ_r in Hc2 by lia. lia. }
  assert (2 ^ (lm - 53) < c); [|lia].
  destruct (Z.eq_dec (2 ^ lc) c) as [Heq|Hne].
  - rewrite <- Heq. apply Z.pow_lt_mono_r; [lia|lia|].
    assert (lm < 53 + lc); [|lia].
    apply (Z.pow_lt_mono_r_iff 2); [lia|lia|]. rewrite Z.pow_add_r by lia. lia.
  - apply Z.le_lt_trans with (2 ^ lc); [|lia]. apply Z.pow_le_mono_r; lia.
Qed.

Lemma floor_random_mul_bounds k c :
  0 <= k < 2 ^ 53 -> 0 < c ->
  exists d, floor_random_mul k (Fin c) = Fin d /\ 0 <= d < c.
Proof.
  intros Hk Hc. unfold floor_random_mul. destruct (Z.ltb_spec c 0); [lia|].
  eexists. split; [done|]. split.
  - apply Z.div_pos; [|lia]. apply round53_nonneg. nia.
  - apply Z.div_lt_upper_bound; [lia|]. by apply round53_random_lt.
Qed.

(** The hand-written rounding agrees with the IEEE multiplication of the
    standard library's floating-point specification. *)
Definition sf_product (k c : positive) : option Z :=
  match SFmul 53 1024 (S754_finite false k (-53)) (S754_finite false c 0) with
  | S754_finite false m e => if e + 53 >=? 0 then Some (Zpos m * 2 ^ (e + 53)) else None
  | _ => None
  end.

Example round53_is_ieee :
  sf_product 9007199254740991 14400000 = Some (round53 (9007199254740991 * 14400000)) /\
  sf_product 9007199254740991 1048576 = Some (round53 (9007199254740991 * 1048576)) /\
  sf_product 6004799503160661 30001 = Some (round53 (6004799503160661 * 30001)) /\
  sf_product 7 30000 = Some (round53 (7 * 30000)).
Proof. by vm_compute. Qed.
