(* ===== verification/Json.v ===== *)
(** * JSON text

    [JSON.stringify] and [JSON.parse] as the program uses them: circuit
    snapshots in Redis, delivery bodies, pagination cursors.  Strings are byte
    strings (UTF-8).  Integers are exact; a number with a fraction or an exponent
    is kept as its text ([JFrac]).  Escapes above [\u007f], which [stringify]
    never writes, are outside the parser's domain. *)

From S2P Require Import Prelude.
Open Scope N_scope.

Inductive json :=
| JNull
| JBool (b : bool)
| JNum (z : Z)
| JFrac (text : string)
| JStr (s : string)
| JArr (l : list json)
| JObj (l : list (string * json)).

Definition quote : ascii := ascii_of_N 34.
Definition backslash : ascii := ascii_of_N 92.
Definition str1 (c : ascii) : string := String c EmptyString.
Definition str2 (c d : ascii) : string := String c (str1 d).

(** ** Printing *)

Definition hex_digit (n : N) : ascii :=
  if n <? 10 then ascii_of_N (48 + n) else ascii_of_N (87 + n).

Definition esc_char (c : ascii) : string :=
  let n := N_of_ascii c in
  if n =? 34 then str2 backslash quote
  else if n =? 92 then str2 backslash backslash
  else if n =? 8 then str2 backslash "b"
  else if n =? 9 then str2 backslash "t"
  else if n =? 10 then str2 backslash "n"
  else if n =? 12 then str2 backslash "f"
  else if n =? 13 then str2 backslash "r"
  else if n <? 32 then str2 backslash "u" +:+ "00" +:+ str2 (hex_digit (n / 16)) (hex_digit (n mod 16))
  else str1 c.

Fixpoint esc (s : string) : string :=
  match s with EmptyString => EmptyString | String c s' => esc_char c +:+ esc s' end.

Definition quoted (s : string) : string := String quote (esc s +:+ str1 quote).

Fixpoint concat_sep (sep : string) (l : list string) : string :=
  match l with
  | [] => EmptyString
  | [s] => s
  | s :: l' => s +:+ sep +:+ concat_sep sep l'
  end.

Fixpoint stringify (j : json) : string :=
  match j with
  | JNull => "null"
  | JBool true => "true"
  | JBool false => "false"
  | JNum z => decZ z
  | JFrac t => t
  | JStr s => quoted s
  | JArr l => "[" +:+ concat_sep "," (map stringify l) +:+ "]"
  | JObj l => "{" +:+ concat_sep "," (map (fun p => quoted p.1 +:+ ":" +:+ stringify p.2) l) +:+ "}"
  end.

(** *** The length of a text *)

Lemma quoted_length s : (String.length (quoted s) <= 6 * String.length s + 2)%nat.
Proof.
  assert (forall c, (String.length (esc_char c) <= 6)%nat) as Hc
    by (intros [[] [] [] [] [] [] [] []]; vm_compute; lia).
  unfold quoted. cbn [String.length]. rewrite str_length_app. cbn [str1 String.length].
  enough (String.length (esc s) <= 6 * String.length s)%nat by lia.
  induction s as [|c s IH]; [done|]. cbn [esc]. rewrite str_length_app. cbn [String.length]. specialize (Hc c). lia.
Qed.

Lemma concat_sep_bound n l :
  (forall s, s ∈ l -> String.length s <= n)%nat -> (String.length (concat_sep "," l) <= (n + 1) * length l)%nat.
Proof.
  induction l as [|s l IH]; intros Hl; [cbn; lia|]. assert (String.length s <= n)%nat as Hs by (apply Hl; by left).
  specialize (IH (fun x Hx => Hl x (list_elem_of_further _ _ _ Hx))). destruct l as [|s' l]; [cbn; lia|].
  change (concat_sep "," (s :: s' :: l)) with (s +:+ "," +:+ concat_sep "," (s' :: l)).
  rewrite !str_length_app. change (String.length ",") with 1%nat. cbn [length] in *. lia.
Qed.

(** ** Parsing *)

Definition is_ws (c : ascii) : bool :=
  let n := N_of_ascii c in (n =? 32) || (n =? 9) || (n =? 10) || (n =? 13).

Fixpoint skip_ws (s : string) : string :=
  match s with String c s' => if is_ws c then skip_ws s' else s | EmptyString => s end.

Definition hex_value (c : ascii) : option N :=
  let n := N_of_ascii c in
  if (48 <=? n) && (n <=? 57) then Some (n - 48)
  else if (97 <=? n) && (n <=? 102) then Some (n - 87)
  else if (65 <=? n) && (n <=? 70) then Some (n - 55)
  else None.

Definition simple_escape (c : ascii) : option ascii :=
  let n := N_of_ascii c in
  if (n =? 34) || (n =? 92) || (n =? 47) then Some c
  else if n =? 98 then Some (ascii_of_N 8)
  else if n =? 116 then Some (ascii_of_N 9)
  else if n =? 110 then Some (ascii_of_N 10)
  else if n =? 102 then Some (ascii_of_N 12)
  else if n =? 114 then Some (ascii_of_N 13)
  else None.

(** The rest of a string literal, after its opening quote. *)
Fixpoint parse_chars (s : string) : option (string * string) :=
  match s with
  | EmptyString => None
  | String c s1 =>
      let n := N_of_ascii c in
      if n =? 34 then Some (EmptyString, s1)
      else if n =? 92 then
        match s1 with
        | String e s2 =>
            if Ascii.eqb e "u" then
              match s2 with
              | String h1 (String h2 (String h3 (String h4 s3))) =>
                  match hex_value h1, hex_value h2, hex_value h3, hex_value h4 with
                  | Some a, Some b, Some c', Some d =>
                      let v := ((a * 16 + b) * 16 + c') * 16 + d in
                      if v <? 128 then
                        match parse_chars s3 with
                        | Some (t, r) => Some (String (ascii_of_N v) t, r)
                        | None => None
                        end
                      else None
                  | _, _, _, _ => None
                  end
              | _ => None
              end
            else
              match simple_escape e with
              | Some c' =>
                  match parse_chars s2 with
                  | Some (t, r) => Some (String c' t, r)
                  | None => None
                  end
              | None => None
              end
        | EmptyString => None
        end
      else if n <? 32 then None
      else
        match parse_chars s1 with
        | Some (t, r) => Some (String c t, r)
        | None => None
        end
  end.

Fixpoint digits (s : string) : string * string :=
  match s with
  | String c s' => if is_digit c then let '(d, r) := digits s' in (String c d, r) else (EmptyString, s)
  | EmptyString => (EmptyString, s)
  end.

(** A JSON integer part has no leading zero. *)
Definition int_ok (d : string) : bool :=
  match d with
  | EmptyString => false
  | String c EmptyString => true
  | String c _ => negb (Ascii.eqb c "0")
  end.

Definition parse_fraction (s : string) : option (string * string) :=
  match s with
  | String "." s1 =>
      let '(d, r) := digits s1 in
      match d with EmptyString => None | _ => Some (String "." d, r) end
  | _ => Some (EmptyString, s)
  end.

Definition parse_exponent (s : string) : option (string * string) :=
  match s with
  | String e s1 =>
      if Ascii.eqb e "e" || Ascii.eqb e "E" then
        let '(sg, s2) := match s1 with
          | String g s2 => if Ascii.eqb g "+" || Ascii.eqb g "-" then (str1 g, s2) else (EmptyString, s1)
          | EmptyString => (EmptyString, s1) end in
        let '(d, r) := digits s2 in
        match d with EmptyString => None | _ => Some (String e (sg +:+ d), r) end
      else Some (EmptyString, s)
  | EmptyString => Some (EmptyString, s)
  end.

Definition parse_number (s : string) : option (json * string) :=
  let '(neg, s1) := match s with String "-" s1 => (true, s1) | _ => (false, s) end in
  let '(d, s2) := digits s1 in
  if negb (int_ok d) then None else
  match parse_fraction s2 with
  | None => None
  | Some (f, s3) =>
      match parse_exponent s3 with
      | None => None
      | Some (e, s4) =>
          match f, e, undec d with
          | EmptyString, EmptyString, Some n =>
              Some (JNum (if neg then - Z.of_N n else Z.of_N n)%Z, s4)
          | _, _, _ => Some (JFrac ((if neg then "-" else EmptyString) +:+ d +:+ f +:+ e), s4)
          end
      end
  end.

Fixpoint expect (p s : string) : option string :=
  match p, s with
  | EmptyString, _ => Some s
  | String a p', String b s' => if Ascii.eqb a b then expect p' s' else None
  | _, EmptyString => None
  end.

Definition keyword (p : string) (j : json) (s : string) : option (json * string) :=
  match expect p s with Some r => Some (j, r) | None => None end.

(** Recursive descent; [n] bounds the nesting and the number of elements. *)
Fixpoint parse_value (n : nat) (s : string) : option (json * string) :=
  match n with
  | O => None
  | S n =>
      match skip_ws s with
      | EmptyString => None
      | String c s1 =>
          if Ascii.eqb c "n" then keyword "ull" JNull s1
          else if Ascii.eqb c "t" then keyword "rue" (JBool true) s1
          else if Ascii.eqb c "f" then keyword "alse" (JBool false) s1
          else if Ascii.eqb c quote then
            match parse_chars s1 with Some (t, r) => Some (JStr t, r) | None => None end
          else if Ascii.eqb c "[" then
            match skip_ws s1 with
            | String "]" r => Some (JArr [], r)
            | _ => match parse_elements n s1 with Some (l, r) => Some (JArr l, r) | None => None end
            end
          else if Ascii.eqb c "{" then
            match skip_ws s1 with
            | String "}" r => Some (JObj [], r)
            | _ => match parse_members n s1 with Some (l, r) => Some (JObj l, r) | None => None end
            end
          else parse_number (String c s1)
      end
  end
with parse_elements (n : nat) (s : string) : option (list json * string) :=
  match n with
  | O => None
  | S n =>
      match parse_value n s with
      | None => None
      | Some (j, r) =>
          match skip_ws r with
          | String "," r' =>
              match parse_elements n r' with Some (l, r'') => Some (j :: l, r'') | None => None end
          | String "]" r' => Some ([j], r')
          | _ => None
          end
      end
  end
with parse_members (n : nat) (s : string) : option (list (string * json) * string) :=
  match n with
  | O => None
  | S n =>
      match skip_ws s with
      | String q s1 =>
          if negb (Ascii.eqb q quote) then None else
          match parse_chars s1 with
          | None => None
          | Some (k, r) =>
              match skip_ws r with
              | String ":" r1 =>
                  match parse_value n r1 with
                  | None => None
                  | Some (j, r2) =>
                      match skip_ws r2 with
                      | String "," r3 =>
                          match parse_members n r3 with
                          | Some (l, r4) => Some ((k, j) :: l, r4)
                          | None => None
                          end
                      | String "}" r3 => Some ([(k, j)], r3)
                      | _ => None
                      end
                  end
              | _ => None
              end
          end
      | EmptyString => None
      end
  end.

Definition parse (s : string) : option json :=
  match parse_value (S (String.length s)) s with
  | Some (j, r) => if bool_decide (skip_ws r = EmptyString) then Some j else None
  | None => None
  end.

(** [obj.k] *)
Definition field (k : string) (j : json) : option json :=
  match j with
  | JObj l => snd <$> (snd <$> list_find (fun p => p.1 = k) (rev l))
  | _ => None
  end.

(** ** Conversions of a parsed value *)

(** [String(value)], as a template literal does it. *)
Fixpoint js_string (j : json) : string :=
  match j with
  | JNull => "null"
  | JBool true => "true"
  | JBool false => "false"
  | JNum z => decZ z
  | JFrac t => t
  | JStr s => s
  | JArr l => concat_sep "," (map (fun x => match x with JNull => EmptyString | _ => js_string x end) l)
  | JObj _ => "[object Object]"
  end.

(** Whether the text of a number has a digit other than 0 before its exponent. *)
Fixpoint nonzero_text (s : string) : bool :=
  match s with
  | EmptyString => false
  | String c s' =>
      let n := N_of_ascii c in
      if (49 <=? n) && (n <=? 57) then true
      else if (n =? 101) || (n =? 69) then false
      else nonzero_text s'
  end.

(** Truthiness; [None] is [undefined]. *)
Definition truthy (v : option json) : bool :=
  match v with
  | None | Some JNull | Some (JBool false) | Some (JNum 0) | Some (JStr EmptyString) => false
  | Some (JFrac t) => nonzero_text t
  | Some _ => true
  end.

Example parse_ex :
  parse (" [1, -2.5e3 ,[ ],true, " +:+ quoted "x" +:+ "] ") =
  Some (JArr [JNum 1; JFrac "-2.5e3"; JArr []; JBool true; JStr "x"]).
Proof. by vm_compute. Qed.

(** ** The round trip *)

Section json_ind.
Variable Q : json -> Prop.
Hypothesis Hnull : Q JNull.
Hypothesis Hbool : forall b, Q (JBool b).
Hypothesis Hnum : forall z, Q (JNum z).
Hypothesis Hfrac : forall t, Q (JFrac t).
Hypothesis Hstr : forall s, Q (JStr s).
Hypothesis Harr : forall l, Forall Q l -> Q (JArr l).
Hypothesis Hobj : forall l, Forall (fun p => Q p.2) l -> Q (JObj l).

Fixpoint json_strong_ind (j : json) : Q j :=
  match j with
  | JNull => Hnull
  | JBool b => Hbool b
  | JNum z => Hnum z
  | JFrac t => Hfrac t
  | JStr s => Hstr s
  | JArr l => Harr l ((fix go l := match l return Forall Q l with
      | [] => Forall_nil_2 _ | x :: l' => Forall_cons_2 _ _ _ (json_strong_ind x) (go l') end) l)
  | JObj l => Hobj l ((fix go l := match l return Forall (fun p => Q p.2) l with
      | [] => Forall_nil_2 _ | x :: l' => Forall_cons_2 _ _ _ (json_strong_ind x.2) (go l') end) l)
  end.
End json_ind.

(** Values without fractional or exponential numbers. *)
Fixpoint integral (j : json) : bool :=
  match j with
  | JFrac _ => false
  | JArr l => forallb integral l
  | JObj l => forallb (fun p => integral p.2) l
  | _ => true
  end.

(** Fuel: one unit per value and per element or member. *)
Fixpoint jsize (j : json) : nat :=
  match j with
  | JArr l => S (foldr (fun x n => S (jsize x) + n)%nat O l)
  | JObj l => S (foldr (fun p n => S (jsize p.2) + n)%nat O l)
  | _ => 1%nat
  end.

(** What may follow a value inside a document: not a continuation of a number. *)
Definition ends_ok (s : string) : bool :=
  match s with
  | EmptyString => true
  | String c _ => negb (is_digit c) && negb (Ascii.eqb c ".") && negb (Ascii.eqb c "e") && negb (Ascii.eqb c "E")
  end.

Lemma parse_chars_esc_char c s :
  parse_chars (esc_char c +:+ s) =
    match parse_chars s with Some (t, r) => Some (String c t, r) | None => None end.
Proof. by destruct c as [[] [] [] [] [] [] [] []]. Qed.

Lemma parse_chars_esc s rest :
  parse_chars (esc s +:+ String quote rest) = Some (s, rest).
Proof.
  induction s as [|c s IH]; [done|]. cbn [esc]. by rewrite str_app_assoc, parse_chars_esc_char, IH.
Qed.

Lemma digits_app d s :
  str_forall is_digit d = true ->
  match s with String c _ => is_digit c = false | EmptyString => True end ->
  digits (d +:+ s) = (d, s).
Proof.
  intros Hd Hs. induction d as [|c d IH]; simpl in *.
  - destruct s as [|c s]; simpl; [done|]. by rewrite Hs.
  - apply andb_true_iff in Hd as [Hc Hd]. by rewrite Hc, (IH Hd).
Qed.

Lemma dec_int_ok n : int_ok (dec n) = true.
Proof.
  pose proof (DecimalN.Unsigned.to_of (N.to_uint n)) as Hu.
  rewrite DecimalN.Unsigned.of_to in Hu. pose proof (to_uint_not_nil n) as Hnil.
  unfold dec. destruct (N.to_uint n) as [|d|d|d|d|d|d|d|d|d|d]; try done; try (by destruct d).
  unfold Decimal.unorm in Hu. simpl in Hu.
  destruct (Decimal.nzhead d) eqn:E; try done; [by simplify_eq|].
  by apply DecimalFacts.nzhead_nonzero in E.
Qed.

Lemma ends_ok_digits s :
  ends_ok s = true -> match s with String c _ => is_digit c = false | EmptyString => True end.
Proof. destruct s as [|c s]; simpl; [done|]. by destruct (is_digit c). Qed.

Lemma ends_ok_no_frac s : ends_ok s = true -> parse_fraction s = Some (EmptyString, s).
Proof.
  destruct s as [|c s]; simpl; [done|]. by destruct c as [[] [] [] [] [] [] [] []].
Qed.

Lemma ends_ok_no_exp s : ends_ok s = true -> parse_exponent s = Some (EmptyString, s).
Proof.
  destruct s as [|c s]; simpl; [done|].
  destruct (Ascii.eqb c "e"); [by rewrite !andb_false_r|].
  destruct (Ascii.eqb c "E"); [by rewrite !andb_false_r|]. done.
Qed.

Lemma parse_number_unsigned n s :
  ends_ok s = true -> parse_number (dec n +:+ s) = Some (JNum (Z.of_N n), s).
Proof.
  intros Hs. pose proof (dec_digits n) as Hd. pose proof (dec_int_ok n) as Hi.
  pose proof (undec_dec n) as Hu. destruct (dec n) as [|c d] eqn:E; [done|].
  assert (Ascii.eqb c "-" = false) as Hm.
  { destruct (Ascii.eqb_spec c "-") as [->|]; [|done]. done. }
  unfold parse_number.
  assert (match String c d +:+ s with String "-" s1 => (true, s1) | _ => (false, String c d +:+ s) end
          = (false, String c d +:+ s)) as -> by (by destruct c as [[] [] [] [] [] [] [] []]).
  rewrite digits_app by (done || by apply ends_ok_digits). rewrite Hi. simpl negb. cbv iota.
  by rewrite ends_ok_no_frac, ends_ok_no_exp, Hu.
Qed.

Lemma parse_number_decZ z s :
  ends_ok s = true -> parse_number (decZ z +:+ s) = Some (JNum z, s).
Proof.
  intros Hs. destruct z as [|p|p]; [by apply (parse_number_unsigned 0)|by apply (parse_number_unsigned (Npos p))|].
  pose proof (dec_digits (Npos p)) as Hd. pose proof (dec_int_ok (Npos p)) as Hi.
  pose proof (undec_dec (Npos p)) as Hu.
  change (decZ (Zneg p) +:+ s) with (String "-" (dec (Npos p) +:+ s)). unfold parse_number.
  rewrite digits_app by (done || by apply ends_ok_digits). rewrite Hi. simpl negb. cbv iota.
  rewrite ends_ok_no_frac, ends_ok_no_exp, Hu by done. done.
Qed.

(** The first character of a printed value. *)
Definition value_start (c : ascii) : bool :=
  negb (is_ws c) && negb (Ascii.eqb c "]") && negb (Ascii.eqb c "}").

Definition starts_value (s : string) : Prop :=
  match s with String c _ => value_start c = true | EmptyString => False end.

Lemma decZ_start z :
  exists c s, decZ z = String c s /\ (is_digit c || Ascii.eqb c "-") = true.
Proof.
  assert (forall n, exists c s, dec n = String c s /\ (is_digit c || Ascii.eqb c "-") = true) as Hd.
  { intros n. pose proof (dec_digits n) as Hd. pose proof (undec_dec n) as Hu.
    destruct (dec n) as [|c s]; [done|]. exists c, s. simpl in Hd.
    apply andb_true_iff in Hd as [-> _]. done. }
  destruct z; [apply (Hd 0)|apply (Hd (Npos p))|]. by eexists _, _.
Qed.

Lemma digit_value_start c : (is_digit c || Ascii.eqb c "-") = true -> value_start c = true.
Proof. by destruct c as [[] [] [] [] [] [] [] []]. Qed.

Lemma stringify_start j s : integral j = true -> starts_value (stringify j +:+ s).
Proof.
  destruct j as [| [] |z|t|t|l|l]; try done. intros _.
  destruct (decZ_start z) as (c & t & Hz & Hc). cbn [stringify]. rewrite Hz.
  by apply digit_value_start.
Qed.

Lemma starts_value_skip s : starts_value s -> skip_ws s = s.
Proof.
  destruct s as [|c s]; simpl; [done|]. unfold value_start. by destruct (is_ws c).
Qed.

(** Where a value starts, an array or an object does not end. *)
Lemma not_rbracket {A} s (f : string -> A) d :
  starts_value s -> match s with String "]" r => f r | _ => d end = d.
Proof. destruct s as [|c s]; [done|]. by destruct c as [[] [] [] [] [] [] [] []]. Qed.

Lemma not_rbrace {A} s (f : string -> A) d :
  starts_value s -> match s with String "}" r => f r | _ => d end = d.
Proof. destruct s as [|c s]; [done|]. by destruct c as [[] [] [] [] [] [] [] []]. Qed.

Lemma parse_value_number n c s :
  (is_digit c || Ascii.eqb c "-") = true -> parse_value (S n) (String c s) = parse_number (String c s).
Proof. by destruct c as [[] [] [] [] [] [] [] []]. Qed.

Lemma parse_value_str n s :
  parse_value (S n) (String quote s) =
    match parse_chars s with Some (t, r) => Some (JStr t, r) | None => None end.
Proof. reflexivity. Qed.

Definition parses (j : json) : Prop :=
  forall n rest, (jsize j <= n)%nat -> ends_ok rest = true ->
    parse_value n (stringify j +:+ rest) = Some (j, rest).

Lemma parse_value_arr n s :
  starts_value s ->
  parse_value (S n) ("[" +:+ s) =
    match parse_elements n s with Some (l, r) => Some (JArr l, r) | None => None end.
Proof.
  intros Hs. etrans; [|apply (not_rbracket s (fun r => Some (JArr [], r)) _ Hs)].
  rewrite <- (starts_value_skip s Hs) at 2. reflexivity.
Qed.

Lemma parse_value_obj n s :
  starts_value s ->
  parse_value (S n) ("{" +:+ s) =
    match parse_members n s with Some (l, r) => Some (JObj l, r) | None => None end.
Proof.
  intros Hs. etrans; [|apply (not_rbrace s (fun r => Some (JObj [], r)) _ Hs)].
  rewrite <- (starts_value_skip s Hs) at 2. reflexivity.
Qed.

Definition elements_text (l : list json) : string := concat_sep "," (map stringify l).

Definition member_text (p : string * json) : string := quoted p.1 +:+ ":" +:+ stringify p.2.

Definition members_text (l : list (string * json)) : string := concat_sep "," (map member_text l).

Lemma elements_text_cons j j' l :
  elements_text (j :: j' :: l) = stringify j +:+ "," +:+ elements_text (j' :: l).
Proof. reflexivity. Qed.

Lemma members_text_cons p p' l :
  members_text (p :: p' :: l) = member_text p +:+ "," +:+ members_text (p' :: l).
Proof. reflexivity. Qed.

Lemma parse_elements_text j l n rest :
  Forall parses (j :: l) -> (foldr (fun x n => S (jsize x) + n)%nat O (j :: l) <= n)%nat ->
  parse_elements n (elements_text (j :: l) +:+ "]" +:+ rest) = Some (j :: l, rest).
Proof.
  revert j n. induction l as [|j' l IH]; intros j n Hall Hn.
  - apply Forall_cons in Hall as [Hj _]. destruct n as [|n]; [simpl in Hn; lia|].
    unfold elements_text. cbn [concat_sep map parse_elements].
    by rewrite (Hj n ("]" +:+ rest)) by (done || (simpl in Hn; lia)).
  - apply Forall_cons in Hall as [Hj Hl]. destruct n as [|n]; [simpl in Hn; lia|].
    rewrite elements_text_cons, !str_app_assoc. cbn [parse_elements].
    rewrite (Hj n) by (done || (simpl in Hn; lia)).
    change (skip_ws ("," +:+ ?x)) with (String "," x). cbv beta iota.
    rewrite IH; [done|done|]. revert Hn. simpl. lia.
Qed.

Lemma parse_member_text n k j s :
  parses j -> ends_ok s = true -> (jsize j <= n)%nat ->
  parse_members (S n) (member_text (k, j) +:+ s) =
    match skip_ws s with
    | String "," r3 => match parse_members n r3 with Some (l, r4) => Some ((k, j) :: l, r4) | None => None end
    | String "}" r3 => Some ([(k, j)], r3)
    | _ => None
    end.
Proof.
  intros Hj Hs Hn. unfold member_text, quoted. cbn [fst snd].
  rewrite !str_app_assoc. change (String quote ?x +:+ ?y) with (String quote (x +:+ y)).
  rewrite !str_app_assoc. change (str1 quote +:+ ?x) with (String quote x).
  cbn [parse_members]. change (skip_ws (String quote ?x)) with (String quote x).
  cbv beta iota. rewrite Ascii.eqb_refl. cbn [negb]. rewrite parse_chars_esc.
  change (skip_ws (":" +:+ ?x)) with (String ":" x). cbv beta iota. by rewrite (Hj n s).
Qed.

Lemma parse_members_text p l n rest :
  Forall (fun p => parses p.2) (p :: l) ->
  (foldr (fun p n => S (jsize p.2) + n)%nat O (p :: l) <= n)%nat ->
  parse_members n (members_text (p :: l) +:+ "}" +:+ rest) = Some (p :: l, rest).
Proof.
  revert p n. induction l as [|p' l IH]; intros [k j] n Hall Hn;
    apply Forall_cons in Hall as [Hj Hl]; (destruct n as [|n]; [simpl in Hn; lia|]).
  - unfold members_text. cbn [concat_sep map]. rewrite parse_member_text by (done || (simpl in *; lia)). done.
  - rewrite members_text_cons, !str_app_assoc, parse_member_text by (done || (simpl in *; lia)).
    change (skip_ws ("," +:+ ?x)) with (String "," x). cbv beta iota.
    rewrite IH; [done|done|]. revert Hn. simpl. lia.
Qed.

Lemma members_text_start p l s : starts_value (members_text (p :: l) +:+ s).
Proof. unfold members_text. cbn [concat_sep map]. by destruct (map member_text l). Qed.

Lemma elements_text_start j l s : integral j = true -> starts_value (elements_text (j :: l) +:+ s).
Proof.
  intros Hj. unfold elements_text. cbn [concat_sep map].
  destruct (map stringify l); rewrite ?str_app_assoc; by apply stringify_start.
Qed.

Lemma parses_integral j : integral j = true -> parses j.
Proof.
  induction j as [|b|z|t|s|l IH|l IH] using json_strong_ind; intros Hint [|n] rest Hn Hr;
    try (simpl in Hn; lia); try done.
  - by destruct b.
  - destruct (decZ_start z) as (c & t & Hz & Hc). cbn [stringify].
    rewrite <- (parse_number_decZ z rest Hr), Hz. by apply parse_value_number.
  - cbn [stringify]. unfold quoted. change (String quote ?x +:+ ?y) with (String quote (x +:+ y)).
    rewrite str_app_assoc. change (str1 quote +:+ ?x) with (String quote x).
    by rewrite parse_value_str, parse_chars_esc.
  - cbn [stringify]. rewrite !str_app_assoc. destruct l as [|j l]; [done|].
    cbn [integral forallb] in Hint. apply andb_true_iff in Hint as [Hj Hl].
    rewrite parse_value_arr by (by apply elements_text_start).
    rewrite (parse_elements_text j l); [done| |simpl in *; lia].
    apply Forall_cons in IH as [IHj IH]. constructor; [by apply IHj|].
    rewrite forallb_forall in Hl. rewrite Forall_forall in *. intros x Hx.
    apply IH; [done|]. apply Hl. by apply list_elem_of_In.
  - cbn [stringify]. rewrite !str_app_assoc. destruct l as [|p l]; [done|].
    cbn [integral forallb] in Hint. apply andb_true_iff in Hint as [Hj Hl].
    fold member_text. change (concat_sep "," (map _ (p :: l))) with (members_text (p :: l)).
    rewrite parse_value_obj by (by apply members_text_start).
    rewrite (parse_members_text p l); [done| |simpl in *; lia].
    apply Forall_cons in IH as [IHj IH]. constructor; [by apply IHj|].
    rewrite forallb_forall in Hl. rewrite Forall_forall in *. intros x Hx.
    apply IH; [done|]. apply Hl. by apply list_elem_of_In.
Qed.

Lemma concat_sep_length (sep : string) l :
  String.length (concat_sep sep l) =
    (foldr (fun s n => String.length s + n)%nat O l + (length l - 1) * String.length sep)%nat.
Proof.
  induction l as [|s [|s' l] IH]; [done|simpl; lia|].
  change (concat_sep sep (s :: s' :: l)) with (s +:+ sep +:+ concat_sep sep (s' :: l)).
  rewrite !str_length_app, IH. simpl. lia.
Qed.

Lemma jsize_le_text j : integral j = true -> (jsize j <= String.length (stringify j))%nat.
Proof.
  induction j as [|b|z|t|s|l IH|l IH] using json_strong_ind; intros Hint; try done.
  - simpl. lia.
  - destruct b; simpl; lia.
  - destruct (decZ_start z) as (c & t & Hz & _). cbn [stringify]. rewrite Hz. simpl. lia.
  - simpl. lia.
  - cbn [stringify jsize]. rewrite !str_length_app, concat_sep_length, length_map. simpl.
    cbn [integral] in Hint. rewrite forallb_forall in Hint. rewrite Forall_forall in IH.
    assert (foldr (fun x n => S (jsize x) + n) O l
      <= foldr (fun s n => String.length s + n) O (map stringify l) + length l)%nat; [|destruct l; simpl in *; lia].
    induction l as [|j l IHl]; simpl; [lia|].
    assert (jsize j <= String.length (stringify j))%nat
      by (apply IH; [set_solver|apply Hint; by left]).
    enough (foldr (fun x n => S (jsize x) + n) O l
      <= foldr (fun s n => String.length s + n) O (map stringify l) + length l)%nat by (simpl in *; lia).
    apply IHl; [intros; apply IH; [set_solver|done]|intros; apply Hint; by right].
  - cbn [stringify jsize]. fold member_text. rewrite !str_length_app, concat_sep_length, length_map. simpl.
    cbn [integral] in Hint. rewrite forallb_forall in Hint. rewrite Forall_forall in IH.
    assert (foldr (fun p n => S (jsize p.2) + n) O l
      <= foldr (fun s n => String.length s + n) O (map member_text l) + length l)%nat;
      [|destruct l; simpl in *; lia].
    induction l as [|p l IHl]; simpl; [lia|].
    assert (jsize p.2 <= String.length (stringify p.2))%nat
      by (apply IH; [set_solver|apply Hint; by left]).
    assert (String.length (stringify p.2) <= String.length (member_text p))%nat
      by (unfold member_text; rewrite !str_length_app; lia).
    enough (foldr (fun p n => S (jsize p.2) + n) O l
      <= foldr (fun s n => String.length s + n) O (map member_text l) + length l)%nat by (simpl in *; lia).
    apply IHl; [intros; apply IH; [set_solver|done]|intros; apply Hint; by right].
Qed.

(** Parsing what was printed gives the value back, and the parser's fuel (one
    more than the length of its input) suffices. *)
Lemma parse_stringify j : integral j = true -> parse (stringify j) = Some j.
Proof.
  intros Hj. unfold parse.
  pose proof (parses_integral j Hj (S (String.length (stringify j))) EmptyString) as Hp.
  rewrite str_app_nil in Hp. rewrite Hp; [done| |done]. pose proof (jsize_le_text j Hj). lia.
Qed.

(** Printing is therefore injective on such values. *)
Lemma stringify_inj j1 j2 :
  integral j1 = true -> integral j2 = true -> stringify j1 = stringify j2 -> j1 = j2.
Proof.
  intros H1 H2 H. apply (f_equal parse) in H. rewrite !parse_stringify in H by done. congruence.
Qed.
