(* ===== verification/Errors.v ===== *)
(** * Exceptions, the error registry and the HTTP error contract

    [common/errors/errors.ts], [common/errors/domain.exception.ts] and
    [common/errors/global-exception.filter.ts].  [exn] collects the values the
    modelled code throws or catches: the source's own classes ([EApi] is the console's
    [ApiError]), Prisma's coded errors, BullMQ's [DelayedError] and plain JavaScript errors with their
    [name], [code], [message] and [cause]. *)

From S2P Require Import Prelude JsNumber Json.
Open Scope Z_scope.

Inductive detail := DStr (s : string) | DNum (z : Z).

Record DomainException := mkDomainException {
  dx_status : Z;
  dx_code : string;
  dx_message : string;
  dx_details : option (list (string * detail));
}.

(** The [message] of an [HttpException]'s response: [string | string[]]; the validation
    pipe gives an array, one message per constraint. *)
Inductive Message := MText (s : string) | MTexts (l : list string).

Definition message_json (m : Message) : json :=
  match m with MText s => JStr s | MTexts l => JArr (map JStr l) end.

Inductive exn :=
| EDomain (d : DomainException)
| EHttpException (status : Z) (message : Message)
| EPrisma (code : string)
| ERetrySignal (delayMs : num)
| EDelayed
| EApi (status : Z) (code : json) (message : string)
| ESsrfBlocked (reason : string)
| EJs (name : string) (code : option string) (message : string) (cause : option exn).

(** A plain [new Error(message)]. *)
Definition Error (message : string) : exn := EJs "Error" None message None.

#[export] Instance detail_eq_dec : EqDecision detail.
Proof. solve_decision. Defined.
#[export] Instance DomainException_eq_dec : EqDecision DomainException.
Proof. solve_decision. Defined.

(** ** [Errors] *)
Module Errors.

Definition adminKeyRequired := mkDomainException 401 "ADMIN_KEY_REQUIRED" "유효한 관리자 키가 필요합니다." None.
Definition invalidApiKey := mkDomainException 401 "INVALID_API_KEY" "유효한 API 키가 필요합니다." None.
Definition tenantSuspended := mkDomainException 403 "TENANT_SUSPENDED" "정지된 테넌트입니다." None.
Definition tenantNameExists :=
  mkDomainException 409 "TENANT_NAME_EXISTS" "이미 존재하는 테넌트 이름입니다." None.
Definition endpointNotFound :=
  mkDomainException 404 "ENDPOINT_NOT_FOUND" "endpoint를 찾을 수 없습니다." None.
Definition endpointUrlExists :=
  mkDomainException 409 "ENDPOINT_URL_EXISTS" "이미 등록된 URL입니다." None.
Definition unsafeEndpointUrl (reason : string) :=
  mkDomainException 400 "UNSAFE_ENDPOINT_URL" ("등록할 수 없는 URL입니다: " +:+ reason)
    (Some [("reason", DStr reason)]).
Definition invalidEventType (value : string) :=
  mkDomainException 400 "INVALID_EVENT_TYPE" ("이벤트 타입 형식이 올바르지 않습니다: " +:+ value)
    (Some [("value", DStr value)]).
Definition idempotencyKeyRequired :=
  mkDomainException 400 "IDEMPOTENCY_KEY_REQUIRED" "Idempotency-Key 헤더가 필요합니다." None.
Definition duplicateEvent (eventId : string) :=
  mkDomainException 409 "DUPLICATE_EVENT" "같은 멱등성 키로 이미 발행된 이벤트가 있습니다."
    (Some [("eventId", DStr eventId)]).
Definition payloadTooLarge (sizeBytes limitBytes : Z) :=
  mkDomainException 413 "PAYLOAD_TOO_LARGE" "payload가 허용 크기를 초과했습니다."
    (Some [("sizeBytes", DNum sizeBytes); ("limitBytes", DNum limitBytes)]).
Definition rateLimited (retryAfterSec : Z) :=
  mkDomainException 429 "RATE_LIMITED" "발행 한도를 초과했습니다. Retry-After 후에 다시 시도하세요."
    (Some [("retryAfterSec", DNum retryAfterSec)]).
Definition eventNotFound := mkDomainException 404 "EVENT_NOT_FOUND" "이벤트를 찾을 수 없습니다." None.
Definition deliveryNotFound :=
  mkDomainException 404 "DELIVERY_NOT_FOUND" "배달을 찾을 수 없습니다." None.
Definition invalidCursor := mkDomainException 400 "INVALID_CURSOR" "커서 형식이 올바르지 않습니다." None.

End Errors.

(** ** [GlobalExceptionFilter.catch]

    The response is a status, the [Retry-After] header if it is set, and the
    JSON body's [code], [message] (a text or an array of texts) and [details]. *)
Record ErrorResponse := mkErrorResponse {
  er_status : Z;
  er_retryAfter : option string;
  er_code : string;
  er_message : Message;
  er_details : option (list (string * detail));
}.

Definition detail_num (k : string) (ds : option (list (string * detail))) : option Z :=
  match ds with
  | None => None
  | Some l =>
      match list_find (fun p => p.1 = k) l with
      | Some (_, (_, DNum z)) => Some z
      | _ => None
      end
  end.

Definition GlobalExceptionFilter_catch (e : exn) : ErrorResponse :=
  match e with
  | EDomain d =>
      mkErrorResponse (dx_status d) (decZ <$> detail_num "retryAfterSec" (dx_details d))
        (dx_code d) (MText (dx_message d)) (dx_details d)
  | EHttpException status message =>
      mkErrorResponse status None
        (if status =? 400 then "VALIDATION_FAILED" else "HTTP_" +:+ decZ status) message None
  | _ => mkErrorResponse 500 None "INTERNAL_ERROR" (MText "서버 오류가 발생했습니다.") None
  end.

(** Every error the application did not raise on purpose answers with the same
    opaque 500: no message, code or detail of the original leaks out. *)
Definition is_public (e : exn) : bool :=
  match e with EDomain _ | EHttpException _ _ => true | _ => false end.

Lemma internal_errors_are_opaque e1 e2 :
  is_public e1 = false -> is_public e2 = false ->
  GlobalExceptionFilter_catch e1 = GlobalExceptionFilter_catch e2.
Proof. by destruct e1, e2. Qed.
