(* ===== verification/Effects.v ===== *)
(** * Effectful programs: a resumption monad over a shared state

    An [async] function of the source is a [prog S A]: a tree of atomic actions
    on the shared state [S], one per call of a service (a database statement or
    transaction, a Redis command, a queue call, an HTTP request) or per step on
    process-local state.  Between two actions other processes may run; inside an
    action nothing interleaves.  Exceptions are values, so [try]/[catch] and
    [finally] are ordinary combinators.

    The same tree is given two semantics: [exec] and [run] execute one program
    alone, without and with injected failures of services; [Concurrency.v] runs
    a pool of programs interleaved at their actions. *)

From S2P Require Import Prelude JsNumber Errors.
From Stdlib Require Import Morphisms Setoid Eqdep.

Inductive service := Postgres | RedisService | QueueService | Receiver | Local.

#[export] Instance service_eq_dec : EqDecision service.
Proof. solve_decision. Defined.

Inductive prog (S A : Type) : Type :=
| Ret (a : A)
| Throw (e : exn)
| Act (svc : service) (R : Type) (f : S -> (exn + R) * S) (k : exn + R -> prog S A).

Arguments Ret {S A} a.
Arguments Throw {S A} e.
Arguments Act {S A} svc {R} f k.

Section combinators.
Context {S : Type}.

Fixpoint bind {A B} (p : prog S A) (f : A -> prog S B) : prog S B :=
  match p with
  | Ret a => f a
  | Throw e => Throw e
  | Act svc g k => Act svc g (fun r => bind (k r) f)
  end.

(** [try { p } catch (e) { h e }]. *)
Fixpoint catch {A} (p : prog S A) (h : exn -> prog S A) : prog S A :=
  match p with
  | Ret a => Ret a
  | Throw e => h e
  | Act svc g k => Act svc g (fun r => catch (k r) h)
  end.

(** [try { p } finally { c }]: [c] runs on both exits, and its own exception
    replaces the outcome of [p]. *)
Fixpoint finally {A} (p : prog S A) (c : prog S unit) : prog S A :=
  match p with
  | Ret a => bind c (fun _ => Ret a)
  | Throw e => bind c (fun _ => Throw e)
  | Act svc g k => Act svc g (fun r => finally (k r) c)
  end.

(** One action; its failure is thrown. *)
Definition call {R} (svc : service) (f : S -> (exn + R) * S) : prog S R :=
  Act svc f (fun r => match r with inl e => Throw e | inr x => Ret x end).

(** An action that reads the state and cannot fail by itself. *)
Definition query {R} (svc : service) (f : S -> R) : prog S R :=
  call svc (fun s => (inr (f s), s)).

(** An action that updates the state and cannot fail by itself. *)
Definition update (svc : service) (f : S -> S) : prog S unit :=
  call svc (fun s => (inr tt, f s)).

End combinators.

Notation "'let*' x := p 'in' q" := (bind p (fun x => q))
  (at level 10, x pattern, p at level 100, q at level 200) : hook_scope.
Notation "p ;; q" := (bind p (fun _ => q))
  (at level 100, q at level 200, right associativity) : hook_scope.

(** ** Alone, without failures *)

Section exec.
Context {S : Type}.

Fixpoint exec {A} (p : prog S A) (s : S) : (exn + A) * S :=
  match p with
  | Ret a => (inr a, s)
  | Throw e => (inl e, s)
  | Act _ f k => let '(r, s') := f s in exec (k r) s'
  end.

Lemma exec_bind {A B} (p : prog S A) (f : A -> prog S B) s :
  exec (bind p f) s =
    match exec p s with (inl e, s') => (inl e, s') | (inr a, s') => exec (f a) s' end.
Proof.
  revert s. induction p as [a|e|svc R g k IH]; intros s; simpl; try done.
  destruct (g s). apply IH.
Qed.

Lemma exec_catch {A} (p : prog S A) h s :
  exec (catch p h) s =
    match exec p s with (inl e, s') => exec (h e) s' | (inr a, s') => (inr a, s') end.
Proof.
  revert s. induction p as [a|e|svc R g k IH]; intros s; simpl; try done.
  destruct (g s). apply IH.
Qed.

Lemma exec_finally {A} (p : prog S A) c s :
  exec (finally p c) s =
    let '(r, s') := exec p s in
    match exec c s' with (inl e, s'') => (inl e, s'') | (inr _, s'') => (r, s'') end.
Proof.
  revert s. induction p as [a|e|svc R g k IH]; intros s; simpl.
  - rewrite exec_bind. by destruct (exec c s) as [[|]].
  - rewrite exec_bind. by destruct (exec c s) as [[|]].
  - destruct (g s). apply IH.
Qed.

Lemma exec_call {R} svc (f : S -> (exn + R) * S) s : exec (call svc f) s = f s.
Proof. unfold call. simpl. by destruct (f s) as [[|]]. Qed.

Lemma exec_query {R} svc (f : S -> R) s : exec (query svc f) s = (inr (f s), s).
Proof. done. Qed.

Lemma exec_update svc (f : S -> S) s : exec (update svc f) s = (inr tt, f s).
Proof. done. Qed.

End exec.

Create Rewrite HintDb exec.
#[export] Hint Rewrite @exec_bind @exec_catch @exec_finally @exec_call @exec_query @exec_update : exec.

(** ** Alone, with failures

    The [n]-th call of a service behaves as the schedule says: it succeeds, the
    service fails before the effect, or it fails after the effect (the answer is
    lost).  Local steps never fail. *)

Inductive fault := NoFault | FailBefore (e : exn) | FailAfter (e : exn).

Section run.
Context {S : Type}.

Definition attempt {R} (flt : fault) (svc : service) (f : S -> (exn + R) * S) (s : S)
    : (exn + R) * S :=
  match svc, flt with
  | Local, _ | _, NoFault => f s
  | _, FailBefore e => (inl e, s)
  | _, FailAfter e => (inl e, (f s).2)
  end.

Fixpoint run {A} (sched : nat -> fault) (n : nat) (p : prog S A) (s : S)
    : (exn + A) * S * nat :=
  match p with
  | Ret a => (inr a, s, n)
  | Throw e => (inl e, s, n)
  | Act svc f k =>
      let '(r, s') := attempt (sched n) svc f s in run sched (Datatypes.S n) (k r) s'
  end.

Lemma run_bind {A B} sched n (p : prog S A) (f : A -> prog S B) s :
  run sched n (bind p f) s =
    match run sched n p s with
    | (inl e, s', n') => (inl e, s', n')
    | (inr a, s', n') => run sched n' (f a) s'
    end.
Proof.
  revert n s. induction p as [a|e|svc R g k IH]; intros n s; simpl; try done.
  destruct (attempt _ _ _ _). apply IH.
Qed.

Lemma run_catch {A} sched n (p : prog S A) h s :
  run sched n (catch p h) s =
    match run sched n p s with
    | (inl e, s', n') => run sched n' (h e) s'
    | (inr a, s', n') => (inr a, s', n')
    end.
Proof.
  revert n s. induction p as [a|e|svc R g k IH]; intros n s; simpl; try done.
  destruct (attempt _ _ _ _). apply IH.
Qed.

Lemma run_finally {A} sched n (p : prog S A) c s :
  run sched n (finally p c) s =
    let '(r, s', n') := run sched n p s in
    match run sched n' c s' with
    | (inl e, s'', n'') => (inl e, s'', n'')
    | (inr _, s'', n'') => (r, s'', n'')
    end.
Proof.
  revert n s. induction p as [a|e|svc R g k IH]; intros n s; simpl.
  - rewrite run_bind. by destruct (run sched n c s) as [[[|] ?] ?].
  - rewrite run_bind. by destruct (run sched n c s) as [[[|] ?] ?].
  - destruct (attempt _ _ _ _). apply IH.
Qed.

Lemma run_no_fault {A} n (p : prog S A) s :
  (run (fun _ => NoFault) n p s).1 = exec p s.
Proof.
  revert n s. induction p as [a|e|svc R g k IH]; intros n s; simpl; try done.
  assert (attempt NoFault svc g s = g s) as -> by (by destruct svc).
  destruct (g s). apply IH.
Qed.

End run.

#[export] Hint Rewrite @run_bind @run_catch @run_finally : exec.

(** ** Programs that never raise, whatever the services do *)

Section never_throws.
Context {S : Type}.

Definition never_throws {A} (p : prog S A) : Prop :=
  forall sched n s, exists a s' n', run sched n p s = (inr a, s', n').

Lemma never_throws_ret {A} (a : A) : never_throws (Ret a : prog S A).
Proof. intros sched n s. by eexists _, _, _. Qed.

Lemma never_throws_bind {A B} (p : prog S A) (f : A -> prog S B) :
  never_throws p -> (forall a, never_throws (f a)) -> never_throws (bind p f).
Proof.
  intros Hp Hf sched n s. destruct (Hp sched n s) as (a & s' & n' & E).
  rewrite run_bind, E. apply Hf.
Qed.

Lemma never_throws_catch {A} (p : prog S A) h :
  (forall e, never_throws (h e)) -> never_throws (catch p h).
Proof.
  intros Hh sched n s. rewrite run_catch.
  destruct (run sched n p s) as [[[e|a] s'] n']; [apply Hh|by eexists _, _, _].
Qed.

Lemma never_throws_query {R} (f : S -> R) : never_throws (query Local f).
Proof. intros sched n s. by eexists _, _, _. Qed.

Lemma never_throws_update (f : S -> S) : never_throws (update Local f).
Proof. intros sched n s. by eexists _, _, _. Qed.

Lemma never_throws_exec {A} (p : prog S A) s :
  never_throws p -> exists a s', exec p s = (inr a, s').
Proof.
  intros Hp. destruct (Hp (fun _ => NoFault) 0%nat s) as (a & s' & n' & E).
  pose proof (run_no_fault 0 p s) as Hn. rewrite E in Hn. by eexists _, _.
Qed.

End never_throws.

#[export] Hint Resolve never_throws_ret never_throws_bind never_throws_catch
  never_throws_query never_throws_update : hook.

(** ** Programs whose every action keeps a relation between states *)

Section acts.
Context {S : Type} (R : S -> S -> Prop).

Fixpoint acts {A} (p : prog S A) : Prop :=
  match p with
  | Act _ f k => (forall s, R s (f s).2) /\ forall r, acts (k r)
  | _ => True
  end.

Lemma acts_bind {A B} (p : prog S A) (f : A -> prog S B) :
  acts p -> (forall a, acts (f a)) -> acts (bind p f).
Proof. intros Hp Hf. induction p as [| |svc X g k IH]; simpl; auto. destruct Hp. split; auto. Qed.

Lemma acts_catch {A} (p : prog S A) h : acts p -> (forall e, acts (h e)) -> acts (catch p h).
Proof. intros Hp Hh. induction p as [| |svc X g k IH]; simpl; auto. destruct Hp. split; auto. Qed.

Lemma acts_finally {A} (p : prog S A) c : acts p -> acts c -> acts (finally p c).
Proof.
  intros Hp Hc. induction p as [| |svc X g k IH]; simpl; try (by apply acts_bind).
  destruct Hp. split; auto.
Qed.

Lemma acts_call {X} svc (f : S -> (exn + X) * S) : (forall s, R s (f s).2) -> acts (call svc f).
Proof. intros Hf. split; [done|]. by intros []. Qed.

Lemma acts_query {X} svc (f : S -> X) : Reflexive R -> acts (query svc f).
Proof. intros HR. apply acts_call. intros s. apply HR. Qed.

Lemma acts_update svc (f : S -> S) : (forall s, R s (f s)) -> acts (update svc f).
Proof. intros Hf. by apply acts_call. Qed.

(** The relation holds across the whole run, whatever fails. *)
Lemma acts_run `{!PreOrder R} {A} (p : prog S A) sched n s r s' n' :
  acts p -> run sched n p s = (r, s', n') -> R s s'.
Proof.
  revert n s. induction p as [a|e|svc X f k IH]; intros n s Hp Hrun; simpl in *; simplify_eq; [done..|].
  destruct Hp as [Hf Hk]. destruct (attempt (sched n) svc f s) as [x s1] eqn:E.
  transitivity s1; [|by eapply IH].
  unfold attempt in E. destruct svc, (sched n); simplify_eq; try done; try (specialize (Hf s); by rewrite E in Hf).
Qed.

Lemma acts_exec `{!PreOrder R} {A} (p : prog S A) s r s' :
  acts p -> exec p s = (r, s') -> R s s'.
Proof.
  intros Hp He. pose proof (run_no_fault 0 p s) as Hn.
  destruct (run (fun _ => NoFault) 0 p s) as [[r1 s1] n1] eqn:E. simpl in Hn. rewrite He in Hn.
  simplify_eq. by eapply acts_run.
Qed.

End acts.

Lemma acts_mono {S A} (R R' : S -> S -> Prop) (p : prog S A) :
  (forall s s', R s s' -> R' s s') -> acts R p -> acts R' p.
Proof. intros HR. induction p as [| |svc X f k IH]; simpl; auto. intros [? ?]. split; auto. Qed.

#[export] Hint Resolve acts_bind acts_catch acts_finally acts_query : hook.

(** ** What a program can return *)

Section rets.
Context {S A : Type} (Q : A -> Prop).

Fixpoint rets (p : prog S A) : Prop :=
  match p with
  | Ret a => Q a
  | Throw _ => True
  | Act _ _ k => forall r, rets (k r)
  end.

Lemma rets_bind {B} (p : prog S B) (f : B -> prog S A) : (forall b, rets (f b)) -> rets (bind p f).
Proof. intros Hf. induction p; simpl; auto. Qed.

Lemma rets_run (p : prog S A) sched n s a s' n' : rets p -> run sched n p s = (inr a, s', n') -> Q a.
Proof.
  revert n s. induction p as [b|e|svc R f k IH]; simpl; intros n s Hp E; simplify_eq; [done|].
  destruct (attempt _ _ _ _) as [r s1]. by eapply IH.
Qed.

End rets.

(** ** Equality of programs up to the continuations' values *)

Section equiv.
Context {S : Type}.

Inductive prog_eq {A} : prog S A -> prog S A -> Prop :=
| prog_eq_ret a : prog_eq (Ret a) (Ret a)
| prog_eq_throw e : prog_eq (Throw e) (Throw e)
| prog_eq_act svc R (f : S -> (exn + R) * S) k1 k2 :
    (forall r, prog_eq (k1 r) (k2 r)) -> prog_eq (Act svc f k1) (Act svc f k2).

#[export] Instance prog_eq_refl {A} : Reflexive (@prog_eq A).
Proof. intros p. induction p; constructor; auto. Qed.

#[export] Instance prog_eq_sym {A} : Symmetric (@prog_eq A).
Proof. intros p q. induction 1; constructor; auto. Qed.

#[export] Instance prog_eq_trans {A} : Transitive (@prog_eq A).
Proof.
  intros p q r H. revert r. induction H as [| |svc R f k1 k2 H IH]; intros r Hr; try done.
  inversion Hr as [| |svc' R' f' k1' k2' Hk Hs Hr']; subst.
  repeat match goal with E : existT _ _ = existT _ _ |- _ => apply inj_pair2 in E; subst end.
  constructor. auto.
Qed.

#[export] Instance prog_eq_equivalence {A} : Equivalence (@prog_eq A).
Proof. split; apply _. Qed.

Lemma prog_eq_exec {A} (p q : prog S A) s : prog_eq p q -> exec p s = exec q s.
Proof.
  intros H. revert s. induction H as [| |svc R f k1 k2 _ IH]; intros s; simpl; try done.
  destruct (f s). apply IH.
Qed.

#[export] Instance exec_proper {A} : Proper (prog_eq ==> eq ==> eq) (@exec S A).
Proof. intros p q Hpq s ? <-. by apply prog_eq_exec. Qed.

#[export] Instance run_proper {A} sched n : Proper (prog_eq ==> eq ==> eq) (@run S A sched n).
Proof.
  intros p q H s ? <-. revert n s.
  induction H as [| |svc R f k1 k2 _ IH]; intros n s; simpl; try done.
  destruct (attempt _ _ _ _). apply IH.
Qed.

#[export] Instance bind_proper {A B} :
  Proper (prog_eq ==> pointwise_relation A prog_eq ==> prog_eq) (@bind S A B).
Proof.
  intros p q H f g Hfg. induction H; simpl; [apply Hfg|constructor|constructor; auto].
Qed.

#[export] Instance catch_proper {A} :
  Proper (prog_eq ==> pointwise_relation exn prog_eq ==> prog_eq) (@catch S A).
Proof.
  intros p q H f g Hfg. induction H; simpl; [constructor|apply Hfg|constructor; auto].
Qed.

Lemma bind_ret_l {A B} (a : A) (f : A -> prog S B) : prog_eq (bind (Ret a) f) (f a).
Proof. reflexivity. Qed.

Lemma bind_ret_r {A} (p : prog S A) : prog_eq (bind p Ret) p.
Proof. induction p; simpl; constructor; auto. Qed.

Lemma bind_assoc {A B C} (p : prog S A) (f : A -> prog S B) (g : B -> prog S C) :
  prog_eq (bind (bind p f) g) (bind p (fun a => bind (f a) g)).
Proof. induction p; simpl; [reflexivity|constructor|constructor; auto]. Qed.

End equiv.
