(* ===== verification/Concurrency.v ===== *)
(** * Interleaved execution and a small rely-guarantee logic

    A pool of programs runs over one shared state.  A step is one action of one
    program (with any failure of the service it calls), the crash of a program,
    the start of a new program, or a step of the environment.

    [wp K T p Q] proves a program safe in every pool.  [T] is the set of tokens
    the program owns exclusively (no other program's tokens meet it), [K] its
    knowledge of the shared state, which must be stable under [rel], the changes
    every step is allowed to make; [I s X] is the global invariant when the
    programs own the tokens [X] together. *)

From S2P Require Import Prelude Errors Effects.
From stdpp Require Import relations.

Section pool.
Context {S A : Type}.

(** The results an action may have, failures of the service included. *)
Inductive act_out {R} (svc : service) (f : S -> (exn + R) * S) (s : S) : exn + R -> S -> Prop :=
| out_ok r s' : f s = (r, s') -> act_out svc f s r s'
| out_before e : svc <> Local -> act_out svc f s (inl e) s
| out_after e r s' : svc <> Local -> f s = (r, s') -> act_out svc f s (inl e) s'.

Lemma attempt_act_out {R} flt svc (f : S -> (exn + R) * S) s r s' :
  attempt flt svc f s = (r, s') -> act_out svc f s r s'.
Proof.
  unfold attempt. destruct svc, flt; simpl; intros H; simplify_eq;
    try (by constructor); destruct (f s) eqn:E; by econstructor.
Qed.

Context (env_step : S -> S -> Prop) (startable : prog S A -> Prop).

Inductive pstep : S * list (prog S A) -> S * list (prog S A) -> Prop :=
| step_act i pool s svc R (f : S -> (exn + R) * S) k r s' :
    pool !! i = Some (Act svc f k) -> act_out svc f s r s' ->
    pstep (s, pool) (s', <[i := k r]> pool)
| step_crash i pool s e : pstep (s, pool) (s, <[i := Throw e]> pool)
| step_start pool s p : startable p -> pstep (s, pool) (s, pool ++ [p])
| step_env pool s s' : env_step s s' -> pstep (s, pool) (s', pool).

(** ** The logic *)

Context {Tok : Type} `{Countable Tok}.
Context (I : S -> gset Tok -> Prop) (rel : S -> S -> Prop).
Context (rel_po : PreOrder rel).
Context (env_ok : forall s s' X, I s X -> env_step s s' -> I s' X /\ rel s s').

Definition stable (K : S -> Prop) : Prop := forall s s', rel s s' -> K s -> K s'.

Fixpoint wp {B} (K : S -> Prop) (T : gset Tok) (p : prog S B)
    (Q : exn + B -> (S -> Prop) -> gset Tok -> Prop) : Prop :=
  match p with
  | Ret a => Q (inr a) K T
  | Throw e => Q (inl e) K T
  | Act svc f k =>
      forall s O, O ## T -> K s -> I s (T ∪ O) ->
      forall r s', act_out svc f s r s' ->
      rel s s' /\ exists (K' : S -> Prop) T',
        stable K' /\ K' s' /\ O ## T' /\ I s' (T' ∪ O) /\ wp K' T' (k r) Q
  end.

Lemma wp_mono {B} K T (p : prog S B) (Q Q' : exn + B -> (S -> Prop) -> gset Tok -> Prop) :
  (forall r K' T', Q r K' T' -> Q' r K' T') -> wp K T p Q -> wp K T p Q'.
Proof.
  intros HQ. revert K T. induction p as [a|e|svc R f k IH]; simpl; intros K T Hwp; auto.
  intros s O HO HK HI r s' Hout.
  destruct (Hwp s O HO HK HI r s' Hout) as (Hr & K' & T' & ? & ? & ? & ? & ?).
  split; [done|]. exists K', T'. split_and!; try done. by apply IH.
Qed.

Lemma wp_bind {B C} K T (p : prog S B) (f : B -> prog S C) Q :
  wp K T p (fun r K' T' => match r with inl e => Q (inl e) K' T' | inr b => wp K' T' (f b) Q end) ->
  wp K T (bind p f) Q.
Proof.
  revert K T. induction p as [a|e|svc R g k IH]; simpl; intros K T Hwp; auto.
  intros s O HO HK HI r s' Hout.
  destruct (Hwp s O HO HK HI r s' Hout) as (Hr & K' & T' & ? & ? & ? & ? & ?).
  split; [done|]. exists K', T'. split_and!; try done. by apply IH.
Qed.

Lemma wp_catch {B} K T (p : prog S B) h Q :
  wp K T p (fun r K' T' => match r with inl e => wp K' T' (h e) Q | inr b => Q (inr b) K' T' end) ->
  wp K T (catch p h) Q.
Proof.
  revert K T. induction p as [a|e|svc R g k IH]; simpl; intros K T Hwp; auto.
  intros s O HO HK HI r s' Hout.
  destruct (Hwp s O HO HK HI r s' Hout) as (Hr & K' & T' & ? & ? & ? & ? & ?).
  split; [done|]. exists K', T'. split_and!; try done. by apply IH.
Qed.

Lemma wp_finally {B} K T (p : prog S B) c Q :
  wp K T p (fun r K' T' => wp K' T' c (fun r' K'' T'' =>
    match r' with inl e => Q (inl e) K'' T'' | inr _ => Q r K'' T'' end)) ->
  wp K T (finally p c) Q.
Proof.
  revert K T. induction p as [a|e|svc R g k IH]; simpl; intros K T Hwp.
  - apply wp_bind. revert Hwp. by apply wp_mono.
  - apply wp_bind. revert Hwp. by apply wp_mono.
  - intros s O HO HK HI r s' Hout.
    destruct (Hwp s O HO HK HI r s' Hout) as (Hr & K' & T' & ? & ? & ? & ? & ?).
    split; [done|]. exists K', T'. split_and!; try done. by apply IH.
Qed.

(** An action that keeps the invariant and the knowledge whatever it returns. *)
Lemma wp_call {R} K T svc (f : S -> (exn + R) * S) Q :
  stable K ->
  (forall s X, K s -> T ⊆ X -> I s X -> I (f s).2 X /\ rel s (f s).2) ->
  (forall r, Q r K T) -> wp K T (call svc f) Q.
Proof.
  intros HK Hf HQ. simpl. intros s O HO HKs HI r s' Hout.
  destruct (Hf s (T ∪ O) HKs (union_subseteq_l _ _) HI) as [HI' Hrel].
  assert (I s' (T ∪ O) /\ rel s s') as [? ?].
  { destruct Hout as [r s' Hfs|e|e r s' _ Hfs]; [by rewrite Hfs in *| |by rewrite Hfs in *].
    split; [done|reflexivity]. }
  split; [done|]. exists K, T. split_and!; try done; [by eapply HK|].
  destruct r; apply HQ.
Qed.

(** A program whose every action is of a kind that is harmless as long as the
    knowledge holds. *)
Lemma wp_acts_under {B} (Rq : S -> S -> Prop) K T (p : prog S B) Q :
  Reflexive Rq ->
  (forall s s' X, K s -> Rq s s' -> I s X -> I s' X /\ rel s s') ->
  acts Rq p -> stable K -> (forall r, Q r K T) -> wp K T p Q.
Proof.
  intros HR HI Hp HK HQ. induction p as [a|e|svc R f k IH]; simpl in *; [done..|].
  destruct Hp as [Hf Hk]. intros s O HO HKs HIs r s' Hout.
  assert (Rq s s') as Hs.
  { destruct Hout as [r s' Hfs|e|e r s' _ Hfs]; [| |]; try (specialize (Hf s); by rewrite Hfs in Hf). reflexivity. }
  destruct (HI s s' _ HKs Hs HIs) as [HI' Hrel]. split; [done|]. exists K, T. split_and!; auto. by eapply HK.
Qed.

Lemma wp_acts {B} (Rq : S -> S -> Prop) K T (p : prog S B) Q :
  PreOrder Rq ->
  (forall s s' X, Rq s s' -> I s X -> I s' X /\ rel s s') ->
  acts Rq p -> stable K -> (forall r, Q r K T) -> wp K T p Q.
Proof. intros HR HI. apply wp_acts_under; [apply _|eauto]. Qed.

(** A read: what the value says of the state is known from then on. *)
Lemma wp_read {R} K T svc (f : S -> R) (K' : R -> S -> Prop) Q :
  stable K -> (forall x, stable (K' x)) ->
  (forall s X, K s -> I s X -> K' (f s) s) ->
  (forall e, Q (inl e) K T) -> (forall x, Q (inr x) (K' x) T) -> wp K T (query svc f) Q.
Proof.
  intros HK HK' HKK' He Hx. simpl. intros s O HO HKs HI r s' Hout.
  assert (s' = s /\ (r = inr (f s) \/ exists e, r = inl e)) as [-> Hr].
  { inversion Hout as [? ? E|e _|e ? ? _ E]; subst; [injection E as <- <-|..|injection E as <- <-]; eauto. }
  split; [reflexivity|]. destruct Hr as [->|[e ->]].
  - exists (K' (f s)), T. split_and!; try done; [by eapply HKK'|apply Hx].
  - exists K, T. split_and!; try done. apply He.
Qed.

(** ** Soundness for the pool *)

Definition any_post : exn + A -> (S -> Prop) -> gset Tok -> Prop := fun _ _ _ => True.

Context (start_ok : forall p, startable p -> wp (fun _ => True) ∅ p any_post).

Definition pool_inv (c : S * list (prog S A)) : Prop :=
  exists Ts : list (gset Tok),
    length Ts = length c.2 /\
    I c.1 (⋃ Ts) /\
    (forall i j Ti Tj, i <> j -> Ts !! i = Some Ti -> Ts !! j = Some Tj -> Ti ## Tj) /\
    (forall i p T, c.2 !! i = Some p -> Ts !! i = Some T ->
       exists K : S -> Prop, stable K /\ K c.1 /\ wp K T p any_post).

Lemma union_list_focus (Ts : list (gset Tok)) i T T' :
  Ts !! i = Some T -> ⋃ (<[i := T']> Ts) = T' ∪ ⋃ (<[i := ∅]> Ts).
Proof.
  intros Hi. apply lookup_lt_Some in Hi as Hlt. apply set_eq. intros x.
  rewrite elem_of_union, !elem_of_union_list. split.
  - intros (X & HX & Hx). apply list_elem_of_lookup in HX as [j Hj].
    destruct (decide (i = j)) as [<-|Hne].
    + rewrite list_lookup_insert_eq in Hj by done. simplify_eq. by left.
    + rewrite list_lookup_insert_ne in Hj by done. right. exists X. split; [|done].
      apply list_elem_of_lookup. exists j. by rewrite list_lookup_insert_ne.
  - intros [Hx|(X & HX & Hx)].
    + exists T'. split; [|done]. apply list_elem_of_lookup. exists i. by apply list_lookup_insert_eq.
    + apply list_elem_of_lookup in HX as [j Hj]. destruct (decide (i = j)) as [<-|Hne].
      * rewrite list_lookup_insert_eq in Hj by done. simplify_eq. set_solver.
      * rewrite list_lookup_insert_ne in Hj by done. exists X. split; [|done].
        apply list_elem_of_lookup. exists j. by rewrite list_lookup_insert_ne.
Qed.

Lemma union_list_others (Ts : list (gset Tok)) i T :
  Ts !! i = Some T ->
  (forall j Tj, i <> j -> Ts !! j = Some Tj -> T ## Tj) -> ⋃ (<[i := ∅]> Ts) ## T.
Proof.
  intros Hi Hd x (X & HX & Hx)%elem_of_union_list Hx'.
  apply list_elem_of_lookup in HX as [j Hj]. apply lookup_lt_Some in Hi as Hlt.
  destruct (decide (i = j)) as [<-|Hne].
  - rewrite list_lookup_insert_eq in Hj by done. simplify_eq. set_solver.
  - rewrite list_lookup_insert_ne in Hj by done. specialize (Hd j X Hne Hj). set_solver.
Qed.

Lemma pool_inv_weaken s s' (pool : list (prog S A)) (Ts : list (gset Tok)) :
  rel s s' ->
  (forall i p T, pool !! i = Some p -> Ts !! i = Some T ->
     exists K : S -> Prop, stable K /\ K s /\ wp K T p any_post) ->
  forall i p T, pool !! i = Some p -> Ts !! i = Some T ->
     exists K : S -> Prop, stable K /\ K s' /\ wp K T p any_post.
Proof.
  intros Hrel Hall i p T Hp HT. destruct (Hall i p T Hp HT) as (K & HK & ? & ?).
  exists K. split_and!; try done. by eapply HK.
Qed.

Lemma pool_inv_act i pool s svc R (f : S -> (exn + R) * S) k r s' :
  pool !! i = Some (Act svc f k) -> act_out svc f s r s' ->
  pool_inv (s, pool) -> pool_inv (s', <[i := k r]> pool).
Proof.
  intros Hi Hout (Ts & Hlen & HI & Hdisj & Hall). simpl in *.
  apply lookup_lt_Some in Hi as Hlt. destruct (lookup_lt_is_Some_2 Ts i) as [T HT]; [lia|].
  destruct (Hall i _ T Hi HT) as (K & HK & HKs & Hwp). simpl in Hwp.
  rewrite <- (list_insert_id Ts i T HT), (union_list_focus Ts i T T HT) in HI.
  assert (⋃ (<[i := ∅]> Ts) ## T) as HO by (apply union_list_others; eauto).
  destruct (Hwp s _ HO HKs HI r s' Hout) as (Hrel & K' & T' & ? & ? & HO' & HI' & ?).
  exists (<[i := T']> Ts). simpl. split_and!.
  - by rewrite !length_insert.
  - by rewrite (union_list_focus Ts i T T' HT).
  - assert (forall j Tj, i <> j -> Ts !! j = Some Tj -> T' ## Tj) as Hfr.
    { intros j Tj Hne Hj x Hx Hx'. apply (HO' x); [|done]. apply elem_of_union_list.
      exists Tj. split; [|done]. apply list_elem_of_lookup. exists j. by rewrite list_lookup_insert_ne. }
    intros j1 j2 T1 T2 Hne Hj1 Hj2.
    destruct (decide (i = j1)) as [<-|]; destruct (decide (i = j2)) as [<-|]; try done;
      rewrite ?list_lookup_insert_eq in * by lia; rewrite ?list_lookup_insert_ne in * by done;
      simplify_eq; eauto; try (symmetry; eauto).
  - intros j p Tj Hp Hj. destruct (decide (i = j)) as [<-|Hne].
    + rewrite list_lookup_insert_eq in Hp by lia. rewrite list_lookup_insert_eq in Hj by lia.
      simplify_eq. by exists K'.
    + rewrite list_lookup_insert_ne in Hp by done. rewrite list_lookup_insert_ne in Hj by done.
      by eapply pool_inv_weaken.
Qed.

Lemma pool_inv_step c c' : pstep c c' -> pool_inv c -> pool_inv c'.
Proof.
  intros Hstep. destruct Hstep as [i pool s svc R f k r s' Hi Hout|i pool s e|pool s p Hp|pool s s' Henv].
  - by eapply pool_inv_act.
  - intros (Ts & Hlen & HI & Hdisj & Hall). exists Ts. simpl in *.
    split_and!; [by rewrite length_insert|done|done|].
    intros j q T Hq HT. destruct (decide (i = j)) as [<-|Hne].
    + destruct (decide (i < length pool)%nat).
      * rewrite list_lookup_insert_eq in Hq by done. simplify_eq. exists (fun _ => True). done.
      * rewrite list_insert_ge in Hq by lia. eauto.
    + rewrite list_lookup_insert_ne in Hq by done. eauto.
  - intros (Ts & Hlen & HI & Hdisj & Hall). exists (Ts ++ [∅]). simpl in *. split_and!.
    + rewrite !length_app. simpl. lia.
    + rewrite union_list_app_L. simpl. by rewrite !union_empty_r_L.
    + intros i j Ti Tj Hne Hi Hj.
      apply lookup_app_Some in Hi as [Hi|[? Hi]]; apply lookup_app_Some in Hj as [Hj|[? Hj]]; eauto;
        apply list_lookup_singleton_Some in Hi || apply list_lookup_singleton_Some in Hj;
        destruct_and?; subst; set_solver.
    + intros i q T Hq HT. apply lookup_app_Some in Hq as [Hq|[Hge Hq]].
      * rewrite lookup_app_l in HT by (apply lookup_lt_Some in Hq; lia). eauto.
      * apply list_lookup_singleton_Some in Hq as [Hi <-].
        rewrite lookup_app_r, Hlen in HT by lia. apply list_lookup_singleton_Some in HT as [_ <-].
        exists (fun _ => True). split_and!; [done|done|]. auto.
  - intros (Ts & Hlen & HI & Hdisj & Hall). simpl in *.
    destruct (env_ok _ _ _ HI Henv) as [HI' Hrel]. exists Ts. split_and!; simpl; try done.
    by eapply pool_inv_weaken.
Qed.

Lemma pool_inv_steps c c' : rtc pstep c c' -> pool_inv c -> pool_inv c'.
Proof. induction 1; eauto using pool_inv_step. Qed.

(** Every state the pool reaches satisfies the invariant. *)
Lemma pool_sound s0 c :
  I s0 ∅ -> rtc pstep (s0, []) c -> exists X, I c.1 X.
Proof.
  intros HI Hrtc. assert (pool_inv (s0, [])) as H0 by (exists []; by split_and!).
  destruct (pool_inv_steps _ _ Hrtc H0) as (Ts & _ & ? & _). by exists (⋃ Ts).
Qed.

(** ** Programs whose every action keeps a relation, in a pool *)

Lemma act_out_rel {R} (Rel : S -> S -> Prop) svc (f : S -> (exn + R) * S) s r s' :
  Reflexive Rel -> (forall s, Rel s (f s).2) -> act_out svc f s r s' -> Rel s s'.
Proof.
  intros HR Hf. pose proof (Hf s) as Hs. destruct 1 as [r' s1 E|e|e r' s1 _ E]; [by rewrite E in Hs|done|by rewrite E in Hs].
Qed.

Lemma pstep_acts (Rel : S -> S -> Prop) c c' :
  Reflexive Rel -> (forall p, startable p -> acts Rel p) -> (forall s s', env_step s s' -> Rel s s') ->
  Forall (acts Rel) c.2 -> pstep c c' -> Rel c.1 c'.1 /\ Forall (acts Rel) c'.2.
Proof.
  intros HR Hs He Hp Hstep. destruct Hstep as [i pool s svc R f k r s' Hi Ho|i pool s e|pool s p Hst|pool s s' Hen]; cbn in *.
  - destruct (Forall_lookup_1 _ _ _ _ Hp Hi) as [Hf Hk]. split; [exact (act_out_rel Rel svc f s r s' HR Hf Ho)|].
    apply Forall_insert; [done|apply Hk].
  - split; [done|]. by apply Forall_insert.
  - split; [done|]. apply Forall_app. split; [done|]. constructor; [by apply Hs|done].
  - split; [by apply He|done].
Qed.

(** In every run the states are related, in particular to the first one. *)
Lemma pool_acts (Rel : S -> S -> Prop) c c' :
  PreOrder Rel -> (forall p, startable p -> acts Rel p) -> (forall s s', env_step s s' -> Rel s s') ->
  Forall (acts Rel) c.2 -> rtc pstep c c' -> Rel c.1 c'.1.
Proof.
  intros HR Hs He Hp Hr. revert Hp. induction Hr as [c|c1 c2 c3 H12 _ IH]; intros Hp; [reflexivity|].
  destruct (pstep_acts Rel _ _ _ Hs He Hp H12) as [H1 H2]. etrans; [exact H1|by apply IH].
Qed.

(** ** A pool can run one program alone *)

Lemma rtc_exec i p s (pool : list (prog S A)) r s' :
  pool !! i = Some p -> exec p s = (r, s') -> exists pool', rtc pstep (s, pool) (s', pool').
Proof.
  revert s pool. induction p as [a|e|svc R f k IH]; intros s pool Hi He; simpl in He; simplify_eq.
  - by exists pool.
  - by exists pool.
  - destruct (f s) as [x s1] eqn:E.
    destruct (IH x s1 (<[i := k x]> pool)) as [pool' Hr]; [|done|].
    { apply list_lookup_insert_eq. by eapply lookup_lt_Some. }
    exists pool'. eapply rtc_l; [|exact Hr]. eapply step_act; [done|]. by constructor.
Qed.

Lemma rtc_alone p s (pool : list (prog S A)) :
  startable p -> exists pool', rtc pstep (s, pool) ((exec p s).2, pool').
Proof.
  intros Hp. destruct (exec p s) as [r s'] eqn:E.
  destruct (rtc_exec (length pool) p s (pool ++ [p]) r s') as [pool' Hr]; [by apply list_lookup_middle|done|].
  exists pool'. eapply rtc_l; [by apply step_start|done].
Qed.

Lemma rtc_story ps s (pool : list (prog S A)) :
  Forall startable ps ->
  exists pool', rtc pstep (s, pool) (fold_left (fun s p => (exec p s).2) ps s, pool').
Proof.
  intros Hps. revert s pool. induction Hps as [|p ps Hp _ IH]; intros s pool; simpl; [by exists pool|].
  destruct (rtc_alone p s pool Hp) as [pool1 H1]. destruct (IH (exec p s).2 pool1) as [pool2 H2].
  exists pool2. by etrans.
Qed.

End pool.

(** ** Some of the processes within all of them *)

Lemma delete_of_insert {A} (l : list A) i q p : l !! i = Some p -> <[i := q]> l ≡ₚ q :: base.delete i l.
Proof.
  intros Hi. apply lookup_lt_Some in Hi as Hlt. rewrite (delete_Permutation (<[i := q]> l) i q).
  - f_equiv. rewrite !delete_take_drop. by rewrite take_insert_ge, drop_insert_lt by lia.
  - by apply list_lookup_insert_eq.
Qed.

Lemma focus {A} (pool rest : list A) p : pool ≡ₚ p :: rest ->
  exists j, pool !! j = Some p /\ forall q, <[j := q]> pool ≡ₚ q :: rest.
Proof.
  intros Hp. assert (p ∈ pool) as [j Hj]%list_elem_of_lookup by (rewrite Hp; by left).
  exists j. split; [done|]. intros q. rewrite (delete_of_insert _ _ q _ Hj). f_equiv.
  apply (Permutation_cons_inv (a := p)). by rewrite <- (delete_Permutation _ _ _ Hj).
Qed.

(** A step of some of the processes is a step of all of them. *)
Lemma pstep_embed {S A} (env : S -> S -> Prop) (startable : prog S A -> Prop) s s' o o' rest pool :
  pstep env startable (s, o) (s', o') -> pool ≡ₚ o ++ rest ->
  exists pool', rtc (pstep env startable) (s, pool) (s', pool') /\ pool' ≡ₚ o' ++ rest.
Proof.
  intros H Hp. inversion H as [i o0 s0 svc R f k r s1 Hi Hout|i o0 s0 e|o0 s0 p Hsp|o0 s0 s1 He]; subst.
  - rewrite (delete_Permutation _ _ _ Hi) in Hp. apply focus in Hp as (j & Hj & Hq).
    exists (<[j := k r]> pool). split; [by eapply rtc_once, step_act|].
    by rewrite Hq, (delete_of_insert _ _ _ _ Hi).
  - destruct (o !! i) as [p|] eqn:Hi.
    + rewrite (delete_Permutation _ _ _ Hi) in Hp. apply focus in Hp as (j & Hj & Hq).
      exists (<[j := Throw e]> pool). split; [apply rtc_once, step_crash|].
      by rewrite Hq, (delete_of_insert _ _ _ _ Hi).
    + exists pool. split; [done|]. rewrite list_insert_ge by by apply lookup_ge_None. done.
  - exists (pool ++ [p]). split; [by apply rtc_once, step_start|]. rewrite Hp. solve_Permutation.
  - exists pool. split; [by apply rtc_once, step_env|done].
Qed.

(** ** Left alone, programs come to their end

    Whatever the services answer: a step of a program replaces it by one of its
    continuations, and a program that has returned or thrown may leave. *)

Section ends.
Context {S A : Type}.

Definition settled (p : prog S A) : bool := match p with Act _ _ _ => false | _ => true end.

Definition continues (p q : prog S A) : Prop :=
  match p with Act _ _ k => exists r, q = k r | _ => False end.

Inductive progress : list (prog S A) -> list (prog S A) -> Prop :=
| progress_act i l p q : l !! i = Some p -> continues p q -> progress l (<[i := q]> l)
| progress_leave i l : (i < length l)%nat -> progress l (base.delete i l).

Lemma progress_acc_cons n :
  (forall l, (length l <= n)%nat -> Acc (flip progress) l) ->
  forall p l, length l = n -> Acc (flip progress) (p :: l).
Proof.
  intros Hn p. induction p as [a|e|svc R f k IHp]; intros l; pose proof (Hn l) as Hl.
  all: intros Hlen; specialize (Hl ltac:(lia)); revert Hlen; induction Hl as [l Hacc IHl]; intros Hlen.
  all: constructor; intros l' Hs; inversion Hs as [[|i] ? p' q Hi Hq|[|i] ? Hi]; subst; cbn in *.
  all: try (apply Hn; lia).
  all: try (apply IHl; [exact (progress_act _ _ _ _ Hi Hq)|apply length_insert]).
  all: try (assert (i < length l)%nat as [x Hx]%lookup_lt_is_Some by lia;
            apply Hn; change (Datatypes.S (length (base.delete i l)) <= length l)%nat;
            rewrite (length_delete _ _ ltac:(by eexists)); apply lookup_lt_Some in Hx; lia).
  all: injection Hi as <-; cbn in Hq; try contradiction.
  destruct Hq as [r ->]. by apply IHp.
Qed.

Lemma progress_ends l : Acc (flip progress) l.
Proof.
  assert (forall n l, (length l <= n)%nat -> Acc (flip progress) l) as H; [|by apply (H (length l))].
  clear l. induction n as [|n IH]; intros l Hl.
  - destruct l; [|by cbn in Hl; lia]. constructor. intros l' Hs.
    inversion Hs as [i ? ? ? Hi|i ? Hi]; subst; [by rewrite lookup_nil in Hi|cbn in Hi; lia].
  - destruct (decide (length l = Datatypes.S n)) as [E|]; [|apply IH; lia].
    destruct l as [|p l]; [done|]. injection E as E. by apply (progress_acc_cons n).
Qed.

End ends.
