(* ===== verification/Backoff.v ===== *)
(** * Retry delays: [worker/backoff.ts]

    Exponential back-off with full jitter, and the strategy function BullMQ
    calls with the error of the failed job. *)

From S2P Require Import Prelude JsNumber Errors.
Open Scope Z_scope.

Record RetryPolicy := mkRetryPolicy {
  baseMs : Z;
  capMs : Z;
  maxAttempts : Z;
}.

Definition RETRY_DEFAULTS : RetryPolicy := mkRetryPolicy 30000 (4 * 60 * 60 * 1000) 8.

(** The message of [new RetrySignal(delayMs)]. *)
Definition RetrySignal_message (delayMs : num) : option string :=
  s ← num_to_string delayMs; Some ("retry in " +:+ s +:+ "ms").

Definition exponentialCeilingMs (failedAttemptNo : Z) (policy : RetryPolicy) : num :=
  let exp := Z.max 0 (failedAttemptNo - 1) in
  js_min (Fin (capMs policy)) (js_mul (Fin (baseMs policy)) (js_pow2 exp)).

(** [random] is drawn as [k / 2^53]. *)
Definition fullJitterDelayMs (failedAttemptNo : Z) (policy : RetryPolicy) (k : Z) : num :=
  let ceiling := exponentialCeilingMs failedAttemptNo policy in
  if js_le0 ceiling then Fin 0 else floor_random_mul k ceiling.

(** The regular expression [/^retry in (\d+)ms$/]: the captured digits. *)
Fixpoint strip_prefix (p s : string) : option string :=
  match p, s with
  | EmptyString, _ => Some s
  | String a p', String b s' => if Ascii.eqb a b then strip_prefix p' s' else None
  | _, EmptyString => None
  end.

Fixpoint span_digits (s : string) : string * string :=
  match s with
  | EmptyString => (EmptyString, EmptyString)
  | String c s' => if is_digit c then let '(d, r) := span_digits s' in (String c d, r) else (EmptyString, s)
  end.

Definition match_retry_message (s : string) : option string :=
  match strip_prefix "retry in " s with
  | None => None
  | Some r =>
      let '(d, rest) := span_digits r in
      if bool_decide (d <> EmptyString) && bool_decide (rest = "ms") then Some d else None
  end.

Section strategy.
(** [err.message] of the errors that libraries build. *)
Variable lib_message : exn -> string.

Definition exn_message (e : exn) : string :=
  match e with
  | EDomain d => dx_message d
  | EHttpException _ (MText m) => m
  | EHttpException _ (MTexts _) => lib_message e
  | ERetrySignal d => default (lib_message e) (RetrySignal_message d)
  | ESsrfBlocked r => "SSRF 차단: " +:+ r
  | EApi _ _ m => m
  | EJs _ _ m _ => m
  | EPrisma _ | EDelayed => lib_message e
  end.

Definition backoffStrategy (_attemptsMade : Z) (_type : option string) (err : option exn) : num :=
  match err with
  | Some (ERetrySignal delayMs) => delayMs
  | Some e =>
      match match_retry_message (exn_message e) with
      | Some d => Number_digits d
      | None => Fin (baseMs RETRY_DEFAULTS)
      end
  | None => Fin (baseMs RETRY_DEFAULTS)
  end.

End strategy.

(** ** The ceiling *)

(** A sensible policy, within the range in which the doubles are exact.  (Boot
    only checks that the settings are integers.) *)
Definition policy_ok (p : RetryPolicy) : Prop :=
  0 < baseMs p < 2 ^ 53 /\ 0 <= capMs p < 2 ^ 53.

Definition ceiling_spec (n : Z) (p : RetryPolicy) : Z :=
  Z.min (capMs p) (baseMs p * 2 ^ Z.max 0 (n - 1)).

Lemma dbl_limit_big : 2 ^ 53 < dbl_limit.
Proof. by vm_compute. Qed.

Lemma js_min_overflow cap x :
  cap < dbl_limit -> dbl_limit <= x -> Z.min cap x = cap.
Proof. lia. Qed.

Lemma exponentialCeilingMs_spec n p :
  policy_ok p -> exponentialCeilingMs n p = Fin (ceiling_spec n p).
Proof.
  intros [[Hb _] [Hc0 Hc]]. pose proof dbl_limit_big as Hdl.
  unfold exponentialCeilingMs, ceiling_spec, js_pow2.
  set (e := Z.max 0 (n - 1)). assert (0 <= e) by lia.
  assert (0 < 2 ^ e) by (apply Z.pow_pos_nonneg; lia).
  destruct (Z.ltb_spec e 1024) as [He|He]; simpl.
  - destruct (Z.ltb_spec (Z.abs (baseMs p * 2 ^ e)) dbl_limit) as [|Hov]; [done|].
    destruct (Z.ltb_spec (baseMs p * 2 ^ e) 0); [nia|]. simpl.
    f_equal. symmetry. apply js_min_overflow; nia.
  - destruct (Z.eqb_spec (baseMs p) 0); [lia|]. destruct (Z.ltb_spec (baseMs p) 0); [lia|].
    simpl. f_equal. symmetry. apply js_min_overflow; [lia|].
    assert (dbl_limit <= 2 ^ e) by (apply Z.pow_le_mono_r; lia). nia.
Qed.

Lemma ceiling_spec_nonneg n p : policy_ok p -> 0 <= ceiling_spec n p.
Proof.
  intros [[Hb _] [Hc _]]. unfold ceiling_spec.
  assert (0 < 2 ^ Z.max 0 (n - 1)) by (apply Z.pow_pos_nonneg; lia). nia.
Qed.

Lemma ceiling_spec_mono n m p : policy_ok p -> n <= m -> ceiling_spec n p <= ceiling_spec m p.
Proof.
  intros [[Hb _] _] Hnm. unfold ceiling_spec.
  assert (2 ^ Z.max 0 (n - 1) <= 2 ^ Z.max 0 (m - 1)) by (apply Z.pow_le_mono_r; lia).
  nia.
Qed.

(** The jittered delay, as an integer, for any draw. *)
Lemma fullJitterDelayMs_bounds n p k :
  policy_ok p -> 0 <= k < 2 ^ 53 ->
  exists d, fullJitterDelayMs n p k = Fin d /\
    0 <= d <= ceiling_spec n p /\ (0 < ceiling_spec n p -> d < ceiling_spec n p).
Proof.
  intros Hp Hk. unfold fullJitterDelayMs. rewrite exponentialCeilingMs_spec by done.
  pose proof (ceiling_spec_nonneg n p Hp). cbn [js_le0].
  destruct (Z.leb_spec (ceiling_spec n p) 0).
  - exists 0. repeat split; lia.
  - destruct (floor_random_mul_bounds k (ceiling_spec n p)) as (d & Hd & ?); [done..|].
    exists d. repeat split; [done|lia..].
Qed.

(** ** The message round trip *)

Lemma span_digits_app d r :
  str_forall is_digit d = true ->
  match r with String c _ => is_digit c = false | EmptyString => True end ->
  span_digits (d +:+ r) = (d, r).
Proof.
  intros Hd Hr. induction d as [|c d IH]; simpl in *.
  - destruct r as [|c r]; simpl; [done|]. by rewrite Hr.
  - apply andb_true_iff in Hd as [Hc Hd]. by rewrite Hc, (IH Hd).
Qed.

Lemma strip_prefix_app p s : strip_prefix p (p +:+ s) = Some s.
Proof. induction p as [|c p IH]; simpl; [done|]. by rewrite Ascii.eqb_refl. Qed.

Lemma match_retry_message_dec n :
  match_retry_message ("retry in " +:+ (dec n +:+ "ms")) = Some (dec n).
Proof.
  unfold match_retry_message. rewrite strip_prefix_app.
  rewrite span_digits_app by auto with hook.
  destruct (dec n) eqn:E; [|by rewrite !bool_decide_true].
  pose proof (undec_dec n) as H. by rewrite E in H.
Qed.

(** ** Properties *)

(** C40.  Full jitter: for every policy, failed attempt and random draw the
    delay is an integer number of milliseconds in
    [[0, min(cap, base * 2^(n-1)))], rounding included (or 0 if that interval
    is empty); the ceiling never decreases from one attempt to the next. *)
Theorem full_jitter_within_ceiling n p k :
  policy_ok p -> 0 <= k < 2 ^ 53 ->
  let ceiling := Z.min (capMs p) (baseMs p * 2 ^ Z.max 0 (n - 1)) in
  exponentialCeilingMs n p = Fin ceiling /\
  (exists c', exponentialCeilingMs (n + 1) p = Fin c' /\ ceiling <= c') /\
  exists d, fullJitterDelayMs n p k = Fin d /\ 0 <= d /\ (d < ceiling \/ d = 0 /\ ceiling = 0).
Proof.
  intros Hp Hk ceiling. split; [by apply exponentialCeilingMs_spec|]. split.
  - eexists. split; [by apply exponentialCeilingMs_spec|]. apply ceiling_spec_mono; [done|lia].
  - destruct (fullJitterDelayMs_bounds n p k Hp Hk) as (d & -> & Hd & Hlt).
    exists d. pose proof (ceiling_spec_nonneg n p Hp). unfold ceiling_spec in *.
    split; [done|]. split; [lia|]. fold ceiling in Hd, Hlt. lia.
Qed.

Lemma full_jitter_within_ceiling_witness :
  exists d, fullJitterDelayMs 3 RETRY_DEFAULTS 9007199254740991 = Fin d /\ 0 <= d /\ d < 120000.
Proof.
  destruct (full_jitter_within_ceiling 3 RETRY_DEFAULTS 9007199254740991) as (_ & _ & d & ? & ? & Hd).
  - split; vm_compute; split; congruence.
  - vm_compute. split; congruence.
  - exists d. split; [done|]. split; [done|]. vm_compute in Hd |- *. by destruct Hd as [|[_ ?]].
Defined.

(** The delays of the successive failed attempts, one random draw each. *)
Definition retry_delays (p : RetryPolicy) (ks : list Z) : list num :=
  imap (fun i k => fullJitterDelayMs (Z.of_nat i + 1) p k) ks.

Definition sumZ (l : list Z) : Z := foldr Z.add 0 l.

Lemma retry_delays_bounds p ks :
  policy_ok p -> Forall (fun k => 0 <= k < 2 ^ 53) ks ->
  exists ds, retry_delays p ks = Fin <$> ds /\
    Forall2 (fun d c => 0 <= d /\ (0 < c -> d < c)) ds (imap (fun i _ => ceiling_spec (Z.of_nat i + 1) p) ks).
Proof.
  intros Hp. unfold retry_delays.
  assert (forall j, Forall (fun k => 0 <= k < 2 ^ 53) ks ->
    exists ds, imap (fun i k => fullJitterDelayMs (Z.of_nat (j + i) + 1) p k) ks = Fin <$> ds /\
      Forall2 (fun d c => 0 <= d /\ (0 < c -> d < c)) ds
        (imap (fun i _ => ceiling_spec (Z.of_nat (j + i) + 1) p) ks)) as H; [|exact (H 0%nat)].
  induction ks as [|k ks IH]; intros j Hks; simpl; [exists []; done|].
  inversion Hks as [|?? Hk Hks']; subst.
  destruct (fullJitterDelayMs_bounds (Z.of_nat (j + 0) + 1) p k Hp Hk) as (d & Hd & [? ?] & ?).
  destruct (IH (S j) Hks') as (ds & Hds & Hall).
  exists (d :: ds). split.
  - rewrite fmap_cons, <- Hds. simpl. rewrite Hd. f_equal. apply imap_ext. intros i x _. simpl.
    by rewrite Nat.add_succ_r.
  - constructor; [split; [lia|done]|]. erewrite imap_ext; [exact Hall|]. intros i x _. simpl.
    by rewrite Nat.add_succ_r.
Qed.

Lemma delays_sum ds cs :
  Forall2 (fun d c => 0 <= d /\ (0 < c -> d < c)) ds cs -> Forall (fun c => 0 < c) cs ->
  Forall (fun d => 0 <= d) ds /\ sumZ ds + Z.of_nat (length ds) <= sumZ cs.
Proof.
  induction 1 as [|d c ds cs [Hd Hlt] _ IH]; [by cbn|].
  intros [Hc Hcs]%Forall_cons. destruct (IH Hcs) as [Hds Hsum]. specialize (Hlt Hc).
  split; [by constructor|]. cbn [length sumZ foldr]. unfold sumZ in *. lia.
Qed.

(** The whole default schedule: between the first failure and the eighth
    (final) attempt lie seven delays, and together they stay under 63.5 minutes
    whatever is drawn. *)
Theorem default_schedule_total ks :
  length ks = 7%nat -> Forall (fun k => 0 <= k < 2 ^ 53) ks ->
  exists ds, retry_delays RETRY_DEFAULTS ks = Fin <$> ds /\
    Forall (fun d => 0 <= d) ds /\ sumZ ds < 3810000.
Proof.
  intros Hlen Hks. destruct (retry_delays_bounds RETRY_DEFAULTS ks) as (ds & Hds & Hall); [|done|].
  { split; vm_compute; split; congruence. }
  exists ds. split; [done|].
  do 7 (destruct ks as [|? ks]; [done|]). destruct ks; [|done]. clear Hks Hds.
  assert (length ds = 7%nat) as Hl by (apply Forall2_length in Hall; by rewrite Hall).
  apply delays_sum in Hall as [Hds Hsum]; [|by repeat constructor].
  split; [done|]. vm_compute (sumZ (imap _ _)) in Hsum. lia.
Qed.

Lemma default_schedule_total_witness :
  exists ds, retry_delays RETRY_DEFAULTS (replicate 7 4503599627370496) = Fin <$> ds /\ sumZ ds < 3810000.
Proof.
  destruct (default_schedule_total (replicate 7 4503599627370496)) as (ds & ? & _ & ?); [done| |by exists ds].
  apply Forall_replicate. vm_compute. split; congruence.
Defined.

(** The delay survives the trip through BullMQ: the strategy returns the
    delay of a [RetrySignal], and recovers the same delay from the message when
    the error arrives wrapped in another object; any error without such a
    message gets the default base delay. *)
Theorem backoff_strategy_recovers_delay lib am ty name code cause d m :
  0 <= d < 2 ^ 53 -> RetrySignal_message (Fin d) = Some m ->
  backoffStrategy lib am ty (Some (ERetrySignal (Fin d))) = Fin d /\
  backoffStrategy lib am ty (Some (EJs name code m cause)) = Fin d /\
  forall m', match_retry_message m' = None ->
    backoffStrategy lib am ty (Some (EJs name code m' cause)) = Fin 30000.
Proof.
  intros Hd Hm. split; [done|]. split.
  - unfold RetrySignal_message in Hm. simpl in Hm. case_match; simplify_eq/=.
    assert (decZ d = dec (Z.to_N d)) as -> by (by destruct d; [| |lia]).
    rewrite match_retry_message_dec. unfold Number_digits. rewrite undec_dec, Z2N.id by lia.
    rewrite round53_small by lia. pose proof dbl_limit_big.
    by destruct (Z.ltb_spec d dbl_limit); [|lia].
  - intros m' Hm'. simpl. by rewrite Hm'.
Qed.

Lemma backoff_strategy_recovers_delay_witness :
  backoffStrategy (fun _ => "") 1 (Some "custom") (Some (EJs "Error" None "retry in 1234ms" None)) = Fin 1234.
Proof.
  by apply (backoff_strategy_recovers_delay (fun _ => "") 1 (Some "custom") "Error" None None 1234 "retry in 1234ms").
Defined.

(** With a base of 0 the delay is 0 up to attempt 1024; from attempt 1025 on
    [0 * 2 ** 1024] is [NaN]. *)
Example zero_base_overflow :
  fullJitterDelayMs 1024 (mkRetryPolicy 0 1000 8) 5 = Fin 0 /\
  fullJitterDelayMs 1025 (mkRetryPolicy 0 1000 8) 5 = NaN.
Proof. by vm_compute. Qed.
