(* ===== verification/Circuit.v ===== *)
(** * The circuit breaker's state machine: [worker/circuit.ts]

    The pure transitions, their well-formedness invariant, and the refinement
    to the abstract specification "the number of consecutive failures since the
    last success, and when the last of them happened". *)

From S2P Require Import Prelude.
Open Scope Z_scope.

Inductive CircuitState := CLOSED | OPEN | HALF_OPEN.

#[export] Instance CircuitState_eq_dec : EqDecision CircuitState.
Proof. solve_decision. Defined.

Record CircuitSnapshot := mkSnapshot {
  state : CircuitState;
  failures : Z;
  openedAt : Z;
}.

#[export] Instance CircuitSnapshot_eq_dec : EqDecision CircuitSnapshot.
Proof. solve_decision. Defined.

Record CircuitConfig := mkCircuitConfig {
  openAfter : Z;
  cooldownMs : Z;
  disableAfter : Z;
}.

Definition CIRCUIT_DEFAULTS : CircuitConfig := mkCircuitConfig 10 (5 * 60 * 1000) 50.

Definition EMPTY_CIRCUIT : CircuitSnapshot := mkSnapshot CLOSED 0 0.

(** [decideAttempt]: the [allow] flag and the next snapshot. *)
Definition decideAttempt (snapshot : CircuitSnapshot) (now : Z) (cfg : CircuitConfig)
    : bool * CircuitSnapshot :=
  match state snapshot with
  | CLOSED => (true, snapshot)
  | OPEN =>
      if now <? openedAt snapshot + cooldownMs cfg then (false, snapshot)
      else (true, mkSnapshot HALF_OPEN (failures snapshot) (openedAt snapshot))
  | HALF_OPEN => (true, snapshot)
  end.

Definition onSuccess : CircuitSnapshot := EMPTY_CIRCUIT.

(** [onFailure]: the next snapshot and the [disable] flag. *)
Definition onFailure (snapshot : CircuitSnapshot) (now : Z) (cfg : CircuitConfig)
    : CircuitSnapshot * bool :=
  let failures := failures snapshot + 1 in
  let disable := disableAfter cfg <=? failures in
  if openAfter cfg <=? failures then (mkSnapshot OPEN failures now, disable)
  else (mkSnapshot CLOSED failures 0, disable).

(** ** Events and the abstract specification *)

Inductive circuit_event := Attempt (now : Z) | Success | Failure (now : Z).

Definition circuit_step (cfg : CircuitConfig) (s : CircuitSnapshot) (e : circuit_event)
    : CircuitSnapshot :=
  match e with
  | Attempt now => (decideAttempt s now cfg).2
  | Success => onSuccess
  | Failure now => (onFailure s now cfg).1
  end.

Definition circuit_run (cfg : CircuitConfig) (s : CircuitSnapshot) (es : list circuit_event) :=
  fold_left (circuit_step cfg) es s.

(** The specification keeps only the failures since the last success and the
    time of the latest one. *)
Definition spec_step (c : Z * Z) (e : circuit_event) : Z * Z :=
  match e with
  | Attempt _ => c
  | Success => (0, 0)
  | Failure now => (c.1 + 1, now)
  end.

Definition spec_run (c : Z * Z) (es : list circuit_event) := fold_left spec_step es c.

(** How a snapshot implements a specification state. *)
Definition circuit_refines (cfg : CircuitConfig) (s : CircuitSnapshot) (c : Z * Z) : Prop :=
  failures s = c.1 /\
  (if decide (c.1 < openAfter cfg) then state s = CLOSED /\ openedAt s = 0
   else state s <> CLOSED /\ openedAt s = c.2).

Lemma circuit_refines_empty cfg : 0 < openAfter cfg -> circuit_refines cfg EMPTY_CIRCUIT (0, 0).
Proof. intros Ho. split; [done|]. by rewrite decide_True. Qed.

Lemma circuit_refines_step cfg s c e :
  0 < openAfter cfg -> circuit_refines cfg s c ->
  circuit_refines cfg (circuit_step cfg s e) (spec_step c e).
Proof.
  intros Ho [Hf Hs]. destruct e as [now| |now]; simpl.
  - unfold decideAttempt. destruct s as [[] f o]; simpl in *; try by split.
    destruct (now <? o + cooldownMs cfg); split; simpl; try done.
    destruct (decide (c.1 < openAfter cfg)); by destruct Hs.
  - split; simpl; [done|]. by rewrite decide_True by lia.
  - unfold onFailure. rewrite Hf.
    destruct (Z.leb_spec (openAfter cfg) (c.1 + 1)); split; simpl; try done.
    + by rewrite decide_False by lia.
    + by rewrite decide_True by lia.
Qed.

Lemma circuit_refines_run cfg es s c :
  0 < openAfter cfg -> circuit_refines cfg s c ->
  circuit_refines cfg (circuit_run cfg s es) (spec_run c es).
Proof.
  intros Ho. revert s c. induction es as [|e es IH]; intros s c Hr; simpl; [done|].
  by apply IH, circuit_refines_step.
Qed.

(** Well-formedness: an open or half-open circuit has reached the threshold. *)
Definition circuit_wf (cfg : CircuitConfig) (s : CircuitSnapshot) : Prop :=
  0 <= failures s /\
  match state s with
  | CLOSED => failures s < openAfter cfg
  | OPEN | HALF_OPEN => openAfter cfg <= failures s
  end.

Lemma circuit_wf_empty cfg : 0 < openAfter cfg -> circuit_wf cfg EMPTY_CIRCUIT.
Proof. unfold circuit_wf. simpl. lia. Qed.

Lemma circuit_wf_step cfg s e :
  0 < openAfter cfg -> circuit_wf cfg s -> circuit_wf cfg (circuit_step cfg s e).
Proof.
  intros Ho [Hf Hs]. destruct e as [now| |now]; simpl.
  - unfold decideAttempt. destruct s as [[] f o]; simpl in *; try by split.
    by destruct (now <? o + cooldownMs cfg).
  - by apply circuit_wf_empty.
  - unfold onFailure. destruct (Z.leb_spec (openAfter cfg) (failures s + 1)); split; simpl; lia.
Qed.

Lemma circuit_wf_run cfg es s :
  0 < openAfter cfg -> circuit_wf cfg s -> circuit_wf cfg (circuit_run cfg s es).
Proof. intros Ho. revert s. induction es; simpl; auto using circuit_wf_step. Qed.

#[export] Hint Resolve circuit_wf_empty circuit_wf_step circuit_wf_run : hook.

(** ** Properties *)

(** After any sequence of attempts, successes and failures the breaker
    holds exactly the number of consecutive failures since the last success; it
    is closed iff that number is below [openAfter]; it refuses an attempt only
    while that many failures have happened and the cool-down since the last one
    is still running; and the next failure asks for the endpoint to be disabled
    iff it is the [disableAfter]-th in a row. *)
Theorem circuit_refines_consecutive_failures cfg es now :
  0 < openAfter cfg ->
  let s := circuit_run cfg EMPTY_CIRCUIT es in
  let c := spec_run (0, 0) es in
  failures s = c.1 /\
  (state s = CLOSED <-> c.1 < openAfter cfg) /\
  ((decideAttempt s now cfg).1 = false -> openAfter cfg <= c.1 /\ now < c.2 + cooldownMs cfg) /\
  ((decideAttempt s now cfg).1 = true -> state s = CLOSED \/ state s = HALF_OPEN \/
                                         c.2 + cooldownMs cfg <= now) /\
  ((onFailure s now cfg).2 = true <-> disableAfter cfg <= c.1 + 1).
Proof.
  intros Ho s c.
  assert (circuit_refines cfg s c) as [Hf Hs].
  { apply circuit_refines_run; [done|]. by apply circuit_refines_empty. }
  split; [done|]. unfold decideAttempt, onFailure. rewrite <- Hf in *.
  destruct (decide (failures s < openAfter cfg)) as [Hlt|Hge].
  - destruct Hs as [-> _]. repeat split; simpl; auto; try done.
    + destruct (Z.leb_spec (openAfter cfg) (failures s + 1)); simpl; lia.
    + destruct (Z.leb_spec (openAfter cfg) (failures s + 1)); simpl; lia.
  - destruct Hs as [Hst Hop]. split_and!.
    + split; [done|lia].
    + destruct (state s); try done. destruct (Z.ltb_spec now (openedAt s + cooldownMs cfg)); simpl; [lia|done].
    + destruct (state s); auto. destruct (Z.ltb_spec now (openedAt s + cooldownMs cfg)); simpl; [done|].
      right; right. lia.
    + destruct (Z.leb_spec (openAfter cfg) (failures s + 1)); simpl; lia.
Qed.

Lemma circuit_refines_consecutive_failures_witness :
  let cfg := mkCircuitConfig 3 1000 5 in
  let es := [Failure 10; Success; Failure 20; Failure 30; Failure 40; Attempt 50] in
  failures (circuit_run cfg EMPTY_CIRCUIT es) = 3 /\
  (decideAttempt (circuit_run cfg EMPTY_CIRCUIT es) 500 cfg).1 = false.
Proof.
  split; [|by vm_compute].
  by destruct (circuit_refines_consecutive_failures (mkCircuitConfig 3 1000 5)
    [Failure 10; Success; Failure 20; Failure 30; Failure 40; Attempt 50] 500 ltac:(simpl; lia)).
Defined.

(** One failed probe re-opens: from a half-open circuit that any history
    led to, a failure at [now] gives an open circuit with a fresh cool-down, so
    every attempt before [now + cooldownMs] is refused; a success closes it and
    forgets the history. *)
Theorem half_open_probe_outcome cfg es now later :
  0 < openAfter cfg ->
  let s := circuit_run cfg EMPTY_CIRCUIT es in
  state s = HALF_OPEN ->
  (now <= later < now + cooldownMs cfg ->
     decideAttempt (onFailure s now cfg).1 later cfg =
       (false, mkSnapshot OPEN (failures s + 1) now)) /\
  decideAttempt onSuccess later cfg = (true, EMPTY_CIRCUIT).
Proof.
  intros Ho s Hs. split; [|done]. intros Hl.
  assert (circuit_wf cfg s) as [_ Hwf] by (apply circuit_wf_run; auto with hook). rewrite Hs in Hwf.
  unfold onFailure. destruct (Z.leb_spec (openAfter cfg) (failures s + 1)); [|lia].
  unfold decideAttempt. simpl. by destruct (Z.ltb_spec later (now + cooldownMs cfg)); [|lia].
Qed.

Lemma half_open_probe_outcome_witness :
  let cfg := mkCircuitConfig 2 100 5 in
  decideAttempt (onFailure (circuit_run cfg EMPTY_CIRCUIT [Failure 1; Failure 2; Attempt 102]) 150 cfg).1 200 cfg
  = (false, mkSnapshot OPEN 3 150).
Proof.
  refine (proj1 (half_open_probe_outcome (mkCircuitConfig 2 100 5)
    [Failure 1; Failure 2; Attempt 102] 150 200 _ _) _); simpl; [lia|done|lia].
Defined.
