(* ===== verification/Base64.v ===== *)
(** * Base64 as [Buffer] reads and writes it

    [buf.toString('base64')], [buf.toString('base64url')] and
    [Buffer.from(text, 'base64')] (which also accepts the URL alphabet, skips
    every other character and stops at the padding).  A [Buffer] is a [string] of
    8-bit characters. *)

From S2P Require Import Prelude.
From Stdlib Require Import ZifyN ZifyBool.
Open Scope N_scope.
#[local] Ltac Zify.zify_post_hook ::= Z.to_euclidean_division_equations.

Definition sextet_char (url : bool) (n : N) : ascii :=
  if n <? 26 then ascii_of_N (65 + n)
  else if n <? 52 then ascii_of_N (71 + n)
  else if n <? 62 then ascii_of_N (n - 4)
  else if n =? 62 then ascii_of_N (if url then 45 else 43)
  else ascii_of_N (if url then 95 else 47).

Definition char_sextet (c : ascii) : option N :=
  let n := N_of_ascii c in
  if (65 <=? n) && (n <=? 90) then Some (n - 65)
  else if (97 <=? n) && (n <=? 122) then Some (n - 71)
  else if (48 <=? n) && (n <=? 57) then Some (n + 4)
  else if (n =? 43) || (n =? 45) then Some 62
  else if (n =? 47) || (n =? 95) then Some 63
  else None.

(** Bytes to 6-bit groups and back. *)
Fixpoint sextets (bs : list N) : list N :=
  match bs with
  | [] => []
  | [a] => [a / 4; a mod 4 * 16]
  | [a; b] => [a / 4; a mod 4 * 16 + b / 16; b mod 16 * 4]
  | a :: b :: c :: bs' =>
      a / 4 :: (a mod 4 * 16 + b / 16) :: (b mod 16 * 4 + c / 64) :: c mod 64 :: sextets bs'
  end.

Fixpoint octets (ss : list N) : list N :=
  match ss with
  | a :: b :: c :: d :: ss' =>
      (a * 4 + b / 16) :: (b mod 16 * 16 + c / 4) :: (c mod 4 * 64 + d) :: octets ss'
  | [a; b; c] => [a * 4 + b / 16; b mod 16 * 16 + c / 4]
  | [a; b] => [a * 4 + b / 16]
  | _ => []
  end.

Definition bytes_of (s : string) : list N := map N_of_ascii (list_ascii_of_string s).
Definition of_bytes (bs : list N) : string := string_of_list_ascii (map ascii_of_N bs).

(** The padding completes the last group of four. *)
Definition padding (len : nat) : string :=
  match (len mod 3)%nat with 1%nat => "==" | 2%nat => "=" | _ => EmptyString end.

Definition to_base64 (s : string) : string :=
  string_of_list_ascii (map (sextet_char false) (sextets (bytes_of s))) +:+ padding (String.length s).

Definition to_base64url (s : string) : string :=
  string_of_list_ascii (map (sextet_char true) (sextets (bytes_of s))).

Fixpoint scan_sextets (s : string) : list N :=
  match s with
  | EmptyString => []
  | String c s' =>
      if Ascii.eqb c "=" then [] else
      match char_sextet c with Some n => n :: scan_sextets s' | None => scan_sextets s' end
  end.

Definition from_base64 (s : string) : string := of_bytes (octets (scan_sextets s)).

Example base64_ex :
  to_base64 "hello" = "aGVsbG8=" /\ from_base64 "aGVs bG8=" = "hello" /\
  to_base64url (of_bytes [251; 255]) = "-_8".
Proof. by vm_compute. Qed.

(** ** Round trip *)

Lemma bytes_of_bounded s : Forall (fun n => n < 256) (bytes_of s).
Proof.
  unfold bytes_of. apply Forall_forall. intros n Hn.
  apply list_elem_of_fmap in Hn as (c & -> & _). apply N_ascii_bounded.
Qed.

Lemma of_bytes_of s : of_bytes (bytes_of s) = s.
Proof.
  unfold of_bytes, bytes_of. rewrite map_map, (map_ext _ id), map_id.
  - apply string_of_list_ascii_of_string.
  - apply ascii_N_embedding.
Qed.

Lemma char_sextet_char url n : n < 64 ->
  char_sextet (sextet_char url n) = Some n /\ Ascii.eqb (sextet_char url n) "=" = false.
Proof.
  intros Hn. assert (forallb (fun n =>
      bool_decide (char_sextet (sextet_char url n) = Some n) && negb (Ascii.eqb (sextet_char url n) "="))
      (map N.of_nat (seq 0 64)) = true) as H by (by destruct url; vm_compute).
  rewrite forallb_forall in H. specialize (H n).
  assert (In n (map N.of_nat (seq 0 64))) as Hin.
  { apply in_map_iff. exists (N.to_nat n). rewrite N2Nat.id, in_seq. lia. }
  apply H, andb_true_iff in Hin as [Hs He]. apply bool_decide_eq_true in Hs.
  split; [done|]. by destruct (Ascii.eqb _ _).
Qed.

(** Induction on a list of bytes three at a time. *)
Lemma list_ind3 (Q : list N -> Prop) :
  Q [] -> (forall a, Q [a]) -> (forall a b, Q [a; b]) ->
  (forall a b c l, Q l -> Q (a :: b :: c :: l)) -> forall l, Q l.
Proof.
  intros H0 H1 H2 H3 l. enough (Q l /\ (forall a, Q (a :: l)) /\ (forall a b, Q (a :: b :: l))) by tauto.
  induction l as [|c l (IH0 & IH1 & IH2)]; auto.
Qed.

Lemma octets_sextets bs : Forall (fun n => n < 256) bs -> octets (sextets bs) = bs.
Proof.
  induction bs as [|a|a b|a b c bs IH] using list_ind3; intros Hbs;
    repeat (apply Forall_cons in Hbs as [? Hbs]); cbn [sextets octets].
  - done.
  - f_equal. lia.
  - f_equal; [lia|]. f_equal. lia.
  - rewrite (IH Hbs). f_equal; [lia|]. f_equal; [lia|]. f_equal. lia.
Qed.

Lemma sextets_bounded bs : Forall (fun n => n < 256) bs -> Forall (fun n => n < 64) (sextets bs).
Proof.
  induction bs as [|a|a b|a b c bs IH] using list_ind3; intros Hbs;
    repeat (apply Forall_cons in Hbs as [? Hbs]); cbn [sextets]; repeat constructor; try lia.
  by apply IH.
Qed.

Lemma scan_sextets_chars url ss rest :
  Forall (fun n => n < 64) ss -> (rest = EmptyString \/ exists r, rest = String "=" r) ->
  scan_sextets (string_of_list_ascii (map (sextet_char url) ss) +:+ rest) = ss.
Proof.
  intros Hss Hr. induction Hss as [|n ss Hn _ IH].
  - by destruct Hr as [->|[r ->]].
  - change (string_of_list_ascii (map (sextet_char url) (n :: ss)) +:+ rest)
      with (String (sextet_char url n) (string_of_list_ascii (map (sextet_char url) ss) +:+ rest)).
    cbn [scan_sextets]. destruct (char_sextet_char url n Hn) as [-> ->]. by rewrite IH.
Qed.

Lemma from_to_base64 s : from_base64 (to_base64 s) = s.
Proof.
  unfold from_base64, to_base64. rewrite scan_sextets_chars.
  - rewrite octets_sextets by apply bytes_of_bounded. apply of_bytes_of.
  - apply sextets_bounded, bytes_of_bounded.
  - unfold padding. destruct (_ mod 3)%nat as [|[|[|]]]; eauto.
Qed.

Lemma from_to_base64url s : from_base64 (to_base64url s) = s.
Proof.
  unfold from_base64, to_base64url. rewrite <- (str_app_nil (string_of_list_ascii _)).
  rewrite scan_sextets_chars; [|apply sextets_bounded, bytes_of_bounded|by left].
  rewrite octets_sextets by apply bytes_of_bounded. apply of_bytes_of.
Qed.

Lemma to_base64url_length s : (String.length (to_base64url s) <= 2 * String.length s)%nat.
Proof.
  assert (forall l : list ascii, String.length (string_of_list_ascii l) = length l) as Hl by (induction l; cbn; congruence).
  unfold to_base64url. rewrite Hl, length_map. transitivity (2 * length (bytes_of s))%nat.
  - induction (bytes_of s) as [|a|a b|a b c bs IH] using list_ind3; cbn [sextets length]; lia.
  - unfold bytes_of. rewrite length_map. enough (length (list_ascii_of_string s) = String.length s) by lia.
    induction s; cbn; congruence.
Qed.

#[export] Instance to_base64_inj : Inj (=) (=) to_base64.
Proof. intros s1 s2 H. by rewrite <- (from_to_base64 s1), H, from_to_base64. Qed.

(** The text has no separator of the formats it is embedded in. *)
Definition base64_char (c : ascii) : bool :=
  match char_sextet c with Some _ => true | None => Ascii.eqb c "=" end.

Lemma to_base64_chars s : str_forall base64_char (to_base64 s) = true.
Proof.
  unfold to_base64. rewrite str_forall_app. apply andb_true_iff. split.
  - assert (Forall (fun n => n < 64) (sextets (bytes_of s))) as H
      by apply sextets_bounded, bytes_of_bounded.
    induction H as [|n ss Hn _ IH]; [done|]. cbn. rewrite IH.
    unfold base64_char. by destruct (char_sextet_char false n Hn) as [-> _].
  - unfold padding. by destruct (_ mod 3)%nat as [|[|[|]]].
Qed.

Lemma to_base64_nonempty s : s <> EmptyString -> to_base64 s <> EmptyString.
Proof.
  destruct s as [|c s]; [done|]. intros _. unfold to_base64, bytes_of. cbn.
  destruct (list_ascii_of_string s) as [|c2 [|c3 l]]; done.
Qed.
