(* ===== verification/IpAddress.v ===== *)
(** * IP addresses: [net.isIP] and the blocked ranges of [security/ssrf.service.ts]

    [isIP] is Node's test (dotted quads without leading zeros; IPv6 text with one
    [::], a dotted tail and a zone).  [blockedIpReason] and its two halves are
    translated with the 32-bit operators of JavaScript, and then compared with
    the ranges of addresses they are meant to denote. *)

From S2P Require Import Prelude Json.
From Stdlib Require Import ZifyBool.
Open Scope Z_scope.

(** ** Text helpers *)

(** [s.split(c)] *)
Fixpoint split_on (c : ascii) (s : string) : list string :=
  match s with
  | EmptyString => [EmptyString]
  | String x s' =>
      if Ascii.eqb x c then EmptyString :: split_on c s'
      else match split_on c s' with
           | p :: ps => String x p :: ps
           | [] => [String x EmptyString]
           end
  end.

(** The parts before and after the first ["::"], and before and after a [c]. *)
Fixpoint split_dcolon (s : string) : option (string * string) :=
  match s with
  | EmptyString => None
  | String x s' =>
      match s' with
      | String y r => if Ascii.eqb x ":" && Ascii.eqb y ":" then Some (EmptyString, r)
                      else '(l, r) ← split_dcolon s'; Some (String x l, r)
      | EmptyString => None
      end
  end.

Fixpoint split_first (c : ascii) (s : string) : option (string * string) :=
  match s with
  | EmptyString => None
  | String x s' => if Ascii.eqb x c then Some (EmptyString, s')
                   else '(l, r) ← split_first c s'; Some (String x l, r)
  end.

(** [parseInt(s, 16)] on its longest prefix of hexadecimal digits. *)
Fixpoint hex_prefix (acc : Z) (s : string) : Z :=
  match s with
  | EmptyString => acc
  | String c s' => match hex_value c with Some d => hex_prefix (acc * 16 + Z.of_N d) s' | None => acc end
  end.

Definition is_hex (c : ascii) : bool := match hex_value c with Some _ => true | None => false end.

Definition to_lower (c : ascii) : ascii :=
  let n := N_of_ascii c in
  if (65 <=? n)%N && (n <=? 90)%N then ascii_of_N (n + 32) else c.

Fixpoint toLowerCase (s : string) : string :=
  match s with EmptyString => EmptyString | String c s' => String (to_lower c) (toLowerCase s') end.

(** [Number(s)] on a string of decimal digits. *)
Definition Number (s : string) : Z := Z.of_N (default 0%N (undec s)).

(** ** [net.isIP] *)

Definition v4_octet (s : string) : bool :=
  str_forall is_digit s && bool_decide (s <> EmptyString) && bool_decide (dec (default 0%N (undec s)) = s)
  && (Number s <=? 255).

Definition isIPv4 (s : string) : bool :=
  let parts := split_on "." s in
  (length parts =? 4)%nat && forallb v4_octet parts.

Definition v6_group (s : string) : bool :=
  str_forall is_hex s && (1 <=? String.length s)%nat && (String.length s <=? 4)%nat.

(** The 16-bit groups of the part after (or without) ["::"]; its last element may
    be a dotted quad. *)
Fixpoint v6_tail (parts : list string) : option (list Z) :=
  match parts with
  | [] => Some []
  | [p] =>
      if v6_group p then Some [hex_prefix 0 p]
      else if isIPv4 p then
        match map Number (split_on "." p) with
        | [a; b; c; d] => Some [a * 256 + b; c * 256 + d]
        | _ => None
        end
      else None
  | p :: ps => if v6_group p then cons (hex_prefix 0 p) <$> v6_tail ps else None
  end.

Definition v6_parts (s : string) : list string :=
  match s with EmptyString => [] | _ => split_on ":" s end.

(** The eight groups of an IPv6 address without its zone. *)
Definition v6_address (s : string) : option (list Z) :=
  match split_dcolon s with
  | Some (l, r) =>
      if forallb v6_group (v6_parts l) then
        gr ← v6_tail (v6_parts r);
        let gl := map (hex_prefix 0) (v6_parts l) in
        if (length gl + length gr <=? 7)%nat
        then Some (gl ++ replicate (8 - length gl - length gr) 0 ++ gr) else None
      else None
  | None =>
      gs ← v6_tail (v6_parts s);
      if (length gs =? 8)%nat then Some gs else None
  end.

Definition zone_char (c : ascii) : bool :=
  let n := N_of_ascii c in
  is_digit c || (65 <=? n)%N && (n <=? 90)%N || (97 <=? n)%N && (n <=? 122)%N
  || Ascii.eqb c "-" || Ascii.eqb c "." || Ascii.eqb c ":".

Definition ip6_groups (s : string) : option (list Z) :=
  match split_first "%" s with
  | None => v6_address s
  | Some (a, z) => if str_forall zone_char z && bool_decide (z <> EmptyString) then v6_address a else None
  end.

Definition isIP (s : string) : Z :=
  if isIPv4 s then 4 else match ip6_groups s with Some _ => 6 | None => 0 end.

(** ** JavaScript's 32-bit operators *)

Definition to_int32 (z : Z) : Z := (z + 2 ^ 31) mod 2 ^ 32 - 2 ^ 31.
Definition js_and (a b : Z) : Z := to_int32 (Z.land (to_int32 a) (to_int32 b)).
Definition js_shl (a n : Z) : Z := to_int32 (Z.shiftl (to_int32 a) (n mod 32)).

(** ** [blockedV4Reason] *)

Definition octets_value (octets : list Z) : Z := foldl (fun acc o => acc * 256 + o) 0 octets.

Definition inRange (value : Z) (cidr : string) : bool :=
  match split_on "/" cidr with
  | base :: bits :: _ =>
      let baseValue := octets_value (map Number (split_on "." base)) in
      let mask := js_shl (-1) (32 - Number bits) in
      js_and value mask =? js_and baseValue mask
  | _ => false
  end.

Definition blockedV4Reason (ip : string) : option string :=
  let octets := map Number (split_on "." ip) in
  let a := default 0 (octets !! 0%nat) in
  let b := default 0 (octets !! 1%nat) in
  let value := octets_value octets in
  if inRange value "0.0.0.0/8" then Some "예약 대역(0.0.0.0/8)입니다"
  else if a =? 10 then Some "사설 대역(10.0.0.0/8)입니다"
  else if inRange value "100.64.0.0/10" then Some "CGNAT 대역(100.64.0.0/10)입니다"
  else if a =? 127 then Some "루프백(127.0.0.0/8)입니다"
  else if inRange value "169.254.0.0/16" then Some "링크로컬(169.254.0.0/16) — 클라우드 메타데이터 대역입니다"
  else if (a =? 172) && (16 <=? b) && (b <=? 31) then Some "사설 대역(172.16.0.0/12)입니다"
  else if inRange value "192.0.0.0/24" then Some "예약 대역(192.0.0.0/24)입니다"
  else if (a =? 192) && (b =? 168) then Some "사설 대역(192.168.0.0/16)입니다"
  else if inRange value "198.18.0.0/15" then Some "벤치마크 예약 대역(198.18.0.0/15)입니다"
  else if 224 <=? a then Some "멀티캐스트/예약 대역(224.0.0.0/3)입니다"
  else None.

(** ** [blockedV6Reason] *)

(** [/^::ffff:(\d+\.\d+\.\d+\.\d+)$/]: the captured quad. *)
Definition mapped_quad (lower : string) : option string :=
  r ← expect "::ffff:" lower;
  let parts := split_on "." r in
  if (length parts =? 4)%nat
     && forallb (fun p => str_forall is_digit p && bool_decide (p <> EmptyString)) parts
  then Some r else None.

Definition first_part (s : string) : string := default EmptyString (head (split_on ":" s)).

Definition blockedV6Reason (ip : string) : option string :=
  let lower := toLowerCase ip in
  match mapped_quad lower with
  | Some q => blockedV4Reason q
  | None =>
      if bool_decide (lower = "::") || bool_decide (lower = "::1")
      then Some "루프백/미지정(::1, ::)입니다"
      else
        let first := first_part lower in
        let firstGroup := hex_prefix 0 (match first with EmptyString => "0" | _ => first end) in
        if js_and firstGroup 0xfe00 =? 0xfc00 then Some "ULA 사설 대역(fc00::/7)입니다"
        else if js_and firstGroup 0xffc0 =? 0xfe80 then Some "링크로컬(fe80::/10)입니다"
        else if js_and firstGroup 0xff00 =? 0xff00 then Some "멀티캐스트(ff00::/8)입니다"
        else None
  end.

Definition blockedIpReason (ip : string) : option string :=
  let family := isIP ip in
  if family =? 4 then blockedV4Reason ip
  else if family =? 6 then blockedV6Reason ip
  else Some "IP 형식이 아닙니다".

Example ip_examples :
  map isIP ["10.0.0.1"; "010.0.0.1"; "1.2.3"; "::1"; "fe80::1%eth0"; "1::2::3"; "::ffff:10.0.0.1"; "1:2:3:4:5:6:7:8"; "x.com"; ":::"]
    = [4; 0; 0; 6; 6; 0; 6; 6; 0; 0] /\
  map (fun ip => match blockedIpReason ip with Some _ => true | None => false end)
    ["169.254.169.254"; "172.32.0.1"; "100.127.0.1"; "8.8.8.8"; "::ffff:10.0.0.1"; "FD00::1"; "2001:db8::1"; "198.19.0.1"]
    = [true; false; true; false; true; true; false; true].
Proof. by vm_compute. Qed.

(** ** IPv4: the ranges, and the agreement of the code with them *)

Definition quad (a b c d : Z) : string :=
  decZ a +:+ String "." (decZ b +:+ String "." (decZ c +:+ String "." (decZ d))).

(** First and last address of every range that must not be delivered to. *)
Definition v4_blocks : list (list Z * list Z) :=
  [ ([0;0;0;0],      [0;255;255;255]);
    ([10;0;0;0],     [10;255;255;255]);
    ([100;64;0;0],   [100;127;255;255]);
    ([127;0;0;0],    [127;255;255;255]);
    ([169;254;0;0],  [169;254;255;255]);
    ([172;16;0;0],   [172;31;255;255]);
    ([192;0;0;0],    [192;0;0;255]);
    ([192;168;0;0],  [192;168;255;255]);
    ([198;18;0;0],   [198;19;255;255]);
    ([224;0;0;0],    [255;255;255;255]) ].

Definition in_block (value : Z) (b : list Z * list Z) : bool :=
  (octets_value b.1 <=? value) && (value <=? octets_value b.2).

Definition octet (z : Z) : Prop := 0 <= z <= 255.

Lemma split_on_sep c l r :
  str_forall (fun x => negb (Ascii.eqb x c)) l = true ->
  split_on c (l +:+ String c r) = l :: split_on c r.
Proof.
  induction l as [|x l IH]; intros Hl.
  - change (EmptyString +:+ ?x) with x. cbn. by rewrite Ascii.eqb_refl.
  - cbn in Hl. apply andb_true_iff in Hl as [Hx Hl].
    change (String x l +:+ String c r) with (String x (l +:+ String c r)). cbn [split_on].
    rewrite (IH Hl). by destruct (Ascii.eqb x c).
Qed.

Lemma split_on_no_sep c l :
  str_forall (fun x => negb (Ascii.eqb x c)) l = true -> split_on c l = [l].
Proof.
  induction l as [|x l IH]; cbn; [done|]. intros [Hx Hl]%andb_true_iff.
  rewrite (IH Hl). by destruct (Ascii.eqb x c).
Qed.

Lemma decZ_unsigned z : 0 <= z -> decZ z = dec (Z.to_N z).
Proof. by destruct z. Qed.

Lemma dec_no_dot n : str_forall (fun x => negb (Ascii.eqb x ".")) (dec n) = true.
Proof. apply digits_no_sep; [done|apply dec_digits]. Qed.

Lemma split_quad a b c d : octet a -> octet b -> octet c -> octet d ->
  split_on "." (quad a b c d) = [dec (Z.to_N a); dec (Z.to_N b); dec (Z.to_N c); dec (Z.to_N d)].
Proof.
  unfold octet, quad. intros. rewrite !decZ_unsigned by lia.
  rewrite !split_on_sep by apply dec_no_dot. by rewrite split_on_no_sep by apply dec_no_dot.
Qed.

Lemma Number_dec n : Number (dec n) = Z.of_N n.
Proof. unfold Number. by rewrite undec_dec. Qed.

Lemma v4_octet_dec z : octet z -> v4_octet (dec (Z.to_N z)) = true.
Proof.
  intros Hz. unfold v4_octet, octet in *. rewrite Number_dec, undec_dec, dec_digits. simpl.
  rewrite (bool_decide_eq_true_2 (_ = _)) by done. rewrite bool_decide_eq_true_2; [lia|].
  intros E. pose proof (undec_dec (Z.to_N z)) as Hu. by rewrite E in Hu.
Qed.

Lemma isIP_quad a b c d : octet a -> octet b -> octet c -> octet d -> isIP (quad a b c d) = 4.
Proof.
  intros. unfold isIP, isIPv4. rewrite split_quad by done. cbn.
  by rewrite !v4_octet_dec by done.
Qed.

(** *** The masks *)

Lemma to_int32_small z : - 2 ^ 31 <= z < 2 ^ 31 -> to_int32 z = z.
Proof. intros. unfold to_int32. rewrite Z.mod_small by lia. lia. Qed.

Lemma to_int32_unsigned z : 0 <= z < 2 ^ 32 ->
  to_int32 z = z /\ z < 2 ^ 31 \/ to_int32 z = z - 2 ^ 32 /\ 2 ^ 31 <= z.
Proof.
  intros. unfold to_int32. destruct (Z.ltb_spec z (2 ^ 31)).
  - rewrite Z.mod_small by lia. lia.
  - right. split; [|done]. rewrite <- (Z_mod_plus_full _ (-1)), Z.mod_small by lia. lia.
Qed.

Lemma land_high_bits x k : 0 <= k -> Z.land x (- 2 ^ k) = x / 2 ^ k * 2 ^ k.
Proof.
  intros Hk. assert (- 2 ^ k = Z.lnot (Z.ones k)) as ->.
  { rewrite Z.ones_equiv, <- Z.sub_1_r. unfold Z.lnot. lia. }
  rewrite <- Z.ldiff_land, Z.ldiff_ones_r by done. by rewrite Z.shiftl_mul_pow2, Z.shiftr_div_pow2 by done.
Qed.

Lemma js_and_mask v k : 0 <= v < 2 ^ 32 -> 0 <= k < 32 ->
  js_and v (- 2 ^ k) = to_int32 v / 2 ^ k * 2 ^ k.
Proof.
  intros Hv Hk. assert (2 ^ k <= 2 ^ 31) by (apply Z.pow_le_mono_r; lia).
  assert (0 < 2 ^ k) by (apply Z.pow_pos_nonneg; lia).
  unfold js_and. rewrite (to_int32_small (- 2 ^ k)) by lia. rewrite land_high_bits by lia.
  assert (- 2 ^ 31 <= to_int32 v < 2 ^ 31) as Hr.
  { unfold to_int32. pose proof (Z.mod_pos_bound (v + 2 ^ 31) (2 ^ 32)). lia. }
  apply to_int32_small. pose proof (Z.mul_div_le (to_int32 v) (2 ^ k)). split; [|lia].
  assert (- 2 ^ (31 - k) <= to_int32 v / 2 ^ k).
  { apply Z.div_le_lower_bound; [done|]. rewrite Z.mul_opp_r, <- Z.pow_add_r by lia.
    replace (k + (31 - k)) with 31 by lia. lia. }
  assert (2 ^ 31 = 2 ^ (31 - k) * 2 ^ k) by (rewrite <- Z.pow_add_r by lia; f_equal; lia). nia.
Qed.

(** Equal under the mask means equal high bits. *)
Lemma js_and_mask_eq v w k : 0 <= v < 2 ^ 32 -> 0 <= w < 2 ^ 32 -> 0 <= k < 32 ->
  (js_and v (- 2 ^ k) =? js_and w (- 2 ^ k)) = (v / 2 ^ k =? w / 2 ^ k).
Proof.
  intros Hv Hw Hk. rewrite !js_and_mask by done.
  assert (0 < 2 ^ k) by (apply Z.pow_pos_nonneg; lia).
  assert (2 ^ 32 = 2 ^ (32 - k) * 2 ^ k) as H32 by (rewrite <- Z.pow_add_r by lia; f_equal; lia).
  assert (forall x, (x - 2 ^ 32) / 2 ^ k = x / 2 ^ k - 2 ^ (32 - k)) as Hsub.
  { intros x. rewrite H32. replace (x - 2 ^ (32 - k) * 2 ^ k) with (x + - 2 ^ (32 - k) * 2 ^ k) by lia.
    rewrite Z.div_add by lia. lia. }
  assert (forall x, 0 <= x < 2 ^ 32 -> 0 <= x / 2 ^ k < 2 ^ (32 - k)) as Hb.
  { intros x Hx. split; [apply Z.div_pos; lia|]. apply Z.div_lt_upper_bound; lia. }
  pose proof (Hb v Hv). pose proof (Hb w Hw).
  assert (2 ^ 31 = 2 ^ (31 - k) * 2 ^ k) as H31 by (rewrite <- Z.pow_add_r by lia; f_equal; lia).
  assert (forall x, x < 2 ^ 31 -> x / 2 ^ k < 2 ^ (31 - k)) as Hlo
    by (intros x Hx; apply Z.div_lt_upper_bound; lia).
  assert (forall x, 2 ^ 31 <= x -> 2 ^ (31 - k) <= x / 2 ^ k) as Hhi
    by (intros x Hx; apply Z.div_le_lower_bound; lia).
  apply eq_true_iff_eq. rewrite !Z.eqb_eq.
  destruct (to_int32_unsigned v Hv) as [[E Ev]|[E Ev]], (to_int32_unsigned w Hw) as [[E' Ew]|[E' Ew]];
    first [apply Hlo in Ev|apply Hhi in Ev]; first [apply Hlo in Ew|apply Hhi in Ew];
    rewrite E, E', ?Hsub, Z.mul_cancel_r by lia; lia.
Qed.

(** A range test of the code is an interval test, for each of the literals. *)
Lemma inRange_interval v cidr base bits k :
  0 <= v < 2 ^ 32 -> split_on "/" cidr = [base; bits] -> js_shl (-1) (32 - Number bits) = - 2 ^ k ->
  let b := octets_value (map Number (split_on "." base)) in
  0 <= k < 32 -> 0 <= b < 2 ^ 32 -> b mod 2 ^ k = 0 ->
  inRange v cidr = (b <=? v) && (v <=? b + 2 ^ k - 1).
Proof.
  intros Hv Hs Hm b Hk Hb Hal. unfold inRange. rewrite Hs, Hm, js_and_mask_eq by done. fold b.
  assert (0 < 2 ^ k) by (apply Z.pow_pos_nonneg; lia).
  pose proof (Z.div_mod b (2 ^ k)). pose proof (Z.div_mod v (2 ^ k)).
  pose proof (Z.mod_pos_bound v (2 ^ k)).
  apply eq_true_iff_eq. rewrite andb_true_iff, Z.eqb_eq, !Z.leb_le. split; intros; nia.
Qed.

Ltac interval :=
  match goal with
  | |- context [inRange ?v ?s] =>
      let k := eval vm_compute in
        (match split_on "/" s with [_; b] => 32 - Number b | _ => 0 end) in
      rewrite (inRange_interval v s (default EmptyString (split_on "/" s !! 0%nat))
        (default EmptyString (split_on "/" s !! 1%nat)) k)
        by (done || lia || (vm_compute; split; congruence))
  end.

Lemma blockedV4Reason_blocks a b c d : octet a -> octet b -> octet c -> octet d ->
  blockedV4Reason (quad a b c d) <> None <->
  existsb (in_block (octets_value [a; b; c; d])) v4_blocks = true.
Proof.
  intros Ha Hb Hc Hd. unfold blockedV4Reason. rewrite split_quad by done. cbn [map].
  rewrite !Number_dec. cbn [lookup list_lookup default from_option id].
  unfold octet in *. rewrite !Z2N.id by lia.
  set (v := octets_value [a; b; c; d]). assert (v = ((a * 256 + b) * 256 + c) * 256 + d) as Ev by done.
  clearbody v. assert (0 <= v < 2 ^ 32) as Hv. by lia.
  repeat interval. unfold v4_blocks, in_block. cbn [existsb fst snd].
  repeat match goal with |- context [octets_value ?l] =>
    let z := eval vm_compute in (octets_value l) in change (octets_value l) with z end.
  repeat match goal with |- context [octets_value (map Number ?l)] =>
    let z := eval vm_compute in (octets_value (map Number l)) in change (octets_value (map Number l)) with z end.
  repeat match goal with |- context [if ?t then _ else _] => destruct t eqn:? end;
    split; try done; lia.
Qed.

(** ** IPv6 *)

Lemma hex_value_lower c : hex_value (to_lower c) = hex_value c.
Proof. by destruct c as [[] [] [] [] [] [] [] []]. Qed.

Lemma hex_prefix_lower s acc : hex_prefix acc (toLowerCase s) = hex_prefix acc s.
Proof.
  revert acc. induction s as [|c s IH]; intros acc; cbn; [done|].
  rewrite hex_value_lower. by destruct (hex_value c).
Qed.

Lemma to_lower_colon c : Ascii.eqb (to_lower c) ":" = Ascii.eqb c ":".
Proof. by destruct c as [[] [] [] [] [] [] [] []]. Qed.

Fixpoint first_part_rec (s : string) : string :=
  match s with
  | EmptyString => EmptyString
  | String c s' => if Ascii.eqb c ":" then EmptyString else String c (first_part_rec s')
  end.

Lemma split_on_nonempty c s : split_on c s <> [].
Proof. destruct s as [|x s]; cbn; [done|]. destruct (Ascii.eqb x c); [done|]. by destruct (split_on c s). Qed.

Lemma first_part_eq s : first_part s = first_part_rec s.
Proof.
  unfold first_part. induction s as [|c s IH]; cbn; [done|].
  destruct (Ascii.eqb c ":"); [done|]. rewrite <- IH.
  pose proof (split_on_nonempty ":" s). by destruct (split_on ":" s).
Qed.

Lemma first_part_lower s : first_part (toLowerCase s) = toLowerCase (first_part s).
Proof.
  rewrite !first_part_eq. induction s as [|c s IH]; cbn; [done|].
  rewrite to_lower_colon. destruct (Ascii.eqb c ":"); [done|]. cbn. by rewrite IH.
Qed.

Lemma first_part_app a x :
  str_forall (fun c => negb (Ascii.eqb c ":")) a = false -> first_part (a +:+ x) = first_part a.
Proof.
  rewrite !first_part_eq. induction a as [|c a IH]; [done|]. cbn [str_forall].
  change (String c a +:+ x) with (String c (a +:+ x)). cbn [first_part_rec].
  destruct (Ascii.eqb c ":"); [done|]. cbn. intros H. by rewrite IH.
Qed.

Lemma first_part_sep l x : v6_parts l <> [] -> first_part (l +:+ String ":" x) = first_part l.
Proof.
  rewrite !first_part_eq. intros _. induction l as [|c l IH]; [done|].
  change (String c l +:+ String ":" x) with (String c (l +:+ String ":" x)). cbn.
  destruct (Ascii.eqb c ":"); [done|]. by rewrite IH.
Qed.

Lemma split_dcolon_app s l r : split_dcolon s = Some (l, r) -> s = l +:+ String ":" (String ":" r).
Proof.
  revert l r. induction s as [|x s IH]; [done|]. intros l r. cbn [split_dcolon].
  destruct s as [|y t]; [done|]. destruct (Ascii.eqb x ":" && Ascii.eqb y ":") eqn:E.
  - apply andb_true_iff in E as [->%Ascii.eqb_eq ->%Ascii.eqb_eq]. intros. by simplify_eq.
  - intros (p & Hp & Hq)%bind_Some. destruct p as [l' r']. simplify_eq.
    rewrite (IH _ _ Hp). done.
Qed.

Lemma split_first_app c s l r : split_first c s = Some (l, r) -> s = l +:+ String c r.
Proof.
  revert l r. induction s as [|x s IH]; [done|]. intros l r. cbn [split_first].
  destruct (Ascii.eqb_spec x c) as [->|].
  - intros. by simplify_eq.
  - intros ([l' r'] & Hp & Hq)%bind_Some. simplify_eq. by rewrite (IH _ _ Hp).
Qed.

Lemma hex_prefix_bound s acc n :
  (String.length s <= n)%nat -> 0 <= acc -> 0 <= hex_prefix acc s <= acc * 16 ^ Z.of_nat n + 16 ^ Z.of_nat n - 1.
Proof.
  revert acc n. induction s as [|c s IH]; intros acc n Hn Hacc; cbn [hex_prefix].
  - assert (0 < 16 ^ Z.of_nat n) by (apply Z.pow_pos_nonneg; lia). nia.
  - destruct n as [|n]; [simpl in Hn; lia|].
    assert (16 ^ Z.of_nat (S n) = 16 * 16 ^ Z.of_nat n) as E
      by (rewrite Nat2Z.inj_succ, Z.pow_succ_r by lia; done).
    assert (0 < 16 ^ Z.of_nat n) by (apply Z.pow_pos_nonneg; lia).
    destruct (hex_value c) as [d|] eqn:Ed; [|nia].
    assert (d < 16)%N. { revert Ed. clear. unfold hex_value. repeat case_match; intros; simplify_eq; lia. }
    specialize (IH (acc * 16 + Z.of_N d) n). simpl in Hn. nia.
Qed.

Lemma v6_group_bound p : v6_group p = true -> 0 <= hex_prefix 0 p < 65536.
Proof.
  unfold v6_group. intros [[_ _]%andb_true_iff H]%andb_true_iff.
  pose proof (hex_prefix_bound p 0 4 ltac:(lia) ltac:(lia)). simpl in *. lia.
Qed.

Lemma v6_group_nonempty p : v6_group p = true -> p <> EmptyString.
Proof. by destruct p. Qed.

(** The first group of an address is what [parseInt] reads from its text. *)
Lemma v6_address_first a gs :
  v6_address a = Some gs ->
  str_forall (fun c => negb (Ascii.eqb c ":")) a = false /\
  exists g, gs !! 0%nat = Some g /\ 0 <= g < 65536 /\
    g = hex_prefix 0 (match first_part a with EmptyString => "0" | _ => first_part a end).
Proof.
  unfold v6_address. destruct (split_dcolon a) as [[l r]|] eqn:E.
  - apply split_dcolon_app in E as ->. intros Hgs.
    split; [rewrite str_forall_app; cbn; by rewrite andb_false_r|].
    destruct (forallb v6_group (v6_parts l)) eqn:Hl; [|done].
    apply bind_Some in Hgs as (gr & Hr & Hgs).
    destruct (_ <=? _)%nat eqn:Hlen; [|done]. simplify_eq. apply Nat.leb_le in Hlen.
    destruct l as [|c l].
    + exists 0. cbn in Hlen |- *. split; [|split; [lia|done]].
      by replace (8 - length gr)%nat with (S (7 - length gr)) by lia.
    + rewrite first_part_sep by (unfold v6_parts; apply split_on_nonempty).
      unfold first_part. change (v6_parts (String c l)) with (split_on ":" (String c l)) in *.
      destruct (split_on ":" (String c l)) as [|p ps] eqn:Hp; [by apply split_on_nonempty in Hp|].
      cbn [forallb] in Hl. apply andb_true_iff in Hl as [Hg _].
      exists (hex_prefix 0 p). destruct (v6_group_bound p Hg). split_and!; try done. cbn. by destruct p.
  - intros (gs' & Hgs' & Hlen)%bind_Some. destruct (_ =? _)%nat eqn:E8; [|done]. simplify_eq.
    apply Nat.eqb_eq in E8. unfold v6_parts in Hgs'. destruct a as [|c a]; [simpl in *; by simplify_eq|].
    unfold first_part. destruct (split_on ":" (String c a)) as [|p ps] eqn:Hp; [by apply split_on_nonempty in Hp|].
    destruct ps as [|p2 ps].
    { exfalso. cbn in Hgs'. repeat case_match; by simplify_eq. }
    assert (v6_group p = true /\ exists gs0, gs = hex_prefix 0 p :: gs0) as [Hg [gs0 ->]].
    { cbn in Hgs'. destruct (v6_group p); [|done]. split; [done|].
      apply fmap_Some in Hgs' as (? & ? & ->). eauto. }
    split.
    + destruct (str_forall _ (String c a)) eqn:Hno; [|done]. apply split_on_no_sep in Hno. congruence.
    + exists (hex_prefix 0 p). destruct (v6_group_bound p Hg). split_and!; try done. cbn. by destruct p.
Qed.

Lemma ip6_first s gs :
  ip6_groups s = Some gs ->
  str_forall (fun c => negb (Ascii.eqb c ":")) s = false /\
  exists g, gs !! 0%nat = Some g /\ 0 <= g < 65536 /\
    g = hex_prefix 0 (match first_part s with EmptyString => "0" | _ => first_part s end).
Proof.
  unfold ip6_groups. destruct (split_first "%" s) as [[a z]|] eqn:E; [|apply v6_address_first].
  apply split_first_app in E as ->. destruct (str_forall zone_char z && _); [|done].
  intros Ha%v6_address_first. destruct Ha as [Hc Hg]. rewrite str_forall_app, Hc. split; [done|].
  by rewrite first_part_app.
Qed.

Lemma split_on_chars (f : ascii -> bool) c s :
  forallb (str_forall f) (split_on c s) = true -> str_forall (fun x => f x || Ascii.eqb x c) s = true.
Proof.
  induction s as [|x s IH]; [done|]. cbn. destruct (Ascii.eqb x c) eqn:E; cbn.
  - rewrite orb_true_r. exact IH.
  - pose proof (split_on_nonempty c s). destruct (split_on c s) as [|p ps]; [done|]. cbn in *.
    intros [[-> Hp]%andb_true_iff Hps]%andb_true_iff. cbn. apply IH. by rewrite Hp, Hps.
Qed.

Lemma isIPv4_no_colon s : isIPv4 s = true -> str_forall (fun c => negb (Ascii.eqb c ":")) s = true.
Proof.
  unfold isIPv4. intros [_ H]%andb_true_iff.
  assert (forallb (str_forall is_digit) (split_on "." s) = true) as Hd.
  { revert H. rewrite !forallb_forall. intros H p Hp. specialize (H p Hp). unfold v4_octet in H.
    by destruct (str_forall is_digit p). }
  apply split_on_chars in Hd. revert Hd. apply str_forall_impl.
  intros c. by destruct c as [[] [] [] [] [] [] [] []].
Qed.

Lemma isIP_6 s gs : ip6_groups s = Some gs -> isIP s = 6.
Proof.
  intros H. unfold isIP. rewrite H. destruct (isIPv4 s) eqn:E; [|done].
  apply isIPv4_no_colon in E. destruct (ip6_first s gs H). congruence.
Qed.

(** The masks of [blockedV6Reason], as intervals of the first group. *)
Lemma js_and_group g k : 0 <= g < 65536 -> 0 <= k <= 16 ->
  js_and g (65536 - 2 ^ k) = g / 2 ^ k * 2 ^ k.
Proof.
  intros Hg Hk. assert (0 < 2 ^ k) by (apply Z.pow_pos_nonneg; lia).
  assert (2 ^ k <= 2 ^ 16) by (apply Z.pow_le_mono_r; lia).
  unfold js_and. rewrite !(to_int32_small g), (to_int32_small (65536 - _)) by lia.
  assert (65536 - 2 ^ k = Z.land (- 2 ^ k) (Z.ones 16)) as ->.
  { rewrite Z.land_ones, <- (Z_mod_plus_full _ 1), Z.mod_small; lia. }
  rewrite Z.land_assoc, land_high_bits, Z.land_ones by lia.
  pose proof (Z.mul_div_le g (2 ^ k)). pose proof (Z.div_pos g (2 ^ k)).
  rewrite Z.mod_small by nia. apply to_int32_small. nia.
Qed.

Lemma v6_masks g : 0 <= g < 65536 ->
  (js_and g 0xfe00 =? 0xfc00) = (0xfc00 <=? g) && (g <=? 0xfdff) /\
  (js_and g 0xffc0 =? 0xfe80) = (0xfe80 <=? g) && (g <=? 0xfebf) /\
  (js_and g 0xff00 =? 0xff00) = (0xff00 <=? g).
Proof.
  intros Hg.
  change 0xfe00 with (65536 - 2 ^ 9). change 0xffc0 with (65536 - 2 ^ 6).
  change 0xff00 with (65536 - 2 ^ 8) at 1. rewrite !js_and_group by lia.
  pose proof (Z.div_mod g (2 ^ 9)). pose proof (Z.div_mod g (2 ^ 6)). pose proof (Z.div_mod g (2 ^ 8)).
  pose proof (Z.mod_pos_bound g (2 ^ 9)). pose proof (Z.mod_pos_bound g (2 ^ 6)).
  pose proof (Z.mod_pos_bound g (2 ^ 8)). split_and!; lia.
Qed.

Lemma hex_group_plain p : v6_group p = true ->
  str_forall (fun c => negb (Ascii.eqb c ":")) p = true /\
  str_forall (fun c => negb (Ascii.eqb c ".")) p = true /\
  str_forall (fun c => negb (Ascii.eqb c "%")) p = true.
Proof.
  unfold v6_group. intros [[Hh _]%andb_true_iff _]%andb_true_iff.
  split_and!; revert Hh; apply str_forall_impl; intros c; by destruct c as [[] [] [] [] [] [] [] []].
Qed.

Lemma toLowerCase_app s t : toLowerCase (s +:+ t) = toLowerCase s +:+ toLowerCase t.
Proof. induction s as [|c s IH]; [done|]. exact (f_equal (String _) IH). Qed.

Lemma toLowerCase_group p : v6_group p = true -> v6_group (toLowerCase p) = true.
Proof.
  unfold v6_group. assert (forall f, (forall c, f c = true -> is_hex (to_lower c) = true) ->
    str_forall f p = true -> str_forall is_hex (toLowerCase p) = true) as Hf.
  { intros f Hf. induction p as [|c p IH]; [done|]. cbn. intros [Hc Hp]%andb_true_iff.
    rewrite Hf by done. by apply IH. }
  assert (String.length (toLowerCase p) = String.length p) as -> by (clear; induction p; cbn; congruence).
  intros [[Hh ->]%andb_true_iff ->]%andb_true_iff. rewrite (Hf is_hex); [done| |done].
  intros c. unfold is_hex. by rewrite hex_value_lower.
Qed.

(** ** Properties *)

(** C32.  The IPv4 rule is exact: a dotted quad is recognised as IPv4, and it is
    refused if and only if its 32-bit value lies in one of the private, loopback,
    link-local, CGNAT, benchmark, reserved or multicast ranges; the signed 32-bit
    masks of the code make no difference. *)
Theorem v4_blocked_exactly a b c d :
  octet a -> octet b -> octet c -> octet d ->
  isIP (quad a b c d) = 4 /\
  (blockedIpReason (quad a b c d) = None <->
   forall lo hi, (lo, hi) ∈ v4_blocks ->
     ~ (octets_value lo <= octets_value [a; b; c; d] <= octets_value hi)).
Proof.
  intros Ha Hb Hc Hd. pose proof (isIP_quad a b c d Ha Hb Hc Hd) as H4. split; [done|].
  unfold blockedIpReason. rewrite H4. cbn [Z.eqb Pos.eqb].
  pose proof (blockedV4Reason_blocks a b c d Ha Hb Hc Hd) as Hblk.
  transitivity (existsb (in_block (octets_value [a; b; c; d])) v4_blocks = false).
  { destruct (blockedV4Reason _), (existsb _ _); naive_solver. }
  rewrite <- not_true_iff_false, existsb_exists. split.
  - intros Hn lo hi Hin Hr. apply Hn. exists (lo, hi). split; [by apply list_elem_of_In|].
    unfold in_block. cbn [fst snd]. lia.
  - intros Hall ([lo hi] & Hin & Hr). apply (Hall lo hi); [by apply list_elem_of_In|].
    unfold in_block in Hr. cbn [fst snd] in Hr. lia.
Qed.

Lemma v4_blocked_exactly_witness :
  blockedIpReason "100.64.0.1" <> None /\ blockedIpReason "100.128.0.1" = None.
Proof.
  split.
  - intros H. destruct (v4_blocked_exactly 100 64 0 1) as [_ Hb]; [unfold octet; lia..|].
    apply (proj1 Hb H [100;64;0;0] [100;127;255;255]); [|vm_compute; split; congruence].
    unfold v4_blocks. do 2 right. left.
  - destruct (v4_blocked_exactly 100 128 0 1) as [_ Hb]; [unfold octet; lia..|].
    apply Hb. intros lo hi Hin. unfold v4_blocks in Hin.
    repeat (apply elem_of_cons in Hin as [Hin|Hin]; [simplify_eq; vm_compute; intros [H1 H2]; first [exact (H1 eq_refl)|exact (H2 eq_refl)]|]).
    by apply elem_of_nil in Hin.
Defined.

(** The IPv6 rule, for every text that denotes an IPv6 address (zone and
    letter case included): a dotted IPv4-mapped address is judged by its IPv4
    part; any other is accepted exactly if it is not spelled [::] or [::1] and its
    first 16 bits lie outside [fc00::/7], [fe80::/10] and [ff00::/8]. *)
Theorem v6_blocked_exactly ip gs :
  ip6_groups ip = Some gs ->
  isIP ip = 6 /\
  match mapped_quad (toLowerCase ip) with
  | Some q => blockedIpReason ip = blockedV4Reason q
  | None =>
      exists g, gs !! 0%nat = Some g /\ 0 <= g < 2 ^ 16 /\
        (blockedIpReason ip = None <->
         toLowerCase ip <> "::" /\ toLowerCase ip <> "::1" /\
         ~ (0xfc00 <= g <= 0xfdff) /\ ~ (0xfe80 <= g <= 0xfebf) /\ ~ (0xff00 <= g))
  end.
Proof.
  intros Hip. pose proof (isIP_6 ip gs Hip) as H6. split; [done|].
  unfold blockedIpReason. rewrite H6. cbn [Z.eqb Pos.eqb]. unfold blockedV6Reason.
  destruct (mapped_quad (toLowerCase ip)); [done|].
  destruct (ip6_first ip gs Hip) as (_ & g & Hg & Hb & Hgv). exists g. split; [done|]. split; [lia|].
  rewrite first_part_lower.
  assert (hex_prefix 0 (match toLowerCase (first_part ip) with
                        | EmptyString => "0" | String _ _ => toLowerCase (first_part ip) end) = g) as ->.
  { rewrite Hgv. destruct (first_part ip) as [|c t]; [done|].
    change (match toLowerCase (String c t) with EmptyString => "0" | String _ _ => toLowerCase (String c t) end)
      with (toLowerCase (String c t)). apply hex_prefix_lower. }
  destruct (v6_masks g Hb) as (-> & -> & ->).
  destruct (bool_decide (toLowerCase ip = "::") || bool_decide (toLowerCase ip = "::1")) eqn:E.
  - split; [done|]. apply orb_true_iff in E as [E%bool_decide_eq_true|E%bool_decide_eq_true]; naive_solver.
  - apply orb_false_iff in E as [?%bool_decide_eq_false ?%bool_decide_eq_false].
    repeat match goal with |- context [if ?t then _ else _] => destruct t eqn:? end;
      (split; [try done|intros; try done]); intros; split_and?; try done; lia.
Qed.

Lemma v6_blocked_exactly_witness :
  blockedIpReason "FE80::1%eth0" <> None /\ blockedIpReason "2001:db8::7" = None.
Proof.
  split.
  - intros H. destruct (v6_blocked_exactly "FE80::1%eth0" [0xfe80;0;0;0;0;0;0;1] eq_refl) as [_ Hx].
    destruct (mapped_quad _) eqn:E in Hx; [by vm_compute in E|]. destruct Hx as (g & Hg & _ & Hx).
    apply Hx in H. simplify_eq/=. lia.
  - destruct (v6_blocked_exactly "2001:db8::7" [0x2001;0xdb8;0;0;0;0;0;7] eq_refl) as [_ Hx].
    destruct (mapped_quad _) eqn:E in Hx; [by vm_compute in E|]. destruct Hx as (g & Hg & _ & Hx).
    apply Hx. simplify_eq/=. split_and!; [done|done|lia..].
Defined.

(** The hexadecimal spelling of an IPv4-mapped address passes: for any two
    groups, [::ffff:p:q] denotes the IPv4 address [p:q] and is accepted, whatever
    range that address lies in.  This is the form the URL parser gives to every
    IPv4-mapped literal. *)
Theorem mapped_hex_literal_passes p q :
  v6_group p = true -> v6_group q = true ->
  let ip := "::ffff:" +:+ (p +:+ String ":" q) in
  isIP ip = 6 /\
  ip6_groups ip = Some [0; 0; 0; 0; 0; 0xffff; hex_prefix 0 p; hex_prefix 0 q] /\
  blockedIpReason ip = None.
Proof.
  intros Hp Hq ip.
  destruct (hex_group_plain p Hp) as (Hpc & _ & Hpp).
  destruct (hex_group_plain q Hq) as (Hqc & _ & Hqp).
  assert (forall c s l r, str_forall (fun x => negb (Ascii.eqb x c)) s = true -> split_first c s <> Some (l, r)) as Hno.
  { clear. intros c s. induction s as [|x s IH]; [done|]. cbn. intros l r [Hx Hs]%andb_true_iff.
    destruct (Ascii.eqb x c); [done|]. destruct (split_first c s) as [[l' r']|] eqn:E; [|done].
    by destruct (IH l' r' Hs). }
  assert (ip6_groups ip = Some [0; 0; 0; 0; 0; 0xffff; hex_prefix 0 p; hex_prefix 0 q]) as Hgs.
  { unfold ip6_groups. destruct (split_first "%" ip) as [[l r]|] eqn:E.
    - apply Hno in E; [done|]. unfold ip. rewrite !str_forall_app, Hpp. cbn. by rewrite Hqp.
    - assert (v6_parts ("ffff:" +:+ (p +:+ String ":" q)) = ["ffff"; p; q]) as Hparts.
      { change (v6_parts ("ffff:" +:+ ?x)) with ("ffff" :: split_on ":" x).
        by rewrite split_on_sep, split_on_no_sep. }
      unfold v6_address. change (split_dcolon ip) with (Some (EmptyString, "ffff:" +:+ (p +:+ String ":" q))).
      cbv beta iota. rewrite Hparts. cbn [v6_tail v6_parts forallb]. by rewrite Hp, Hq. }
  pose proof (isIP_6 ip _ Hgs) as H6. split; [done|]. split; [done|].
  unfold blockedIpReason. rewrite H6. cbn [Z.eqb Pos.eqb]. unfold blockedV6Reason.
  assert (toLowerCase ip = "::ffff:" +:+ (toLowerCase p +:+ String ":" (toLowerCase q))) as El
    by (unfold ip; by rewrite !toLowerCase_app).
  apply toLowerCase_group in Hp, Hq.
  destruct (hex_group_plain _ Hp) as (_ & Hpd & _). destruct (hex_group_plain _ Hq) as (_ & Hqd & _).
  assert (mapped_quad (toLowerCase ip) = None) as ->.
  { rewrite El. unfold mapped_quad.
    change (expect "::ffff:" ("::ffff:" +:+ ?x)) with (Some x). cbn [mbind option_bind].
    rewrite split_on_no_sep; [done|]. rewrite str_forall_app, Hpd. cbn. by rewrite Hqd. }
  rewrite El. done.
Qed.

(** The metadata service's address, 169.254.169.254, in that spelling. *)
Lemma mapped_hex_literal_passes_witness :
  blockedIpReason "::ffff:a9fe:a9fe" = None /\ blockedIpReason "::ffff:169.254.169.254" <> None /\
  ip6_groups "::ffff:a9fe:a9fe" = ip6_groups "::ffff:169.254.169.254".
Proof.
  split; [|by vm_compute].
  by apply (mapped_hex_literal_passes "a9fe" "a9fe").
Defined.
