(* ===== verification/DateTime.v ===== *)
(** * Dates: [Date.prototype.toISOString]

    Times are milliseconds since the epoch; the proleptic Gregorian calendar of
    ECMAScript, computed over 400-year eras that start in March. *)

From S2P Require Import Prelude.
Open Scope Z_scope.

(** Year, month and day of a day number. *)
Definition civil_from_days (days : Z) : Z * Z * Z :=
  let z := days + 719468 in
  let era := z / 146097 in
  let doe := z - era * 146097 in
  let yoe := (doe - doe / 1460 + doe / 36524 - doe / 146096) / 365 in
  let doy := doe - (365 * yoe + yoe / 4 - yoe / 100) in
  let mp := (5 * doy + 2) / 153 in
  let d := doy - (153 * mp + 2) / 5 + 1 in
  let m := if mp <? 10 then mp + 3 else mp - 9 in
  (yoe + era * 400 + (if m <=? 2 then 1 else 0), m, d).

Definition digit (d : Z) : ascii := ascii_of_N (48 + Z.to_N d).

(** The last [n] decimal digits. *)
Fixpoint pad (n : nat) (z : Z) : string :=
  match n with
  | O => EmptyString
  | S n => String (digit (z / 10 ^ Z.of_nat n mod 10)) (pad n z)
  end.

Definition year_text (y : Z) : string :=
  if (0 <=? y) && (y <=? 9999) then pad 4 y
  else (if y <? 0 then "-" else "+") +:+ pad 6 (Z.abs y).

Definition toISOString (ms : Z) : string :=
  let '(y, m, d) := civil_from_days (ms / 86400000) in
  let t := ms mod 86400000 in
  year_text y +:+ "-" +:+ pad 2 m +:+ "-" +:+ pad 2 d +:+ "T" +:+
  pad 2 (t / 3600000) +:+ ":" +:+ pad 2 (t / 60000 mod 60) +:+ ":" +:+
  pad 2 (t / 1000 mod 60) +:+ "." +:+ pad 3 (t mod 1000) +:+ "Z".

Example iso_examples :
  toISOString 0 = "1970-01-01T00:00:00.000Z" /\
  toISOString 951827696789 = "2000-02-29T12:34:56.789Z" /\
  toISOString 1767225599999 = "2025-12-31T23:59:59.999Z" /\
  toISOString (-1) = "1969-12-31T23:59:59.999Z" /\
  toISOString 253402300800000 = "+010000-01-01T00:00:00.000Z".
Proof. by vm_compute. Qed.

(** ** [new Date(text)]

    The texts that [toISOString] writes are read here; for any other text the
    result is the implementation's, a parameter. *)

Definition days_from_civil (y m d : Z) : Z :=
  let y' := if m <=? 2 then y - 1 else y in
  let era := y' / 400 in
  let yoe := y' - era * 400 in
  let mp := if m <=? 2 then m + 9 else m - 3 in
  let doy := (153 * mp + 2) / 5 + d - 1 in
  era * 146097 + (yoe * 365 + yoe / 4 - yoe / 100 + doy) - 719468.

(** The two functions within an era. *)
Lemma civil_era doe era :
  0 <= doe < 146097 ->
  let yoe := (doe - doe / 1460 + doe / 36524 - doe / 146096) / 365 in
  let doy := doe - (365 * yoe + yoe / 4 - yoe / 100) in
  let mp := (5 * doy + 2) / 153 in
  let d := doy - (153 * mp + 2) / 5 + 1 in
  let m := if mp <? 10 then mp + 3 else mp - 9 in
  days_from_civil (yoe + era * 400 + (if m <=? 2 then 1 else 0)) m d = doe + era * 146097 - 719468.
Proof.
  intros Hdoe yoe doy mp d m.
  assert (0 <= yoe < 400) as Hyoe by (subst yoe; Z.to_euclidean_division_equations; lia).
  assert (0 <= doy < 366) as Hdoy by (subst doy yoe; Z.to_euclidean_division_equations; lia).
  assert (0 <= mp < 12) as Hmp by (subst mp; Z.to_euclidean_division_equations; lia).
  assert (doe = 365 * yoe + yoe / 4 - yoe / 100 + doy) as Hde by (subst doy; lia).
  subst d. clearbody mp. clearbody doy. clearbody yoe. rewrite Hde. clear Hde Hdoe doe. unfold days_from_civil.
  assert ((m <=? 2) = negb (mp <? 10)) as Hm
    by (subst m; destruct (Z.ltb_spec mp 10); [destruct (Z.leb_spec (mp + 3) 2)|destruct (Z.leb_spec (mp - 9) 2)]; try done; lia).
  rewrite Hm. subst m. clear Hm.
  set (y' := if negb (mp <? 10) then yoe + era * 400 + (if negb (mp <? 10) then 1 else 0) - 1
             else yoe + era * 400 + (if negb (mp <? 10) then 1 else 0)).
  assert (y' = yoe + era * 400) as -> by (subst y'; destruct (mp <? 10); cbn; lia).
  rewrite Z.div_add, (Z.div_small yoe 400) by lia.
  replace (yoe + era * 400 - (0 + era) * 400) with yoe by lia.
  destruct (mp <? 10); cbn [negb].
  - replace (mp + 3 - 3) with mp by lia. lia.
  - replace (mp - 9 + 9) with mp by lia. lia.
Qed.

Lemma days_from_civil_from_days z :
  let '(y, m, d) := civil_from_days z in days_from_civil y m d = z.
Proof.
  unfold civil_from_days.
  pose proof (Z.div_mod (z + 719468) 146097 ltac:(lia)) as Hz.
  pose proof (Z.mod_pos_bound (z + 719468) 146097 ltac:(lia)) as Hb.
  pose proof (civil_era (z + 719468 - (z + 719468) / 146097 * 146097) ((z + 719468) / 146097) ltac:(lia)) as H.
  cbv zeta in H |- *. rewrite H. lia.
Qed.

(** Exactly [n] digits, then the rest. *)
Fixpoint read_digits (n : nat) (acc : Z) (s : string) : option (Z * string) :=
  match n, s with
  | O, _ => Some (acc, s)
  | S n, String c s => if is_digit c then read_digits n (acc * 10 + (Z.of_N (N_of_ascii c) - 48)) s else None
  | S _, EmptyString => None
  end.

Definition read_char (c : ascii) (s : string) : option string :=
  match s with String c' s => if Ascii.eqb c c' then Some s else None | EmptyString => None end.

(** The fields of [YYYY-MM-DDTHH:mm:ss.sssZ] *)
Definition read_iso (s : string) : option Z :=
  '(y, s) ← read_digits 4 0 s; s ← read_char "-" s;
  '(mo, s) ← read_digits 2 0 s; s ← read_char "-" s;
  '(d, s) ← read_digits 2 0 s; s ← read_char "T" s;
  '(h, s) ← read_digits 2 0 s; s ← read_char ":" s;
  '(mi, s) ← read_digits 2 0 s; s ← read_char ":" s;
  '(sec, s) ← read_digits 2 0 s; s ← read_char "." s;
  '(ms, s) ← read_digits 3 0 s; s ← read_char "Z" s;
  Some (days_from_civil y mo d * 86400000 + h * 3600000 + mi * 60000 + sec * 1000 + ms).

Definition Date_parse (legacy : string -> option Z) (s : string) : option Z :=
  match read_iso s with
  | Some t => if bool_decide (toISOString t = s) then Some t else legacy s
  | None => legacy s
  end.

Lemma digit_digits d :
  forallb (fun d => is_digit (digit d) && (Z.of_N (N_of_ascii (digit d)) - 48 =? d)) [0;1;2;3;4;5;6;7;8;9] = true ->
  0 <= d < 10 -> is_digit (digit d) = true /\ Z.of_N (N_of_ascii (digit d)) - 48 = d.
Proof.
  intros H Hd. apply forallb_forall with (x := d) in H.
  - apply andb_true_iff in H as [? ?%Z.eqb_eq]. done.
  - simpl. lia.
Qed.

(** Padded digits are read back. *)
Lemma read_pad n acc z rest :
  read_digits n acc (pad n z +:+ rest) = Some (acc * 10 ^ Z.of_nat n + z mod 10 ^ Z.of_nat n, rest).
Proof.
  revert acc. induction n as [|n IH]; intros acc.
  - cbn [read_digits pad]. change (10 ^ Z.of_nat 0) with 1. rewrite Z.mod_1_r. do 2 f_equal. lia.
  - cbn [read_digits pad]. rewrite Nat2Z.inj_succ. set (d := z / 10 ^ Z.of_nat n mod 10).
    destruct (digit_digits d eq_refl) as [H1 H2]; [subst d; apply Z.mod_pos_bound; lia|].
    change (String (digit d) (pad n z) +:+ rest) with (String (digit d) (pad n z +:+ rest)). cbn iota.
    rewrite H1, H2, IH. do 2 f_equal. subst d. rewrite (Z.pow_succ_r 10 (Z.of_nat n)) by lia.
    rewrite (Z.mul_comm 10 (10 ^ Z.of_nat n)), Z.rem_mul_r by lia. lia.
Qed.

Lemma read_pad2 z rest : 0 <= z < 100 -> read_digits 2 0 (pad 2 z +:+ rest) = Some (z, rest).
Proof. intros H. rewrite read_pad. do 2 f_equal. by rewrite Z.mod_small. Qed.
Lemma read_pad3 z rest : 0 <= z < 1000 -> read_digits 3 0 (pad 3 z +:+ rest) = Some (z, rest).
Proof. intros H. rewrite read_pad. do 2 f_equal. by rewrite Z.mod_small. Qed.
Lemma read_pad4 z rest : 0 <= z < 10000 -> read_digits 4 0 (pad 4 z +:+ rest) = Some (z, rest).
Proof. intros H. rewrite read_pad. do 2 f_equal. by rewrite Z.mod_small. Qed.

Lemma civil_bounds_era doe :
  0 <= doe < 146097 ->
  let yoe := (doe - doe / 1460 + doe / 36524 - doe / 146096) / 365 in
  let doy := doe - (365 * yoe + yoe / 4 - yoe / 100) in
  let mp := (5 * doy + 2) / 153 in
  0 <= mp < 12 /\ 0 <= doy - (153 * mp + 2) / 5 + 1 < 100.
Proof.
  intros Hdoe yoe doy mp.
  assert (0 <= doy < 366) as Hdoy by (subst doy yoe; Z.to_euclidean_division_equations; lia).
  clearbody doy. subst mp. split; Z.to_euclidean_division_equations; lia.
Qed.

Lemma civil_bounds z :
  let '(y, m, d) := civil_from_days z in 0 <= m < 100 /\ 0 <= d < 100.
Proof.
  unfold civil_from_days.
  pose proof (Z.div_mod (z + 719468) 146097 ltac:(lia)) as Hz.
  pose proof (Z.mod_pos_bound (z + 719468) 146097 ltac:(lia)) as Hb.
  destruct (civil_bounds_era (z + 719468 - (z + 719468) / 146097 * 146097) ltac:(lia)) as [Hm Hd].
  cbv zeta. clear Hz Hb.
  split; [|exact Hd]. match goal with |- context [?a <? 10] => destruct (Z.ltb_spec a 10) end; lia.
Qed.

(** The years with four digits: those of the years 0 to 9999. *)
Definition four_digit_year (t : Z) : bool :=
  let '(y, _, _) := civil_from_days (t / 86400000) in (0 <=? y) && (y <=? 9999).

Lemma read_iso_toISOString t : four_digit_year t = true -> read_iso (toISOString t) = Some t.
Proof.
  unfold four_digit_year, toISOString, year_text.
  pose proof (civil_bounds (t / 86400000)) as Hb. pose proof (days_from_civil_from_days (t / 86400000)) as Hd.
  destruct (civil_from_days (t / 86400000)) as [[y m] d]. intros Hy. rewrite Hy.
  apply andb_true_iff in Hy as [Hy1%Z.leb_le Hy2%Z.leb_le]. destruct Hb as [Hm Hdd].
  set (u := t mod 86400000). assert (0 <= u < 86400000) as Hu by (apply Z.mod_pos_bound; lia).
  assert (t = t / 86400000 * 86400000 + u) as Ht by (subst u; pose proof (Z.div_mod t 86400000); lia).
  unfold read_iso.
  rewrite read_pad4 by lia. cbn [mbind option_bind].
  assert (forall c rest, read_char c (String c EmptyString +:+ rest) = Some rest) as Hc
    by (intros c rest; unfold read_char; change (String c EmptyString +:+ rest) with (String c rest); cbn iota; by rewrite Ascii.eqb_refl).
  do 6 (rewrite Hc; cbn [mbind option_bind];
    first [rewrite read_pad2 by (Z.to_euclidean_division_equations; lia)
          |rewrite read_pad3 by (Z.to_euclidean_division_equations; lia)]; cbn [mbind option_bind]).
  cbn. f_equal. rewrite Hd. Z.to_euclidean_division_equations. lia.
Qed.

Lemma Date_parse_toISOString legacy t :
  four_digit_year t = true -> Date_parse legacy (toISOString t) = Some t.
Proof. intros Ht. unfold Date_parse. rewrite read_iso_toISOString by done. by rewrite bool_decide_eq_true_2. Qed.
