(* ===== verification/Platform.v ===== *)
(** * The services and libraries the program is built on

    Code outside the repository enters the development here, as parameters:
    Redis and BullMQ through interfaces with the documented laws of the commands
    the program uses, and the network, the resolver, the random sources and the
    cryptographic primitives as functions.  Every theorem is stated for an
    arbitrary [Platform]; [TestPlatform.v] instantiates it for the examples. *)

From S2P Require Import Prelude Errors Json.
Open Scope Z_scope.

(** ** Redis

    A key holds a string or an integer counter, and possibly the absolute time
    (ms) at which it expires.  [r_lookup s t k] is the entry a command issued at
    time [t] sees. *)

Inductive rval := RStr (s : string) | RInt (n : Z).

Record rentry := mkEntry { re_val : rval; re_exp : option Z }.

Definition live (t : Z) (e : rentry) : bool :=
  match re_exp e with None => true | Some x => t <? x end.

(** The counter value [INCR] and [DECR] start from. *)
Definition counter_of (o : option rentry) : option Z :=
  match o with
  | None => Some 0
  | Some (mkEntry (RInt n) _) => Some n
  | Some (mkEntry (RStr _) _) => None
  end.

(** Redis rounds the remaining time to the nearest second; [-2] is "no key",
    [-1] "no expiry". *)
Definition ttl_of (t : Z) (o : option rentry) : Z :=
  match o with
  | None => -2
  | Some (mkEntry _ None) => -1
  | Some (mkEntry _ (Some x)) => (x - t + 500) / 1000
  end.

Class RedisServer := {
  rstate : Type;
  r_lookup : rstate -> Z -> string -> option rentry;
  (** [SET k v], [SET k v EX ttl NX], [DEL k] *)
  r_set : string -> string -> rstate -> rstate;
  r_set_nx_ex : Z -> string -> string -> Z -> rstate -> bool * rstate;
  r_del : string -> rstate -> rstate;
  (** [INCR k] / [DECR k] (by [delta]): the new value, [None] on a non-integer *)
  r_incrby : Z -> string -> Z -> rstate -> option Z * rstate;
  (** [EXPIRE k seconds] *)
  r_expire : Z -> string -> Z -> rstate -> rstate;

  (** An entry is visible until its expiry passes. *)
  r_lookup_later s t t' k : t <= t' ->
    r_lookup s t' k = (e ← r_lookup s t k; if live t' e then Some e else None);
  r_lookup_set s t k v k' :
    r_lookup (r_set k v s) t k' = if decide (k = k') then Some (mkEntry (RStr v) None) else r_lookup s t k';
  r_set_nx_ex_result s t k v ttl :
    (r_set_nx_ex t k v ttl s).1 = bool_decide (r_lookup s t k = None);
  r_lookup_set_nx_ex s t k v ttl t' k' : t <= t' ->
    r_lookup (r_set_nx_ex t k v ttl s).2 t' k' =
      if decide (k = k' /\ r_lookup s t k = None)
      then (if t' <? t + 1000 * ttl then Some (mkEntry (RStr v) (Some (t + 1000 * ttl))) else None)
      else r_lookup s t' k';
  r_lookup_del s t k k' :
    r_lookup (r_del k s) t k' = if decide (k = k') then None else r_lookup s t k';
  r_incrby_result s t k d :
    (r_incrby t k d s).1 = (fun n => n + d) <$> counter_of (r_lookup s t k);
  r_lookup_incrby s t k d t' k' : t <= t' ->
    r_lookup (r_incrby t k d s).2 t' k' =
      match decide (k = k'), counter_of (r_lookup s t k) with
      | left _, Some n =>
          let e := mkEntry (RInt (n + d)) (o ← r_lookup s t k; re_exp o) in
          if live t' e then Some e else None
      | _, _ => r_lookup s t' k'
      end;
  r_lookup_expire s t k sec t' k' : t <= t' ->
    r_lookup (r_expire t k sec s) t' k' =
      match decide (k = k'), r_lookup s t k with
      | left _, Some e => if t' <? t + 1000 * sec then Some (mkEntry (re_val e) (Some (t + 1000 * sec))) else None
      | _, _ => r_lookup s t' k'
      end;
}.

(** *** Derived: a command seen at the time it is issued *)

Section redis_now.
Context `{R : RedisServer}.

Definition is_live (now : Z) (o : option rentry) : bool :=
  match o with Some e => live now e | None => true end.

Lemma r_incrby_spec r now k d n e :
  r_lookup r now k = e -> is_live now e = true -> counter_of e = Some n ->
  exists r', r_incrby now k d r = (Some (n + d), r') /\
    r_lookup r' now k = Some (mkEntry (RInt (n + d)) (o ← e; re_exp o)) /\
    forall k', k' <> k -> r_lookup r' now k' = r_lookup r now k'.
Proof.
  intros He Hlive Hn. pose proof (r_incrby_result r now k d) as Hr.
  pose proof (fun k' => r_lookup_incrby r now k d now k' ltac:(lia)) as Hl.
  destruct (r_incrby now k d r) as [v r']. rewrite He, Hn in Hr. cbn in Hr, Hl. subst v.
  exists r'. split; [done|]. split.
  - rewrite (Hl k), He, Hn. destruct (decide (k = k)); [|done]. unfold live.
    destruct e as [[v [x|]]|]; cbn in *; try done. by rewrite Hlive.
  - intros k' Hk. rewrite (Hl k'). by destruct (decide (k = k')).
Qed.

Lemma r_expire_spec r now k sec e :
  r_lookup r now k = Some e -> 0 < sec ->
  r_lookup (r_expire now k sec r) now k = Some (mkEntry (re_val e) (Some (now + 1000 * sec))) /\
  forall k', k' <> k -> r_lookup (r_expire now k sec r) now k' = r_lookup r now k'.
Proof.
  intros He Hs. split.
  - rewrite r_lookup_expire, He by lia. destruct (decide (k = k)); [|done].
    by destruct (Z.ltb_spec now (now + 1000 * sec)); [|lia].
  - intros k' Hk. rewrite r_lookup_expire by lia. by destruct (decide (k = k')).
Qed.

End redis_now.

(** ** BullMQ

    A job is known by its id.  Adding a job whose id is already in the queue is
    ignored. *)

Record JobData := mkJobData { jd_deliveryId : string; jd_tenantId : option string }.

Record Job := mkJob {
  job_name : string;
  job_data : JobData;
  job_id : string;
  job_attempts : Z;
}.

#[export] Instance JobData_eq_dec : EqDecision JobData.
Proof. solve_decision. Defined.
#[export] Instance Job_eq_dec : EqDecision Job.
Proof. solve_decision. Defined.

Definition first_with_id (id : string) (js : list Job) : option Job :=
  snd <$> list_find (fun j => job_id j = id) js.

Class JobQueue := {
  qstate : Type;
  q_lookup : qstate -> string -> option Job;
  q_add_bulk : list Job -> qstate -> qstate;
  q_lookup_add_bulk js q id :
    q_lookup (q_add_bulk js q) id =
      match q_lookup q id with Some j => Some j | None => first_with_id id js end;
}.

(** ** HTTP, DNS, URLs *)

Record HttpRequest := mkRequest {
  rq_url : string;
  rq_headers : list (string * string);
  rq_body : string;
}.

(** The receiver answers with a status and a body, or the request throws; both
    after some milliseconds. *)
Inductive HttpReply :=
| Responds (statusCode : Z) (text : string) (latency : Z)
| Fails (e : exn) (latency : Z).

(** The parts of a parsed URL the code reads. *)
Record URL := mkURL {
  url_protocol : string;
  url_username : string;
  url_password : string;
  url_hostname : string;
}.

Class Platform := {
  pf_redis :: RedisServer;
  pf_queue :: JobQueue;
  (** [randomUUID()] and [Math.random() * 2^53], by draw *)
  randomUUID : nat -> string;
  Math_random : nat -> Z;
  randomBytes : nat -> nat -> string;
  (** the WHATWG URL parser, [None] where it throws *)
  parse_url : string -> option URL;
  (** [undici]: whether an open socket of the origin serves the request, and the
      reply of the receiver; the resolver's answer; all by draw *)
  socket_pooled : nat -> HttpRequest -> bool;
  http_reply : nat -> HttpRequest -> HttpReply;
  dns_lookup : nat -> string -> exn + list string;
  (** a [jsonb] column keeps an equivalent value, not the text *)
  jsonb_store : json -> json;
  (** the text of the errors that libraries build *)
  lib_message : exn -> string;
  (** [Buffer.from(text)] and [buf.toString('utf8')]: the first is undone by the second,
      which is lossy on bytes that are not UTF-8 *)
  utf8_encode : string -> string;
  utf8_decode : string -> string;
  utf8_decode_encode s : utf8_decode (utf8_encode s) = s;
  (** crypto: hex digests, and AES-256-GCM as (tag, ciphertext) *)
  sha256_hex : string -> string;
  hmac_sha256_hex : string -> string -> string;
  aes_gcm_encrypt : string -> string -> string -> string * string;
  aes_gcm_decrypt : string -> string -> string -> string -> option string;
}.
