(* ===== verification/Queue.v ===== *)
(** * The queue contract: [queue/queue.constants.ts]

    Job ids, and the queue seen through them. *)

From S2P Require Import Prelude Json Platform.
Open Scope Z_scope.

(** [deliveryJobId]: an absent (or empty) suffix adds nothing. *)
Definition deliveryJobId (deliveryId : string) (suffix : option string) : string :=
  match suffix with
  | Some (String _ _ as s) => "dlv-" +:+ (deliveryId +:+ ("-" +:+ s))
  | _ => "dlv-" +:+ deliveryId
  end.

(** Strings of equal length split an equation of concatenations. *)
Lemma str_app_inj_length (a b c d : string) :
  String.length a = String.length b -> a +:+ c = b +:+ d -> a = b /\ c = d.
Proof.
  revert b. induction a as [|x a IH]; intros [|y b] Hl Heq; try done.
  injection Heq as -> Heq. injection Hl as Hl. destruct (IH b Hl Heq) as [-> ->]. done.
Qed.

Lemma deliveryJobId_inj id1 s1 id2 s2 :
  String.length id1 = String.length id2 -> s1 <> Some EmptyString -> s2 <> Some EmptyString ->
  deliveryJobId id1 s1 = deliveryJobId id2 s2 -> id1 = id2 /\ s1 = s2.
Proof.
  intros Hl H1 H2 Heq.
  assert (forall id s, s <> Some EmptyString -> deliveryJobId id s =
    "dlv-" +:+ (id +:+ match s with Some t => "-" +:+ t | None => EmptyString end)) as Hform.
  { intros id [[|c t]|] Hs; cbn; [done|done|]. by rewrite str_app_nil. }
  rewrite !Hform in Heq by done. apply (inj (String.append _)) in Heq.
  apply str_app_inj_length in Heq as [-> Hs]; [|done]. split; [done|].
  destruct s1 as [t1|], s2 as [t2|]; try done. apply (inj (String.append "-")) in Hs. congruence.
Qed.

(** A job id contains no [:] if its parts contain none. *)
Lemma deliveryJobId_no_colon id s :
  str_forall (fun c => negb (Ascii.eqb c ":")) id = true ->
  str_forall (fun c => negb (Ascii.eqb c ":")) (default EmptyString s) = true ->
  str_forall (fun c => negb (Ascii.eqb c ":")) (deliveryJobId id s) = true.
Proof.
  intros Hid Hs. unfold deliveryJobId. destruct s as [[|c t]|]; rewrite !str_forall_app, Hid; try done.
Qed.

(** ** Queues with the same jobs *)

Section queue_equiv.
Context `{Q : JobQueue}.

Definition queue_eq (q1 q2 : qstate) : Prop := forall id, q_lookup q1 id = q_lookup q2 id.

#[export] Instance queue_eq_equivalence : Equivalence queue_eq.
Proof. split; [done|by intros ?? H id|intros ??? H1 H2 id; by rewrite H1, H2]. Qed.

#[export] Instance q_add_bulk_proper : Proper (eq ==> queue_eq ==> queue_eq) q_add_bulk.
Proof. intros js ? <- q1 q2 H id. by rewrite !q_lookup_add_bulk, H. Qed.

#[export] Instance q_lookup_proper : Proper (queue_eq ==> eq ==> eq) q_lookup.
Proof. intros q1 q2 H id ? <-. apply H. Qed.

(** Adding jobs again changes nothing. *)
Lemma q_add_bulk_idemp js q : queue_eq (q_add_bulk js (q_add_bulk js q)) (q_add_bulk js q).
Proof.
  intros id. rewrite !q_lookup_add_bulk. destruct (q_lookup q id); [done|].
  by destruct (first_with_id id js).
Qed.

Lemma q_add_bulk_present js q id : is_Some (q_lookup q id) -> is_Some (q_lookup (q_add_bulk js q) id).
Proof. intros [j Hj]. rewrite q_lookup_add_bulk, Hj. by eexists. Qed.

Lemma q_add_bulk_added js q j :
  j ∈ js -> is_Some (q_lookup (q_add_bulk js q) (job_id j)).
Proof.
  intros Hj. rewrite q_lookup_add_bulk. destruct (q_lookup q (job_id j)); [by eexists|].
  unfold first_with_id. destruct (list_find_elem_of (fun j' => job_id j' = job_id j) js j Hj eq_refl) as [[i j'] ->].
  by eexists.
Qed.

End queue_equiv.
