(* ===== verification/ToNumber.v ===== *)
(** * [Number(s)] on a string

    ECMAScript's StringToNumber, as the exact value of the literal: white space is
    trimmed, the empty text is 0, then a binary, octal or hexadecimal integer, or a
    signed decimal literal or Infinity; anything else is NaN.  The rounding of the
    value to a double is left out. *)

From S2P Require Import Prelude Json.
Open Scope Z_scope.

(** [Decimal m e] is [m * 10^e]. *)
Inductive number := NotANumber | Infinite | Decimal (m e : Z).

(** TAB, LF, VT, FF, CR, SP and NBSP: the white space among 8-bit characters. *)
Definition js_ws (c : ascii) : bool :=
  let n := N_of_ascii c in ((9 <=? n) && (n <=? 13) || (n =? 32) || (n =? 160))%N.

Fixpoint trim_start (s : string) : string :=
  match s with String c s' => if js_ws c then trim_start s' else s | EmptyString => s end.

Fixpoint trim_end (s : string) : string :=
  match s with
  | EmptyString => EmptyString
  | String c s' =>
      match trim_end s' with
      | EmptyString => if js_ws c then EmptyString else str1 c
      | t => String c t
      end
  end.

Fixpoint radix_digits (base : N) (acc : N) (s : string) : option N :=
  match s with
  | EmptyString => Some acc
  | String c s' => d ← hex_value c; if (d <? base)%N then radix_digits base (acc * base + d) s' else None
  end.

Definition radix_literal (base : N) (s : string) : number :=
  match s with
  | EmptyString => NotANumber
  | _ => match radix_digits base 0 s with Some n => Decimal (Z.of_N n) 0 | None => NotANumber end
  end.

Definition sign (s : string) : bool * string :=
  match s with
  | String c s' => if Ascii.eqb c "-" then (true, s') else if Ascii.eqb c "+" then (false, s') else (false, s)
  | EmptyString => (false, s)
  end.

(** An optional exponent, up to the end of the text. *)
Definition exponent (s : string) : option Z :=
  match s with
  | EmptyString => Some 0
  | String c s' =>
      if Ascii.eqb c "e" || Ascii.eqb c "E" then
        let '(neg, d) := sign s' in
        let '(d, r) := digits d in
        match r, d, undec d with
        | EmptyString, String _ _, Some n => Some (if neg then - Z.of_N n else Z.of_N n)
        | _, _, _ => None
        end
      else None
  end.

Definition unsigned_decimal (s : string) : number :=
  let '(i, r) := digits s in
  let '(f, r) := match r with
    | String c r' => if Ascii.eqb c "." then digits r' else (EmptyString, r)
    | EmptyString => (EmptyString, r) end in
  match i +:+ f, undec (i +:+ f), exponent r with
  | String _ _, Some m, Some e => Decimal (Z.of_N m) (e - Z.of_nat (String.length f))
  | _, _, _ => NotANumber
  end.

Definition signed_decimal (s : string) : number :=
  let '(neg, r) := sign s in
  if String.eqb r "Infinity" then Infinite
  else match unsigned_decimal r with
       | Decimal m e => Decimal (if neg : bool then - m else m) e
       | n => n
       end.

Definition Number (s : string) : number :=
  match trim_end (trim_start s) with
  | EmptyString => Decimal 0 0
  | String "0" (String x r) as t =>
      if Ascii.eqb x "x" || Ascii.eqb x "X" then radix_literal 16 r
      else if Ascii.eqb x "o" || Ascii.eqb x "O" then radix_literal 8 r
      else if Ascii.eqb x "b" || Ascii.eqb x "B" then radix_literal 2 r
      else signed_decimal t
  | t => signed_decimal t
  end.

Example number_spaces : Number " 0x1F " = Decimal 31 0.
Proof. reflexivity. Qed.
Example number_fraction : Number "-12.50e2" = Decimal (-1250) 0.
Proof. reflexivity. Qed.
Example number_dot : Number ".5" = Decimal 5 (-1).
Proof. reflexivity. Qed.
Example number_bad : Number "12a" = NotANumber.
Proof. reflexivity. Qed.

(** ** Reading back a printed integer *)

Lemma digit_no_ws c : is_digit c = true -> js_ws c = false.
Proof. by destruct c as [[] [] [] [] [] [] [] []]. Qed.

Lemma trim_end_none s : str_forall (fun c => negb (js_ws c)) s = true -> trim_end s = s.
Proof.
  induction s as [|c s IH]; [done|]. cbn. intros [Hc%negb_true_iff Hs]%andb_true_iff. rewrite IH by done.
  rewrite Hc. by destruct s.
Qed.

Lemma trim_none s : str_forall (fun c => negb (js_ws c)) s = true -> trim_end (trim_start s) = s.
Proof.
  intros H. rewrite <- (trim_end_none s H) at 2. f_equal. destruct s as [|c s]; [done|]. cbn in *.
  apply andb_true_iff in H as [Hc%negb_true_iff _]. by rewrite Hc.
Qed.

Lemma decZ_no_ws z : str_forall (fun c => negb (js_ws c)) (decZ z) = true.
Proof.
  assert (forall n, str_forall (fun c => negb (js_ws c)) (dec n) = true) as H.
  { intros n. eapply str_forall_impl; [|apply dec_digits]. intros c Hc. by rewrite digit_no_ws. }
  destruct z; cbn [decZ]; [apply H|apply H|]. cbn. apply H.
Qed.

Lemma unsigned_decimal_dec n : unsigned_decimal (dec n) = Decimal (Z.of_N n) 0.
Proof.
  unfold unsigned_decimal. pose proof (digits_app (dec n) EmptyString (dec_digits n) I) as H.
  rewrite str_app_nil in H. rewrite H, str_app_nil, undec_dec. cbn [exponent].
  pose proof (undec_dec n) as U. by destruct (dec n).
Qed.

Lemma dec_not_infinity n : String.eqb (dec n) "Infinity" = false.
Proof. destruct (String.eqb_spec (dec n) "Infinity") as [E|]; [|done]. pose proof (dec_digits n) as H. by rewrite E in H. Qed.

Lemma sign_dec n : sign (dec n) = (false, dec n).
Proof.
  pose proof (dec_digits n) as H. unfold sign. destruct (dec n) as [|c s]; [done|]. cbn in H.
  apply andb_true_iff in H as [H _]. destruct (Ascii.eqb_spec c "-") as [->|]; [done|].
  by destruct (Ascii.eqb_spec c "+") as [->|].
Qed.

(** A radix prefix has a letter, which a printed integer does not. *)
Lemma Number_no_radix s :
  str_forall (fun c => is_digit c || Ascii.eqb c "-") s = true -> s <> EmptyString -> Number s = signed_decimal s.
Proof.
  intros H Hs. unfold Number. rewrite trim_none.
  2:{ eapply str_forall_impl; [|exact H]. intros c Hc. apply negb_true_iff.
      apply orb_true_iff in Hc as [Hc|Hc%Ascii.eqb_eq]; [by apply digit_no_ws|by subst]. }
  destruct s as [|c s]; [done|]. destruct s as [|x r]; [by destruct c as [[] [] [] [] [] [] [] []]|].
  cbn in H. apply andb_true_iff in H as [_ [Hx _]%andb_true_iff].
  assert (forall y, is_digit y || Ascii.eqb y "-" = false -> Ascii.eqb x y = false) as Hne.
  { intros y Hy. destruct (Ascii.eqb_spec x y) as [->|]; [congruence|done]. }
  rewrite !Hne by done. cbn [orb]. by destruct c as [[] [] [] [] [] [] [] []].
Qed.

Lemma Number_decZ z : Number (decZ z) = Decimal z 0.
Proof.
  assert (forall n, str_forall (fun c => is_digit c || Ascii.eqb c "-") (dec n) = true) as Hd.
  { intros n. eapply str_forall_impl; [|apply dec_digits]. by intros c ->. }
  assert (forall n, dec n <> EmptyString) as Hne by (intros n E; pose proof (undec_dec n) as U; by rewrite E in U).
  rewrite Number_no_radix; cycle 1.
  { destruct z; cbn [decZ]; [apply Hd|apply Hd|]. cbn. apply Hd. }
  { destruct z; cbn [decZ]; [apply Hne|apply Hne|done]. }
  unfold signed_decimal. destruct z as [|p|p]; cbn [decZ].
  - done.
  - rewrite sign_dec, dec_not_infinity, unsigned_decimal_dec. done.
  - change (sign ("-" +:+ dec (Z.to_N (- Z.neg p)))) with (true, dec (Z.to_N (- Z.neg p))).
    cbv beta iota. rewrite dec_not_infinity, unsigned_decimal_dec. done.
Qed.
