(* ===== verification/RedisConnection.v ===== *)
(** * Connection options from the Redis URL: [queue/redis-connection.ts]

    What BullMQ is given to connect with, as a function of the parsed [REDIS_URL].
    The URL parser of the runtime is an argument ([new_URL]); it raises on a text
    that is no URL. *)

From S2P Require Import Prelude Json ToNumber.
Open Scope Z_scope.

(** The parts of a [URL] object that the function reads, or could read. *)
Record RedisURL := mkRedisURL {
  ru_protocol : string;
  ru_username : string;
  ru_password : string;
  ru_hostname : string;
  ru_port : string;
  ru_pathname : string;
}.

(** [password] and [db] are left out of the object when they are not given. *)
Record ConnectionOptions := mkConnectionOptions {
  co_host : string;
  co_port : number;
  co_password : option string;
  co_db : option number;
  co_maxRetriesPerRequest : option Z;
}.

(** [s.slice(1)] *)
Definition slice1 (s : string) : string := match s with String _ s' => s' | EmptyString => EmptyString end.

Definition options_of (url : RedisURL) : ConnectionOptions :=
  mkConnectionOptions (ru_hostname url)
    (match ru_port url with EmptyString => Decimal 6379 0 | p => Number p end)
    (match ru_password url with EmptyString => None | p => Some p end)
    (if negb (String.eqb (ru_pathname url) EmptyString) && negb (String.eqb (ru_pathname url) "/")
     then Some (Number (slice1 (ru_pathname url))) else None)
    None.

Section connection.
Variable new_URL : string -> option RedisURL.

(** [None] is the exception of [new URL]. *)
Definition redisConnectionFromUrl (redisUrl : string) : option ConnectionOptions := options_of <$> new_URL redisUrl.

End connection.

(** A URL with a printed port and database number is read back. *)
Theorem connection_reads_back protocol user password host port db :
  0 <= port -> 0 <= db ->
  let o := options_of (mkRedisURL protocol user password host (decZ port) ("/" +:+ decZ db)) in
  co_host o = host /\ co_port o = Decimal port 0 /\ co_db o = Some (Decimal db 0) /\
  co_password o = (if String.eqb password EmptyString then None else Some password).
Proof.
  intros Hp Hd. cbn zeta. unfold options_of. cbn [ru_hostname ru_port ru_pathname ru_password co_host co_port co_db co_password].
  pose proof (Number_decZ port) as Np. pose proof (Number_decZ db) as Nd. split; [done|]. split; [|split].
  - destruct (decZ port) as [|c s] eqn:E; [|exact Np].
    assert (Number (decZ port) = Decimal 0 0) as N0 by by rewrite E. rewrite Number_decZ in N0. injection N0 as ->. done.
  - change ("/" +:+ decZ db) with (String "/" (decZ db)). cbn [slice1]. rewrite Nd.
    destruct (decZ db) eqn:E; [|done]. assert (Number (decZ db) = Decimal 0 0) as N0 by by rewrite E.
    rewrite Number_decZ in N0. injection N0 as ->. done.
  - by destruct password.
Qed.

(** The scheme (so TLS) and the user name of the URL are not passed on. *)
Theorem scheme_and_user_ignored p u p' u' password host port path :
  options_of (mkRedisURL p u password host port path) = options_of (mkRedisURL p' u' password host port path).
Proof. done. Qed.

(** Without a port or a database: 6379, and the server's default database. *)
Example default_connection :
  options_of (mkRedisURL "redis:" "" "" "redis" "" "/") = mkConnectionOptions "redis" (Decimal 6379 0) None None None.
Proof. reflexivity. Qed.
