(* ===== verification/Schema.v ===== *)
(** * The database: [prisma/schema.prisma]

    One record per model, one map per table keyed by the primary key, with the
    sequences of the autoincrement keys.  Foreign keys hold the key of the other
    table's row.  Times are milliseconds. *)

From S2P Require Import Prelude Json.
Open Scope Z_scope.

Inductive TenantPlan := FREE | PRO.
Inductive TenantStatus := TENANT_ACTIVE | TENANT_SUSPENDED.
Inductive ApiKeyStatus := KEY_ACTIVE | KEY_GRACE | KEY_REVOKED.
Inductive EndpointStatus := ACTIVE | DISABLED_AUTO | DISABLED_MANUAL.
Inductive OutboxStatus := OUTBOX_PENDING | OUTBOX_PUBLISHED.
Inductive DeliveryStatus := PENDING | SUCCEEDED | FAILED_RETRYING | DEAD.
Inductive AttemptErrorClass := TIMEOUT | CONN_REFUSED | HTTP_4XX | HTTP_5XX | SSRF_BLOCKED | CIRCUIT_OPEN.

#[export] Instance TenantPlan_eq_dec : EqDecision TenantPlan. Proof. solve_decision. Defined.
#[export] Instance TenantStatus_eq_dec : EqDecision TenantStatus. Proof. solve_decision. Defined.
#[export] Instance ApiKeyStatus_eq_dec : EqDecision ApiKeyStatus. Proof. solve_decision. Defined.
#[export] Instance EndpointStatus_eq_dec : EqDecision EndpointStatus. Proof. solve_decision. Defined.
#[export] Instance OutboxStatus_eq_dec : EqDecision OutboxStatus. Proof. solve_decision. Defined.
#[export] Instance DeliveryStatus_eq_dec : EqDecision DeliveryStatus. Proof. solve_decision. Defined.
#[export] Instance AttemptErrorClass_eq_dec : EqDecision AttemptErrorClass. Proof. solve_decision. Defined.

Record Tenant := mkTenant {
  tn_name : string;
  tn_plan : TenantPlan;
  tn_status : TenantStatus;
  tn_createdAt : Z;
}.

Record ApiKey := mkApiKey {
  ak_tenantId : string;
  ak_keyHash : string;
  ak_last4 : string;
  ak_status : ApiKeyStatus;
  ak_expiresAt : option Z;
  ak_createdAt : Z;
}.

Record Endpoint := mkEndpoint {
  ep_tenantId : string;
  ep_url : string;
  ep_secretEnc : string;
  ep_status : EndpointStatus;
  ep_description : option string;
  ep_consecutiveFailures : Z;
  ep_createdAt : Z;
  ep_updatedAt : Z;
}.

Record Subscription := mkSubscription {
  sb_endpointId : string;
  sb_eventType : string;
}.

Record Event := mkEvent {
  ev_tenantId : string;
  ev_type : string;
  ev_payload : json;
  ev_idempotencyKey : string;
  ev_createdAt : Z;
}.

Record OutboxMessage := mkOutbox {
  ob_eventId : string;
  ob_deliveryId : option string;
  ob_status : OutboxStatus;
  ob_publishedAt : option Z;
  ob_createdAt : Z;
}.

Record Delivery := mkDelivery {
  dl_eventId : string;
  dl_endpointId : string;
  dl_status : DeliveryStatus;
  dl_attemptCount : Z;
  dl_nextRetryAt : option Z;
  dl_createdAt : Z;
  dl_updatedAt : Z;
}.

Record DeliveryAttempt := mkAttempt {
  at_deliveryId : string;
  at_attemptNo : Z;
  at_requestHeadersDigest : string;
  at_responseStatus : option Z;
  at_responseBodyHead : option string;
  at_errorClass : option AttemptErrorClass;
  at_durationMs : option Z;
  at_attemptedAt : Z;
}.

Record Db := mkDb {
  tenants : gmap string Tenant;
  apiKeys : gmap string ApiKey;
  endpoints : gmap string Endpoint;
  subscriptions : gmap Z Subscription;
  events : gmap string Event;
  outbox : gmap Z OutboxMessage;
  deliveries : gmap string Delivery;
  attempts : gmap Z DeliveryAttempt;
  (** next values of the autoincrement keys *)
  subscription_seq : Z;
  outbox_seq : Z;
  attempt_seq : Z;
}.

Definition empty_db : Db := mkDb ∅ ∅ ∅ ∅ ∅ ∅ ∅ ∅ 1 1 1.

(** ** Updating one table *)

Definition set_tenants f d := mkDb (f (tenants d)) (apiKeys d) (endpoints d) (subscriptions d)
  (events d) (outbox d) (deliveries d) (attempts d) (subscription_seq d) (outbox_seq d) (attempt_seq d).
Definition set_apiKeys f d := mkDb (tenants d) (f (apiKeys d)) (endpoints d) (subscriptions d)
  (events d) (outbox d) (deliveries d) (attempts d) (subscription_seq d) (outbox_seq d) (attempt_seq d).
Definition set_endpoints f d := mkDb (tenants d) (apiKeys d) (f (endpoints d)) (subscriptions d)
  (events d) (outbox d) (deliveries d) (attempts d) (subscription_seq d) (outbox_seq d) (attempt_seq d).
Definition set_subscriptions f n d := mkDb (tenants d) (apiKeys d) (endpoints d) (f (subscriptions d))
  (events d) (outbox d) (deliveries d) (attempts d) n (outbox_seq d) (attempt_seq d).
Definition set_events f d := mkDb (tenants d) (apiKeys d) (endpoints d) (subscriptions d)
  (f (events d)) (outbox d) (deliveries d) (attempts d) (subscription_seq d) (outbox_seq d) (attempt_seq d).
Definition set_outbox f n d := mkDb (tenants d) (apiKeys d) (endpoints d) (subscriptions d)
  (events d) (f (outbox d)) (deliveries d) (attempts d) (subscription_seq d) n (attempt_seq d).
Definition set_deliveries f d := mkDb (tenants d) (apiKeys d) (endpoints d) (subscriptions d)
  (events d) (outbox d) (f (deliveries d)) (attempts d) (subscription_seq d) (outbox_seq d) (attempt_seq d).
Definition set_attempts f n d := mkDb (tenants d) (apiKeys d) (endpoints d) (subscriptions d)
  (events d) (outbox d) (deliveries d) (f (attempts d)) (subscription_seq d) (outbox_seq d) n.
