(* ===== verification/Registry.v ===== *)
(** * The Prometheus registry: [metrics/registry.ts]

    The metrics every process registers, as data, with the rule that the file's
    comment states: labels take their values from closed sets only, never the id of
    a tenant, an endpoint or an event.  [call_ok] is that rule for one call,
    together with what prom-client refuses at run time (a label the metric does not
    declare, a counter that goes down).  [call_acceptable] needs nothing but the
    declarations below, so a program that keeps it cannot make a metric throw. *)

From Stdlib Require Import QArith.
From S2P Require Import Prelude.
Open Scope Z_scope.

Inductive Metric :=
| httpRequestsTotal
| httpRequestDuration
| eventsPublishedTotal
| eventsRateLimitedTotal
| deliveriesTotal
| deliveryDuration
| deliveryErrorsTotal
| circuitOpenTotal
| tenantLimiterDeferredTotal
| outboxPublishedTotal
| outboxPending
| queueJobs.

#[export] Instance Metric_eq_dec : EqDecision Metric.
Proof. solve_decision. Defined.

Inductive Kind := Counter | Gauge | Histogram (buckets : list Q).

Record MetricDef := mkMetricDef {
  md_name : string;
  md_kind : Kind;
  md_labelNames : list string;
}.

(** A decimal fraction in thousandths. *)
Definition milli (z : Z) : Q := Qmake z 1000.

Definition metric_def (m : Metric) : MetricDef :=
  match m with
  | httpRequestsTotal => mkMetricDef "hookrelay_http_requests_total" Counter ["method"; "route"; "status"]
  | httpRequestDuration =>
      mkMetricDef "hookrelay_http_request_duration_seconds"
        (Histogram (map milli [5; 10; 25; 50; 100; 250; 500; 1000; 2500])) ["method"; "route"]
  | eventsPublishedTotal => mkMetricDef "hookrelay_events_published_total" Counter []
  | eventsRateLimitedTotal => mkMetricDef "hookrelay_events_rate_limited_total" Counter ["plan"]
  | deliveriesTotal => mkMetricDef "hookrelay_deliveries_total" Counter ["result"]
  | deliveryDuration =>
      mkMetricDef "hookrelay_delivery_duration_seconds"
        (Histogram (map milli [50; 100; 250; 500; 1000; 2500; 5000; 10000; 15000])) []
  | deliveryErrorsTotal => mkMetricDef "hookrelay_delivery_errors_total" Counter ["error_class"]
  | circuitOpenTotal => mkMetricDef "hookrelay_circuit_open_total" Counter []
  | tenantLimiterDeferredTotal => mkMetricDef "hookrelay_tenant_limiter_deferred_total" Counter []
  | outboxPublishedTotal => mkMetricDef "hookrelay_outbox_published_total" Counter []
  | outboxPending => mkMetricDef "hookrelay_outbox_pending" Gauge []
  | queueJobs => mkMetricDef "hookrelay_queue_jobs" Gauge ["state"]
  end.

Definition metrics : list Metric :=
  [httpRequestsTotal; httpRequestDuration; eventsPublishedTotal; eventsRateLimitedTotal; deliveriesTotal;
   deliveryDuration; deliveryErrorsTotal; circuitOpenTotal; tenantLimiterDeferredTotal; outboxPublishedTotal;
   outboxPending; queueJobs].

Lemma metrics_complete m : m ∈ metrics.
Proof. destruct m; apply (bool_decide_unpack _); vm_compute; done. Qed.

(** The registry refuses a second metric of the same name. *)
Lemma metric_names_distinct m m' : md_name (metric_def m) = md_name (metric_def m') -> m = m'.
Proof. destruct m, m'; cbn; intros [=]; done. Qed.

(** ** Calls *)

(** [inc(labels, value)], [set(labels, value)], [observe(labels, value)] *)
Inductive MetricOp := MInc | MSet | MObserve.

Definition op_of_kind (k : Kind) : MetricOp :=
  match k with Counter => MInc | Gauge => MSet | Histogram _ => MObserve end.

#[export] Instance series_eq_dec : EqDecision (Metric * list (string * string)).
Proof. solve_decision. Defined.

#[export] Instance MetricOp_eq_dec : EqDecision MetricOp.
Proof. solve_decision. Defined.

(** The closed sets of the rule, by label name.  Express lets GET routes answer HEAD. *)
Definition http_methods : list string := ["GET"; "POST"; "PATCH"; "PUT"; "HEAD"].

Definition http_routes : list string :=
  ["/tenants"; "/api-keys/rotate"; "/endpoints"; "/endpoints/:id"; "/endpoints/:id/subscriptions";
   "/endpoints/:id/ping"; "/events"; "/events/:id/deliveries"; "/deliveries"; "/deliveries/:id/attempts";
   "/deliveries/:id/redeliver"; "/metrics"].

Definition label_values (name : string) : list string :=
  if String.eqb name "method" then http_methods
  else if String.eqb name "route" then http_routes
  else if String.eqb name "status" then ["200"; "201"; "202"]
  else if String.eqb name "plan" then ["FREE"; "PRO"]
  else if String.eqb name "result" then
    ["SUCCEEDED"; "FAILED"; "DEAD"; "CIRCUIT_OPEN"; "SKIPPED_MISSING"; "SKIPPED_ALREADY_DONE";
     "SKIPPED_ENDPOINT_INACTIVE"; "SKIPPED_DUPLICATE_CLAIM"]
  else if String.eqb name "error_class" then
    ["TIMEOUT"; "CONN_REFUSED"; "HTTP_4XX"; "HTTP_5XX"; "SSRF_BLOCKED"; "CIRCUIT_OPEN"]
  else if String.eqb name "state" then ["wait"; "active"; "delayed"; "failed"]
  else [].

Definition label_ok (l : string * string) : bool := bool_decide (l.2 ∈ label_values l.1).

(** The label sets a metric can have under the rule. *)
Fixpoint label_sets (names : list string) : list (list (string * string)) :=
  match names with
  | [] => [[]]
  | name :: names => v ← label_values name; map (cons (name, v)) (label_sets names)
  end.

(** A time series of the exposition: of a counter or a gauge its value; of a histogram
    each bucket, the one of [+Inf], the sum and the count. *)
Inductive Part := Value | Bucket (le : Q) | InfBucket | Sum | Count.

#[export] Instance Q_eq_dec : EqDecision Q.
Proof. solve_decision. Defined.
#[export] Instance Part_eq_dec : EqDecision Part.
Proof. solve_decision. Defined.

Definition parts (k : Kind) : list Part :=
  match k with Counter | Gauge => [Value] | Histogram buckets => map Bucket buckets ++ [InfBucket; Sum; Count] end.

Definition series : Type := Metric * list (string * string) * Part.

(** The time series of one label set of a metric. *)
Definition series_at (m : Metric) (labels : list (string * string)) : list series :=
  map (pair (m, labels)) (parts (md_kind (metric_def m))).

(** prom-client starts a metric without labels at zero. *)
Definition initial_series : list series :=
  m ← metrics; match md_labelNames (metric_def m) with [] => series_at m [] | _ => [] end.

(** Those that the rule admits. *)
Definition all_series : list series :=
  m ← metrics; labels ← label_sets (md_labelNames (metric_def m)); series_at m labels.

(** What prom-client checks: the operation of the metric's kind, its labels, and a
    counter that only grows. *)
Definition call_acceptable (op : MetricOp) (m : Metric) (labels : list (string * string)) (v : Q) : bool :=
  bool_decide (op = op_of_kind (md_kind (metric_def m))) &&
  bool_decide (map fst labels = md_labelNames (metric_def m)) &&
  match op with MInc => Qle_bool 0 v | _ => true end.

(** The rule of the registry. *)
Definition call_ok (op : MetricOp) (m : Metric) (labels : list (string * string)) (v : Q) : bool :=
  call_acceptable op m labels v && forallb label_ok labels.

Lemma label_sets_complete labels :
  forallb label_ok labels = true -> labels ∈ label_sets (map fst labels).
Proof.
  induction labels as [|[name v] labels IH]; cbn; [intros _; by constructor|].
  intros [Hv Hl]%andb_prop. apply list_elem_of_bind. exists v. split; [|by apply bool_decide_eq_true in Hv].
  apply list_elem_of_fmap. eauto.
Qed.

(** A call that keeps the rule is about finitely many series. *)
Lemma call_ok_series op m labels v s : call_ok op m labels v = true -> s ∈ series_at m labels -> s ∈ all_series.
Proof.
  unfold call_ok, call_acceptable. intros [[[_ Hn]%andb_prop _]%andb_prop Hl]%andb_prop Hs.
  apply bool_decide_eq_true in Hn. apply list_elem_of_bind. exists m. split; [|apply metrics_complete].
  apply list_elem_of_bind. exists labels. split; [done|]. rewrite <- Hn. by apply label_sets_complete.
Qed.

Lemma initial_series_ok s : s ∈ initial_series -> s ∈ all_series.
Proof.
  unfold initial_series, all_series. rewrite !list_elem_of_bind. intros (m & Hs & Hm). exists m. split; [|done].
  destruct (md_labelNames (metric_def m)); [|by apply not_elem_of_nil in Hs]. cbn. by rewrite app_nil_r.
Qed.

Lemma all_series_number : length all_series = 937%nat.
Proof. by vm_compute. Qed.

Lemma call_ok_published n : call_ok MInc outboxPublishedTotal [] (inject_Z (Z.of_nat n)) = true.
Proof.
  unfold call_ok, call_acceptable. cbn -[inject_Z]. rewrite andb_true_r.
  apply Qle_bool_iff. change 0%Q with (inject_Z 0). rewrite <- Zle_Qle. lia.
Qed.

(** ** The registry of one process *)

Inductive Component := api_component | worker_component | relay_component.

Record Registry := mkRegistry {
  rg_defaultMetricsBound : bool;
  rg_collected : nat;                      (** calls of [collectDefaultMetrics] *)
  rg_defaultLabels : option Component;
}.

Definition registry : Registry := mkRegistry false 0 None.

Definition ensureDefaultMetrics (r : Registry) : Registry :=
  if rg_defaultMetricsBound r then r
  else mkRegistry true (S (rg_collected r)) (rg_defaultLabels r).

Definition labelComponent (c : Component) (r : Registry) : Registry :=
  mkRegistry (rg_defaultMetricsBound r) (rg_collected r) (Some c).

(** However often API, worker and relay start in one process, the default metrics
    are collected once: a second [collectDefaultMetrics] would throw. *)
Inductive registry_step : Registry -> Registry -> Prop :=
| rs_ensure r : registry_step r (ensureDefaultMetrics r)
| rs_label c r : registry_step r (labelComponent c r).

Lemma collected_once r :
  rtc registry_step registry r -> (rg_collected r <= 1)%nat /\ (rg_defaultMetricsBound r = true <-> rg_collected r = 1%nat).
Proof.
  apply (rtc_ind_r (fun r => (rg_collected r <= 1)%nat /\ (rg_defaultMetricsBound r = true <-> rg_collected r = 1%nat))).
  - cbn. split; [lia|done].
  - intros r1 r2 _ [|c r'] [Hle Hb]; [|done].
    unfold ensureDefaultMetrics. destruct (rg_defaultMetricsBound _) eqn:E; [by rewrite E|]. cbn.
    destruct (rg_collected r0) as [|[]]; [lia| |lia]. destruct Hb as [_ Hb]. by discriminate Hb.
Qed.
