(* ===== verification/World.v ===== *)
(** * The shared state and the primitive actions

    [World] is everything the API, relay and worker processes share (database,
    Redis, queue, the clock, the random sources) together with the worker
    processes' endpoint caches and the trace of what left the system.  A [stm] is
    one database statement or a transaction body; the other actions wrap one
    command of a service each. *)

From Stdlib Require Import QArith_base.
From S2P Require Import Prelude Errors Effects Platform Schema Registry.
Open Scope Z_scope.

(** The value type of [worker/endpoint-cache.ts]. *)
Record EndpointConfig := mkEndpointConfig {
  ec_url : string;
  ec_secret : string;
  ec_status : EndpointStatus;
}.

Record CacheEntry := mkCacheEntry { ce_value : EndpointConfig; ce_expiresAt : Z }.

(** What happened, for an outside observer: sockets opened (and to which
    addresses), requests sent, jobs handed to the queue, calls of metrics. *)
Inductive obs :=
| ObsConnect (addresses : list string)
| ObsHttp (rq : HttpRequest)
| ObsEnqueue (js : list Job)
| ObsDelayed (jobId : string) (until : Z)
| ObsMetric (op : MetricOp) (m : Metric) (labels : list (string * string)) (v : Q).

Arguments ObsMetric op m labels v%_Q.

(** The calls of metrics among the observations keep the rule of the registry. *)
Definition obs_ok (o : obs) : bool :=
  match o with ObsMetric op m labels v => call_ok op m labels v | _ => true end.

Section world.
Context `{P : Platform}.

Record World := mkWorld {
  w_db : Db;
  w_redis : rstate;
  w_queue : qstate;
  w_now : Z;
  w_draws : nat;
  w_caches : gmap nat (gmap string CacheEntry);
  w_trace : list obs;
}.

Definition with_db (f : Db -> Db) (w : World) : World :=
  mkWorld (f (w_db w)) (w_redis w) (w_queue w) (w_now w) (w_draws w) (w_caches w) (w_trace w).
Definition with_redis (r : rstate) (w : World) : World :=
  mkWorld (w_db w) r (w_queue w) (w_now w) (w_draws w) (w_caches w) (w_trace w).
Definition with_queue (f : qstate -> qstate) (w : World) : World :=
  mkWorld (w_db w) (w_redis w) (f (w_queue w)) (w_now w) (w_draws w) (w_caches w) (w_trace w).
Definition with_caches (f : gmap nat (gmap string CacheEntry) -> gmap nat (gmap string CacheEntry))
    (w : World) : World :=
  mkWorld (w_db w) (w_redis w) (w_queue w) (w_now w) (w_draws w) (f (w_caches w)) (w_trace w).
Definition elapse (d : Z) (w : World) : World :=
  mkWorld (w_db w) (w_redis w) (w_queue w) (w_now w + Z.max 0 d) (w_draws w) (w_caches w) (w_trace w).
Definition drawn (w : World) : World :=
  mkWorld (w_db w) (w_redis w) (w_queue w) (w_now w) (S (w_draws w)) (w_caches w) (w_trace w).
Definition observe (o : obs) (w : World) : World :=
  mkWorld (w_db w) (w_redis w) (w_queue w) (w_now w) (w_draws w) (w_caches w) (w_trace w ++ [o]).

(** ** Local steps *)

(** A value only the process itself sees is read or written. *)
Definition local {R} (f : World -> R * World) : prog World R :=
  call Local (fun w => let '(x, w') := f w in (inr x, w')).

(** [Date.now()] *)
Definition Date_now : prog World Z := query Local w_now.

(** A call of a metric: [inc] by one and by [n], [set], [observe]. *)
Definition metric_call (op : MetricOp) (m : Metric) (labels : list (string * string)) (v : Q) : prog World unit :=
  update Local (observe (ObsMetric op m labels v)).

Definition inc (m : Metric) (labels : list (string * string)) : prog World unit := metric_call MInc m labels 1.
Definition inc_by (m : Metric) (n : Z) : prog World unit := metric_call MInc m [] (inject_Z n).
Definition set_gauge (m : Metric) (labels : list (string * string)) (n : Z) : prog World unit :=
  metric_call MSet m labels (inject_Z n).
Definition observe_seconds (m : Metric) (labels : list (string * string)) (ms : Z) : prog World unit :=
  metric_call MObserve m labels (milli ms).

(** [Math.random()], as its numerator over [2^53] *)
Definition draw_random : prog World Z :=
  call Local (fun w => (inr (Math_random (w_draws w)), drawn w)).

(** ** Redis and the queue *)

Definition redis_call {R} (f : Z -> rstate -> R * rstate) : prog World R :=
  call RedisService (fun w => let '(x, r) := f (w_now w) (w_redis w) in (inr x, with_redis r w)).

(** A command that can answer with an error. *)
Definition redis_try {R} (f : Z -> rstate -> option R * rstate) : prog World R :=
  call RedisService (fun w =>
    let '(x, r) := f (w_now w) (w_redis w) in
    (match x with Some v => inr v | None => inl (EJs "ReplyError" None "ERR" None) end,
     with_redis r w)).

Definition queue_addBulk (js : list Job) : prog World unit :=
  update QueueService (fun w => observe (ObsEnqueue js) (with_queue (q_add_bulk js) w)).

(** [job.moveToDelayed(timestamp)] *)
Definition job_moveToDelayed (job : Job) (timestamp : Z) : prog World unit :=
  update QueueService (observe (ObsDelayed (job_id job) timestamp)).

(** ** HTTP

    One exchange with the receiver: the clock advances by the time it takes, but
    by no more than [AbortSignal.timeout(timeoutMs)] allows. *)
Definition TimeoutError : exn :=
  EJs "TimeoutError" None "The operation was aborted due to timeout" None.

Definition http_exchange (rq : HttpRequest) (timeoutMs : Z) : prog World (Z * string) :=
  call Receiver (fun w =>
    let w' := observe (ObsHttp rq) (drawn w) in
    let '(r, lat) := match http_reply (w_draws w) rq with
      | Responds status text lat => (inr (status, text), lat)
      | Fails e lat => (inl e, lat) end in
    if timeoutMs <? lat then (inl TimeoutError, elapse timeoutMs w') else (r, elapse lat w')).

(** The system resolver *)
Definition dnsLookup (hostname : string) : prog World (list string) :=
  call Local (fun w => (dns_lookup (w_draws w) hostname, drawn w)).

(** The requests that left the system. *)
Definition is_http (o : obs) : bool := match o with ObsHttp _ => true | _ => false end.
Definition requests (w : World) : list obs := List.filter is_http (w_trace w).

Lemma requests_observe o w : is_http o = false -> requests (observe o w) = requests w.
Proof. intros Ho. unfold requests. cbn. rewrite List.filter_app. cbn. by rewrite Ho, app_nil_r. Qed.

(** ** Database statements *)

Definition stm (R : Type) : Type := World -> (exn + R) * World.

Definition sret {R} (x : R) : stm R := fun w => (inr x, w).
Definition sthrow {R} (e : exn) : stm R := fun w => (inl e, w).
Definition sbind {R R'} (s : stm R) (k : R -> stm R') : stm R' :=
  fun w => let '(r, w') := s w in match r with inl e => (inl e, w') | inr x => k x w' end.
Definition sread {R} (f : Db -> R) : stm R := fun w => (inr (f (w_db w)), w).
Definition swrite (f : Db -> Db) : stm unit := fun w => (inr tt, with_db f w).
(** [randomUUID()] inside a transaction body *)
Definition suuid : stm string := fun w => (inr (randomUUID (w_draws w)), drawn w).

(** [$transaction]: on an exception the database is as it was. *)
Definition transaction {R} (s : stm R) : prog World R :=
  call Postgres (fun w =>
    let '(r, w') := s w in
    match r with inl e => (inl e, with_db (fun _ => w_db w) w') | inr x => (inr x, w') end).

Definition db_read {R} (f : Db -> R) : prog World R := query Postgres (fun w => f (w_db w)).

(** Prisma's error codes: no such row, unique violation, foreign key violation. *)
Definition P2025 := EPrisma "P2025".
Definition P2002 := EPrisma "P2002".
Definition P2003 := EPrisma "P2003".

(** [@updatedAt] columns *)
Definition touch_delivery (now : Z) (d : Delivery) : Delivery :=
  mkDelivery (dl_eventId d) (dl_endpointId d) (dl_status d) (dl_attemptCount d)
    (dl_nextRetryAt d) (dl_createdAt d) now.
Definition touch_endpoint (now : Z) (e : Endpoint) : Endpoint :=
  mkEndpoint (ep_tenantId e) (ep_url e) (ep_secretEnc e) (ep_status e) (ep_description e)
    (ep_consecutiveFailures e) (ep_createdAt e) now.

(** PostgreSQL refuses the NUL character in a text column. *)
Definition text_ok (s : string) : bool := str_forall (fun c => negb (N_of_ascii c =? 0)%N) s.
Definition bad_text : exn :=
  EJs "PrismaClientUnknownRequestError" None "invalid byte sequence for encoding UTF8: 0x00" None.

(** [delivery.update], [endpoint.update], [deliveryAttempt.update] *)
Definition delivery_update (id : string) (f : Delivery -> Delivery) : stm unit := fun w =>
  match deliveries (w_db w) !! id with
  | None => (inl P2025, w)
  | Some d => (inr tt, with_db (set_deliveries (insert id (touch_delivery (w_now w) (f d)))) w)
  end.

Definition endpoint_update (id : string) (f : Endpoint -> Endpoint) : stm unit := fun w =>
  match endpoints (w_db w) !! id with
  | None => (inl P2025, w)
  | Some e => (inr tt, with_db (set_endpoints (insert id (touch_endpoint (w_now w) (f e)))) w)
  end.

Definition attempt_update (id : Z) (f : DeliveryAttempt -> DeliveryAttempt) : stm unit := fun w =>
  match attempts (w_db w) !! id with
  | None => (inl P2025, w)
  | Some a =>
      if text_ok (default EmptyString (at_responseBodyHead (f a)))
      then (inr tt, with_db (fun d => set_attempts (insert id (f a)) (attempt_seq d) d) w)
      else (inl bad_text, w)
  end.

(** The row of [UNIQUE(delivery_id, attempt_no)] that is already there. *)
Definition same_attempt (deliveryId : string) (attemptNo : Z) (p : Z * DeliveryAttempt) : Prop :=
  at_deliveryId p.2 = deliveryId /\ at_attemptNo p.2 = attemptNo.

#[export] Instance same_attempt_dec d n p : Decision (same_attempt d n p).
Proof. unfold same_attempt. apply _. Defined.

Definition attempt_taken (deliveryId : string) (attemptNo : Z) (d : Db) : bool :=
  bool_decide (Exists (same_attempt deliveryId attemptNo) (map_to_list (attempts d))).

(** [deliveryAttempt.create]: the new row's id. *)
Definition attempt_create (deliveryId : string) (attemptNo : Z) (digest : string) : stm Z := fun w =>
  let d := w_db w in
  if attempt_taken deliveryId attemptNo d then (inl P2002, w) else
  match deliveries d !! deliveryId with
  | None => (inl P2003, w)
  | Some _ =>
      let id := attempt_seq d in
      (inr id, with_db (set_attempts (insert id
         (mkAttempt deliveryId attemptNo digest None None None None (w_now w))) (id + 1)) w)
  end.

(** [outboxMessage.create] *)
Definition outbox_create (eventId : string) (deliveryId : option string) : stm Z := fun w =>
  let id := outbox_seq (w_db w) in
  (inr id, with_db (set_outbox (insert id
     (mkOutbox eventId deliveryId OUTBOX_PENDING None (w_now w))) (id + 1)) w).

Lemma attempt_taken_spec d n db :
  attempt_taken d n db = true <->
  exists i a, attempts db !! i = Some a /\ at_deliveryId a = d /\ at_attemptNo a = n.
Proof.
  unfold attempt_taken, same_attempt. rewrite bool_decide_eq_true, Exists_exists. split.
  - intros ([i a] & Hin & ? & ?). apply elem_of_map_to_list in Hin. by exists i, a.
  - intros (i & a & Hi & ? & ?). exists (i, a). by rewrite elem_of_map_to_list.
Qed.

Lemma attempt_taken_false d n db :
  attempt_taken d n db = false <->
  forall i a, attempts db !! i = Some a -> ~ (at_deliveryId a = d /\ at_attemptNo a = n).
Proof.
  rewrite <- not_true_iff_false, attempt_taken_spec. naive_solver.
Qed.

Lemma exec_transaction {R} (s : stm R) w :
  exec (transaction s) w =
    let '(r, w') := s w in
    match r with inl e => (inl e, with_db (fun _ => w_db w) w') | inr x => (inr x, w') end.
Proof. unfold transaction. by rewrite exec_call. Qed.

End world.

Arguments World {P}.
Arguments mkWorld {P} _ _ _ _ _ _ _.

Notation "'let+' x := p 'in' q" := (sbind p (fun x => q))
  (at level 10, x pattern, p at level 100, q at level 200) : hook_scope.

#[export] Hint Rewrite @exec_transaction : exec.

Section exec_world.
Context `{P : Platform}.

Lemma exec_Date_now w : exec Date_now w = (inr (w_now w), w).
Proof. done. Qed.

Lemma exec_inc m labels w : exec (inc m labels) w = (inr tt, observe (ObsMetric MInc m labels 1) w).
Proof. done. Qed.

Lemma exec_observe_seconds m labels ms w :
  exec (observe_seconds m labels ms) w = (inr tt, observe (ObsMetric MObserve m labels (milli ms)) w).
Proof. done. Qed.

Lemma exec_inc_by m n w : exec (inc_by m n) w = (inr tt, observe (ObsMetric MInc m [] (inject_Z n)) w).
Proof. done. Qed.

Lemma exec_metric op m labels v w : exec (metric_call op m labels v) w = (inr tt, observe (ObsMetric op m labels v) w).
Proof. done. Qed.

Lemma exec_redis_call {R} (f : Z -> rstate -> R * rstate) w :
  exec (redis_call f) w =
    (inr (f (w_now w) (w_redis w)).1, with_redis (f (w_now w) (w_redis w)).2 w).
Proof. unfold redis_call. rewrite exec_call. by destruct (f _ _). Qed.

Lemma exec_db_read {R} (f : Db -> R) w : exec (db_read f) w = (inr (f (w_db w)), w).
Proof. done. Qed.

Lemma exec_local {R} (f : World -> R * World) w :
  exec (local f) w = let '(x, w') := f w in (inr x, w').
Proof. unfold local. rewrite exec_call. by destruct (f w). Qed.

Lemma run_local {R} sched n (f : World -> R * World) w :
  run sched n (local f) w = (inr (f w).1, (f w).2, S n).
Proof. unfold local, call. simpl. unfold attempt. by destruct (f w). Qed.

Lemma run_Date_now sched n w : run sched n Date_now w = (inr (w_now w), w, S n).
Proof. done. Qed.

(** *** Footprints: what a statement may change *)

(** Nothing but the database and the random draws. *)
Definition db_step (w w' : World) : Prop :=
  w_redis w' = w_redis w /\ w_queue w' = w_queue w /\ w_now w' = w_now w /\
  w_caches w' = w_caches w /\ w_trace w' = w_trace w.

#[export] Instance db_step_preorder : PreOrder db_step.
Proof.
  split; [done|]. intros w1 w2 w3 (? & ? & ? & ? & ?) (? & ? & ? & ? & ?).
  unfold db_step. split_and!; congruence.
Qed.

(** Nothing but Redis. *)
Definition redis_step (w w' : World) : Prop := w' = with_redis (w_redis w') w.

#[export] Instance redis_step_preorder : PreOrder redis_step.
Proof.
  unfold redis_step. split; [by intros []|]. intros w1 w2 w3 E1 E2. rewrite E2, E1. by destruct w1.
Qed.

Lemma redis_call_step {R} (f : Z -> rstate -> R * rstate) : acts redis_step (redis_call f).
Proof. apply acts_call. intros w. by destruct (f (w_now w) (w_redis w)). Qed.

Lemma redis_try_step {R} (f : Z -> rstate -> option R * rstate) : acts redis_step (redis_try f).
Proof. apply acts_call. intros w. by destruct (f (w_now w) (w_redis w)). Qed.

Definition db_only {R} (s : stm R) : Prop := forall w, db_step w (s w).2.

Lemma db_only_ret {R} (x : R) : db_only (sret x).
Proof. done. Qed.
Lemma db_only_throw {R} e : db_only (@sthrow P R e).
Proof. done. Qed.
Lemma db_only_read {R} (f : Db -> R) : db_only (sread f).
Proof. done. Qed.
Lemma db_only_write f : db_only (swrite f).
Proof. done. Qed.
Lemma db_only_uuid : db_only suuid.
Proof. done. Qed.
Lemma db_only_bind {R R'} (s : stm R) (k : R -> stm R') :
  db_only s -> (forall x, db_only (k x)) -> db_only (sbind s k).
Proof.
  intros Hs Hk w. unfold sbind. specialize (Hs w). destruct (s w) as [[e|x] w1]; [done|].
  etrans; [exact Hs|apply Hk].
Qed.
Lemma db_only_delivery_update id f : db_only (delivery_update id f).
Proof. intros w. unfold delivery_update. by destruct (_ !! _). Qed.
Lemma db_only_endpoint_update id f : db_only (endpoint_update id f).
Proof. intros w. unfold endpoint_update. by destruct (_ !! _). Qed.
Lemma db_only_attempt_update id f : db_only (attempt_update id f).
Proof. intros w. unfold attempt_update. destruct (_ !! _); [|done]. by destruct (text_ok _). Qed.
Lemma db_only_attempt_create d n g : db_only (attempt_create d n g).
Proof. intros w. unfold attempt_create. destruct (attempt_taken _ _ _); [done|]. by destruct (_ !! _). Qed.
Lemma db_only_outbox_create e d : db_only (outbox_create e d).
Proof. done. Qed.

(** A transaction of such statements keeps every relation that ignores the
    database. *)
Lemma acts_transaction (Rel : World -> World -> Prop) {R} (s : stm R) :
  db_only s -> (forall w w', db_step w w' -> Rel w w') -> acts Rel (transaction s).
Proof.
  intros Hs HR. apply acts_call. intros w. apply HR. specialize (Hs w).
  by destruct (s w) as [[e|x] w'].
Qed.

Lemma acts_db_read (Rel : World -> World -> Prop) `{!Reflexive Rel} {R} (f : Db -> R) : acts Rel (db_read f).
Proof. by apply acts_query. Qed.

End exec_world.

#[export] Hint Rewrite @exec_Date_now @exec_metric @exec_inc @exec_inc_by @exec_observe_seconds @exec_redis_call @exec_db_read @exec_local @run_local @run_Date_now : exec.

#[export] Hint Resolve db_only_ret db_only_throw db_only_read db_only_write db_only_uuid db_only_bind
  db_only_delivery_update db_only_endpoint_update db_only_attempt_update db_only_attempt_create
  db_only_outbox_create acts_transaction acts_db_read redis_call_step redis_try_step : hook.
