(* ===== verification/Config.v ===== *)
(** * Configuration: [common/config/env.validation.ts]

    The settings every component reads, with the defaults of the schema class,
    and the validation of the process environment at boot. *)

From S2P Require Import Prelude JsNumber Errors Base64 Backoff Circuit.
Open Scope Z_scope.

Record Config := mkConfig {
  DATABASE_URL : string;
  HR_ADMIN_KEY : string;
  HR_SECRET_KEY : string;
  HR_ALLOW_INSECURE_HTTP : bool;
  HR_ALLOW_PRIVATE_DESTINATIONS : bool;
  PORT : Z;
  REDIS_URL : string;
  HR_OUTBOX_POLL_MS : Z;
  HR_DELIVERY_TIMEOUT_MS : Z;
  HR_WORKER_CONCURRENCY : Z;
  HR_RETRY_BASE_MS : Z;
  HR_RETRY_CAP_MS : Z;
  HR_MAX_ATTEMPTS : Z;
  HR_TENANT_CONCURRENCY : Z;
  HR_TENANT_RETRY_MS : Z;
  HR_TENANT_SLOT_TTL_SEC : Z;
  HR_CIRCUIT_OPEN_AFTER : Z;
  HR_CIRCUIT_COOLDOWN_MS : Z;
  HR_CIRCUIT_DISABLE_AFTER : Z;
  HR_RATE_LIMIT_FREE_PER_MIN : Z;
  HR_RATE_LIMIT_PRO_PER_MIN : Z;
  HR_METRICS_PORT : Z;
}.

(** ** [validateEnv] *)

Definition is_space (c : ascii) : bool :=
  let n := N_of_ascii c in ((9 <=? n) && (n <=? 13) || (n =? 32))%N.

Fixpoint trim_start (s : string) : string :=
  match s with String c s' => if is_space c then trim_start s' else s | EmptyString => s end.

(** [parseInt(s, 10)] *)
Definition parseInt10 (s : string) : num :=
  let s := trim_start s in
  let '(neg, s) := match s with
    | String "-" s' => (true, s') | String "+" s' => (false, s') | _ => (false, s) end in
  match (span_digits s).1 with
  | EmptyString => NaN
  | d => match Number_digits d with
         | Fin z => Fin (if neg then - z else z)
         | n => if neg then NInf else n
         end
  end.

Section validate.
Variable env : gmap string string.

(** A property of the schema class: absent, it keeps its initializer; present, it
    is transformed and then checked. *)
Definition int_field (name : string) (initial : Z) : option Z :=
  match env !! name with
  | None => Some initial
  | Some s => match parseInt10 s with Fin z => Some z | _ => None end
  end.

Definition bool_field (name : string) : bool :=
  match env !! name with Some s => bool_decide (s = "true") | None => false end.

Definition string_field (name : string) (minLength : nat) : option string :=
  s ← env !! name; if (minLength <=? String.length s)%nat then Some s else None.

Definition EnvSchema : option Config :=
  DATABASE_URL ← string_field "DATABASE_URL" 1;
  HR_ADMIN_KEY ← string_field "HR_ADMIN_KEY" 12;
  HR_SECRET_KEY ← string_field "HR_SECRET_KEY" 1;
  PORT ← int_field "PORT" 3000;
  REDIS_URL ← string_field "REDIS_URL" 1;
  HR_OUTBOX_POLL_MS ← int_field "HR_OUTBOX_POLL_MS" 500;
  HR_DELIVERY_TIMEOUT_MS ← int_field "HR_DELIVERY_TIMEOUT_MS" 10000;
  HR_WORKER_CONCURRENCY ← int_field "HR_WORKER_CONCURRENCY" 10;
  HR_RETRY_BASE_MS ← int_field "HR_RETRY_BASE_MS" (baseMs RETRY_DEFAULTS);
  HR_RETRY_CAP_MS ← int_field "HR_RETRY_CAP_MS" (capMs RETRY_DEFAULTS);
  HR_MAX_ATTEMPTS ← int_field "HR_MAX_ATTEMPTS" (maxAttempts RETRY_DEFAULTS);
  HR_TENANT_CONCURRENCY ← int_field "HR_TENANT_CONCURRENCY" 3;
  HR_TENANT_RETRY_MS ← int_field "HR_TENANT_RETRY_MS" 200;
  HR_TENANT_SLOT_TTL_SEC ← int_field "HR_TENANT_SLOT_TTL_SEC" 60;
  HR_CIRCUIT_OPEN_AFTER ← int_field "HR_CIRCUIT_OPEN_AFTER" (openAfter CIRCUIT_DEFAULTS);
  HR_CIRCUIT_COOLDOWN_MS ← int_field "HR_CIRCUIT_COOLDOWN_MS" (cooldownMs CIRCUIT_DEFAULTS);
  HR_CIRCUIT_DISABLE_AFTER ← int_field "HR_CIRCUIT_DISABLE_AFTER" (disableAfter CIRCUIT_DEFAULTS);
  HR_RATE_LIMIT_FREE_PER_MIN ← int_field "HR_RATE_LIMIT_FREE_PER_MIN" 60;
  HR_RATE_LIMIT_PRO_PER_MIN ← int_field "HR_RATE_LIMIT_PRO_PER_MIN" 600;
  HR_METRICS_PORT ← int_field "HR_METRICS_PORT" 0;
  Some (mkConfig DATABASE_URL HR_ADMIN_KEY HR_SECRET_KEY
    (bool_field "HR_ALLOW_INSECURE_HTTP") (bool_field "HR_ALLOW_PRIVATE_DESTINATIONS")
    PORT REDIS_URL HR_OUTBOX_POLL_MS HR_DELIVERY_TIMEOUT_MS HR_WORKER_CONCURRENCY
    HR_RETRY_BASE_MS HR_RETRY_CAP_MS HR_MAX_ATTEMPTS HR_TENANT_CONCURRENCY HR_TENANT_RETRY_MS
    HR_TENANT_SLOT_TTL_SEC HR_CIRCUIT_OPEN_AFTER HR_CIRCUIT_COOLDOWN_MS HR_CIRCUIT_DISABLE_AFTER
    HR_RATE_LIMIT_FREE_PER_MIN HR_RATE_LIMIT_PRO_PER_MIN HR_METRICS_PORT).

Definition validateEnv : exn + Config :=
  match EnvSchema with
  | None => inl (Error "환경변수 검증 실패")
  | Some validated =>
      if (String.length (from_base64 (HR_SECRET_KEY validated)) =? 32)%nat then inr validated
      else inl (Error "환경변수 검증 실패: HR_SECRET_KEY는 base64 인코딩된 32바이트여야 합니다.")
  end.

End validate.

(** The circuit breaker's and the retry policy's view of the configuration. *)
Definition circuit_config (cfg : Config) : CircuitConfig :=
  mkCircuitConfig (HR_CIRCUIT_OPEN_AFTER cfg) (HR_CIRCUIT_COOLDOWN_MS cfg) (HR_CIRCUIT_DISABLE_AFTER cfg).

Definition retry_policy (cfg : Config) : RetryPolicy :=
  mkRetryPolicy (HR_RETRY_BASE_MS cfg) (HR_RETRY_CAP_MS cfg) (HR_MAX_ATTEMPTS cfg).

(** A minimal environment, and the configuration it gives. *)
Definition minimal_env : gmap string string :=
  {[ "DATABASE_URL" := "postgres://db/hookrelay"; "HR_ADMIN_KEY" := "admin-key-123";
     "HR_SECRET_KEY" := "QUFBQUFBQUFBQUFBQUFBQUFBQUFBQUFBQUFBQUFBQUE="; "REDIS_URL" := "redis://cache:6379" ]}.

Definition default_config : Config :=
  mkConfig "postgres://db/hookrelay" "admin-key-123" "QUFBQUFBQUFBQUFBQUFBQUFBQUFBQUFBQUFBQUFBQUE="
    false false 3000 "redis://cache:6379" 500 10000 10 30000 14400000 8 3 200 60 10 300000 50 60 600 0.

Example default_config_ok : validateEnv minimal_env = inr default_config.
Proof. by vm_compute. Qed.

(** ** Properties *)

(** What boot guarantees: an accepted configuration has a 32-byte master
    key, an admin key of at least 12 characters and non-empty URLs; an unset
    integer has its default and a set one is the integer its text starts with;
    and an integer setting whose text does not start with a number stops the
    boot. *)
Theorem validateEnv_guarantees env c :
  validateEnv env = inr c ->
  String.length (from_base64 (HR_SECRET_KEY c)) = 32%nat /\
  (12 <= String.length (HR_ADMIN_KEY c))%nat /\
  DATABASE_URL c <> EmptyString /\ REDIS_URL c <> EmptyString /\
  (env !! "HR_MAX_ATTEMPTS" = None -> HR_MAX_ATTEMPTS c = 8) /\
  (forall s, env !! "HR_MAX_ATTEMPTS" = Some s -> parseInt10 s = Fin (HR_MAX_ATTEMPTS c)) /\
  (forall s, env !! "HR_TENANT_CONCURRENCY" = Some s -> parseInt10 s = Fin (HR_TENANT_CONCURRENCY c)).
Proof.
  unfold validateEnv. destruct (EnvSchema env) as [v|] eqn:E; [|done].
  destruct (_ =? _)%nat eqn:Hk; [|done]. intros [= <-]. apply Nat.eqb_eq in Hk.
  unfold EnvSchema in E.
  repeat match type of E with (_ ≫= _) = Some _ => apply bind_Some in E as (? & ? & E) end.
  apply (inj Some) in E. subst v. cbn [HR_SECRET_KEY HR_ADMIN_KEY DATABASE_URL REDIS_URL HR_MAX_ATTEMPTS HR_TENANT_CONCURRENCY] in *.
  assert (forall name n s, string_field env name n = Some s -> (n <= String.length s)%nat) as Hstr.
  { intros name n s (t & _ & Ht)%bind_Some. destruct (n <=? _)%nat eqn:En; [|done].
    simplify_eq. by apply Nat.leb_le. }
  assert (forall name d z, int_field env name d = Some z ->
    (env !! name = None -> z = d) /\ forall s, env !! name = Some s -> parseInt10 s = Fin z) as Hint.
  { unfold int_field. intros name d z Hz. split; [intros Hn|intros s Hs]; rewrite ?Hn, ?Hs in Hz; [congruence|].
    by destruct (parseInt10 s); simplify_eq. }
  repeat match goal with
    | H : string_field _ _ _ = Some _ |- _ => apply Hstr in H
    | H : int_field _ _ _ = Some _ |- _ => apply Hint in H as []
    end.
  split_and!; try done; intros ->; simpl in *; lia.
Qed.

Lemma validateEnv_guarantees_witness : (12 <= String.length (HR_ADMIN_KEY default_config))%nat.
Proof. apply (validateEnv_guarantees minimal_env default_config). by vm_compute. Defined.
