(* ===== verification/TestPlatform.v ===== *)
(** * A concrete platform

    Finite-map implementations of the Redis and BullMQ interfaces, which show
    that their laws can be met, and a [Platform] built on them that the concrete
    examples of the other files run on. *)

From S2P Require Import Prelude Errors Json Platform Schema World Config.
Open Scope Z_scope.

Definition map_lookup (s : gmap string rentry) (t : Z) (k : string) : option rentry :=
  e ← s !! k; if live t e then Some e else None.

Lemma live_later t t' e : t <= t' -> live t' e = true -> live t e = true.
Proof. unfold live. destruct (re_exp e); [|done]. rewrite !Z.ltb_lt. lia. Qed.

Lemma map_lookup_insert s t k e k' :
  map_lookup (<[k := e]> s) t k' =
    if decide (k = k') then (if live t e then Some e else None) else map_lookup s t k'.
Proof. unfold map_lookup. rewrite lookup_insert. by case_decide. Qed.

Definition map_set_nx_ex (t : Z) (k v : string) (ttl : Z) (s : gmap string rentry)
    : bool * gmap string rentry :=
  match map_lookup s t k with
  | Some _ => (false, s)
  | None => (true, <[k := mkEntry (RStr v) (Some (t + 1000 * ttl))]> s)
  end.

Definition map_incrby (t : Z) (k : string) (d : Z) (s : gmap string rentry)
    : option Z * gmap string rentry :=
  match counter_of (map_lookup s t k) with
  | Some n => (Some (n + d), <[k := mkEntry (RInt (n + d)) (o ← map_lookup s t k; re_exp o)]> s)
  | None => (None, s)
  end.

Definition map_expire (t : Z) (k : string) (sec : Z) (s : gmap string rentry) : gmap string rentry :=
  match map_lookup s t k with
  | Some e => <[k := mkEntry (re_val e) (Some (t + 1000 * sec))]> s
  | None => s
  end.

Definition map_set (k v : string) (s : gmap string rentry) : gmap string rentry :=
  <[k := mkEntry (RStr v) None]> s.

Definition map_del (k : string) (s : gmap string rentry) : gmap string rentry := delete k s.

#[local] Program Instance MapRedis : RedisServer := {|
  rstate := gmap string rentry;
  r_lookup := map_lookup;
  r_set := map_set;
  r_set_nx_ex := map_set_nx_ex;
  r_del := map_del;
  r_incrby := map_incrby;
  r_expire := map_expire;
|}.
Next Obligation.
  intros s t t' k Ht. unfold map_lookup. destruct (s !! k) as [e|]; simpl; [|done].
  destruct (live t' e) eqn:E.
  - rewrite (live_later t t' e Ht E). simpl. by rewrite E.
  - destruct (live t e); simpl; [by rewrite E|done].
Qed.
Next Obligation. intros. unfold map_set. by rewrite map_lookup_insert. Qed.
Next Obligation.
  intros s t k v ttl. unfold map_set_nx_ex. by destruct (map_lookup s t k).
Qed.
Next Obligation.
  intros s t k v ttl t' k' Ht. unfold map_set_nx_ex.
  destruct (map_lookup s t k) eqn:E; simpl.
  - rewrite decide_False; [done|]. by intros [_ ?].
  - rewrite map_lookup_insert. unfold live. simpl.
    destruct (decide (k = k')); [by rewrite decide_True|]. rewrite decide_False by naive_solver. done.
Qed.
Next Obligation.
  intros s t k k'. unfold map_lookup, map_del. rewrite lookup_delete. by case_decide.
Qed.
Next Obligation. intros s t k d. unfold map_incrby. by destruct (counter_of _). Qed.
Next Obligation.
  intros s t k d t' k' Ht. unfold map_incrby.
  destruct (counter_of (map_lookup s t k)); simpl; [rewrite map_lookup_insert|]; by case_decide.
Qed.
Next Obligation.
  intros s t k sec t' k' Ht. unfold map_expire.
  destruct (map_lookup s t k); [rewrite map_lookup_insert|]; by case_decide.
Qed.

Definition map_add_bulk (js : list Job) (q : gmap string Job) : gmap string Job :=
  foldl (fun q j => match q !! job_id j with Some _ => q | None => <[job_id j := j]> q end) q js.

#[local] Program Instance MapQueue : JobQueue := {|
  qstate := gmap string Job;
  q_lookup q id := q !! id;
  q_add_bulk := map_add_bulk;
|}.
Next Obligation.
  intros js. unfold map_add_bulk. induction js as [|j js IH]; intros q id; simpl.
  - by destruct (q !! id).
  - rewrite IH. unfold first_with_id. simpl. destruct (q !! job_id j) eqn:E.
    + destruct (q !! id) eqn:E'; [done|]. destruct (decide (job_id j = id)); [congruence|].
      by destruct (list_find _ js) as [[]|].
    + rewrite lookup_insert. destruct (decide (job_id j = id)) as [<-|]; [by rewrite E|].
      destruct (q !! id); [done|]. by destruct (list_find _ js) as [[]|].
Qed.

(** UTF-8 for characters of 8 bits; ["?"] stands for the replacement character. *)
Fixpoint latin_utf8 (s : string) : string :=
  match s with
  | EmptyString => EmptyString
  | String c s' =>
      let n := N_of_ascii c in
      if (n <? 128)%N then String c (latin_utf8 s')
      else String (ascii_of_N (192 + n / 64)) (String (ascii_of_N (128 + n mod 64)) (latin_utf8 s'))
  end.

Fixpoint utf8_latin (s : string) : string :=
  match s with
  | EmptyString => EmptyString
  | String c s' =>
      let n := N_of_ascii c in
      if (n <? 128)%N then String c (utf8_latin s')
      else match s' with
      | String d s'' =>
          let m := N_of_ascii d in
          if (194 <=? n)%N && (n <=? 195)%N && (128 <=? m)%N && (m <? 192)%N
          then String (ascii_of_N ((n - 192) * 64 + (m - 128))) (utf8_latin s'')
          else String "?" (utf8_latin s')
      | EmptyString => "?"
      end
  end.

Lemma utf8_latin_utf8 s : utf8_latin (latin_utf8 s) = s.
Proof.
  induction s as [|c s IH]; [done|].
  destruct c as [[] [] [] [] [] [] [] []]; match goal with |- _ = String ?c _ => exact (f_equal (String c) IH) end.
Qed.

(** A platform with toy cryptography (the digest is the text itself) and the
    given network.  Draws give distinct identifiers, and the first draws of random
    bytes are distinct. *)
Definition test_platform (reply : nat -> HttpRequest -> HttpReply)
    (resolve : nat -> string -> exn + list string) (url : string -> option URL) : Platform := {|
  pf_redis := MapRedis;
  pf_queue := MapQueue;
  randomUUID n := "uuid-" +:+ dec (N.of_nat n);
  Math_random _ := 2 ^ 52;
  randomBytes n len := string_of_list_ascii (replicate (n `min` len) "B"%char ++ replicate (len - n) "A"%char);
  parse_url := url;
  socket_pooled _ _ := false;
  http_reply := reply;
  dns_lookup := resolve;
  jsonb_store j := j;
  lib_message _ := "error";
  utf8_encode := latin_utf8;
  utf8_decode := utf8_latin;
  utf8_decode_encode := utf8_latin_utf8;
  sha256_hex s := s;
  hmac_sha256_hex k s := k +:+ "|" +:+ s;
  aes_gcm_encrypt key iv s := ("0123456789abcdef", s);
  aes_gcm_decrypt key iv tag c := Some c;
|}.

(** A receiver that always answers with the given status after 20 ms. *)
Definition always (status : Z) : Platform :=
  test_platform (fun _ _ => Responds status "ok" 20) (fun _ _ => inr ["93.184.216.34"])
    (fun _ => Some (mkURL "https:" "" "" "receiver.example.com")).

(** ** Worlds to run examples in *)

Definition world_at (now : Z) (db : Db) (status : Z) : World (P := always status) :=
  mkWorld (P := always status) db ∅ ∅ now 0 ∅ [].

(** The default configuration with a breaker that opens after two failures. *)
Definition demo_cfg : Config :=
  mkConfig "db" "admin-key-123" "QUFBQUFBQUFBQUFBQUFBQUFBQUFBQUFBQUFBQUFBQUE=" false false 3000 "redis"
    500 10000 10 30000 14400000 8 3 200 60 2 5000 50 60 600 0.

(** ** Draws of the concrete platform *)

Lemma always_uuid_inj status i j :
  randomUUID (Platform := always status) i = randomUUID (Platform := always status) j -> i = j.
Proof. cbn. intros H. apply (inj (String.append "uuid-")) in H. apply (inj dec) in H. lia. Qed.

(** Whether the keys of a table are texts or among the first [n] identifiers drawn. *)
Definition ids_drawn {A} (n : nat) (m : gmap string A) : bool :=
  forallb (fun k => bool_decide (k ∈ ((fun i => "uuid-" +:+ dec (N.of_nat i)) <$> seq 0 n)) ||
    negb (bool_decide (String.substring 0 5 k = "uuid-"))) (map_to_list m).*1.

Lemma ids_drawn_free {A} status n (m : gmap string A) :
  ids_drawn n m = true -> forall i, (n <= i)%nat -> m !! randomUUID (Platform := always status) i = None.
Proof.
  unfold ids_drawn. rewrite forallb_forall. intros Hm i Hi. apply eq_None_not_Some. intros [x Hx].
  specialize (Hm (randomUUID (Platform := always status) i)).
  assert (In (randomUUID (Platform := always status) i) (map_to_list m).*1) as Hin.
  { apply list_elem_of_In, list_elem_of_fmap. eexists (_, x). split; [done|]. by apply elem_of_map_to_list. }
  apply Hm, orb_true_iff in Hin. clear Hm. destruct Hin as [Hm|Hm].
  - apply bool_decide_eq_true, list_elem_of_fmap in Hm as (j & Hj & Hin). apply (always_uuid_inj status i j) in Hj as ->.
    apply elem_of_seq in Hin. lia.
  - apply negb_true_iff, bool_decide_eq_false in Hm. destruct Hm. cbn. by destruct (dec (N.of_nat i)).
Qed.
