(* ===== verification/Signature.v ===== *)
(** * Signing deliveries: [worker/signature.ts]

    The signed message, the delivery headers and the canonical form that is
    hashed as evidence of what was sent. *)

From S2P Require Import Prelude Platform TestPlatform.
Open Scope Z_scope.

Section signature.
Context `{P : Platform}.

(** The string the MAC is computed over: [`${timestampSec}.${body}`]. *)
Definition signed_message (timestampSec : Z) (body : string) : string :=
  decZ timestampSec +:+ "." +:+ body.

Definition signDeliveryBody (secret : string) (timestampSec : Z) (body : string) : string :=
  "v1=" +:+ hmac_sha256_hex secret (signed_message timestampSec body).

(** The header object, as its properties in insertion order. *)
Definition buildDeliveryHeaders (eventType deliveryId : string) (timestampSec : Z) (signature : string)
    : list (string * string) :=
  [ ("content-type", "application/json");
    ("user-agent", "HookRelay/1.0");
    ("x-hookrelay-event", eventType);
    ("x-delivery-id", deliveryId);
    ("x-hookrelay-timestamp", decZ timestampSec);
    ("x-hookrelay-signature", signature) ].

End signature.

(** [Array.prototype.sort] compares strings by code units. *)
Fixpoint str_leb (s1 s2 : string) : bool :=
  match s1, s2 with
  | EmptyString, _ => true
  | String _ _, EmptyString => false
  | String a s1', String b s2' =>
      if Ascii.eqb a b then str_leb s1' s2' else (N_of_ascii a <? N_of_ascii b)%N
  end.

Definition str_le (s1 s2 : string) : Prop := str_leb s1 s2 = true.

#[export] Instance str_le_dec : RelDecision str_le.
Proof. intros s1 s2. unfold str_le. apply _. Defined.

Lemma ascii_N_inj a b : N_of_ascii a = N_of_ascii b -> a = b.
Proof. intros H. rewrite <- (ascii_N_embedding a), <- (ascii_N_embedding b). by rewrite H. Qed.

#[export] Instance str_le_total : Total str_le.
Proof.
  intros s1. unfold str_le. induction s1 as [|a s1 IH]; intros s2; [by left|].
  destruct s2 as [|b s2]; [by right|]. simpl. rewrite (Ascii.eqb_sym b a).
  destruct (Ascii.eqb_spec a b) as [->|Hne]; [apply IH|].
  destruct (N.ltb_spec (N_of_ascii a) (N_of_ascii b)); [by left|right].
  apply N.ltb_lt. assert (N_of_ascii a <> N_of_ascii b); [|lia].
  intros ?%ascii_N_inj. done.
Qed.

#[export] Instance str_le_trans : Transitive str_le.
Proof.
  intros s1 s2 s3. unfold str_le. revert s2 s3.
  induction s1 as [|a s1 IH]; intros [|b s2] [|c s3]; simpl; try done.
  destruct (Ascii.eqb_spec a b) as [H1|H1], (Ascii.eqb_spec b c) as [H2|H2]; subst;
    rewrite ?Ascii.eqb_refl; try done.
  - apply IH.
  - by rewrite (proj2 (Ascii.eqb_neq _ _) H2).
  - by rewrite (proj2 (Ascii.eqb_neq _ _) H1).
  - intros ?%N.ltb_lt ?%N.ltb_lt. destruct (Ascii.eqb_spec a c) as [->|]; [lia|].
    apply N.ltb_lt. lia.
Qed.

#[export] Instance str_le_antisym : AntiSymm (=) str_le.
Proof.
  intros s1. unfold str_le. induction s1 as [|a s1 IH]; intros [|b s2]; simpl; try done.
  rewrite (Ascii.eqb_sym b a). destruct (Ascii.eqb_spec a b) as [->|H].
  - intros ??. f_equal. by apply IH.
  - intros ?%N.ltb_lt ?%N.ltb_lt. lia.
Qed.

Definition str_sort (l : list string) : list string := merge_sort str_le l.

(** Sorting forgets the order of its input. *)
Lemma str_sort_perm l1 l2 : l1 ≡ₚ l2 -> str_sort l1 = str_sort l2.
Proof.
  intros H. apply (StronglySorted_unique str_le); try apply (StronglySorted_merge_sort str_le).
  unfold str_sort. by rewrite !merge_sort_Permutation.
Qed.

(** [headers[k]] on the property list. *)
Fixpoint header_get (k : string) (hs : list (string * string)) : option string :=
  match hs with
  | [] => None
  | (k', v) :: hs' => if String.eqb k k' then Some v else header_get k hs'
  end.

(** [lines.join('\n')]. *)
Fixpoint join (sep : string) (l : list string) : string :=
  match l with
  | [] => ""
  | [s] => s
  | s :: l' => s +:+ sep +:+ join sep l'
  end.

Definition newline : string := String (ascii_of_N 10) EmptyString.

Section digest.
Context `{P : Platform}.

Definition canonical_headers (headers : list (string * string)) : string :=
  join newline
    (map (fun k => k +:+ ":" +:+ default "undefined" (header_get k headers))
       (str_sort (map fst headers))).

Definition digestHeaders (headers : list (string * string)) : string :=
  sha256_hex (canonical_headers headers).

End digest.

Lemma header_get_perm k h1 h2 :
  NoDup (map fst h1) -> h1 ≡ₚ h2 -> header_get k h1 = header_get k h2.
Proof.
  intros Hnd Hp. induction Hp as [|[k1 v1] h1 h2 _ IH|[k1 v1] [k2 v2] h|h1 h2 h3 H12 IH1 H23 IH2]; simpl.
  - done.
  - inversion Hnd; subst. by rewrite IH.
  - inversion Hnd as [|? ? Hk Hnd']; subst. simpl in Hk.
    destruct (String.eqb_spec k k1), (String.eqb_spec k k2); subst; try done. set_solver.
  - rewrite IH1 by done. apply IH2. by rewrite <- (fmap_Permutation fst _ _ H12).
Qed.

Lemma decZ_no_dot z : str_forall (fun x => negb (Ascii.eqb x ".")) (decZ z) = true.
Proof.
  assert (forall n, str_forall (fun x => negb (Ascii.eqb x ".")) (dec n) = true) as Hd.
  { intros n. apply digits_no_sep; [done|apply dec_digits]. }
  unfold decZ. by destruct z; apply Hd.
Qed.

#[export] Instance decZ_inj : Inj (=) (=) decZ.
Proof.
  assert (forall n m, "-" +:+ dec n <> dec m) as Hneg.
  { intros n m H. pose proof (dec_digits m) as Hd. rewrite <- H in Hd. done. }
  intros [|p|p] [|q|q]; unfold decZ; intros H; try (apply dec_inj in H; lia).
  - symmetry in H. by apply Hneg in H.
  - symmetry in H. by apply Hneg in H.
  - by apply Hneg in H.
  - by apply Hneg in H.
  - injection H as H. apply dec_inj in H. lia.
Qed.

(** ** Properties *)

Section properties.
Context `{P : Platform}.

(** The signed message determines both the timestamp and the body: no two
    different (timestamp, body) pairs are ever presented to the MAC as the same
    text, so a captured signature cannot be replayed under another timestamp or
    re-split onto another body. *)
Theorem signed_message_injective t1 b1 t2 b2 :
  signed_message t1 b1 = signed_message t2 b2 -> t1 = t2 /\ b1 = b2.
Proof.
  unfold signed_message. intros H.
  apply (app_sep_inj "."%char) in H as [Ht Hb]; [|apply decZ_no_dot..].
  by apply decZ_inj in Ht.
Qed.

(** The evidence digest depends on the headers as a set of properties:
    any two objects with the same properties, inserted in any order, have the
    same digest. *)
Theorem digestHeaders_order_independent h1 h2 :
  NoDup (map fst h1) -> h1 ≡ₚ h2 -> digestHeaders h1 = digestHeaders h2.
Proof.
  intros Hnd Hp. unfold digestHeaders, canonical_headers. f_equal. f_equal.
  assert (map fst h1 ≡ₚ map fst h2) as Hk by (by apply (fmap_Permutation fst)).
  rewrite (str_sort_perm _ _ Hk). apply map_ext. intros k. by rewrite (header_get_perm k h1 h2).
Qed.

End properties.

Lemma signed_message_injective_witness : 1700000000 = 1700000000 /\ "{}" = "{}".
Proof. apply (signed_message_injective 1700000000 "{}" 1700000000 "{}"). reflexivity. Defined.

Lemma digestHeaders_order_independent_witness :
  digestHeaders (P := always 200) [("b", "2"); ("a", "1")] = digestHeaders (P := always 200) [("a", "1"); ("b", "2")].
Proof.
  apply digestHeaders_order_independent; [|apply Permutation_swap].
  apply NoDup_cons_2; [|apply NoDup_singleton]. intros H. apply list_elem_of_singleton in H. discriminate.
Defined.
