(* ===== verification/CircuitStore.v ===== *)
(** * The shared circuit breaker: [worker/circuit.store.ts]

    The snapshots of [Circuit.v] kept in Redis as JSON, one per endpoint, with
    the probe lock of the half-open state. *)

From S2P Require Import Prelude Errors Effects Circuit Json Platform Schema World Config TestPlatform.
Open Scope Z_scope.
Open Scope hook_scope.

Definition PROBE_TTL_SEC : Z := 30.

Definition keyOf (endpointId : string) : string := "hr:cb:" +:+ endpointId.
Definition probeKey (endpointId : string) : string := "hr:cb:" +:+ (endpointId +:+ ":probe").

(** ** Snapshots as JSON *)

Definition state_text (s : CircuitState) : string :=
  match s with CLOSED => "CLOSED" | OPEN => "OPEN" | HALF_OPEN => "HALF_OPEN" end.

Definition state_of_text (s : string) : option CircuitState :=
  if bool_decide (s = "CLOSED") then Some CLOSED
  else if bool_decide (s = "OPEN") then Some OPEN
  else if bool_decide (s = "HALF_OPEN") then Some HALF_OPEN else None.

Definition snapshot_json (s : CircuitSnapshot) : json :=
  JObj [("state", JStr (state_text (state s))); ("failures", JNum (failures s)); ("openedAt", JNum (openedAt s))].

(** The cast of a parsed value; [None] if it is not the JSON of a snapshot. *)
Definition snapshot_of_json (j : json) : option CircuitSnapshot :=
  match field "state" j, field "failures" j, field "openedAt" j with
  | Some (JStr st), Some (JNum f), Some (JNum o) => s ← state_of_text st; Some (mkSnapshot s f o)
  | _, _, _ => None
  end.

Lemma snapshot_json_roundtrip s :
  parse (stringify (snapshot_json s)) = Some (snapshot_json s) /\
  snapshot_of_json (snapshot_json s) = Some s.
Proof. split; [by apply parse_stringify|]. by destruct s as [[] f o]. Qed.

(** ** The store *)

Section store.
Context `{P : Platform}.
Variable cfg : Config.

(** [redis.get(k)]: a counter reads as its decimal text. *)
Definition redis_get (k : string) : prog World (option string) :=
  redis_call (fun now r =>
    (match r_lookup r now k with
     | Some (mkEntry (RStr s) _) => Some s
     | Some (mkEntry (RInt n) _) => Some (decZ n)
     | None => None
     end, r)).

Definition redis_set (k v : string) : prog World unit := redis_call (fun _ r => (tt, r_set k v r)).
Definition redis_del (k : string) : prog World unit := redis_call (fun _ r => (tt, r_del k r)).
Definition redis_set_nx_ex (k v : string) (ttl : Z) : prog World bool :=
  redis_call (fun now r => r_set_nx_ex now k v ttl r).

Definition TypeError : exn := EJs "TypeError" None "not a circuit snapshot" None.

Definition read (endpointId : string) : prog World CircuitSnapshot :=
  let* raw := redis_get (keyOf endpointId) in
  match raw with
  | None | Some EmptyString => Ret EMPTY_CIRCUIT
  | Some text =>
      match parse text with
      | None => Ret EMPTY_CIRCUIT
      | Some j => match snapshot_of_json j with Some s => Ret s | None => Throw TypeError end
      end
  end.

Definition write (endpointId : string) (snapshot : CircuitSnapshot) : prog World unit :=
  redis_set (keyOf endpointId) (stringify (snapshot_json snapshot)).

Definition allow (endpointId : string) : prog World bool :=
  let* now := Date_now in
  catch
    (let* current := read endpointId in
     let '(allowed, next) := decideAttempt current now (circuit_config cfg) in
     if negb allowed then Ret false
     else if bool_decide (state next = HALF_OPEN) then
       let* won := redis_set_nx_ex (probeKey endpointId) "1" PROBE_TTL_SEC in
       if negb won then Ret false
       else write endpointId next ;; Ret true
     else Ret true)
    (fun _ => Ret true).

Definition success (endpointId : string) : prog World unit :=
  catch (write endpointId onSuccess ;; redis_del (probeKey endpointId)) (fun _ => Ret tt).

(** [{ disable, failures }] *)
Definition failure (endpointId : string) : prog World (bool * Z) :=
  let* now := Date_now in
  catch
    (let* current := read endpointId in
     let '(next, disable) := onFailure current now (circuit_config cfg) in
     write endpointId next ;;
     redis_del (probeKey endpointId) ;;
     Ret (disable, failures next))
    (fun _ => Ret (false, 0)).

(** The three calls never raise, and touch nothing but Redis. *)
Lemma allow_never_throws ep : never_throws (allow ep).
Proof. unfold allow, Date_now. auto with hook. Qed.

Lemma success_never_throws ep : never_throws (success ep).
Proof. unfold success. auto with hook. Qed.

Lemma failure_never_throws ep : never_throws (failure ep).
Proof. unfold failure, Date_now. auto with hook. Qed.

Definition circuit_key (k : string) : bool := String.prefix "hr:cb:" k.

Definition circuit_step (w w' : World) : Prop :=
  w' = with_redis (w_redis w') w /\
  forall k, circuit_key k = false ->
    r_lookup (w_redis w') (w_now w) k = r_lookup (w_redis w) (w_now w) k.

#[export] Instance circuit_step_preorder : PreOrder circuit_step.
Proof.
  unfold circuit_step. split; [by intros []|].
  intros w1 w2 w3 [E1 H1] [E2 H2]. split; [rewrite E2, E1; by destruct w1|].
  assert (w_now w2 = w_now w1) as Hn by (by rewrite E1).
  intros k Hk. rewrite <- (H1 k Hk), <- Hn. exact (H2 k Hk).
Qed.

Lemma circuit_key_keyOf ep : circuit_key (keyOf ep) = true.
Proof. by destruct ep. Qed.

Lemma circuit_key_probeKey ep : circuit_key (probeKey ep) = true.
Proof. by destruct ep. Qed.

Lemma redis_call_acts {X} (f : Z -> rstate -> X * rstate) :
  (forall now r k, circuit_key k = false -> r_lookup (f now r).2 now k = r_lookup r now k) ->
  acts circuit_step (redis_call f).
Proof.
  intros Hf. apply acts_call. intros w. specialize (Hf (w_now w) (w_redis w)).
  destruct (f (w_now w) (w_redis w)). by split.
Qed.

Lemma redis_get_acts k : acts circuit_step (redis_get k).
Proof. by apply redis_call_acts. Qed.

Lemma redis_set_acts k v : circuit_key k = true -> acts circuit_step (redis_set k v).
Proof.
  intros Hk. apply redis_call_acts. intros now r k' Hk'. cbn. rewrite r_lookup_set, decide_False; [done|].
  intros ->. congruence.
Qed.

Lemma redis_del_acts k : circuit_key k = true -> acts circuit_step (redis_del k).
Proof.
  intros Hk. apply redis_call_acts. intros now r k' Hk'. cbn. rewrite r_lookup_del, decide_False; [done|].
  intros ->. congruence.
Qed.

Lemma redis_set_nx_ex_acts k v ttl : circuit_key k = true -> acts circuit_step (redis_set_nx_ex k v ttl).
Proof.
  intros Hk. apply redis_call_acts. intros now r k' Hk'. rewrite r_lookup_set_nx_ex, decide_False; [done| |lia].
  intros [-> _]. congruence.
Qed.

Lemma read_acts ep : acts circuit_step (read ep).
Proof.
  apply acts_bind; [apply redis_get_acts|]. intros [[|c t]|]; try done.
  destruct (parse _); [|done]. by destruct (snapshot_of_json _).
Qed.

Lemma write_acts ep s : acts circuit_step (write ep s).
Proof. apply redis_set_acts, circuit_key_keyOf. Qed.

Lemma allow_acts ep : acts circuit_step (allow ep).
Proof.
  unfold allow, Date_now. apply acts_bind; [apply acts_query, _|]. intros now.
  apply acts_catch; [|done]. apply acts_bind; [apply read_acts|]. intros s.
  destruct (decideAttempt _ _ _) as [[] next]; cbn [negb]; [|done]. case_bool_decide; [|done].
  apply acts_bind; [apply redis_set_nx_ex_acts, circuit_key_probeKey|]. intros []; cbn [negb]; [|done].
  apply acts_bind; [apply write_acts|done].
Qed.

Lemma success_acts ep : acts circuit_step (success ep).
Proof.
  apply acts_catch; [|done]. apply acts_bind; [apply write_acts|]. intros _. apply redis_del_acts, circuit_key_probeKey.
Qed.

Lemma failure_acts ep : acts circuit_step (failure ep).
Proof.
  unfold failure, Date_now. apply acts_bind; [apply acts_query, _|]. intros now.
  apply acts_catch; [|done]. apply acts_bind; [apply read_acts|]. intros s.
  destruct (onFailure _ _ _). apply acts_bind; [apply write_acts|]. intros _.
  apply acts_bind; [apply redis_del_acts, circuit_key_probeKey|done].
Qed.

Lemma exec_allow_frame w ep : exists b r, exec (allow ep) w = (inr b, with_redis r w).
Proof.
  destruct (never_throws_exec _ w (allow_never_throws ep)) as (b & w' & E).
  exists b, (w_redis w'). rewrite E. by rewrite <- (proj1 (acts_exec _ _ _ _ _ (allow_acts ep) E)).
Qed.

Lemma exec_success_frame w ep : exists r, exec (success ep) w = (inr tt, with_redis r w).
Proof.
  destruct (never_throws_exec _ w (success_never_throws ep)) as ([] & w' & E).
  exists (w_redis w'). rewrite E. by rewrite <- (proj1 (acts_exec _ _ _ _ _ (success_acts ep) E)).
Qed.

Lemma exec_failure_frame w ep : exists x r, exec (failure ep) w = (inr x, with_redis r w).
Proof.
  destruct (never_throws_exec _ w (failure_never_throws ep)) as (x & w' & E).
  exists x, (w_redis w'). rewrite E. by rewrite <- (proj1 (acts_exec _ _ _ _ _ (failure_acts ep) E)).
Qed.

(** ** The abstract view of the store *)

Definition no_colon (s : string) : Prop := str_forall (fun c => negb (Ascii.eqb c ":")) s = true.

Definition entry_of (s : CircuitSnapshot) : rentry := mkEntry (RStr (stringify (snapshot_json s))) None.

(** The endpoint's snapshot, as every later read sees it. *)
Definition circuit_at (w : World) (endpointId : string) (s : CircuitSnapshot) : Prop :=
  r_lookup (w_redis w) (w_now w) (keyOf endpointId) = Some (entry_of s) \/
  r_lookup (w_redis w) (w_now w) (keyOf endpointId) = None /\ s = EMPTY_CIRCUIT.

Definition probe_free (w : World) (endpointId : string) : bool :=
  bool_decide (r_lookup (w_redis w) (w_now w) (probeKey endpointId) = None).

Lemma keyOf_inj a b : keyOf a = keyOf b -> a = b.
Proof. unfold keyOf. by intros ?%(inj (String.append _)). Qed.

Lemma probeKey_inj a b : no_colon a -> no_colon b -> probeKey a = probeKey b -> a = b.
Proof.
  unfold probeKey. intros Ha Hb H%(inj (String.append _)).
  by apply (app_sep_inj ":"%char a b "probe" "probe") in H as [? _].
Qed.

Lemma keyOf_not_probe a b : no_colon a -> keyOf a <> probeKey b.
Proof.
  unfold keyOf, probeKey, no_colon. intros Ha H%(inj (String.append _)). subst a.
  rewrite str_forall_app in Ha. cbn in Ha. by rewrite andb_false_r in Ha.
Qed.

Lemma probe_not_key a b : no_colon a -> probeKey b <> keyOf a.
Proof. intros. by apply not_eq_sym, keyOf_not_probe. Qed.

(** Other commands leave the entry alone, and so does time. *)
Lemma circuit_at_later w w' ep s :
  w_redis w' = w_redis w -> w_now w <= w_now w' -> circuit_at w ep s -> circuit_at w' ep s.
Proof.
  intros Hr Ht. unfold circuit_at. rewrite Hr, (r_lookup_later (w_redis w) (w_now w) (w_now w')) by done.
  intros [->|[-> ->]]; [by left|by right].
Qed.

Lemma exec_read w ep s : circuit_at w ep s -> exec (read ep) w = (inr s, w).
Proof.
  unfold read, redis_get. intros Hs. rewrite exec_bind, exec_redis_call.
  assert (with_redis (w_redis w) w = w) as Hw by (by destruct w).
  destruct Hs as [->|[-> ->]]; cbn [fst snd]; rewrite Hw; [|done].
  destruct (snapshot_json_roundtrip s) as [Hp Hj]. unfold entry_of.
  destruct (stringify (snapshot_json s)) as [|c t]; [done|]. by rewrite Hp, Hj.
Qed.

Lemma exec_write w ep s : exec (write ep s) w =
  (inr tt, with_redis (r_set (keyOf ep) (stringify (snapshot_json s)) (w_redis w)) w).
Proof. unfold write, redis_set. by autorewrite with exec. Qed.

Lemma exec_del w k : exec (redis_del k) w = (inr tt, with_redis (r_del k (w_redis w)) w).
Proof. unfold redis_del. by autorewrite with exec. Qed.

(** The state of the store after a snapshot is written and the probe released. *)
Definition settled (w : World) (ep : string) (s : CircuitSnapshot) : World :=
  with_redis (r_del (probeKey ep) (r_set (keyOf ep) (stringify (snapshot_json s)) (w_redis w))) w.

Lemma settled_spec w ep s : no_colon ep ->
  circuit_at (settled w ep s) ep s /\ probe_free (settled w ep s) ep = true /\
  (forall ep' s', no_colon ep' -> ep' <> ep ->
     circuit_at w ep' s' -> circuit_at (settled w ep s) ep' s') /\
  (forall ep', no_colon ep' -> ep' <> ep -> probe_free (settled w ep s) ep' = probe_free w ep').
Proof.
  intros Hep. unfold circuit_at, probe_free, settled. cbn [w_redis w_now with_redis].
  split_and!.
  - left. rewrite r_lookup_del, decide_False, r_lookup_set, decide_True by
      (done || by apply not_eq_sym, keyOf_not_probe). done.
  - rewrite r_lookup_del, decide_True by done. done.
  - intros ep' s' Hep' Hne. rewrite r_lookup_del, decide_False by (by apply not_eq_sym, keyOf_not_probe).
    rewrite r_lookup_set, decide_False; [done|]. by intros ?%keyOf_inj.
  - intros ep' Hep' Hne. rewrite r_lookup_del, decide_False.
    + rewrite r_lookup_set, decide_False; [done|]. by apply keyOf_not_probe.
    + intros ?%probeKey_inj; congruence.
Qed.

Lemma exec_failure w ep s : circuit_at w ep s ->
  exec (failure ep) w =
    let '(next, disable) := onFailure s (w_now w) (circuit_config cfg) in
    (inr (disable, failures next), settled w ep next).
Proof.
  intros Hs. unfold failure. autorewrite with exec. rewrite (exec_read w ep s Hs).
  destruct (onFailure _ _ _) as [next disable]. autorewrite with exec.
  rewrite exec_write. autorewrite with exec. by rewrite exec_del.
Qed.

Lemma exec_success w ep : exec (success ep) w = (inr tt, settled w ep onSuccess).
Proof.
  unfold success. autorewrite with exec. rewrite exec_write, exec_del. done.
Qed.

(** The state after a won probe. *)
Definition probing (w : World) (ep : string) (s : CircuitSnapshot) : World :=
  with_redis (r_set (keyOf ep) (stringify (snapshot_json s))
    (r_set_nx_ex (w_now w) (probeKey ep) "1" PROBE_TTL_SEC (w_redis w)).2) w.

Lemma exec_allow w ep s : circuit_at w ep s ->
  exec (allow ep) w =
    let '(allowed, next) := decideAttempt s (w_now w) (circuit_config cfg) in
    if negb allowed then (inr false, w)
    else if negb (bool_decide (state next = HALF_OPEN)) then (inr true, w)
    else if probe_free w ep then (inr true, probing w ep next)
    else (inr false, with_redis (r_set_nx_ex (w_now w) (probeKey ep) "1" PROBE_TTL_SEC (w_redis w)).2 w).
Proof.
  intros Hs. unfold allow. autorewrite with exec. rewrite (exec_read w ep s Hs).
  destruct (decideAttempt _ _ _) as [[] next]; cbn [negb]; [|done].
  case_bool_decide as Hst; cbn [negb]; [|done].
  unfold redis_set_nx_ex. autorewrite with exec. rewrite r_set_nx_ex_result.
  unfold probe_free. case_bool_decide; cbn [negb]; [|done].
  autorewrite with exec. by rewrite exec_write.
Qed.

Lemma probing_spec w ep s : no_colon ep ->
  circuit_at (probing w ep s) ep s /\
  r_lookup (w_redis (probing w ep s)) (w_now w) (probeKey ep) =
    (if probe_free w ep then Some (mkEntry (RStr "1") (Some (w_now w + 1000 * PROBE_TTL_SEC)))
     else r_lookup (w_redis w) (w_now w) (probeKey ep)) /\
  (forall ep' s', no_colon ep' -> ep' <> ep -> circuit_at w ep' s' -> circuit_at (probing w ep s) ep' s').
Proof.
  intros Hep. unfold circuit_at, probing, probe_free. cbn [w_redis w_now with_redis]. split_and!.
  - left. by rewrite r_lookup_set, decide_True.
  - rewrite r_lookup_set, decide_False, r_lookup_set_nx_ex by (lia || by apply keyOf_not_probe).
    case_bool_decide as Hf; [rewrite decide_True by done|by rewrite decide_False by naive_solver].
    unfold PROBE_TTL_SEC. destruct (Z.ltb_spec (w_now w) (w_now w + 1000 * 30)); [done|lia].
  - intros ep' s' Hep' Hne. rewrite r_lookup_set, decide_False by (by intros ?%keyOf_inj).
    rewrite r_lookup_set_nx_ex, decide_False; [done| |lia]. intros [? _]. by eapply probe_not_key.
Qed.

(** ** The store as a whole: sequences of operations on many endpoints *)

Inductive store_op := SAllow (ep : string) | SSuccess (ep : string) | SFailure (ep : string) | SElapse (d : Z).

Definition op_exec (w : World) (o : store_op) : World :=
  match o with
  | SAllow ep => (exec (allow ep) w).2
  | SSuccess ep => (exec (success ep) w).2
  | SFailure ep => (exec (failure ep) w).2
  | SElapse d => elapse d w
  end.

Definition op_ok (o : store_op) : Prop :=
  match o with SAllow ep | SSuccess ep | SFailure ep => no_colon ep | SElapse _ => True end.

(** The specification: per endpoint, the failures since the last success and the
    time of the latest. *)
Definition op_spec (c : (string -> Z * Z) * Z) (o : store_op) : (string -> Z * Z) * Z :=
  let '(f, now) := c in
  match o with
  | SAllow _ => c
  | SSuccess ep => (fun x => if String.eqb x ep then (0, 0) else f x, now)
  | SFailure ep => (fun x => if String.eqb x ep then ((f x).1 + 1, now) else f x, now)
  | SElapse d => (f, now + Z.max 0 d)
  end.

Definition store_refines (w : World) (c : (string -> Z * Z) * Z) : Prop :=
  w_now w = c.2 /\
  forall ep, no_colon ep ->
    exists s, circuit_at w ep s /\ circuit_refines (circuit_config cfg) s (c.1 ep).

Lemma store_refines_allow w c ep :
  0 < HR_CIRCUIT_OPEN_AFTER cfg -> no_colon ep ->
  store_refines w c -> store_refines (op_exec w (SAllow ep)) c.
Proof.
  intros Ho Hep [Hnow Hst]. cbn [op_exec]. destruct (Hst ep Hep) as (s & Hs & Hr).
  rewrite (exec_allow w ep s Hs).
  pose proof (circuit_refines_step (circuit_config cfg) s (c.1 ep) (Attempt (w_now w)) Ho Hr) as Hr'. cbn in Hr'.
  destruct (decideAttempt s (w_now w) (circuit_config cfg)) as [[] next]; cbn [negb snd] in *; [|by split].
  case_bool_decide; cbn [negb snd]; [|by split].
  destruct (probe_free w ep) eqn:Hf; cbn [snd].
  - destruct (probing_spec w ep next Hep) as (Hown & _ & Hother). split; [done|].
    intros ep' Hep'. destruct (decide (ep' = ep)) as [->|Hne]; [by exists next|].
    destruct (Hst ep' Hep') as (s' & Hs' & Hr''). exists s'. auto.
  - split; [done|]. intros ep' Hep'. destruct (Hst ep' Hep') as (s' & Hs' & Hr''). exists s'. split; [|done].
    revert Hs'. unfold circuit_at. cbn [w_redis w_now with_redis].
    rewrite r_lookup_set_nx_ex, decide_False; [done| |lia]. intros [? _]. by eapply probe_not_key.
Qed.

Lemma store_refines_settled w c ep next cep :
  no_colon ep -> store_refines w c -> circuit_refines (circuit_config cfg) next cep ->
  store_refines (settled w ep next) ((fun x => if String.eqb x ep then cep else c.1 x), c.2).
Proof.
  intros Hep [Hnow Hst] Hr. split; [done|]. intros ep' Hep'. cbn [fst].
  destruct (settled_spec w ep next Hep) as (Hown & _ & Hother & _).
  destruct (String.eqb_spec ep' ep) as [->|Hne]; [by exists next|].
  destruct (Hst ep' Hep') as (s' & Hs' & Hr'). exists s'. auto.
Qed.

Lemma store_refines_step w c o :
  0 < HR_CIRCUIT_OPEN_AFTER cfg -> op_ok o ->
  store_refines w c -> store_refines (op_exec w o) (op_spec c o).
Proof.
  intros Ho Hok Hw. destruct c as [f now], o as [ep|ep|ep|d]; cbn [op_spec op_ok] in *.
  - by apply store_refines_allow.
  - cbn [op_exec]. rewrite exec_success. apply (store_refines_settled w (f, now) ep _ (0, 0)); try done.
    by apply circuit_refines_empty.
  - cbn [op_exec]. pose proof Hw as [Hnow Hst]. destruct (Hst ep Hok) as (s & Hs & Hr).
    rewrite (exec_failure w ep s Hs).
    pose proof (circuit_refines_step (circuit_config cfg) s (f ep) (Failure (w_now w)) Ho Hr) as Hr'. cbn in Hr', Hnow.
    destruct (onFailure s (w_now w) (circuit_config cfg)) as [next dis]. cbn [fst snd] in *.
    subst now. pose proof (store_refines_settled w (f, w_now w) ep next _ Hok Hw Hr') as [H1 H2].
    split; [done|]. intros ep' Hep'. destruct (H2 ep' Hep') as (s' & Hs' & Hr''). exists s'. split; [done|].
    cbn [fst] in *. destruct (String.eqb_spec ep' ep); congruence.
  - destruct Hw as [Hnow Hst]. split; [cbn in *; lia|]. intros ep Hep.
    destruct (Hst ep Hep) as (s & Hs & Hr). exists s. split; [|done].
    apply (circuit_at_later w); [done|cbn; lia|done].
Qed.

End store.

(** ** Properties *)

Section properties.
Context `{P : Platform}.
Variable cfg : Config.


(** One probe at a time, across all workers: once [allow] let a probe
    through on a cooled-down circuit, every other [allow] of the next 30 s is
    refused, as long as no outcome was reported; the outcome (or the lock's
    expiry after 30 s) lets the next attempt through again. *)
Theorem half_open_single_probe w ep s w2 :
  no_colon ep -> circuit_at w ep s -> probe_free w ep = true ->
  decideAttempt s (w_now w) (circuit_config cfg) = (true, mkSnapshot HALF_OPEN (failures s) (openedAt s)) ->
  let '(r1, w1) := exec (allow cfg ep) w in
  r1 = inr true /\
  (w_redis w2 = w_redis w1 -> w_now w1 <= w_now w2 ->
   (exec (allow cfg ep) w2).1 = inr (w_now w1 + 30000 <=? w_now w2)).
Proof.
  intros Hep Hs Hfree Hdec. rewrite (exec_allow cfg w ep s Hs), Hdec, Hfree. cbn [negb].
  rewrite bool_decide_eq_true_2 by done. cbn [negb]. split; [done|]. intros Hr Ht.
  set (s1 := mkSnapshot HALF_OPEN (failures s) (openedAt s)) in *.
  destruct (probing_spec w ep s1 Hep) as (Hown & Hlock & _). rewrite Hfree in Hlock.
  assert (circuit_at w2 ep s1) as Hs2 by (by apply (circuit_at_later (probing w ep s1))).
  rewrite (exec_allow cfg w2 ep s1 Hs2). cbn [decideAttempt state s1 negb].
  rewrite bool_decide_eq_true_2 by done. cbn [negb].
  assert (probe_free w2 ep = (w_now w + 30000 <=? w_now w2)) as Hf2.
  { unfold probe_free. rewrite Hr, (r_lookup_later _ (w_now w)), Hlock by done.
    cbn [mbind option_bind live re_exp]. unfold PROBE_TTL_SEC.
    destruct (Z.ltb_spec (w_now w2) (w_now w + 1000 * 30)), (Z.leb_spec (w_now w + 30000) (w_now w2));
      try lia; by case_bool_decide. }
  cbn [w_now probing with_redis]. rewrite <- Hf2. by destruct (probe_free w2 ep).
Qed.

(** The breaker fails open and never raises: whatever happens to Redis
    (each command may fail before or after its effect), [allow], [success] and
    [failure] return; with Redis down an attempt is always allowed and a failure
    never disables the endpoint. *)
Theorem breaker_fails_open sched n w ep e :
  (exists b w' n', run sched n (allow cfg ep) w = (inr b, w', n')) /\
  (exists w' n', run sched n (success ep) w = (inr tt, w', n')) /\
  (exists r w' n', run sched n (failure cfg ep) w = (inr r, w', n')) /\
  (run (fun _ => FailBefore e) n (allow cfg ep) w).1 = (inr true, w) /\
  (run (fun _ => FailBefore e) n (failure cfg ep) w).1 = (inr (false, 0), w).
Proof.
  split_and!; [| | |done|done].
  - apply allow_never_throws.
  - destruct (success_never_throws ep sched n w) as ([] & ?); eauto.
  - apply failure_never_throws.
Qed.

End properties.

(** ** Concrete runs *)

Definition demo_world := world_at 1000 empty_db 200.


Lemma half_open_single_probe_witness :
  let w := fold_left (op_exec demo_cfg) [SFailure "a"; SFailure "a"; SElapse 6000] demo_world in
  (exec (allow demo_cfg "a") (exec (allow demo_cfg "a") w).2).1 = inr false.
Proof.
  intros w. pose proof (half_open_single_probe demo_cfg w "a" (mkSnapshot OPEN 2 1000)
    (exec (allow demo_cfg "a") w).2) as H.
  destruct (exec (allow demo_cfg "a") w) as [r1 w1] eqn:E. cbn [snd] in *.
  destruct H as [_ H]; [done|by left|done|done|]. rewrite H by done.
  f_equal. apply Z.leb_gt. lia.
Defined.
