(* ===== verification/TenantLimiter.v ===== *)
(** * Per-tenant concurrency: [worker/tenant-limiter.ts]

    A counting semaphore in one Redis key per tenant, with an expiry against
    leaked slots.  The acquiring script is one atomic command; [release] is two. *)

From S2P Require Import Prelude Errors Effects Concurrency Platform Schema World Config TestPlatform.
From stdpp Require Import relations.
Open Scope Z_scope.
Open Scope hook_scope.

Section limiter.
Context `{P : Platform}.
Variable cfg : Config.

Definition slot_key (tenantId : string) : string := "hr:tenant:" +:+ (tenantId +:+ ":inflight").

(** The script, run atomically; [None] is an error reply of [INCR]. *)
Definition ACQUIRE_LUA (key : string) (max ttl : Z) (now : Z) (r : rstate) : option Z * rstate :=
  match r_incrby now key 1 r with
  | (None, r) => (None, r)
  | (Some n, r) =>
      let r := if n =? 1 then r_expire now key ttl r else r in
      if max <? n then (Some 0, (r_incrby now key (-1) r).2) else (Some 1, r)
  end.

Definition acquire (tenantId : string) : prog World bool :=
  if HR_TENANT_CONCURRENCY cfg <=? 0 then Ret true else
  catch
    (let* result := redis_try
       (ACQUIRE_LUA (slot_key tenantId) (HR_TENANT_CONCURRENCY cfg) (HR_TENANT_SLOT_TTL_SEC cfg)) in
     Ret (result =? 1))
    (fun _ => Ret true).

Definition redis_decr (key : string) : prog World Z := redis_try (fun now => r_incrby now key (-1)).
Definition redis_del_key (key : string) : prog World unit := redis_call (fun _ r => (tt, r_del key r)).

Definition release (tenantId : string) : prog World unit :=
  if HR_TENANT_CONCURRENCY cfg <=? 0 then Ret tt else
  catch
    (let* n := redis_decr (slot_key tenantId) in
     if n <=? 0 then redis_del_key (slot_key tenantId) else Ret tt)
    (fun _ => Ret tt).

Lemma acquire_acts t : acts redis_step (acquire t).
Proof.
  unfold acquire. destruct (_ <=? _); [done|]. apply acts_catch; [|done].
  apply acts_bind; [apply redis_try_step|done].
Qed.

Lemma release_acts t : acts redis_step (release t).
Proof.
  unfold release. destruct (_ <=? _); [done|]. apply acts_catch; [|done].
  apply acts_bind; [apply redis_try_step|]. intros n. destruct (n <=? 0); [apply redis_call_step|done].
Qed.

Lemma acquire_never_throws t : never_throws (acquire t).
Proof. unfold acquire. destruct (_ <=? _); auto with hook. Qed.

Lemma release_never_throws t : never_throws (release t).
Proof. unfold release. destruct (_ <=? _); auto with hook. Qed.

(** ** The counter as the abstract number of held slots *)

(** [h] slots are held; the key lives until [x]. *)
Definition slots (w : World) (t : string) (h x : Z) : Prop :=
  (h = 0 /\ r_lookup (w_redis w) (w_now w) (slot_key t) = None) \/
  (0 < h /\ w_now w < x /\
   r_lookup (w_redis w) (w_now w) (slot_key t) = Some (mkEntry (RInt h) (Some x))).

Lemma exec_redis_try {R} (f : Z -> rstate -> option R * rstate) w v r :
  f (w_now w) (w_redis w) = (Some v, r) -> exec (redis_try f) w = (inr v, with_redis r w).
Proof. unfold redis_try. intros E. by rewrite exec_call, E. Qed.

(** What one run of the script does to a semaphore with [h] held slots. *)
Lemma ACQUIRE_LUA_spec r now k max ttl h x :
  0 < max -> 0 < ttl -> 0 <= h ->
  r_lookup r now k = (if h =? 0 then None else Some (mkEntry (RInt h) (Some x))) -> now < x ->
  exists r', ACQUIRE_LUA k max ttl now r = (Some (if h <? max then 1 else 0), r') /\
    r_lookup r' now k =
      (if h <? max then Some (mkEntry (RInt (h + 1)) (Some (if h =? 0 then now + 1000 * ttl else x)))
       else Some (mkEntry (RInt h) (Some x))) /\
    forall k', k' <> k -> r_lookup r' now k' = r_lookup r now k'.
Proof.
  intros Hmax Httl Hh He Hx. unfold ACQUIRE_LUA. destruct (Z.eqb_spec h 0) as [->|Hne].
  - destruct (r_incrby_spec r now k 1 0 None He) as (r1 & -> & H1 & Hf1); [done..|].
    destruct (r_expire_spec r1 now k ttl _ H1 Httl) as [H2 Hf2]. change (0 + 1) with 1 in *. change (1 =? 1) with true.
    destruct (Z.ltb_spec max 1); [lia|]. destruct (Z.ltb_spec 0 max); [|lia].
    eexists. split_and!; [done|done|]. intros k' Hk. by rewrite Hf2, Hf1.
  - destruct (r_incrby_spec r now k 1 h _ He) as (r1 & -> & H1 & Hf1); [cbn; lia|done|].
    destruct (Z.eqb_spec (h + 1) 1); [lia|]. cbn [mbind option_bind re_exp] in H1.
    destruct (Z.ltb_spec max (h + 1)), (Z.ltb_spec h max); try lia.
    + destruct (r_incrby_spec r1 now k (-1) (h + 1) _ H1) as (r2 & -> & H2 & Hf2); [cbn; lia|done|].
      exists r2. split_and!; [done| |intros k' Hk; by rewrite Hf2, Hf1].
      rewrite H2. cbn. do 3 f_equal. lia.
    + by exists r1.
Qed.

Lemma slots_frame w r' t t' h x :
  (forall k, k <> slot_key t -> r_lookup r' (w_now w) k = r_lookup (w_redis w) (w_now w) k) ->
  t' <> t -> slots w t' h x -> slots (with_redis r' w) t' h x.
Proof.
  intros Hfr Hne. unfold slots. cbn [w_redis w_now with_redis]. rewrite Hfr; [done|].
  unfold slot_key. intros Heq%(inj (String.append _)). apply Hne. by eapply str_app_cancel_r.
Qed.

(** The script on a semaphore with [h] held slots; it touches one key. *)
Lemma exec_acquire_redis w t h x :
  0 < HR_TENANT_CONCURRENCY cfg -> 0 < HR_TENANT_SLOT_TTL_SEC cfg -> 0 <= h ->
  slots w t h x ->
  exists r', exec (acquire t) w = (inr (h <? HR_TENANT_CONCURRENCY cfg), with_redis r' w) /\
    slots (with_redis r' w) t (if h <? HR_TENANT_CONCURRENCY cfg then h + 1 else h)
      (if h =? 0 then w_now w + 1000 * HR_TENANT_SLOT_TTL_SEC cfg else x) /\
    forall k, k <> slot_key t -> r_lookup r' (w_now w) k = r_lookup (w_redis w) (w_now w) k.
Proof.
  intros Hmax Httl Hh Hs.
  assert (exists x', w_now w < x' /\ (h <> 0 -> x' = x) /\
    r_lookup (w_redis w) (w_now w) (slot_key t) = (if h =? 0 then None else Some (mkEntry (RInt h) (Some x'))))
    as (x' & Hx' & Hxx & Hl).
  { destruct Hs as [[-> Hl]|(? & ? & Hl)].
    - exists (w_now w + 1). split_and!; [lia|done|done].
    - exists x. destruct (Z.eqb_spec h 0); [lia|done]. }
  destruct (ACQUIRE_LUA_spec (w_redis w) (w_now w) (slot_key t) _ _ h x' Hmax Httl Hh Hl Hx')
    as (r' & Hlua & Hl' & Hfr).
  exists r'. split; [|split; [|exact Hfr]].
  - unfold acquire. destruct (Z.leb_spec (HR_TENANT_CONCURRENCY cfg) 0); [lia|].
    rewrite exec_catch, exec_bind. erewrite exec_redis_try by exact Hlua.
    by destruct (h <? HR_TENANT_CONCURRENCY cfg).
  - unfold slots. cbn [w_redis w_now with_redis]. rewrite Hl'.
    destruct (Z.ltb_spec h (HR_TENANT_CONCURRENCY cfg)); right.
    + destruct (Z.eqb_spec h 0); split_and!; try lia; try done. by rewrite Hxx.
    + destruct (Z.eqb_spec h 0); [lia|]. rewrite Hxx in * by done. split_and!; [lia|lia|done].
Qed.

Lemma exec_acquire w t h x :
  0 < HR_TENANT_CONCURRENCY cfg -> 0 < HR_TENANT_SLOT_TTL_SEC cfg -> 0 <= h ->
  slots w t h x ->
  exists w', exec (acquire t) w = (inr (h <? HR_TENANT_CONCURRENCY cfg), w') /\
    w_now w' = w_now w /\
    slots w' t (if h <? HR_TENANT_CONCURRENCY cfg then h + 1 else h)
      (if h =? 0 then w_now w + 1000 * HR_TENANT_SLOT_TTL_SEC cfg else x) /\
    forall t' h' x', t' <> t -> slots w t' h' x' -> slots w' t' h' x'.
Proof.
  intros Hmax Httl Hh Hs. destruct (exec_acquire_redis w t h x Hmax Httl Hh Hs) as (r' & He & Hs' & Hfr).
  exists (with_redis r' w). split; [exact He|]. split; [done|]. split; [exact Hs'|].
  intros t' h' y Hne. by apply (slots_frame w r' t).
Qed.

Lemma exec_release w t h x :
  0 < HR_TENANT_CONCURRENCY cfg -> 0 < h -> slots w t h x ->
  exists w', exec (release t) w = (inr tt, w') /\ w_now w' = w_now w /\ slots w' t (h - 1) x /\
    forall t' h' x', t' <> t -> slots w t' h' x' -> slots w' t' h' x'.
Proof.
  intros Hmax Hh [[-> _]|(_ & Hx & Hl)]; [lia|].
  destruct (r_incrby_spec (w_redis w) (w_now w) (slot_key t) (-1) h _ Hl) as (r1 & Hr & Hl1 & Hfr);
    [cbn; lia|done|].
  unfold release. destruct (Z.leb_spec (HR_TENANT_CONCURRENCY cfg) 0); [lia|].
  rewrite exec_catch, exec_bind. unfold redis_decr. erewrite exec_redis_try by exact Hr.
  destruct (Z.leb_spec (h + -1) 0).
  - unfold redis_del_key. rewrite exec_redis_call. eexists. split; [reflexivity|]. split; [done|]. split.
    + left. split; [lia|]. cbn [w_redis w_now with_redis fst snd]. by rewrite r_lookup_del, decide_True.
    + intros t' h' x' Hne. intros Hs'.
      change (slots (with_redis (r_del (slot_key t) r1) w) t' h' x').
      eapply slots_frame; [|exact Hne|exact Hs']. intros k Hk. rewrite r_lookup_del, decide_False by done. auto.
  - eexists. split; [reflexivity|]. split; [done|]. split.
    + right. cbn [w_redis w_now with_redis].
      rewrite Hl1. replace (h + -1) with (h - 1) by lia. split_and!; [lia|lia|done].
    + intros t' h' x' Hne. by apply (slots_frame w r1 t).
Qed.

(** ** Runs of many tenants *)

Inductive slot_op := TAcquire (t : string) | TRelease (t : string) | TElapse (d : Z).

Definition set_held (f : string -> Z) (t : string) (n : Z) : string -> Z :=
  fun x => if String.eqb x t then n else f x.

(** [held]: how many slots each tenant's deliveries hold; a delivery releases
    only a slot it acquired. *)
Definition slot_step (c : World * (string -> Z)) (o : slot_op) : World * (string -> Z) :=
  let '(w, held) := c in
  match o with
  | TAcquire t =>
      match exec (acquire t) w with
      | (inr true, w') => (w', set_held held t (held t + 1))
      | (_, w') => (w', held)
      end
  | TRelease t => if 0 <? held t then ((exec (release t) w).2, set_held held t (held t - 1)) else c
  | TElapse d => (elapse d w, held)
  end.

Definition slot_time (o : slot_op) : Z := match o with TElapse d => Z.max 0 d | _ => 0 end.
Definition slot_duration (os : list slot_op) : Z := foldr (fun o n => slot_time o + n) 0 os.

(** The counters are the numbers of held slots, and none expires before [x]. *)
Definition slots_inv (x : Z) (c : World * (string -> Z)) : Prop :=
  forall t, 0 <= c.2 t <= HR_TENANT_CONCURRENCY cfg /\ exists y, x <= y /\ slots c.1 t (c.2 t) y.

Lemma slots_inv_update x (w w' : World) held t n y :
  slots_inv x (w, held) -> 0 <= n <= HR_TENANT_CONCURRENCY cfg -> x <= y -> slots w' t n y ->
  (forall t' h' x', t' <> t -> slots w t' h' x' -> slots w' t' h' x') ->
  slots_inv x (w', set_held held t n).
Proof.
  intros Hinv Hn Hy Hs Hfr t'. unfold set_held. cbn [fst snd].
  destruct (String.eqb_spec t' t) as [->|Hne]; [by eauto|].
  destruct (Hinv t') as (Hb & z & Hz & Hsz). split; [done|]. exists z. auto.
Qed.

Lemma slots_inv_step x c o :
  0 < HR_TENANT_CONCURRENCY cfg -> 0 < HR_TENANT_SLOT_TTL_SEC cfg ->
  x <= w_now c.1 + 1000 * HR_TENANT_SLOT_TTL_SEC cfg ->
  w_now c.1 + slot_time o < x -> slots_inv x c ->
  slots_inv x (slot_step c o) /\ w_now (slot_step c o).1 = w_now c.1 + slot_time o.
Proof.
  intros Hmax Httl Hx Hlt Hinv. destruct c as [w held], o as [t|t|d]; cbn [slot_step slot_time fst snd] in *.
  - destruct (Hinv t) as (Hb & y & Hy & Hs). cbn [fst snd] in *.
    destruct (exec_acquire w t (held t) y) as (w' & -> & Hnow & Hs' & Hfr); [lia|lia|lia|done|].
    destruct (Z.ltb_spec (held t) (HR_TENANT_CONCURRENCY cfg)); cbn [fst snd]; (split; [|lia]).
    + eapply slots_inv_update; [done|lia| |done|done]. destruct (held t =? 0); lia.
    + destruct (Z.eqb_spec (held t) 0); [lia|]. intros t'. cbn [fst snd].
      destruct (decide (t' = t)) as [->|Hne]; [by eauto|].
      destruct (Hinv t') as (Hb' & z & Hz & Hsz). split; [done|]. exists z. auto.
  - destruct (Z.ltb_spec 0 (held t)); [|by split; [|cbn; lia]].
    destruct (Hinv t) as (Hb & y & Hy & Hs). cbn [fst snd] in *.
    destruct (exec_release w t (held t) y) as (w' & -> & Hnow & Hs' & Hfr); [lia|lia|done|].
    cbn [fst snd]. split; [|lia]. eapply slots_inv_update; [done|lia|done|done|done].
  - split; [|cbn; lia]. intros t. destruct (Hinv t) as (Hb & y & Hy & Hs). cbn [fst snd] in *.
    split; [done|]. exists y. split; [done|]. unfold slots in *. cbn [w_redis w_now elapse].
    rewrite (r_lookup_later (w_redis w) (w_now w)) by lia.
    destruct Hs as [[-> ->]|(? & ? & ->)]; [by left|]. right. split_and!; [done|lia|].
    cbn. destruct (Z.ltb_spec (w_now w + Z.max 0 d) y); [done|lia].
Qed.

Lemma slots_inv_run os c x :
  0 < HR_TENANT_CONCURRENCY cfg -> 0 < HR_TENANT_SLOT_TTL_SEC cfg ->
  x <= w_now c.1 + 1000 * HR_TENANT_SLOT_TTL_SEC cfg ->
  w_now c.1 + slot_duration os < x -> slots_inv x c -> slots_inv x (fold_left slot_step os c).
Proof.
  intros Hmax Httl. revert c. induction os as [|o os IH]; intros c Hx Hlt Hinv; cbn; [done|].
  cbn in Hlt. assert (0 <= slot_duration os)
    by (clear; unfold slot_duration; induction os as [|[] ? IH]; cbn; lia).
  assert (0 <= slot_time o) by (destruct o; cbn; lia).
  destruct (slots_inv_step x c o) as [Hinv' Hnow]; try done; [unfold slot_duration in *; lia|].
  unfold slot_duration in *. apply IH; [lia|lia|done].
Qed.

(** Acquisitions and releases one after another, for less than the TTL in total. *)
Lemma one_after_another w os t :
  0 < HR_TENANT_CONCURRENCY cfg -> 0 < HR_TENANT_SLOT_TTL_SEC cfg ->
  (forall k, r_lookup (w_redis w) (w_now w) k = None) ->
  slot_duration os < 1000 * HR_TENANT_SLOT_TTL_SEC cfg ->
  let '(w', held) := fold_left slot_step os (w, fun _ => 0) in
  0 <= held t <= HR_TENANT_CONCURRENCY cfg /\
  (exec (acquire t) w').1 = inr (held t <? HR_TENANT_CONCURRENCY cfg).
Proof.
  intros Hmax Httl Hempty Hdur.
  assert (slots_inv (w_now w + 1000 * HR_TENANT_SLOT_TTL_SEC cfg)
    (fold_left slot_step os (w, fun _ => 0))) as Hinv.
  { apply slots_inv_run; cbn [fst snd]; try lia.
    intros t'. cbn [fst snd]. split; [lia|]. eexists. split; [reflexivity|]. by left. }
  destruct (fold_left slot_step os (w, fun _ => 0)) as [w' held].
  destruct (Hinv t) as (Hb & y & Hy & Hs). cbn [fst snd] in *. split; [done|].
  by destruct (exec_acquire w' t (held t) y) as (w'' & -> & _); [lia|lia|lia|done|].
Qed.

End limiter.

(** ** Deliveries and their slots, command by command

    Any number of deliveries at once: each acquires its tenant's slot, holds it while
    it is handled, and releases it, in the commands of the programs above.  Between any
    two commands others may run; a command may fail, or be executed and its answer lost;
    a worker may crash; time passes and keys expire; the rest of the system leaves the
    keys alone. *)

Section concurrent.
Context `{P : Platform}.
Variable cfg : Config.

Inductive User :=
| Acquiring (t : string) (p : prog World bool)
| Holding (t : string)
| Releasing (t : string) (issued : nat) (p : prog World unit)     (** after [issued] commands *)
| Gone.

(** [sl_lost]: by tenant, the slots that the store has lost sight of. *)
Record Slots := mkSlots {
  sl_world : World;
  sl_users : list User;
  sl_lost : string -> Z;
}.

(** One command of a program; [failed]: its caller got an error from the service,
    whether the command was executed or not. *)
Definition command {A} (failed : bool) (p : prog World A) (w : World) (p' : prog World A) (w' : World) : Prop :=
  match p with
  | Act svc f k =>
      if failed then svc <> Local /\ exists e, p' = k (inl e) /\ (w' = w \/ w' = (f w).2)
      else p' = k (f w).1 /\ w' = (f w).2
  | _ => False
  end.

(** What the store counts for tenant [t]. *)
Definition counted (w : World) (t : string) : Z :=
  match r_lookup (w_redis w) (w_now w) (slot_key t) with Some (mkEntry (RInt n) _) => n | _ => 0 end.

(** The slots that a key counted which is gone, deleted or expired. *)
Definition wiped (w w' : World) (t : string) : Z :=
  match r_lookup (w_redis w) (w_now w) (slot_key t), r_lookup (w_redis w') (w_now w') (slot_key t) with
  | Some _, None => Z.max 0 (counted w t)
  | _, _ => 0
  end.

Definition losing (l : string -> Z) (w w' : World) (t : string) : Z := l t + wiped w w' t.

(** A slot granted because the store did not answer. *)
Definition granting (failed granted : bool) (t : string) (l : string -> Z) (t' : string) : Z :=
  if failed && granted && String.eqb t' t then l t' + 1 else l t'.

Inductive slots_step : Slots -> Slots -> Prop :=
| slot_begin w us l t : slots_step (mkSlots w us l) (mkSlots w (us ++ [Acquiring t (acquire cfg t)]) l)
| slot_acquire i w us l t p failed granted w' :
    us !! i = Some (Acquiring t p) -> command failed p w (Ret granted) w' ->
    slots_step (mkSlots w us l)
      (mkSlots w' (<[i := if granted then Holding t else Gone]> us) (granting failed granted t (losing l w w')))
| slot_handled i w us l t :
    us !! i = Some (Holding t) -> slots_step (mkSlots w us l) (mkSlots w (<[i := Releasing t 0 (release cfg t)]> us) l)
| slot_release i w us l t n p failed p' w' :
    us !! i = Some (Releasing t n p) -> command failed p w p' w' ->
    slots_step (mkSlots w us l) (mkSlots w' (<[i := Releasing t (S n) p']> us) (losing l w w'))
| slot_crash i w us l : slots_step (mkSlots w us l) (mkSlots w (<[i := Gone]> us) l)
| slot_elapse d w us l : slots_step (mkSlots w us l) (mkSlots (elapse d w) us (losing l w (elapse d w)))
| slot_beside w us l w' :
    w_now w' = w_now w ->
    (forall t, r_lookup (w_redis w') (w_now w') (slot_key t) = r_lookup (w_redis w) (w_now w) (slot_key t)) ->
    slots_step (mkSlots w us l) (mkSlots w' us l).

Definition holds (t : string) (u : User) : bool := match u with Holding t' => String.eqb t' t | _ => false end.

(** Those whose slot is still theirs: its [DECR] is to come. *)
Definition owes (t : string) (u : User) : bool :=
  match u with Holding t' => String.eqb t' t | Releasing t' 0 _ => String.eqb t' t | _ => false end.

Definition number (f : User -> bool) (us : list User) : Z := Z.of_nat (length (List.filter f us)).

(** How many deliveries of tenant [t] are handled at this moment. *)
Definition holding (t : string) (us : list User) : Z := number (holds t) us.

(** *** Counting *)

Definition b2z (b : bool) : Z := if b then 1 else 0.

Lemma number_cons f u us : number f (u :: us) = b2z (f u) + number f us.
Proof. unfold number. cbn. destruct (f u); cbn [length b2z]; lia. Qed.

Lemma number_app f us us' : number f (us ++ us') = number f us + number f us'.
Proof. unfold number. rewrite List.filter_app, length_app. lia. Qed.

Lemma number_insert f i u v us : us !! i = Some u -> number f (<[i := v]> us) = number f us - b2z (f u) + b2z (f v).
Proof.
  revert i. induction us as [|x us IH]; intros [|i] Hi; cbn in Hi; try discriminate.
  - injection Hi as ->. cbn [list_insert insert]. rewrite !number_cons. lia.
  - change (<[S i := v]> (x :: us)) with (x :: <[i := v]> us). rewrite !number_cons, (IH i Hi). lia.
Qed.

Lemma number_le f g us : (forall u, f u = true -> g u = true) -> number f us <= number g us.
Proof.
  intros H. induction us as [|u us IH]; [done|]. rewrite !number_cons. specialize (H u).
  destruct (f u); [rewrite H by done|destruct (g u)]; cbn [b2z]; lia.
Qed.

(** *** What the commands do to the counters *)

(** The keys of the slots are counters within the limit. *)
Definition counters_ok (w : World) : Prop :=
  forall t, match r_lookup (w_redis w) (w_now w) (slot_key t) with
            | Some (mkEntry (RInt n) _) => n <= HR_TENANT_CONCURRENCY cfg
            | Some _ => False
            | None => True
            end.

(** A change of at most one counter, by [d] at least, which deletes no other. *)
Definition moves (t : string) (d : Z) (w w' : World) : Prop :=
  w_now w' = w_now w /\ counters_ok w' /\ counted w t + d <= counted w' t + wiped w w' t /\
  forall t', t' <> t -> r_lookup (w_redis w') (w_now w') (slot_key t') = r_lookup (w_redis w) (w_now w) (slot_key t').

Lemma slot_key_inj t t' : slot_key t = slot_key t' -> t = t'.
Proof. unfold slot_key. intros Heq%(inj (String.append _)). by eapply str_app_cancel_r. Qed.

Lemma wiped_nonneg w w' t : 0 <= wiped w w' t.
Proof. unfold wiped. repeat case_match; lia. Qed.

Lemma moves_others t d w w' t' : moves t d w w' -> t' <> t -> counted w' t' = counted w t' /\ wiped w w' t' = 0.
Proof.
  intros (Hn & _ & _ & Hfr) Hne. unfold counted, wiped. rewrite (Hfr t' Hne). by destruct (r_lookup _ _ _).
Qed.

Lemma moves_refl t d w : d <= 0 -> counters_ok w -> moves t d w w.
Proof. intros Hd Hw. split_and!; [done|done| |done]. pose proof (wiped_nonneg w w t). lia. Qed.

(** A store in which key [t] is now an entry [e], or gone. *)
Lemma moves_entry t d w r' e :
  counters_ok w -> r_lookup r' (w_now w) (slot_key t) = e ->
  match e with Some (mkEntry (RInt n) _) => counted w t + d <= n <= HR_TENANT_CONCURRENCY cfg
             | Some _ => False | None => d <= 0 end ->
  (forall k, k <> slot_key t -> r_lookup r' (w_now w) k = r_lookup (w_redis w) (w_now w) k) ->
  moves t d w (with_redis r' w).
Proof.
  intros Hw He Hd Hfr. assert (forall t', t' <> t -> r_lookup r' (w_now w) (slot_key t') = r_lookup (w_redis w) (w_now w) (slot_key t')) as Hfr'
    by (intros t' Hne; apply Hfr; by intros ?%slot_key_inj).
  split_and!; [done| | |exact Hfr'].
  - intros t'. cbn [w_redis w_now with_redis]. destruct (decide (t' = t)) as [->|Hne]; [|by rewrite Hfr'; [apply Hw|]].
    rewrite He. destruct e as [[[n|s] x]|]; [destruct Hd|lia|exact I].
  - assert (counted (with_redis r' w) t = match e with Some (mkEntry (RInt n) _) => n | _ => 0 end) as ->
      by (unfold counted; cbn [w_redis w_now with_redis]; by rewrite He).
    pose proof (wiped_nonneg w (with_redis r' w) t).
    destruct e as [[[|] ?]|]; [destruct Hd|lia|].
    unfold wiped. cbn [w_redis w_now with_redis]. rewrite He. unfold counted.
    destruct (r_lookup (w_redis w) (w_now w) (slot_key t)) as [[[|] ?]|]; lia.
Qed.

(** The counter as the commands read it. *)
Lemma counter_read w t : counters_ok w ->
  let e := r_lookup (w_redis w) (w_now w) (slot_key t) in
  is_live (w_now w) e = true /\ counter_of e = Some (counted w t) /\ (0 < HR_TENANT_CONCURRENCY cfg -> counted w t <= HR_TENANT_CONCURRENCY cfg).
Proof.
  intros Hw e. specialize (Hw t). unfold counted. fold e in Hw |- *.
  assert (is_live (w_now w) e = true) as Hl.
  { subst e. pose proof (r_lookup_later (w_redis w) (w_now w) (w_now w) (slot_key t) ltac:(lia)) as H. revert H.
    destruct (r_lookup _ _ _) as [x|]; [|done]. cbn. by destruct (live (w_now w) x). }
  split; [exact Hl|]. destruct e as [[[n|s] x]|]; [done|done|]. split; [done|lia].
Qed.

Context (Hmax : 0 < HR_TENANT_CONCURRENCY cfg) (Httl : 0 < HR_TENANT_SLOT_TTL_SEC cfg).

Lemma ACQUIRE_LUA_moves w t : counters_ok w ->
  let one := (if counted w t <? HR_TENANT_CONCURRENCY cfg then 1 else 0) in
  exists r', ACQUIRE_LUA (slot_key t) (HR_TENANT_CONCURRENCY cfg) (HR_TENANT_SLOT_TTL_SEC cfg)
      (w_now w) (w_redis w) = (Some one, r') /\ moves t one w (with_redis r' w).
Proof.
  intros Hw one. destruct (counter_read w t Hw) as (Hl & Hc & Hle). specialize (Hle Hmax).
  unfold ACQUIRE_LUA. destruct (r_incrby_spec _ _ _ 1 _ _ eq_refl Hl Hc) as (r1 & -> & H1 & Hf1).
  set (r2 := if _ =? 1 then _ else r1).
  assert (exists x, r_lookup r2 (w_now w) (slot_key t) = Some (mkEntry (RInt (counted w t + 1)) x) /\
    is_live (w_now w) (Some (mkEntry (RInt (counted w t + 1)) x)) = true /\
    forall k, k <> slot_key t -> r_lookup r2 (w_now w) k = r_lookup (w_redis w) (w_now w) k) as (x & H2 & Hx & Hf2).
  { unfold r2. destruct (Z.eqb_spec (counted w t + 1) 1) as [He|He].
    - destruct (r_expire_spec r1 (w_now w) (slot_key t) _ _ H1 Httl) as [H2 Hf2]. eexists. split; [exact H2|].
      split; [apply Z.ltb_lt; lia|]. intros k Hk. by rewrite Hf2, Hf1.
    - eexists. split; [exact H1|]. split; [|exact Hf1].
      destruct (r_lookup (w_redis w) (w_now w) (slot_key t)) as [[v [y|]]|]; [exact Hl|done|done]. }
  unfold one. destruct (Z.ltb_spec (HR_TENANT_CONCURRENCY cfg) (counted w t + 1)) as [Hlt|Hge].
  - destruct (r_incrby_spec r2 _ _ (-1) _ _ H2 Hx eq_refl) as (r3 & -> & H3 & Hf3). exists r3.
    destruct (Z.ltb_spec (counted w t) (HR_TENANT_CONCURRENCY cfg)); [lia|]. split; [done|].
    eapply moves_entry; [exact Hw|exact H3|cbn; lia|]. intros k Hk. by rewrite Hf3, Hf2.
  - exists r2. destruct (Z.ltb_spec (counted w t) (HR_TENANT_CONCURRENCY cfg)); [|lia]. split; [done|].
    eapply moves_entry; [exact Hw|exact H2|cbn; lia|exact Hf2].
Qed.

(** What a failed command leaves: the state before it, or after it. *)
Lemma moves_failed t d w w1 w' : d <= 0 -> counters_ok w -> moves t d w w1 -> w' = w \/ w' = w1 -> moves t d w w'.
Proof. intros Hd Hw Hm [->| ->]; [by apply moves_refl|exact Hm]. Qed.

Lemma moves_weaken t d d' w w' : d' <= d -> moves t d w w' -> moves t d' w w'.
Proof. intros Hd (? & ? & ? & ?). split_and!; [done|done|lia|done]. Qed.

Lemma acquire_command failed t w p' w' : counters_ok w -> command failed (acquire cfg t) w p' w' ->
  exists granted, p' = Ret granted /\ moves t (if granted && negb failed then 1 else 0) w w' /\
    (failed = false -> granted = (counted w t <? HR_TENANT_CONCURRENCY cfg)).
Proof.
  intros Hw. destruct (ACQUIRE_LUA_moves w t Hw) as (r' & Hlua & Hm).
  unfold acquire. destruct (Z.leb_spec (HR_TENANT_CONCURRENCY cfg) 0); [lia|].
  unfold redis_try. cbn [bind catch call command]. rewrite Hlua. destruct failed; cbn [fst snd].
  - intros (_ & e & -> & Hw'). exists true. split; [done|]. split; [cbn [andb negb]|done].
    eapply moves_failed; [lia|done| |exact Hw']. eapply moves_weaken; [|exact Hm]. destruct (_ <? _); lia.
  - intros [-> ->]. destruct (counted w t <? HR_TENANT_CONCURRENCY cfg); eexists; (split; [reflexivity|]);
      (split; [exact Hm|done]).
Qed.

(** What is left of a release after its [DECR] reported that nothing is held. *)
Definition deleting (t : string) : prog World unit := catch (redis_del_key (slot_key t)) (fun _ => Ret tt).

Lemma release_command failed t w p' w' : counters_ok w -> command failed (release cfg t) w p' w' ->
  (p' = Ret tt \/ p' = deleting t) /\ moves t (-1) w w'.
Proof.
  intros Hw. destruct (counter_read w t Hw) as (Hl & Hc & Hle). specialize (Hle Hmax).
  destruct (r_incrby_spec _ _ _ (-1) _ _ eq_refl Hl Hc) as (r1 & Hr & H1 & Hf1).
  assert (moves t (-1) w (with_redis r1 w)) as Hm
    by (eapply moves_entry; [exact Hw|exact H1|cbn; lia|exact Hf1]).
  unfold release. destruct (Z.leb_spec (HR_TENANT_CONCURRENCY cfg) 0); [lia|].
  unfold redis_decr, redis_try. cbn [bind catch call command]. rewrite Hr. destruct failed; cbn [fst snd].
  - intros (_ & e & -> & Hw'). split; [by left|]. by eapply moves_failed.
  - intros [-> ->]. split; [|exact Hm]. cbn [bind]. destruct (counted w t + -1 <=? 0); [right|left]; reflexivity.
Qed.

Lemma deleting_command failed t w p' w' : counters_ok w -> command failed (deleting t) w p' w' ->
  p' = Ret tt /\ moves t 0 w w'.
Proof.
  intros Hw. assert (moves t 0 w (with_redis (r_del (slot_key t) (w_redis w)) w)) as Hm.
  { eapply (moves_entry _ _ _ _ None); [exact Hw|by rewrite r_lookup_del, decide_True|cbn; lia|].
    intros k Hk. by rewrite r_lookup_del, decide_False. }
  unfold deleting, redis_del_key, redis_call. cbn [catch call command]. destruct failed; cbn [fst snd].
  - intros (_ & e & -> & Hw'). split; [done|]. by eapply moves_failed.
  - by intros [-> ->].
Qed.

(** A run of [acquire] is one command. *)
Lemma acquire_runs w t b w' : exec (acquire cfg t) w = (inr b, w') -> command false (acquire cfg t) w (Ret b) w'.
Proof using Hmax.
  unfold acquire. destruct (Z.leb_spec (HR_TENANT_CONCURRENCY cfg) 0); [lia|].
  unfold redis_try. cbn [bind catch call command exec].
  destruct (ACQUIRE_LUA _ _ _ _ _) as [[n|] r]; cbn [fst snd bind catch exec]; intros [= <- <-]; done.
Qed.

(** *** The invariant *)

Definition user_ok (u : User) : Prop :=
  match u with
  | Acquiring t p => p = acquire cfg t
  | Releasing t 0 p => p = release cfg t
  | Releasing t (S _) p => p = Ret tt \/ p = deleting t
  | _ => True
  end.

(** Every slot that is held is counted, or lost to the store. *)
Definition slots_ok (s : Slots) : Prop :=
  counters_ok (sl_world s) /\ Forall user_ok (sl_users s) /\
  forall t, number (owes t) (sl_users s) <= counted (sl_world s) t + sl_lost s t.

Lemma slots_ok_user w us l i u v :
  slots_ok (mkSlots w us l) -> us !! i = Some u -> user_ok v -> (forall t, b2z (owes t v) <= b2z (owes t u)) ->
  slots_ok (mkSlots w (<[i := v]> us) l).
Proof.
  intros (Hw & Hus & Hn) Hi Hv Ho. split_and!; [done|by apply Forall_insert|]. intros t.
  cbn [sl_users sl_world sl_lost] in *. rewrite (number_insert _ _ _ _ _ Hi). specialize (Hn t). specialize (Ho t). lia.
Qed.

(** A command on [t]'s counter moves it by as much as what the user owes. *)
Lemma slots_ok_command w us l l' i u v t d w' :
  slots_ok (mkSlots w us l) -> us !! i = Some u -> user_ok v -> moves t d w w' ->
  (forall t', l t' + wiped w w' t' <= l' t') ->
  (forall t', t' <> t -> owes t' v = owes t' u) ->
  b2z (owes t v) + (l t + wiped w w' t) <= b2z (owes t u) + d + l' t ->
  slots_ok (mkSlots w' (<[i := v]> us) l').
Proof.
  intros (Hw & Hus & Hn) Hi Hv Hm Hl Ho Hd. pose proof Hm as (Hnow & Hw' & Hc & Hfr).
  split_and!; [done|by apply Forall_insert|]. intros t'. cbn [sl_users sl_world sl_lost] in *.
  rewrite (number_insert _ _ _ _ _ Hi). specialize (Hn t').
  destruct (decide (t' = t)) as [->|Hne]; [lia|].
  destruct (moves_others _ _ _ _ _ Hm Hne) as [-> Hz]. rewrite (Ho t' Hne). specialize (Hl t'). lia.
Qed.

Lemma slots_ok_elapse d w us l :
  slots_ok (mkSlots w us l) -> slots_ok (mkSlots (elapse d w) us (losing l w (elapse d w))).
Proof.
  intros (Hw & Hus & Hn).
  assert (forall t, r_lookup (w_redis (elapse d w)) (w_now (elapse d w)) (slot_key t) =
      r_lookup (w_redis w) (w_now w) (slot_key t) \/
    r_lookup (w_redis (elapse d w)) (w_now (elapse d w)) (slot_key t) = None) as Hl.
  { intros t. cbn [w_redis w_now elapse]. rewrite (r_lookup_later (w_redis w) (w_now w)) by lia.
    destruct (r_lookup (w_redis w) (w_now w) (slot_key t)) as [e|]; cbn; [destruct (live _ _)|]; auto. }
  split_and!; [|done|].
  - intros t. cbn [sl_world]. destruct (Hl t) as [-> | ->]; [apply Hw|done].
  - intros t. cbn [sl_users sl_world sl_lost] in *. specialize (Hn t). unfold losing, wiped, counted in *.
    destruct (Hl t) as [-> | ->]; destruct (r_lookup (w_redis w) (w_now w) (slot_key t)) as [[[|] ?]|]; lia.
Qed.

Lemma slots_ok_step s s' : slots_ok s -> slots_step s s' -> slots_ok s'.
Proof.
  intros Hs Hst. destruct Hst as [w us l t|i w us l t p failed granted w' Hi Hc|i w us l t Hi
    |i w us l t n p failed p' w' Hi Hc|i w us l|d w us l|w us l w' Hnow Hk].
  - destruct Hs as (Hw & Hus & Hn). split_and!; [done|by apply Forall_app; split; [|repeat constructor]|].
    intros t'. cbn [sl_users sl_world sl_lost] in *. rewrite number_app. specialize (Hn t').
    change (number (owes t') [Acquiring t (acquire cfg t)]) with 0. lia.
  - pose proof Hs as (Hw & Hus & Hn). pose proof (Forall_lookup_1 _ _ _ _ Hus Hi) as Hp. cbn in Hp, Hw. subst p.
    destruct (acquire_command _ _ _ _ _ Hw Hc) as (g & [= <-] & Hm & Hg).
    eapply slots_ok_command; [exact Hs|exact Hi|by destruct granted|exact Hm| | |].
    + intros t'. unfold granting, losing; cbv beta. destruct (failed && granted && String.eqb t' t); lia.
    + intros t' Hne. destruct granted; [|done]. cbn. by apply String.eqb_neq.
    + unfold granting, losing; cbv beta. rewrite String.eqb_refl. destruct failed, granted; cbn [owes andb negb b2z];
        rewrite ?String.eqb_refl; cbn [b2z]; lia.
  - eapply slots_ok_user; [exact Hs|exact Hi|done|]. intros t'. cbn. lia.
  - pose proof Hs as (Hw & Hus & Hn). pose proof (Forall_lookup_1 _ _ _ _ Hus Hi) as Hp. cbn in Hp, Hw.
    destruct n as [|n].
    + subst p. destruct (release_command _ _ _ _ _ Hw Hc) as [Hp' Hm].
      eapply slots_ok_command; [exact Hs|exact Hi|exact Hp'|exact Hm|done| |].
      * intros t' Hne. cbn. symmetry. by apply String.eqb_neq.
      * cbn [owes]. rewrite String.eqb_refl. cbn [b2z]. unfold losing. lia.
    + destruct Hp as [-> | ->]; [by destruct Hc|].
      destruct (deleting_command _ _ _ _ _ Hw Hc) as [-> Hm].
      eapply slots_ok_command; [exact Hs|exact Hi|by left|exact Hm|done|done|].
      cbn [owes b2z]. unfold losing. lia.
  - destruct (us !! i) as [u|] eqn:Hi; [|by rewrite list_insert_ge by by apply lookup_ge_None].
    eapply slots_ok_user; [exact Hs|exact Hi|done|]. intros t. cbn. destruct (owes t u); cbn; lia.
  - by apply slots_ok_elapse.
  - destruct Hs as (Hw & Hus & Hn). split_and!; [|done|].
    + intros t. cbn [sl_world]. rewrite Hk. apply Hw.
    + intros t. cbn [sl_users sl_world sl_lost] in *. unfold counted. rewrite Hk. apply Hn.
Qed.

Lemma slots_ok_reachable w s : (forall t, r_lookup (w_redis w) (w_now w) (slot_key t) = None) ->
  rtc slots_step (mkSlots w [] (fun _ => 0)) s -> slots_ok s.
Proof.
  intros Hempty Hr. assert (slots_ok (mkSlots w [] (fun _ => 0))) as H0.
  { split_and!; [|done|]; intros t; cbn [sl_world sl_users sl_lost]; [by rewrite Hempty|].
    unfold counted. rewrite Hempty. done. }
  clear Hempty. revert H0. induction Hr as [|s1 s2 s3 Hst _ IH]; [done|]. intros H. apply IH. by eapply slots_ok_step.
Qed.

Lemma holding_bounded s t : slots_ok s ->
  holding t (sl_users s) <= counted (sl_world s) t + sl_lost s t /\
  holding t (sl_users s) <= HR_TENANT_CONCURRENCY cfg + sl_lost s t.
Proof.
  intros (Hw & _ & Hn). destruct (counter_read _ t Hw) as (_ & _ & Hle). specialize (Hle Hmax). specialize (Hn t).
  assert (holding t (sl_users s) <= number (owes t) (sl_users s)); [|lia].
  apply number_le. intros [| | |]; try done.
Qed.

End concurrent.

(** ** Properties *)

Section properties.
Context `{P : Platform}.
Variable cfg : Config.


(** Where the bound ends: the key's TTL runs from the first slot and is not
    renewed, so a tenant that keeps [max] slots busy is refused another one until
    the key expires, and then granted it with all [max] still held. *)
Theorem busy_tenant_overbooked_at_ttl w t x :
  0 < HR_TENANT_CONCURRENCY cfg -> 0 < HR_TENANT_SLOT_TTL_SEC cfg ->
  slots w t (HR_TENANT_CONCURRENCY cfg) x ->
  (exec (acquire cfg t) w).1 = inr false /\
  (exec (acquire cfg t) (elapse (x - w_now w) w)).1 = inr true.
Proof.
  intros Hmax Httl Hs. split.
  - destruct (exec_acquire cfg w t (HR_TENANT_CONCURRENCY cfg) x Hmax Httl) as (w' & -> & _); [lia|done|].
    cbn. f_equal. apply Z.ltb_ge. lia.
  - destruct Hs as [[? _]|(_ & Hx & Hl)]; [lia|].
    assert (slots (elapse (x - w_now w) w) t 0 x) as Hs0.
    { left. split; [done|]. cbn [w_redis w_now elapse].
      rewrite (r_lookup_later (w_redis w) (w_now w)), Hl by lia. cbn.
      destruct (Z.ltb_spec (w_now w + Z.max 0 (x - w_now w)) x); [lia|done]. }
    destruct (exec_acquire cfg _ t 0 x Hmax Httl ltac:(lia) Hs0) as (w' & -> & _).
    cbn. f_equal. by apply Z.ltb_lt.
Qed.

(** [release] is not atomic: if another worker acquires between its [DECR]
    and its [DEL], the deletion wipes the new slot: both calls succeed, and the
    store counts no slot although one is held. *)
Theorem release_race_forgets_slot w t x :
  0 < HR_TENANT_CONCURRENCY cfg -> 0 < HR_TENANT_SLOT_TTL_SEC cfg -> slots w t 1 x ->
  exists w', rtc (pstep (fun _ _ => False) (fun _ => False))
      (w, [bind (release cfg t) (fun _ => Ret true); acquire cfg t])
      (w', [Ret true; Ret true]) /\
    slots w' t 0 x.
Proof.
  intros Hmax Httl [[? _]|(_ & Hx & Hl)]; [lia|].
  destruct (r_incrby_spec (w_redis w) (w_now w) (slot_key t) (-1) 1 _ Hl) as (r1 & Hr1 & Hl1 & _);
    [cbn; lia|done|].
  set (w1 := with_redis r1 w).
  assert (exists r2, ACQUIRE_LUA (slot_key t) (HR_TENANT_CONCURRENCY cfg) (HR_TENANT_SLOT_TTL_SEC cfg)
    (w_now w1) (w_redis w1) = (Some 1, r2)) as [r2 Hr2].
  { destruct (r_incrby_spec r1 (w_now w) (slot_key t) 1 0 _ Hl1) as (r2 & Hr2 & _); [cbn; lia|done|].
    unfold ACQUIRE_LUA. cbn [w_now w_redis w1 with_redis]. rewrite Hr2. change (0 + 1) with 1.
    destruct (Z.ltb_spec (HR_TENANT_CONCURRENCY cfg) 1); [lia|]. by eexists. }
  set (w2 := with_redis r2 w1).
  exists (with_redis (r_del (slot_key t) r2) w2). split.
  - unfold release, acquire. destruct (Z.leb_spec (HR_TENANT_CONCURRENCY cfg) 0); [lia|].
    unfold redis_decr, redis_del_key, redis_try, redis_call, call. cbn [bind catch].
    eapply rtc_l; [eapply (step_act _ _ 0); [reflexivity|eapply out_ok; cbn; rewrite Hr1; reflexivity]|].
    cbn [list_insert insert bind catch]. change (1 + -1 <=? 0) with true. cbn [bind catch].
    eapply rtc_l; [eapply (step_act _ _ 1); [reflexivity|eapply out_ok; fold w1; rewrite Hr2; reflexivity]|].
    cbn [list_insert insert bind catch].
    eapply rtc_l; [eapply (step_act _ _ 0); [reflexivity|eapply out_ok; reflexivity]|].
    reflexivity.
  - left. split; [done|]. cbn [w_redis w_now with_redis]. by rewrite r_lookup_del, decide_True.
Qed.

End properties.

Definition limiter_world := world_at 0 empty_db 200.

Definition three_slots : World (P := always 200) :=
  (fold_left (slot_step demo_cfg) [TAcquire "t"; TAcquire "t"; TAcquire "t"] (limiter_world, fun _ => 0)).1.

Definition busy_ops : list slot_op :=
  [TAcquire "t"; TAcquire "u"; TAcquire "t"; TAcquire "t"; TElapse 50000; TAcquire "t"].

Definition take (w : World (P := always 200)) := (exec (acquire demo_cfg "t") w).2.
Definition take_more w := take (take w).


Lemma busy_tenant_overbooked_at_ttl_witness :
  (exec (acquire demo_cfg "t") (elapse 60000 three_slots)).1 = inr true.
Proof.
  apply (busy_tenant_overbooked_at_ttl demo_cfg three_slots "t" 60000); [done|done|].
  right. by vm_compute.
Defined.

Lemma release_race_forgets_slot_witness :
  exists w', slots (P := always 200) w' "t" 0 60000.
Proof.
  destruct (release_race_forgets_slot demo_cfg
    (fold_left (slot_step demo_cfg) [TAcquire "t"] (limiter_world, fun _ => 0)).1 "t" 60000)
    as (w' & _ & H); [done|done|right; by vm_compute|by exists w'].
Defined.
