(* ===== verification/SecretCipher.v ===== *)
(** * Endpoint secrets at rest: [common/crypto/secret-cipher.ts]

    The stored text [v1:<iv>:<tag>:<ciphertext>] (base64 parts) and its reader.
    AES-256-GCM itself is a parameter of the platform. *)

From S2P Require Import Prelude Errors Base64 IpAddress Effects Platform Schema World Config TestPlatform.
Open Scope hook_scope.

(** What the format relies on: decryption inverts encryption under the same key
    and IV, the ciphertext is as long as the text, the tag and random buffers
    have their lengths. *)
Class GcmLaws (P : Platform) := {
  gcm_roundtrip key iv s : let '(tag, data) := aes_gcm_encrypt key iv s in
    aes_gcm_decrypt key iv tag data = Some s;
  gcm_data_length key iv s : String.length (aes_gcm_encrypt key iv s).2 = String.length s;
  gcm_tag_length key iv s : String.length (aes_gcm_encrypt key iv s).1 = 16%nat;
  randomBytes_length n len : String.length (randomBytes n len) = len;
}.

Section cipher.
Context `{P : Platform}.
Variable cfg : Config.

Definition cipher_key : string := from_base64 (HR_SECRET_KEY cfg).

Definition seal (iv plaintext : string) : string :=
  let '(tag, encrypted) := aes_gcm_encrypt cipher_key iv plaintext in
  "v1" +:+ String ":" (to_base64 iv +:+ String ":" (to_base64 tag +:+ String ":" (to_base64 encrypted))).

Definition encrypt (plaintext : string) : prog World string :=
  local (fun w => (seal (randomBytes (w_draws w) 12) plaintext, drawn w)).

Definition bad_format : exn := Error "알 수 없는 시크릿 암호문 포맷입니다.".

Definition decrypt (stored : string) : exn + string :=
  match split_on ":" stored with
  | version :: ivB64 :: tagB64 :: dataB64 :: _ =>
      if bool_decide (version = "v1") && bool_decide (ivB64 <> EmptyString)
         && bool_decide (tagB64 <> EmptyString) && bool_decide (dataB64 <> EmptyString) then
        match aes_gcm_decrypt cipher_key (from_base64 ivB64) (from_base64 tagB64) (from_base64 dataB64) with
        | Some s => inr s
        | None => inl (Error "Unsupported state or unable to authenticate data")
        end
      else inl bad_format
  | _ => inl bad_format
  end.

Lemma to_base64_no_colon s : str_forall (fun c => negb (Ascii.eqb c ":")) (to_base64 s) = true.
Proof.
  generalize (to_base64_chars s). apply str_forall_impl.
  intros c. by destruct c as [[] [] [] [] [] [] [] []].
Qed.

Lemma split_seal iv s :
  split_on ":" (seal iv s) =
    ["v1"; to_base64 iv; to_base64 (aes_gcm_encrypt cipher_key iv s).1;
     to_base64 (aes_gcm_encrypt cipher_key iv s).2].
Proof.
  unfold seal. destruct (aes_gcm_encrypt _ _ _) as [tag data]. cbn [fst snd].
  rewrite (split_on_sep ":" "v1") by done.
  rewrite !split_on_sep by apply to_base64_no_colon. by rewrite split_on_no_sep by apply to_base64_no_colon.
Qed.

Lemma decrypt_seal `{!GcmLaws P} iv s :
  iv <> EmptyString -> s <> EmptyString -> decrypt (seal iv s) = inr s.
Proof.
  intros Hiv Hs. unfold decrypt. rewrite split_seal.
  pose proof (gcm_roundtrip cipher_key iv s) as Hrt.
  pose proof (gcm_data_length cipher_key iv s) as Hd. pose proof (gcm_tag_length cipher_key iv s) as Ht.
  destruct (aes_gcm_encrypt _ _ _) as [tag data]. cbn [fst snd] in *.
  rewrite !bool_decide_eq_true_2.
  - cbn [andb]. by rewrite !from_to_base64, Hrt.
  - apply to_base64_nonempty. intros ->. by destruct s.
  - apply to_base64_nonempty. by intros ->.
  - by apply to_base64_nonempty.
  - done.
Qed.

(** ** Properties *)

(** Every secret survives storage: whatever the random IV, what [encrypt]
    stores for a non-empty secret is decrypted to the same secret, and the stored
    text has exactly the four colon-separated parts of its format.  An empty
    secret would be stored but never read back. *)
Theorem secret_roundtrip `{!GcmLaws P} w s :
  exists stored, exec (encrypt s) w = (inr stored, drawn w) /\
    length (split_on ":" stored) = 4%nat /\
    (s <> EmptyString -> decrypt stored = inr s) /\
    (s = EmptyString -> decrypt stored = inl bad_format).
Proof.
  unfold encrypt. rewrite exec_local. eexists. split; [done|].
  rewrite split_seal. split; [done|].
  pose proof (randomBytes_length (w_draws w) 12) as Hr. split.
  - intros Hs. apply decrypt_seal; [|done]. intros E. by rewrite E in Hr.
  - intros ->. unfold decrypt. rewrite split_seal.
    pose proof (gcm_data_length cipher_key (randomBytes (w_draws w) 12) EmptyString) as Hd.
    destruct (aes_gcm_encrypt _ _ _) as [tag [|? ?]]; [|done]. cbn [fst snd].
    by rewrite !andb_false_r.
Qed.

End cipher.

Section demo.
#[local] Instance always_gcm_laws status : GcmLaws (always status).
Proof.
  split; try done. intros n len. cbn -[Nat.min Nat.sub].
  assert (forall l, String.length (string_of_list_ascii l) = length l) as -> by (induction l; cbn; congruence).
  rewrite length_app, !length_replicate. lia.
Qed.

Lemma secret_roundtrip_witness :
  exists stored, exec (encrypt (P := always 200) demo_cfg "whsec_abc") (world_at 0 empty_db 200) = (inr stored, drawn (world_at 0 empty_db 200))
    /\ decrypt (P := always 200) demo_cfg stored = inr "whsec_abc".
Proof.
  destruct (secret_roundtrip demo_cfg (world_at 0 empty_db 200) "whsec_abc") as (stored & H & _ & Hd & _).
  exists stored. split; [done|]. by apply Hd.
Defined.
End demo.
