(* ===== verification/EndpointCache.v ===== *)
(** * The worker's endpoint cache: [worker/endpoint-cache.ts]

    A map per worker process from endpoint ids to decrypted settings, valid for
    30 s; and how stale what it returns can be. *)

From S2P Require Import Prelude Errors Effects Platform Schema World Config TestPlatform SecretCipher.
Open Scope Z_scope.
Open Scope hook_scope.

Definition TTL_MS : Z := 30000.

Section cache.
Context `{P : Platform}.
Variable cfg : Config.

(** The entries of worker [wid]. *)
Definition cache_of (w : World) (wid : nat) : gmap string CacheEntry := default ∅ (w_caches w !! wid).

Definition cache_update (wid : nat) (f : gmap string CacheEntry -> gmap string CacheEntry) (w : World) : World :=
  with_caches (insert wid (f (cache_of w wid))) w.

Definition cache_lookup (wid : nat) (endpointId : string) (w : World) : option EndpointConfig :=
  match cache_of w wid !! endpointId with
  | Some c => if w_now w <? ce_expiresAt c then Some (ce_value c) else None
  | None => None
  end.

Definition get (wid : nat) (endpointId : string) : prog World (option EndpointConfig) :=
  let* cached := query Local (cache_lookup wid endpointId) in
  match cached with
  | Some v => Ret (Some v)
  | None =>
      let* endpoint := db_read (fun d => endpoints d !! endpointId) in
      match endpoint with
      | None => Ret None
      | Some e =>
          match decrypt cfg (ep_secretEnc e) with
          | inl err => Throw err
          | inr secret =>
              let value := mkEndpointConfig (ep_url e) secret (ep_status e) in
              update Local (fun w =>
                cache_update wid (insert endpointId (mkCacheEntry value (w_now w + TTL_MS))) w) ;;
              Ret (Some value)
          end
      end
  end.

Definition invalidate (wid : nat) (endpointId : option string) : prog World unit :=
  match endpointId with
  | Some id => update Local (cache_update wid (delete id))
  | None => update Local (cache_update wid (fun _ => ∅))
  end.

(** What a fresh read of the database would give. *)
Definition fresh (d : Db) (endpointId : string) : exn + option EndpointConfig :=
  match endpoints d !! endpointId with
  | None => inr None
  | Some e => match decrypt cfg (ep_secretEnc e) with
              | inl err => inl err
              | inr s => inr (Some (mkEndpointConfig (ep_url e) s (ep_status e)))
              end
  end.

(** A cache hit answers without touching anything; a miss answers with the
    current row and remembers it for 30 s. *)
Lemma exec_get w wid ep :
  exec (get wid ep) w =
    match cache_lookup wid ep w with
    | Some v => (inr (Some v), w)
    | None =>
        match fresh (w_db w) ep with
        | inl err => (inl err, w)
        | inr None => (inr None, w)
        | inr (Some v) =>
            (inr (Some v), cache_update wid (insert ep (mkCacheEntry v (w_now w + TTL_MS))) w)
        end
    end.
Proof.
  unfold get, fresh. autorewrite with exec. destruct (cache_lookup wid ep w); [done|].
  autorewrite with exec. destruct (endpoints (w_db w) !! ep) as [e|]; [|done].
  by destruct (decrypt cfg (ep_secretEnc e)); autorewrite with exec.
Qed.

(** The cache is all a lookup or an invalidation writes. *)
Lemma get_acts (Rel : World -> World -> Prop) `{!Reflexive Rel} wid ep :
  (forall w f, Rel w (with_caches f w)) -> acts Rel (get wid ep).
Proof.
  intros Hc. unfold get. apply acts_bind; [by apply acts_query|]. intros [v|]; [done|].
  apply acts_bind; [by apply acts_db_read|]. intros [e|]; [|done]. destruct (decrypt _ _); [done|].
  apply acts_bind; [|done]. apply acts_update. intros w. apply Hc.
Qed.

Lemma invalidate_acts (Rel : World -> World -> Prop) wid ep :
  (forall w f, Rel w (with_caches f w)) -> acts Rel (invalidate wid ep).
Proof. intros Hc. destruct ep; apply acts_update; intros w; apply Hc. Qed.

Lemma cache_of_update w wid wid' f :
  cache_of (cache_update wid f w) wid' = if decide (wid = wid') then f (cache_of w wid) else cache_of w wid'.
Proof.
  unfold cache_of, cache_update. cbn [w_caches with_caches]. rewrite lookup_insert.
  by destruct (decide (wid = wid')).
Qed.

(** ** Histories

    The database changes, time passes, workers read and invalidate. *)
Inductive cache_op :=
| CGet (wid : nat) (ep : string)
| CInvalidate (wid : nat) (ep : option string)
| CDatabase (f : Db -> Db)
| CElapse (d : Z).

Definition cache_exec (w : World) (o : cache_op) : World :=
  match o with
  | CGet wid ep => (exec (get wid ep) w).2
  | CInvalidate wid ep => (exec (invalidate wid ep) w).2
  | CDatabase f => with_db f w
  | CElapse d => elapse d w
  end.

(** Every world the run goes through, the start included. *)
Fixpoint cache_history (w : World) (os : list cache_op) : list World :=
  w :: match os with [] => [] | o :: os' => cache_history (cache_exec w o) os' end.

(** Every entry holds what a read gave at a past moment, 30 s before it expires. *)
Definition cache_sound (hist : list World) (w : World) : Prop :=
  forall wid ep c, cache_of w wid !! ep = Some c ->
    exists w0, w0 ∈ hist /\ w_now w0 <= w_now w /\ ce_expiresAt c = w_now w0 + TTL_MS /\
      fresh (w_db w0) ep = inr (Some (ce_value c)).

Lemma cache_sound_step hist w o :
  w ∈ hist -> cache_sound hist w -> cache_sound hist (cache_exec w o).
Proof.
  intros Hin Hw. destruct o as [wid ep|wid [ep|]|f|d]; cbn [cache_exec].
  - rewrite exec_get. destruct (cache_lookup wid ep w); [done|].
    destruct (fresh (w_db w) ep) as [|[v|]] eqn:Hf; [done| |done]. intros wid' ep' c. cbn [snd].
    rewrite cache_of_update. destruct (decide (wid = wid')) as [<-|]; [|apply Hw].
    rewrite lookup_insert. destruct (decide (ep = ep')) as [<-|]; [|apply Hw].
    intros [= <-]. exists w. cbn. split_and!; done || lia.
  - unfold invalidate. autorewrite with exec. cbn [snd]. intros wid' ep' c. rewrite cache_of_update.
    destruct (decide (wid = wid')) as [<-|]; [|apply Hw]. intros [_ Hc]%lookup_delete_Some. exact (Hw wid ep' c Hc).
  - unfold invalidate. autorewrite with exec. cbn [snd]. intros wid' ep' c. rewrite cache_of_update.
    destruct (decide (wid = wid')) as [<-|]; [by rewrite lookup_empty|apply Hw].
  - intros wid ep c Hc. apply (Hw wid ep c) in Hc. exact Hc.
  - intros wid ep c Hc. apply (Hw wid ep c) in Hc as (w0 & ? & ? & ? & ?). exists w0. cbn.
    split_and!; done || lia.
Qed.

Lemma cache_sound_run os w hist :
  cache_sound hist w -> w ∈ hist -> (forall w', w' ∈ cache_history w os -> w' ∈ hist) ->
  cache_sound hist (fold_left cache_exec os w).
Proof.
  revert w. induction os as [|o os IH]; intros w Hs Hin Hall; cbn; [done|].
  apply IH; [by apply cache_sound_step| |].
  - apply Hall. cbn. right. destruct os; by left.
  - intros w' Hw'. apply Hall. cbn. by right.
Qed.

(** ** Properties *)

(** Bounded staleness: start workers with empty caches and let the database
    change, time pass and workers read and invalidate in any order; whatever a
    further read returns is what the database said at some moment of the run at
    most 30 s ago. *)
Theorem endpoint_cache_staleness w os wid ep v :
  let w' := fold_left cache_exec os w in
  w_caches w = ∅ -> (exec (get wid ep) w').1 = inr (Some v) ->
  exists w0, w0 ∈ cache_history w os /\ w_now w' - TTL_MS <= w_now w0 <= w_now w' /\
    fresh (w_db w0) ep = inr (Some v).
Proof.
  intros w' He Hget. subst w'. set (hist := cache_history w os).
  assert (cache_sound hist (fold_left cache_exec os w)) as Hs.
  { apply cache_sound_run; [|by destruct os; left|done].
    intros wid' ep' c. unfold cache_of. rewrite He, lookup_empty. cbn. by rewrite lookup_empty. }
  assert (fold_left cache_exec os w ∈ hist) as Hlast.
  { subst hist. clear. revert w. induction os as [|o os IH]; intros w; cbn; [by left|]. right. apply IH. }
  rewrite exec_get in Hget. destruct (cache_lookup wid ep (fold_left cache_exec os w)) as [v'|] eqn:Hl.
  - cbn in Hget. simplify_eq. unfold cache_lookup in Hl.
    destruct (cache_of _ wid !! ep) as [c|] eqn:Hc; [|done].
    destruct (Z.ltb_spec (w_now (fold_left cache_exec os w)) (ce_expiresAt c)); [|done]. simplify_eq.
    destruct (Hs wid ep c Hc) as (w0 & ? & ? & ? & ?). exists w0. split_and!; try done; lia.
  - destruct (fresh (w_db _) ep) as [|[v'|]] eqn:Hf; cbn in Hget; simplify_eq.
    exists (fold_left cache_exec os w). unfold TTL_MS. cbn. split_and!; try done; lia.
Qed.

End cache.

Definition cache_db : Db :=
  set_endpoints (insert "e1" (mkEndpoint "t" "https://a.example" (seal (P := always 200) demo_cfg "0123456789ab" "whsec_1")
    ACTIVE None 0 0 0)) empty_db.

Lemma endpoint_cache_staleness_witness :
  let w := world_at 0 cache_db 200 in
  let os := [CGet 0 "e1"; CDatabase (fun _ => empty_db); CElapse 29999] in
  exists w0 : World (P := always 200), w0 ∈ cache_history (P := always 200) demo_cfg w os /\
    w_now w0 <= 29999 /\
    fresh (P := always 200) demo_cfg (w_db w0) "e1" =
      inr (Some (mkEndpointConfig "https://a.example" "whsec_1" ACTIVE)).
Proof.
  intros w os. destruct (endpoint_cache_staleness demo_cfg w os 0 "e1"
    (mkEndpointConfig "https://a.example" "whsec_1" ACTIVE))
    as (w0 & ? & [? Hle] & ?); [reflexivity|vm_compute; reflexivity|].
  exists w0. split_and!; assumption.
Defined.
