(* ===== verification/HttpClient.v ===== *)
(** * One delivery attempt over HTTP: [worker/delivery-http.client.ts]

    The classification of failures, the address check at connection time and
    [send], which answers with a classified outcome and never raises.  [undici]'s
    [request] resolves host names through the [lookup] hook of the agent unless
    the host is an IP literal or an open socket of the origin is reused. *)

From S2P Require Import Prelude Errors IpAddress Effects Platform Schema World Config TestPlatform.
Open Scope Z_scope.
Open Scope hook_scope.

Inductive AttemptOutcome :=
| Ok (status : Z) (bodyHead : string) (durationMs : Z)
| Failed (errorClass : AttemptErrorClass) (status : option Z) (bodyHead : option string) (durationMs : Z).

Definition ok (o : AttemptOutcome) : bool := match o with Ok _ _ _ => true | _ => false end.
Definition outcome_status (o : AttemptOutcome) : option Z :=
  match o with Ok s _ _ => Some s | Failed _ s _ _ => s end.
Definition outcome_bodyHead (o : AttemptOutcome) : option string :=
  match o with Ok _ b _ => Some b | Failed _ _ b _ => b end.
Definition outcome_errorClass (o : AttemptOutcome) : option AttemptErrorClass :=
  match o with Ok _ _ _ => None | Failed c _ _ _ => Some c end.
Definition durationMs (o : AttemptOutcome) : Z :=
  match o with Ok _ _ d => d | Failed _ _ _ d => d end.

Fixpoint classifyFailure (error : exn) : AttemptErrorClass :=
  match error with
  | ESsrfBlocked _ => SSRF_BLOCKED
  | EJs name code _ cause =>
      if bool_decide (name = "TimeoutError") || bool_decide (name = "AbortError")
         || bool_decide (code = Some "UND_ERR_ABORTED") then TIMEOUT
      else match cause with Some c => classifyFailure c | None => CONN_REFUSED end
  | _ => CONN_REFUSED
  end.

Definition BODY_HEAD_LIMIT : nat := 1024.

(** [s.slice(0, n)] *)
Definition slice (n : nat) (s : string) : string := String.substring 0 n s.

(** [hostname.replace(/^\[|\]$/g, '')] *)
Fixpoint drop_last_bracket (s : string) : string :=
  match s with
  | EmptyString => EmptyString
  | String c EmptyString => if Ascii.eqb c "]" then EmptyString else s
  | String c s' => String c (drop_last_bracket s')
  end.

Definition strip_brackets (s : string) : string :=
  drop_last_bracket (match s with String "[" s' => s' | _ => s end).

Section client.
Context `{P : Platform}.
Variable cfg : Config.

Definition allowPrivate : bool := HR_ALLOW_PRIVATE_DESTINATIONS cfg.

(** [String(error)] *)
Definition exn_text (e : exn) : string :=
  match e with
  | ESsrfBlocked r => "SsrfBlockedError: SSRF 차단: " +:+ r
  | EJs name _ message _ =>
      match message with EmptyString => name | _ => name +:+ ": " +:+ message end
  | _ => lib_message e
  end.

(** The agent's [lookup] hook on the resolver's answer: the first blocked
    address is an error, otherwise all addresses go to the connection. *)
Fixpoint lookup_hook (addresses : list string) : option exn :=
  match addresses with
  | [] => None
  | a :: rest =>
      match (if allowPrivate then None else blockedIpReason a) with
      | Some reason => Some (ESsrfBlocked (a +:+ " — " +:+ reason))
      | None => lookup_hook rest
      end
  end.

Definition connect (addresses : list string) : prog World unit :=
  update Local (observe (ObsConnect addresses)).

(** [undici.request] with this agent and an abort signal. *)
Definition request (rq : HttpRequest) (timeoutMs : Z) : prog World (Z * string) :=
  let* pooled := query Local (fun w => socket_pooled (w_draws w) rq) in
  if pooled : bool then http_exchange rq timeoutMs
  else
    match parse_url (rq_url rq) with
    | None => Throw (EJs "InvalidArgumentError" (Some "UND_ERR_INVALID_ARG") "Invalid URL" None)
    | Some u =>
        let hostname := strip_brackets (url_hostname u) in
        if negb (isIP hostname =? 0) then connect [hostname] ;; http_exchange rq timeoutMs
        else
          let* addresses := dnsLookup hostname in
          match lookup_hook addresses with
          | Some e => Throw e
          | None => connect addresses ;; http_exchange rq timeoutMs
          end
    end.

(** The check of IP-literal hosts, which the hook never sees. *)
Definition check_literal (url : string) : prog World unit :=
  if allowPrivate then Ret tt
  else
    match parse_url url with
    | None => Throw (EJs "TypeError" (Some "ERR_INVALID_URL") "Invalid URL" None)
    | Some u =>
        let hostname := strip_brackets (url_hostname u) in
        if negb (isIP hostname =? 0) then
          match blockedIpReason hostname with
          | Some reason => Throw (ESsrfBlocked (hostname +:+ " — " +:+ reason))
          | None => Ret tt
          end
        else Ret tt
    end.

Definition send (url : string) (headers : list (string * string)) (body : string) (timeoutMs : Z)
    : prog World AttemptOutcome :=
  let* startedAt := Date_now in
  catch
    (check_literal url ;;
     let* res := request (mkRequest url headers body) timeoutMs in
     let '(statusCode, text) := res in
     let bodyHead := slice BODY_HEAD_LIMIT text in
     let* now := Date_now in
     let durationMs := now - startedAt in
     if (200 <=? statusCode) && (statusCode <? 300) then Ret (Ok statusCode bodyHead durationMs)
     else Ret (Failed (if 500 <=? statusCode then HTTP_5XX else HTTP_4XX)
                 (Some statusCode) (Some bodyHead) durationMs))
    (fun error =>
       let* now := Date_now in
       Ret (Failed (classifyFailure error) None (Some (slice BODY_HEAD_LIMIT (exn_text error)))
              (now - startedAt))).

(** ** What a run of [send] can leave in the world *)

(** Only the trace, the clock and the random draws move; every address connected
    to passed the check. *)
Definition public_address (a : string) : Prop := allowPrivate = false -> blockedIpReason a = None.

Definition sends_safely (w w' : World) : Prop :=
  w_db w' = w_db w /\ w_redis w' = w_redis w /\ w_queue w' = w_queue w /\ w_caches w' = w_caches w /\
  w_now w <= w_now w' /\
  exists l, w_trace w' = w_trace w ++ l /\
    (forall addrs, ObsConnect addrs ∈ l -> Forall public_address addrs) /\ Forall (fun o => obs_ok o = true) l.

#[export] Instance sends_safely_preorder : PreOrder sends_safely.
Proof.
  split.
  - intros w. split_and!; try done. exists []. rewrite app_nil_r. split_and!; [done| |done]. by intros ? ?%elem_of_nil.
  - intros w1 w2 w3 (? & ? & ? & ? & ? & l1 & E1 & Q1 & M1) (? & ? & ? & ? & ? & l2 & E2 & Q2 & M2).
    split_and!; try congruence; [lia|]. exists (l1 ++ l2). rewrite E2, E1, app_assoc. split_and!; [done| |by apply Forall_app].
    intros addrs [?|?]%elem_of_app; auto.
Qed.

Lemma lookup_hook_public addrs : lookup_hook addrs = None -> Forall public_address addrs.
Proof.
  induction addrs as [|a l IH]; cbn; [constructor|]. intros H. constructor.
  - unfold public_address. intros E. rewrite E in H. by destruct (blockedIpReason a).
  - apply IH. by destruct (if allowPrivate then None else blockedIpReason a).
Qed.

Lemma safe_observe w o :
  (forall addrs, o = ObsConnect addrs -> Forall public_address addrs) -> obs_ok o = true -> sends_safely w (observe o w).
Proof.
  intros Ho Hm. split_and!; try done. exists [o]. split_and!; [done| |by constructor].
  intros addrs Hin%list_elem_of_singleton. by apply Ho.
Qed.

Lemma safe_exchange rq timeoutMs : acts sends_safely (http_exchange rq timeoutMs).
Proof.
  apply acts_call. intros w.
  assert (forall d, sends_safely w (elapse d (observe (ObsHttp rq) (drawn w)))) as H.
  { intros d. split_and!; try done; [cbn; lia|]. exists [ObsHttp rq]. split_and!; [done| |by constructor].
    by intros addrs Hin%list_elem_of_singleton. }
  destruct (http_reply (w_draws w) rq) as [st text lat|e lat]; cbv beta iota zeta;
    destruct (timeoutMs <? lat); apply H.
Qed.

Lemma safe_connect addrs : Forall public_address addrs -> acts sends_safely (connect addrs).
Proof. intros H. apply acts_update. intros w. apply safe_observe; [|done]. by intros ? [= <-]. Qed.

Lemma safe_dns h : acts sends_safely (dnsLookup h).
Proof.
  apply acts_call. intros w. split_and!; try done. exists []. rewrite app_nil_r. split_and!; [done| |done].
  by intros ? ?%elem_of_nil.
Qed.

Lemma check_literal_cases url :
  (exists e, check_literal url = Throw e) \/
  check_literal url = Ret tt /\
    forall u, parse_url url = Some u -> isIP (strip_brackets (url_hostname u)) <> 0 ->
      public_address (strip_brackets (url_hostname u)).
Proof.
  unfold check_literal, public_address. destruct allowPrivate; [by right|].
  destruct (parse_url url) as [u|]; [|by left; eexists].
  destruct (Z.eqb_spec (isIP (strip_brackets (url_hostname u))) 0) as [E|E]; cbn [negb].
  - right. split; [done|]. intros u' [= <-]. done.
  - destruct (blockedIpReason _) eqn:Hb; [by left; eexists|].
    right. split; [done|]. by intros u' [= <-].
Qed.

Lemma safe_request rq timeoutMs :
  (forall u, parse_url (rq_url rq) = Some u -> isIP (strip_brackets (url_hostname u)) <> 0 ->
     public_address (strip_brackets (url_hostname u))) ->
  acts sends_safely (request rq timeoutMs).
Proof.
  intros Hlit. unfold request. apply acts_bind; [apply acts_query, _|]. intros [].
  { apply safe_exchange. }
  destruct (parse_url (rq_url rq)) as [u|]; [|done]. specialize (Hlit u eq_refl).
  destruct (Z.eqb_spec (isIP (strip_brackets (url_hostname u))) 0) as [E|E]; cbn [negb].
  - apply acts_bind; [apply safe_dns|]. intros addrs. destruct (lookup_hook addrs) eqn:Hh; [done|].
    apply acts_bind; [by apply safe_connect, lookup_hook_public|]. intros _. apply safe_exchange.
  - apply acts_bind; [|intros _; apply safe_exchange]. apply safe_connect. by constructor; [apply Hlit|].
Qed.

Lemma safe_send url headers body timeoutMs : acts sends_safely (send url headers body timeoutMs).
Proof.
  unfold send, Date_now. apply acts_bind; [apply acts_query, _|]. intros startedAt.
  apply acts_catch.
  - destruct (check_literal_cases url) as [[e ->]|[-> Hlit]]; [done|]. cbn [bind].
    apply acts_bind; [by apply safe_request|]. intros [status text].
    apply acts_bind; [apply acts_query, _|]. intros now. by destruct (_ && _).
  - intros e. apply acts_bind; [apply acts_query, _|]. done.
Qed.

(** *** The outcome *)

Lemma slice_length n s : (String.length (slice n s) <= n)%nat.
Proof.
  unfold slice. revert n. induction s as [|c s IH]; intros [|n]; cbn; try lia. specialize (IH n). lia.
Qed.

(** A failure without a response is never classified by a status. *)
Lemma classifyFailure_no_response e :
  classifyFailure e = TIMEOUT \/ classifyFailure e = CONN_REFUSED \/ classifyFailure e = SSRF_BLOCKED.
Proof.
  revert e. fix IH 1. intros [ | | | | | | | name code m [c|]]; cbn; auto;
    destruct (_ || _ || _); auto.
Qed.

Definition outcome_ok (o : AttemptOutcome) : Prop :=
  (String.length (default EmptyString (outcome_bodyHead o)) <= BODY_HEAD_LIMIT)%nat /\
  0 <= durationMs o /\
  match o with
  | Ok st _ _ => 200 <= st < 300
  | Failed c (Some st) _ _ => ~ (200 <= st < 300) /\ (c = HTTP_5XX /\ 500 <= st \/ c = HTTP_4XX /\ st < 500)
  | Failed c None _ _ => c = TIMEOUT \/ c = CONN_REFUSED \/ c = SSRF_BLOCKED
  end.

Definition response_outcome (statusCode : Z) (text : string) (d : Z) : AttemptOutcome :=
  let bodyHead := slice BODY_HEAD_LIMIT text in
  if (200 <=? statusCode) && (statusCode <? 300) then Ok statusCode bodyHead d
  else Failed (if 500 <=? statusCode then HTTP_5XX else HTTP_4XX) (Some statusCode) (Some bodyHead) d.

Lemma response_outcome_ok st text d : 0 <= d -> outcome_ok (response_outcome st text d).
Proof.
  intros Hd. unfold response_outcome, outcome_ok.
  destruct (Z.leb_spec 200 st), (Z.ltb_spec st 300), (Z.leb_spec 500 st); cbn;
    (split; [apply slice_length|]); split; try done; try lia; (split; [lia|]); auto.
Qed.

(** What [send] computes from the request that it guards. *)
Lemma run_send sched n w url headers body timeoutMs :
  let '(r, w1, n1) :=
    run sched (S n) (check_literal url ;; request (mkRequest url headers body) timeoutMs) w in
  run sched n (send url headers body timeoutMs) w =
    (inr match r with
         | inr (st, text) => response_outcome st text (w_now w1 - w_now w)
         | inl e => Failed (classifyFailure e) None (Some (slice BODY_HEAD_LIMIT (exn_text e))) (w_now w1 - w_now w)
         end, w1, S n1).
Proof.
  unfold send. rewrite (run_bind sched n), run_Date_now, run_catch.
  destruct (check_literal_cases url) as [[e ->]|[-> _]]; cbn [bind]; [done|].
  rewrite run_bind. destruct (run sched (S n) (request _ _) w) as [[[e|[st text]] w1] n1]; [done|].
  cbv beta iota zeta. rewrite run_bind, run_Date_now. unfold response_outcome. by destruct (_ && _).
Qed.

Lemma send_never_throws url headers body timeoutMs : never_throws (send url headers body timeoutMs).
Proof.
  intros sched n w. pose proof (run_send sched n w url headers body timeoutMs) as H.
  destruct (run sched (S n) _ w) as [[r w1] n1]. rewrite H. eauto.
Qed.

Lemma exec_send_frame w url headers body timeoutMs :
  exists o w', exec (send url headers body timeoutMs) w = (inr o, w') /\ sends_safely w w'.
Proof.
  destruct (never_throws_exec _ w (send_never_throws url headers body timeoutMs)) as (o & w' & E).
  exists o, w'. split; [done|]. exact (acts_exec _ _ _ _ _ (safe_send url headers body timeoutMs) E).
Qed.

(** ** Properties *)

(** [send] never raises and always classifies: whatever the network, the
    resolver or the host do, it returns an outcome, successful exactly for a 2xx
    response; a response outside 2xx is HTTP_5XX from 500 on and HTTP_4XX below
    (redirects are not followed), and anything without a response is TIMEOUT,
    CONN_REFUSED or SSRF_BLOCKED; at most 1024 characters of the body are kept and
    the duration is not negative. *)
Theorem send_always_classifies sched n w url headers body timeoutMs :
  exists o w' n', run sched n (send url headers body timeoutMs) w = (inr o, w', n') /\
    (String.length (default EmptyString (outcome_bodyHead o)) <= 1024)%nat /\
    0 <= durationMs o /\
    (ok o = true <-> exists st, outcome_status o = Some st /\ 200 <= st < 300) /\
    (forall st c, outcome_status o = Some st -> outcome_errorClass o = Some c ->
       c = (if 500 <=? st then HTTP_5XX else HTTP_4XX)) /\
    (outcome_status o = None -> outcome_errorClass o = Some TIMEOUT \/
       outcome_errorClass o = Some CONN_REFUSED \/ outcome_errorClass o = Some SSRF_BLOCKED).
Proof.
  pose proof (run_send sched n w url headers body timeoutMs) as Hrun.
  destruct (run sched (S n) _ w) as [[r w1] n1] eqn:E.
  assert (w_now w <= w_now w1) as Ht.
  { pose proof (safe_send url headers body timeoutMs) as Hsafe.
    apply (acts_run _ _ _ _ _ _ _ _ Hsafe) in Hrun as (_ & _ & _ & _ & Ht & _). done. }
  eexists _, _, _. split; [exact Hrun|].
  set (o := match r with inl _ => _ | inr _ => _ end).
  assert (outcome_ok o) as (Hb & Hd & Ho).
  { subst o. destruct r as [e|[st text]]; [|apply response_outcome_ok; lia].
    split; [apply slice_length|]. split; [cbn; lia|]. apply classifyFailure_no_response. }
  split; [done|]. split; [done|].
  destruct o as [st b d|c [st|] b d]; cbn in *; split_and!; try naive_solver.
  - intros st' c' [= <-] [= <-]. destruct (Z.leb_spec 500 st); destruct Ho as [_ [[-> ?]|[-> ?]]]; done || lia.
Qed.

(** C22.  No connection to a refused address: unless private destinations are
    allowed, every address that [send] opens a socket to passed the range check,
    be it an IP literal of the URL or an answer of the resolver at connection time
    (so a name that resolves to a public address at registration and to a private
    one at delivery is never connected to), and [send] changes nothing but the
    clock, the random draws and the trace. *)
Theorem send_connects_only_to_public sched n w url headers body timeoutMs :
  HR_ALLOW_PRIVATE_DESTINATIONS cfg = false ->
  let '(_, w', _) := run sched n (send url headers body timeoutMs) w in
  w_db w' = w_db w /\ w_redis w' = w_redis w /\ w_queue w' = w_queue w /\ w_caches w' = w_caches w /\
  exists l, w_trace w' = w_trace w ++ l /\
    forall addrs a, ObsConnect addrs ∈ l -> a ∈ addrs -> blockedIpReason a = None.
Proof.
  intros Hpriv. destruct (run sched n _ w) as [[r w'] n'] eqn:E.
  apply (acts_run _ _ _ _ _ _ _ _ (safe_send url headers body timeoutMs)) in E
    as (? & ? & ? & ? & _ & l & Hl & Hall).
  split_and!; try done. exists l. split; [done|]. intros addrs a Hin Ha.
  destruct Hall as [Hall _]. specialize (Hall addrs Hin). rewrite Forall_forall in Hall. by apply Hall.
Qed.

End client.

(** A name that resolves to the metadata service at delivery time. *)
Definition rebinding : Platform :=
  test_platform (fun _ _ => Responds 200 "ok" 20) (fun _ _ => inr ["93.184.216.34"; "169.254.169.254"])
    (fun _ => Some (mkURL "https:" "" "" "rebind.example")).

Definition rebinding_world : World (P := rebinding) := mkWorld (P := rebinding) empty_db ∅ ∅ 0 0 ∅ [].

Definition rebinding_send := send (P := rebinding) demo_cfg "https://rebind.example/hook" [] "{}" 10000.

Lemma send_connects_only_to_public_witness :
  (run (fun _ => NoFault) 0 rebinding_send rebinding_world).1.1
    = inr (Failed SSRF_BLOCKED None
        (Some "SsrfBlockedError: SSRF 차단: 169.254.169.254 — 링크로컬(169.254.0.0/16) — 클라우드 메타데이터 대역입니다") 0) /\
  let '(_, w', _) := run (fun _ => NoFault) 0 rebinding_send rebinding_world in
  exists l, w_trace w' = l /\
    forall addrs a, ObsConnect addrs ∈ l -> a ∈ addrs -> blockedIpReason a = None.
Proof.
  split; [vm_compute; reflexivity|].
  pose proof (send_connects_only_to_public (P := rebinding) demo_cfg (fun _ => NoFault) 0 rebinding_world
    "https://rebind.example/hook" [] "{}" 10000 eq_refl) as H.
  unfold rebinding_send. destruct (run _ _ _ _) as [[r w'] n'].
  destruct H as (_ & _ & _ & _ & l & Hl & Hall). by exists l.
Defined.
