(* ===== verification/Processor.v ===== *)
(** * Processing one delivery: [worker/delivery.processor.ts]

    [process] as a program of atomic actions, with the claim that guards each
    attempt; its behaviour on every branch; and the state machine of a delivery
    that it implements. *)

From Stdlib Require Import QArith_base.
From S2P Require Import Prelude Errors Effects Circuit Json Platform Schema Registry World.
From S2P Require Import Config TestPlatform Signature CircuitStore SecretCipher EndpointCache HttpClient DateTime.
Open Scope Z_scope.
Open Scope hook_scope.

Inductive ProcessResult :=
| RSucceeded | RFailed | RDead
| SKIPPED_ALREADY_DONE | SKIPPED_ENDPOINT_INACTIVE | SKIPPED_DUPLICATE_CLAIM | SKIPPED_MISSING.

#[export] Instance ProcessResult_eq_dec : EqDecision ProcessResult.
Proof. solve_decision. Defined.

Definition result_label (r : ProcessResult) : string :=
  match r with
  | RSucceeded => "SUCCEEDED" | RFailed => "FAILED" | RDead => "DEAD"
  | SKIPPED_ALREADY_DONE => "SKIPPED_ALREADY_DONE"
  | SKIPPED_ENDPOINT_INACTIVE => "SKIPPED_ENDPOINT_INACTIVE"
  | SKIPPED_DUPLICATE_CLAIM => "SKIPPED_DUPLICATE_CLAIM"
  | SKIPPED_MISSING => "SKIPPED_MISSING"
  end.

Definition class_label (c : AttemptErrorClass) : string :=
  match c with
  | TIMEOUT => "TIMEOUT" | CONN_REFUSED => "CONN_REFUSED" | HTTP_4XX => "HTTP_4XX"
  | HTTP_5XX => "HTTP_5XX" | SSRF_BLOCKED => "SSRF_BLOCKED" | CIRCUIT_OPEN => "CIRCUIT_OPEN"
  end.

(** ** The rows the statements write *)

Definition set_outcome (o : AttemptOutcome) (a : DeliveryAttempt) : DeliveryAttempt :=
  mkAttempt (at_deliveryId a) (at_attemptNo a) (at_requestHeadersDigest a) (outcome_status o)
    (outcome_bodyHead o) (outcome_errorClass o) (Some (durationMs o)) (at_attemptedAt a).

Definition set_skipped (errorClass : AttemptErrorClass) (bodyHead : string) (durationMs : Z)
    (a : DeliveryAttempt) : DeliveryAttempt :=
  mkAttempt (at_deliveryId a) (at_attemptNo a) (at_requestHeadersDigest a) (at_responseStatus a)
    (Some bodyHead) (Some errorClass) (Some durationMs) (at_attemptedAt a).

Definition set_succeeded (attemptNo : Z) (d : Delivery) : Delivery :=
  mkDelivery (dl_eventId d) (dl_endpointId d) SUCCEEDED attemptNo None (dl_createdAt d) (dl_updatedAt d).

Definition set_failed (dead : bool) (attemptNo : Z) (d : Delivery) : Delivery :=
  mkDelivery (dl_eventId d) (dl_endpointId d) (if dead then DEAD else FAILED_RETRYING) attemptNo
    (dl_nextRetryAt d) (dl_createdAt d) (dl_updatedAt d).

Definition reset_failures (e : Endpoint) : Endpoint :=
  mkEndpoint (ep_tenantId e) (ep_url e) (ep_secretEnc e) (ep_status e) (ep_description e) 0
    (ep_createdAt e) (ep_updatedAt e).

Definition count_failure (disable : bool) (e : Endpoint) : Endpoint :=
  mkEndpoint (ep_tenantId e) (ep_url e) (ep_secretEnc e) (if disable then DISABLED_AUTO else ep_status e)
    (ep_description e) (ep_consecutiveFailures e + 1) (ep_createdAt e) (ep_updatedAt e).

Section processor.
Context `{P : Platform}.
Variable cfg : Config.

Definition maxAttempts : Z := HR_MAX_ATTEMPTS cfg.

(** [delivery.findUnique({ include: { event } })] *)
Definition find_delivery (deliveryId : string) (d : Db) : option (Delivery * Event) :=
  dl ← deliveries d !! deliveryId; ev ← events d !! dl_eventId dl; Some (dl, ev).

(** [JSON.stringify({ eventId, type, occurredAt, payload })] *)
Definition delivery_body (eventId : string) (ev : Event) : string :=
  stringify (JObj [("eventId", JStr eventId); ("type", JStr (ev_type ev));
    ("occurredAt", JStr (toISOString (ev_createdAt ev))); ("payload", ev_payload ev)]).

Definition delivery_headers (deliveryId : string) (ev : Event) (secret body : string) (now : Z)
    : list (string * string) :=
  let timestampSec := now / 1000 in
  buildDeliveryHeaders (ev_type ev) deliveryId timestampSec (signDeliveryBody secret timestampSec body).

Definition skip (r : ProcessResult) : prog World ProcessResult :=
  inc deliveriesTotal [("result", result_label r)] ;; Ret r.

Definition is_P2002 (e : exn) : bool :=
  match e with EPrisma c => bool_decide (c = "P2002") | _ => false end.

(** [claim]: the new row's id, or ['duplicate'] ([None]). *)
Definition claim (deliveryId : string) (attemptNo : Z) (digest : string) : prog World (option Z) :=
  catch
    (let* id := transaction (attempt_create deliveryId attemptNo digest) in Ret (Some id))
    (fun error => if is_P2002 error then Ret None else Throw error).

Definition finishFailure (deliveryId : string) (attemptId attemptNo : Z)
    (errorClass : AttemptErrorClass) (bodyHead : string) (durationMs : Z) : prog World ProcessResult :=
  transaction (attempt_update attemptId (set_skipped errorClass bodyHead durationMs)) ;;
  let dead := maxAttempts <=? attemptNo in
  transaction (delivery_update deliveryId (set_failed dead attemptNo)) ;;
  Ret (if dead then RDead else RFailed).

(** What follows the recording of an attempt's outcome (lines 125-157). *)
Definition settle_success (deliveryId endpointId : string) (attemptNo : Z) : prog World ProcessResult :=
  success endpointId ;;
  transaction (endpoint_update endpointId reset_failures) ;;
  transaction (delivery_update deliveryId (set_succeeded attemptNo)) ;;
  inc deliveriesTotal [("result", result_label RSucceeded)] ;;
  Ret RSucceeded.

Definition settle_failure (wid : nat) (deliveryId endpointId : string) (attemptNo : Z)
    (errorClass : AttemptErrorClass) : prog World ProcessResult :=
  inc deliveryErrorsTotal [("error_class", class_label errorClass)] ;;
  let* fr := failure cfg endpointId in
  let disable := fr.1 in
  transaction (endpoint_update endpointId (count_failure disable)) ;;
  (if disable : bool then invalidate wid (Some endpointId) else Ret tt) ;;
  let dead := maxAttempts <=? attemptNo in
  transaction (delivery_update deliveryId (set_failed dead attemptNo)) ;;
  let r := if dead then RDead else RFailed in
  inc deliveriesTotal [("result", result_label r)] ;;
  Ret r.

(** The attempt itself, once it is claimed. *)
Definition run_attempt (wid : nat) (deliveryId : string) (delivery : Delivery) (endpoint : EndpointConfig)
    (headers : list (string * string)) (body : string) (attemptNo claimed : Z) : prog World ProcessResult :=
  let* allowed := allow cfg (dl_endpointId delivery) in
  if negb allowed then
    inc circuitOpenTotal [] ;;
    inc deliveriesTotal [("result", "CIRCUIT_OPEN")] ;;
    inc deliveryErrorsTotal [("error_class", class_label CIRCUIT_OPEN)] ;;
    finishFailure deliveryId claimed attemptNo CIRCUIT_OPEN "circuit open — HTTP skipped" 0
  else
    let* outcome := send cfg (ec_url endpoint) headers body (HR_DELIVERY_TIMEOUT_MS cfg) in
    observe_seconds deliveryDuration [] (durationMs outcome) ;;
    transaction (attempt_update claimed (set_outcome outcome)) ;;
    match outcome with
    | Ok _ _ _ => settle_success deliveryId (dl_endpointId delivery) attemptNo
    | Failed errorClass _ _ _ => settle_failure wid deliveryId (dl_endpointId delivery) attemptNo errorClass
    end.

Definition process (wid : nat) (deliveryId : string) : prog World ProcessResult :=
  let* found := db_read (find_delivery deliveryId) in
  match found with
  | None => skip SKIPPED_MISSING
  | Some (delivery, event) =>
      if bool_decide (dl_status delivery = SUCCEEDED) || bool_decide (dl_status delivery = DEAD)
      then skip SKIPPED_ALREADY_DONE
      else
        let* endpoint := get cfg wid (dl_endpointId delivery) in
        match endpoint with
        | None => skip SKIPPED_MISSING
        | Some endpoint =>
            if negb (bool_decide (ec_status endpoint = ACTIVE)) then skip SKIPPED_ENDPOINT_INACTIVE
            else
              let body := delivery_body (dl_eventId delivery) event in
              let* now := Date_now in
              let headers := delivery_headers deliveryId event (ec_secret endpoint) body now in
              let attemptNo := dl_attemptCount delivery + 1 in
              let* claimed := claim deliveryId attemptNo (digestHeaders headers) in
              match claimed with
              | None => skip SKIPPED_DUPLICATE_CLAIM
              | Some id => run_attempt wid deliveryId delivery endpoint headers body attemptNo id
              end
        end
  end.

(** ** Footprint

    The kinds of steps a run of [process] consists of: a relation that holds for
    each of them holds for every step of every run. *)
Section footprint.
Context (Rel : World -> World -> Prop) `{!PreOrder Rel}.
Context (Rel_claim : forall D n g, acts Rel (transaction (attempt_create D n g))).
Context (Rel_attempt : forall i (f : DeliveryAttempt -> DeliveryAttempt),
  (forall a, at_deliveryId (f a) = at_deliveryId a /\ at_attemptNo (f a) = at_attemptNo a) ->
  acts Rel (transaction (attempt_update i f))).
Context (Rel_endpoint : forall i (f : Endpoint -> Endpoint),
  (forall e, ep_tenantId (f e) = ep_tenantId e /\ ep_url (f e) = ep_url e /\ ep_secretEnc (f e) = ep_secretEnc e) ->
  acts Rel (transaction (endpoint_update i f))).
Context (Rel_delivery : forall D (f : Delivery -> Delivery),
  (forall d, dl_eventId (f d) = dl_eventId d /\ dl_endpointId (f d) = dl_endpointId d) ->
  acts Rel (transaction (delivery_update D f))).
Context (Rel_circuit : forall w w', circuit_step w w' -> Rel w w').
Context (Rel_send : forall w w', sends_safely cfg w w' -> Rel w w').
Context (Rel_cache : forall w f, Rel w (with_caches f w)).
Context (Rel_metric : forall w op m labels v, call_ok op m labels v = true -> Rel w (observe (ObsMetric op m labels v) w)).

Lemma metric_acts op m labels v : call_ok op m labels v = true -> acts Rel (metric_call op m labels v).
Proof. intros H. apply acts_update. intros w. by apply Rel_metric. Qed.

Lemma count_result_acts r : acts Rel (inc deliveriesTotal [("result", result_label r)]).
Proof. apply metric_acts. by destruct r. Qed.

Lemma count_error_acts c : acts Rel (inc deliveryErrorsTotal [("error_class", class_label c)]).
Proof. apply metric_acts. by destruct c. Qed.

Lemma skip_acts r : acts Rel (skip r).
Proof. apply acts_bind; [apply count_result_acts|done]. Qed.

Lemma claim_acts deliveryId n digest : acts Rel (claim deliveryId n digest).
Proof.
  apply acts_catch; [|intros e; by destruct (is_P2002 e)].
  apply acts_bind; [apply Rel_claim|done].
Qed.

Lemma finishFailure_acts deliveryId a n c b t : acts Rel (finishFailure deliveryId a n c b t).
Proof.
  apply acts_bind; [by apply Rel_attempt|]. intros _. apply acts_bind; [by apply Rel_delivery|]. done.
Qed.

Lemma settle_success_acts deliveryId ep n : acts Rel (settle_success deliveryId ep n).
Proof.
  apply acts_bind; [by eapply acts_mono, success_acts|]. intros _.
  apply acts_bind; [by apply Rel_endpoint|intros _]. apply acts_bind; [by apply Rel_delivery|intros _].
  apply acts_bind; [apply (count_result_acts RSucceeded)|done].
Qed.

Lemma settle_failure_acts wid deliveryId ep n c : acts Rel (settle_failure wid deliveryId ep n c).
Proof.
  apply acts_bind; [apply count_error_acts|]. intros _.
  apply acts_bind; [by eapply acts_mono, failure_acts|]. intros [dis k]. cbn [fst].
  apply acts_bind; [by apply Rel_endpoint|]. intros _.
  apply acts_bind; [destruct dis; [by apply invalidate_acts|done]|]. intros _.
  apply acts_bind; [by apply Rel_delivery|]. intros _. apply acts_bind; [apply count_result_acts|done].
Qed.

Lemma run_attempt_acts wid deliveryId d ep headers body n claimed :
  acts Rel (run_attempt wid deliveryId d ep headers body n claimed).
Proof.
  apply acts_bind; [by eapply acts_mono, allow_acts|]. intros []; cbn [negb].
  - apply acts_bind; [by eapply acts_mono, safe_send|]. intros o.
    apply acts_bind; [by apply metric_acts|]. intros _. apply acts_bind; [by apply Rel_attempt|]. intros _.
    destruct o; [apply settle_success_acts|apply settle_failure_acts].
  - do 3 (apply acts_bind; [by apply metric_acts|intros _]). apply finishFailure_acts.
Qed.

Lemma process_acts wid deliveryId : acts Rel (process wid deliveryId).
Proof.
  apply acts_bind; [apply acts_db_read, _|]. intros [[d ev]|]; [|apply skip_acts].
  destruct (_ || _); [apply skip_acts|].
  apply acts_bind; [apply get_acts; [apply _|done]|]. intros [ep|]; [|apply skip_acts].
  destruct (negb _); [apply skip_acts|].
  apply acts_bind; [apply acts_query, _|]. intros now.
  apply acts_bind; [apply claim_acts|]. intros [id|]; [apply run_attempt_acts|apply skip_acts].
Qed.

End footprint.

(** ** One attempt, from claim to verdict *)

(** The tables an attempt on [deliveryId]/[endpointId] never writes. *)
Definition same_rest (w w' : World) : Prop :=
  let d := w_db w in let d' := w_db w' in
  tenants d' = tenants d /\ apiKeys d' = apiKeys d /\ subscriptions d' = subscriptions d /\
  events d' = events d /\ outbox d' = outbox d /\ outbox_seq d' = outbox_seq d /\
  w_queue w' = w_queue w.

Definition same_claim (a a' : DeliveryAttempt) : Prop :=
  at_deliveryId a' = at_deliveryId a /\ at_attemptNo a' = at_attemptNo a /\
  at_requestHeadersDigest a' = at_requestHeadersDigest a.

(** The verdict of an attempt as the row it leaves. *)
Definition verdict_row (r : ProcessResult) (attemptNo : Z) (d d' : Delivery) : Prop :=
  exists now, d' = touch_delivery now
    (match r with RSucceeded => set_succeeded attemptNo d | _ => set_failed (maxAttempts <=? attemptNo) attemptNo d end)
  /\ (r = RSucceeded \/ r = (if maxAttempts <=? attemptNo then RDead else RFailed)).

Definition attempted (deliveryId : string) (claimed attemptNo : Z) (a : DeliveryAttempt) (d : Delivery)
    (w w' : World) (r : exn + ProcessResult) : Prop :=
  same_rest w w' /\ attempt_seq (w_db w') = attempt_seq (w_db w) /\
  exists a', same_claim a a' /\ attempts (w_db w') = <[claimed := a']> (attempts (w_db w)) /\
    match r with
    | inl _ => deliveries (w_db w') = deliveries (w_db w)
    | inr res => exists d', deliveries (w_db w') = <[deliveryId := d']> (deliveries (w_db w)) /\
                   verdict_row res attemptNo d d' /\
                   (res = RSucceeded -> at_errorClass a' = None) /\
                   (res <> RSucceeded -> at_errorClass a' <> None)
    end.

Lemma exec_delivery_update w id f d :
  deliveries (w_db w) !! id = Some d ->
  exec (transaction (delivery_update id f)) w =
    (inr tt, with_db (set_deliveries (insert id (touch_delivery (w_now w) (f d)))) w).
Proof. intros Hd. rewrite exec_transaction. unfold delivery_update. by rewrite Hd. Qed.

Lemma exec_endpoint_update w id f :
  exists r es, exec (transaction (endpoint_update id f)) w = (r, with_db (set_endpoints (fun _ => es)) w).
Proof.
  rewrite exec_transaction. unfold endpoint_update.
  destruct (endpoints (w_db w) !! id) as [e|]; eexists _; [by eexists|].
  exists (endpoints (w_db w)). f_equal. by destruct w as [[]].
Qed.

Lemma exec_attempt_update w id f a :
  attempts (w_db w) !! id = Some a ->
  exec (transaction (attempt_update id f)) w =
    if text_ok (default EmptyString (at_responseBodyHead (f a)))
    then (inr tt, with_db (fun d => set_attempts (insert id (f a)) (attempt_seq d) d) w)
    else (inl bad_text, with_db (fun _ => w_db w) w).
Proof.
  intros Ha. rewrite exec_transaction. unfold attempt_update. rewrite Ha. by destruct (text_ok _).
Qed.

Lemma same_claim_skipped c b n a : same_claim a (set_skipped c b n a).
Proof. done. Qed.

Lemma same_claim_outcome o a : same_claim a (set_outcome o a).
Proof. done. Qed.

Lemma verdict_failed attemptNo now d :
  verdict_row (if maxAttempts <=? attemptNo then RDead else RFailed) attemptNo d
    (touch_delivery now (set_failed (maxAttempts <=? attemptNo) attemptNo d)).
Proof. exists now. split; [|by right]. by destruct (maxAttempts <=? attemptNo). Qed.

(** A short-circuited attempt. *)
Lemma exec_finishFailure w deliveryId claimed attemptNo c bodyHead n a d :
  attempts (w_db w) !! claimed = Some a -> deliveries (w_db w) !! deliveryId = Some d ->
  text_ok bodyHead = true ->
  exists w', exec (finishFailure deliveryId claimed attemptNo c bodyHead n) w =
      (inr (if maxAttempts <=? attemptNo then RDead else RFailed), w') /\
    attempted deliveryId claimed attemptNo a d w w' (inr (if maxAttempts <=? attemptNo then RDead else RFailed)).
Proof.
  intros Ha Hd Htext. unfold finishFailure. rewrite exec_bind, (exec_attempt_update w _ _ a Ha).
  cbn [set_skipped at_responseBodyHead default from_option id]. rewrite Htext.
  rewrite exec_bind, (exec_delivery_update _ _ _ d) by done. cbn [exec].
  eexists. split; [reflexivity|]. split; [done|]. split; [done|].
  exists (set_skipped c bodyHead n a). split; [done|]. split; [done|].
  eexists. split; [done|]. split; [apply verdict_failed|].
  split; [by destruct (maxAttempts <=? attemptNo)|done].
Qed.

(** What settling a recorded attempt does to the database. *)
Definition settled_delivery (deliveryId : string) (attemptNo : Z) (d : Delivery) (w w' : World)
    (r : exn + ProcessResult) : Prop :=
  same_rest w w' /\ attempts (w_db w') = attempts (w_db w) /\
  attempt_seq (w_db w') = attempt_seq (w_db w) /\
  match r with
  | inl _ => deliveries (w_db w') = deliveries (w_db w)
  | inr res => exists d', deliveries (w_db w') = <[deliveryId := d']> (deliveries (w_db w)) /\
                 verdict_row res attemptNo d d'
  end.

Lemma exec_settle_success w deliveryId ep attemptNo d :
  deliveries (w_db w) !! deliveryId = Some d ->
  exists r w', exec (settle_success deliveryId ep attemptNo) w = (r, w') /\
    settled_delivery deliveryId attemptNo d w w' r /\ (forall res, r = inr res -> res = RSucceeded).
Proof.
  intros Hd. unfold settle_success. rewrite exec_bind.
  destruct (exec_success_frame w ep) as (rd & ->). rewrite exec_bind.
  destruct (exec_endpoint_update (with_redis rd w) ep reset_failures) as ([e|[]] & es & ->).
  { by eexists _, _. }
  rewrite exec_bind, (exec_delivery_update _ _ _ d) by done. rewrite exec_bind, exec_inc. cbn [exec].
  eexists _, _. split; [reflexivity|]. split; [|by intros res [= <-]].
  split; [done|]. split; [done|]. split; [done|].
  eexists. split; [done|]. eexists. split; [reflexivity|by left].
Qed.

Lemma exec_settle_failure w wid deliveryId ep attemptNo c d :
  deliveries (w_db w) !! deliveryId = Some d ->
  exists r w', exec (settle_failure wid deliveryId ep attemptNo c) w = (r, w') /\
    settled_delivery deliveryId attemptNo d w w' r /\ (forall res, r = inr res -> res <> RSucceeded).
Proof.
  intros Hd. unfold settle_failure. rewrite exec_bind, exec_inc, exec_bind.
  set (w1 := observe _ w). destruct (exec_failure_frame cfg w1 ep) as ([dis n] & rd & ->).
  cbn [fst]. rewrite exec_bind.
  destruct (exec_endpoint_update (with_redis rd w1) ep (count_failure dis)) as ([e|[]] & es & ->).
  { by eexists _, _. }
  rewrite exec_bind. set (w2 := with_db _ _).
  assert (exists cs, exec (if dis then invalidate wid (Some ep) else Ret tt) w2
    = (inr tt, with_caches (fun _ => cs) w2)) as [cs ->].
  { destruct dis; [by eexists|]. exists (w_caches w2). by destruct w2. }
  rewrite exec_bind, (exec_delivery_update _ _ _ d) by done. rewrite exec_bind, exec_inc. cbn [exec].
  eexists _, _. split; [reflexivity|]. split; [|intros res [= <-]; by destruct (maxAttempts <=? attemptNo)].
  split; [done|]. split; [done|]. split; [done|].
  eexists. split; [done|]. apply verdict_failed.
Qed.

Lemma attempted_settled deliveryId claimed attemptNo a a' d w w1 w' r :
  same_rest w w1 -> attempt_seq (w_db w1) = attempt_seq (w_db w) ->
  deliveries (w_db w1) = deliveries (w_db w) ->
  attempts (w_db w1) = <[claimed := a']> (attempts (w_db w)) -> same_claim a a' ->
  settled_delivery deliveryId attemptNo d w1 w' r ->
  (forall res, r = inr res -> (res = RSucceeded <-> at_errorClass a' = None)) ->
  attempted deliveryId claimed attemptNo a d w w' r.
Proof.
  intros Hr Hs Hdl Hat Hc (Hr' & Hat' & Hs' & Hres) Hcls. unfold attempted, same_rest in *.
  split; [naive_solver congruence|]. split; [congruence|].
  exists a'. split; [done|]. split; [congruence|]. destruct r as [e|res]; [congruence|].
  destruct Hres as (d' & ? & ?). exists d'. specialize (Hcls res eq_refl).
  split_and!; [congruence|done|naive_solver..].
Qed.

Lemma exec_run_attempt w wid deliveryId d0 endpoint headers body attemptNo claimed a d :
  attempts (w_db w) !! claimed = Some a -> deliveries (w_db w) !! deliveryId = Some d ->
  exists r w', exec (run_attempt wid deliveryId d0 endpoint headers body attemptNo claimed) w = (r, w') /\
    attempted deliveryId claimed attemptNo a d w w' r.
Proof.
  intros Ha Hd. unfold run_attempt. rewrite exec_bind.
  destruct (exec_allow_frame cfg w (dl_endpointId d0)) as ([] & rd & ->); cbn [negb].
  2:{ rewrite !exec_bind, exec_inc, exec_bind, exec_inc, exec_bind, exec_inc.
      edestruct exec_finishFailure as (w' & -> & H); [exact Ha|exact Hd|done|].
      eexists _, w'. split; [reflexivity|exact H]. }
  rewrite exec_bind. set (w0 := with_redis rd w).
  destruct (exec_send_frame cfg w0 (ec_url endpoint) headers body (HR_DELIVERY_TIMEOUT_MS cfg))
    as (o & w1 & -> & Hdb & _ & Hq & _). cbn [w0 with_redis w_db w_queue] in Hdb, Hq.
  rewrite exec_bind, exec_observe_seconds, exec_bind, (exec_attempt_update _ _ _ a) by (cbn; by rewrite Hdb).
  destruct (text_ok _).
  2:{ eexists _, _. split; [reflexivity|]. unfold attempted, same_rest. cbn. rewrite Hdb, Hq.
      split; [done|]. split; [done|]. exists a. split; [done|]. split; [|done]. by rewrite insert_id. }
  set (w2 := with_db _ _).
  assert (deliveries (w_db w2) !! deliveryId = Some d) as Hd2 by (cbn; by rewrite Hdb).
  destruct o as [st bh du|c st bh du].
  - destruct (exec_settle_success w2 deliveryId (dl_endpointId d0) attemptNo d Hd2) as (r & w' & -> & H & Hres).
    exists r, w'. split; [done|]. eapply (attempted_settled _ _ _ a _ d w w2); try exact H;
      try (unfold same_rest; cbn; by rewrite Hdb, ?Hq); try done.
    intros res ->. by rewrite (Hres res).
  - destruct (exec_settle_failure w2 wid deliveryId (dl_endpointId d0) attemptNo c d Hd2) as (r & w' & -> & H & Hres).
    exists r, w'. split; [done|]. eapply (attempted_settled _ _ _ a _ d w w2); try exact H;
      try (unfold same_rest; cbn; by rewrite Hdb, ?Hq); try done.
    intros res Hr. specialize (Hres res Hr). by split.
Qed.

(** ** The decision [process] takes *)

(** The settings it works with: cached, or read and decrypted now. *)
Definition effective_endpoint (w : World) (wid : nat) (ep : string) : exn + option EndpointConfig :=
  match cache_lookup wid ep w with Some v => inr (Some v) | None => fresh cfg (w_db w) ep end.

Inductive decision :=
| Skip (r : ProcessResult)
| Raise (e : exn)
| AttemptNow (delivery : Delivery) (event : Event) (endpoint : EndpointConfig).

Definition is_done (d : Delivery) : bool :=
  bool_decide (dl_status d = SUCCEEDED) || bool_decide (dl_status d = DEAD).

Definition decide_process (w : World) (wid : nat) (deliveryId : string) : decision :=
  match find_delivery deliveryId (w_db w) with
  | None => Skip SKIPPED_MISSING
  | Some (d, ev) =>
      if is_done d then Skip SKIPPED_ALREADY_DONE
      else match effective_endpoint w wid (dl_endpointId d) with
           | inl e => Raise e
           | inr None => Skip SKIPPED_MISSING
           | inr (Some ep) =>
               if negb (bool_decide (ec_status ep = ACTIVE)) then Skip SKIPPED_ENDPOINT_INACTIVE
               else if attempt_taken deliveryId (dl_attemptCount d + 1) (w_db w) then Skip SKIPPED_DUPLICATE_CLAIM
               else AttemptNow d ev ep
           end
  end.

(** Only the caches and the metrics differ. *)
Definition same_db (w w' : World) : Prop :=
  w_db w' = w_db w /\ w_queue w' = w_queue w /\ requests w' = requests w.

Lemma same_db_skip w w1 r :
  same_db w w1 -> same_db w (observe (ObsMetric MInc deliveriesTotal [("result", result_label r)] 1) w1).
Proof. intros (Hd & Hq & Hr). unfold same_db. rewrite requests_observe by done. done. Qed.

Lemma exec_skip w r : exec (skip r) w = (inr r, observe (ObsMetric MInc deliveriesTotal [("result", result_label r)] 1) w).
Proof. done. Qed.

Lemma exec_get_effective w wid ep :
  exists w', same_db w w' /\ w_now w' = w_now w /\
    exec (get cfg wid ep) w = (effective_endpoint w wid ep, w').
Proof.
  rewrite exec_get. unfold effective_endpoint.
  destruct (cache_lookup wid ep w); [by exists w|].
  destruct (fresh cfg (w_db w) ep) as [e|[v|]];
    (eexists; split; [|split; [|reflexivity]]; done).
Qed.

Lemma exec_claim w deliveryId n digest d :
  deliveries (w_db w) !! deliveryId = Some d ->
  exec (claim deliveryId n digest) w =
    if attempt_taken deliveryId n (w_db w) then (inr None, with_db (fun _ => w_db w) w)
    else let id := attempt_seq (w_db w) in
      (inr (Some id), with_db (set_attempts (insert id
         (mkAttempt deliveryId n digest None None None None (w_now w))) (id + 1)) w).
Proof.
  intros Hd. unfold claim. rewrite exec_catch, exec_bind, exec_transaction. unfold attempt_create.
  rewrite Hd. by destruct (attempt_taken _ _ _).
Qed.

Lemma find_delivery_Some id db d ev :
  find_delivery id db = Some (d, ev) -> deliveries db !! id = Some d /\ events db !! dl_eventId d = Some ev.
Proof.
  unfold find_delivery. intros (d' & Hd & (ev' & Hev & [= -> ->])%bind_Some)%bind_Some. done.
Qed.

(** The whole of [process], for every decision. *)
Definition process_spec (w : World) (wid : nat) (deliveryId : string) (w' : World) (r : exn + ProcessResult) : Prop :=
  match decide_process w wid deliveryId with
  | Skip res => r = inr res /\ same_db w w'
  | Raise e => r = inl e /\ same_db w w'
  | AttemptNow d ev ep =>
      same_rest w w' /\ attempt_seq (w_db w') = attempt_seq (w_db w) + 1 /\
      exists a, at_deliveryId a = deliveryId /\ at_attemptNo a = dl_attemptCount d + 1 /\
        attempts (w_db w') = <[attempt_seq (w_db w) := a]> (attempts (w_db w)) /\
        match r with
        | inl _ => deliveries (w_db w') = deliveries (w_db w)
        | inr res => exists d', deliveries (w_db w') = <[deliveryId := d']> (deliveries (w_db w)) /\
                       verdict_row res (dl_attemptCount d + 1) d d' /\
                       (res = RSucceeded -> at_errorClass a = None) /\
                       (res <> RSucceeded -> at_errorClass a <> None)
        end
  end.

Lemma exec_process w wid deliveryId :
  exists r w', exec (process wid deliveryId) w = (r, w') /\ process_spec w wid deliveryId w' r.
Proof.
  unfold process, process_spec, decide_process. rewrite exec_bind, exec_db_read.
  assert (same_db w w) as Hself by done.
  destruct (find_delivery deliveryId (w_db w)) as [[d ev]|] eqn:Hf.
  2:{ rewrite exec_skip. eexists _, _. split; [done|]. split; [done|]. by apply same_db_skip. }
  apply find_delivery_Some in Hf as [Hd _]. fold (is_done d). destruct (is_done d).
  { rewrite exec_skip. eexists _, _. split; [done|]. split; [done|]. by apply same_db_skip. }
  rewrite exec_bind. destruct (exec_get_effective w wid (dl_endpointId d)) as (w1 & Hw1 & _ & ->).
  destruct (effective_endpoint w wid (dl_endpointId d)) as [e|[ep|]].
  { by eexists _, _. }
  2:{ rewrite exec_skip. eexists _, _. split; [done|]. split; [done|]. by apply same_db_skip. }
  destruct (negb _).
  { rewrite exec_skip. eexists _, _. split; [done|]. split; [done|]. by apply same_db_skip. }
  pose proof Hw1 as (Hdb & Hq & Hreq). rewrite exec_bind, exec_Date_now, exec_bind. rewrite <- Hdb in Hd.
  rewrite (exec_claim w1 _ _ _ d Hd), Hdb. destruct (attempt_taken _ _ _).
  { rewrite exec_skip. eexists _, _. split; [done|]. split; [done|]. by apply same_db_skip. }
  cbv zeta. set (w2 := with_db _ w1). edestruct (exec_run_attempt w2) as (r & w' & -> & H).
  { cbn. apply lookup_insert_eq. } { exact Hd. }
  eexists _, _. split; [reflexivity|]. destruct H as (Hrest & Hseq & a' & (? & ? & _) & Hat & Hr).
  unfold same_rest in *. cbn in Hrest, Hseq, Hat, Hr. rewrite Hdb, ?Hq in *.
  split; [done|]. split; [done|]. exists a'. rewrite insert_insert_eq in Hat. done.
Qed.

(** ** The delivery's state machine *)

Inductive delivery_step : ProcessResult -> Delivery -> Delivery -> Prop :=
| step_succeeded d now :
    is_done d = false ->
    delivery_step RSucceeded d (touch_delivery now (set_succeeded (dl_attemptCount d + 1) d))
| step_retrying d now :
    is_done d = false -> dl_attemptCount d + 1 < maxAttempts ->
    delivery_step RFailed d (touch_delivery now (set_failed false (dl_attemptCount d + 1) d))
| step_dead d now :
    is_done d = false -> maxAttempts <= dl_attemptCount d + 1 ->
    delivery_step RDead d (touch_delivery now (set_failed true (dl_attemptCount d + 1) d)).

Lemma verdict_row_step res d d' :
  is_done d = false -> verdict_row res (dl_attemptCount d + 1) d d' -> delivery_step res d d'.
Proof.
  intros Hd (now & -> & [->| ->]); [by constructor|].
  destruct (Z.leb_spec maxAttempts (dl_attemptCount d + 1)); by constructor.
Qed.

Definition is_verdict (r : exn + ProcessResult) : bool :=
  match r with inr RSucceeded | inr RFailed | inr RDead => true | _ => false end.

Lemma decide_attempt w wid deliveryId d ev ep :
  decide_process w wid deliveryId = AttemptNow d ev ep ->
  deliveries (w_db w) !! deliveryId = Some d /\ is_done d = false /\
  effective_endpoint w wid (dl_endpointId d) = inr (Some ep) /\ ec_status ep = ACTIVE /\
  attempt_taken deliveryId (dl_attemptCount d + 1) (w_db w) = false.
Proof.
  unfold decide_process. destruct (find_delivery deliveryId (w_db w)) as [[d' ev']|] eqn:Hf; [|done].
  apply find_delivery_Some in Hf as [Hd _]. destruct (is_done d') eqn:Hdone; [done|].
  destruct (effective_endpoint w wid (dl_endpointId d')) as [|[ep'|]] eqn:He; [done| |done].
  case_bool_decide as Ha; cbn [negb]; [|done].
  destruct (attempt_taken _ _ _) eqn:Ht; [done|]. intros. by simplify_eq.
Qed.

Lemma decide_skip w wid deliveryId r :
  decide_process w wid deliveryId = Skip r ->
  r = SKIPPED_ALREADY_DONE \/ r = SKIPPED_ENDPOINT_INACTIVE \/ r = SKIPPED_DUPLICATE_CLAIM \/ r = SKIPPED_MISSING.
Proof. unfold decide_process. intros H. repeat case_match; simplify_eq; auto. Qed.

(** ** Properties *)

(** C1.  The state machine of a delivery: one run of [process] leaves every other
    delivery alone; when it reports SUCCEEDED, FAILED or DEAD it has taken exactly
    the corresponding transition (from PENDING or FAILED_RETRYING, attempt count up
    by one, DEAD exactly when the count reaches [HR_MAX_ATTEMPTS]) and recorded
    exactly one new attempt with that number; in every other case, exceptions
    included, the delivery's row is as it was, so SUCCEEDED and DEAD are final. *)
Theorem delivery_state_machine w wid deliveryId :
  let '(r, w') := exec (process wid deliveryId) w in
  if is_verdict r then
    exists res d d' a, r = inr res /\
      deliveries (w_db w) !! deliveryId = Some d /\
      deliveries (w_db w') = <[deliveryId := d']> (deliveries (w_db w)) /\
      delivery_step res d d' /\
      attempts (w_db w') = <[attempt_seq (w_db w) := a]> (attempts (w_db w)) /\
      at_deliveryId a = deliveryId /\ at_attemptNo a = dl_attemptCount d' /\
      (res = RSucceeded <-> at_errorClass a = None)
  else deliveries (w_db w') = deliveries (w_db w).
Proof.
  destruct (exec_process w wid deliveryId) as (r & w' & -> & H). unfold process_spec in H.
  destruct (decide_process w wid deliveryId) as [res|e|d ev ep] eqn:E.
  - destruct H as (-> & [Hdb _]). apply decide_skip in E. rewrite Hdb. by destruct E as [->|[->|[->| ->]]].
  - destruct H as (-> & [Hdb _]). cbn. by rewrite Hdb.
  - apply decide_attempt in E as (Hd & Hdone & _). destruct H as (_ & _ & a & Hid & Hn & Hat & Hr).
    destruct r as [e|res]; [done|]. destruct Hr as (d' & Hdl & Hv & Hc1 & Hc2).
    pose proof (verdict_row_step res d d' Hdone Hv) as Hstep.
    assert (is_verdict (inr res) = true) as -> by (by destruct Hstep).
    exists res, d, d', a. split_and!; try done; [by destruct Hstep|].
    split; [done|]. intros Hn'. destruct (decide (res = RSucceeded)); [done|]. by destruct Hc2.
Qed.

(** What each skip means, and that a skip is harmless: [process] answers
    SKIPPED_MISSING, SKIPPED_ALREADY_DONE, SKIPPED_ENDPOINT_INACTIVE or
    SKIPPED_DUPLICATE_CLAIM exactly when, in this order, the delivery (or its
    endpoint) is missing, it is SUCCEEDED or DEAD, the endpoint as the worker sees
    it is not ACTIVE, or the next attempt number is already claimed; then nothing
    is written to the database, nothing is queued and no request is sent. *)
Theorem process_skips w wid deliveryId res :
  (exec (process wid deliveryId) w).1 = inr res -> is_verdict (inr res) = false ->
  decide_process w wid deliveryId = Skip res /\
  let w' := (exec (process wid deliveryId) w).2 in
  w_db w' = w_db w /\ w_queue w' = w_queue w /\ requests w' = requests w.
Proof.
  intros Hres Hv. destruct (exec_process w wid deliveryId) as (r & w' & E & H). rewrite E in *.
  cbn in Hres. subst r. unfold process_spec in H.
  destruct (decide_process w wid deliveryId) as [r|e|d ev ep] eqn:Ed.
  - by destruct H as [[= ->] H].
  - by destruct H.
  - destruct H as (_ & _ & a & _ & _ & _ & d' & _ & Hvr & _).
    apply decide_attempt in Ed as (_ & Hdone & _). by destruct (verdict_row_step res d d' Hdone Hvr).
Qed.

(** An attempt that raises after its claim (a failed database write, an
    endpoint row that is gone, a response body the column refuses) is never
    retried: the claim stays, the attempt count does not move, and so no worker
    ever decides to attempt this delivery again in the state left behind. *)
Theorem raise_after_claim_strands w wid deliveryId d ev ep e :
  decide_process w wid deliveryId = AttemptNow d ev ep ->
  (exec (process wid deliveryId) w).1 = inl e ->
  let w' := (exec (process wid deliveryId) w).2 in
  deliveries (w_db w') !! deliveryId = Some d /\
  attempt_taken deliveryId (dl_attemptCount d + 1) (w_db w') = true /\
  forall wid' d' ev' ep', decide_process w' wid' deliveryId <> AttemptNow d' ev' ep'.
Proof.
  intros Ed He. destruct (exec_process w wid deliveryId) as (r & w' & E & H). rewrite E in *.
  cbn in He |- *. subst r. unfold process_spec in H. rewrite Ed in H.
  destruct H as (_ & _ & a & Hid & Hn & Hat & Hdl). apply decide_attempt in Ed as (Hd & _).
  assert (attempt_taken deliveryId (dl_attemptCount d + 1) (w_db w') = true) as Ht.
  { apply attempt_taken_spec. eexists _, a. rewrite Hat. split; [apply lookup_insert_eq|done]. }
  rewrite <- Hdl in Hd. split; [done|]. split; [done|].
  intros wid' d' ev' ep' (Hd' & _ & _ & _ & Hf)%decide_attempt. simplify_eq. congruence.
Qed.

End processor.

(** ** A concrete delivery *)

Definition demo_endpoint (status : EndpointStatus) : Endpoint :=
  mkEndpoint "t1" "https://a.example/hook" (seal (P := always 200) demo_cfg "0123456789ab" "whsec_1")
    status None 0 0 0.

Definition demo_event : Event := mkEvent "t1" "order.created" (JObj [("n", JNum 1)]) "key-1" 0.

(** One pending delivery of one event to one endpoint. *)
Definition demo_db : Db :=
  set_deliveries (insert "d1" (mkDelivery "v1" "e1" PENDING 0 None 0 0))
    (set_events (insert "v1" demo_event)
      (set_endpoints (insert "e1" (demo_endpoint ACTIVE)) empty_db)).

Lemma process_skips_witness :
  let w := world_at 1000 (set_endpoints (insert "e1" (demo_endpoint DISABLED_MANUAL)) demo_db) 200 in
  decide_process demo_cfg w 0 "d1" = Skip SKIPPED_ENDPOINT_INACTIVE /\
  w_db (exec (process demo_cfg 0 "d1") w).2 = w_db w.
Proof.
  intros w. destruct (process_skips demo_cfg w 0 "d1" SKIPPED_ENDPOINT_INACTIVE) as (H1 & H2 & _);
    [vm_compute; reflexivity|reflexivity|]. by split.
Defined.

(** A receiver whose 200 response contains a NUL character. *)
Definition nul_receiver : Platform :=
  test_platform (fun _ _ => Responds 200 (String (ascii_of_N 0) EmptyString) 20)
    (fun _ _ => inr ["93.184.216.34"]) (fun _ => Some (mkURL "https:" "" "" "receiver.example.com")).

Definition nul_world : World (P := nul_receiver) := mkWorld (P := nul_receiver) demo_db ∅ ∅ 1000 0 ∅ [].

Lemma raise_after_claim_strands_witness :
  (exec (process (P := nul_receiver) demo_cfg 0 "d1") nul_world).1 = inl bad_text /\
  forall wid' d' ev' ep',
    decide_process (P := nul_receiver) demo_cfg (exec (process (P := nul_receiver) demo_cfg 0 "d1") nul_world).2
      wid' "d1" <> AttemptNow d' ev' ep'.
Proof.
  split; [vm_compute; reflexivity|].
  eapply (raise_after_claim_strands (P := nul_receiver) demo_cfg nul_world 0 "d1" _ _ _ bad_text);
    vm_compute; reflexivity.
Defined.
