(* ===== verification/Worker.v ===== *)
(** * The queue consumer: [worker/worker.service.ts]

    The handler BullMQ runs for each job: the tenant's slot, the processing, the
    retry signal with its delay, and the release of the slot on every exit; and the
    sampling of the queue for the gauge. *)

From S2P Require Import Prelude JsNumber Errors Effects Backoff Platform Schema Registry World.
From S2P Require Import Config TestPlatform Signature CircuitStore TenantLimiter SecretCipher EndpointCache HttpClient Processor.
Open Scope Z_scope.
Open Scope hook_scope.

Section worker.
Context `{P : Platform}.
Variable cfg : Config.

(** [delivery.findUnique({ select: { event: { select: { tenantId } } } })] *)
Definition delivery_tenant (deliveryId : string) (d : Db) : option string :=
  '(_, ev) ← find_delivery deliveryId d; Some (ev_tenantId ev).

(** [fullJitterDelayMs(attemptNo, policy)] with the process's [Math.random]. *)
Definition retry_delay (failedAttemptNo : Z) : prog World num :=
  if js_le0 (exponentialCeilingMs failedAttemptNo (retry_policy cfg)) then Ret (Fin 0)
  else
    let* k := draw_random in
    Ret (fullJitterDelayMs failedAttemptNo (retry_policy cfg) k).

Definition set_nextRetryAt (at_ : Z) (d : Delivery) : Delivery :=
  mkDelivery (dl_eventId d) (dl_endpointId d) (dl_status d) (dl_attemptCount d) (Some at_)
    (dl_createdAt d) (dl_updatedAt d).

Definition invalid_date : exn := EJs "PrismaClientValidationError" None "Invalid Date" None.

(** After a FAILED result: choose the delay, record it, signal the retry. *)
Definition schedule_retry (deliveryId : string) : prog World ProcessResult :=
  let* delivery := db_read (fun d => deliveries d !! deliveryId) in
  let* delayMs := retry_delay (match delivery with Some d => dl_attemptCount d | None => 1 end) in
  let* now := Date_now in
  match delayMs with
  | Fin d =>
      transaction (delivery_update deliveryId (set_nextRetryAt (now + d))) ;;
      Throw (ERetrySignal delayMs)
  | _ => Throw invalid_date
  end.

Definition process_and_retry (wid : nat) (deliveryId : string) : prog World ProcessResult :=
  let* result := process cfg wid deliveryId in
  if bool_decide (result = RFailed) then schedule_retry deliveryId else Ret result.

(** [async (job) => { ... }] *)
Definition handle_job (wid : nat) (job : Job) : prog World ProcessResult :=
  let deliveryId := jd_deliveryId (job_data job) in
  let* tenantId := match jd_tenantId (job_data job) with
    | Some t => Ret (Some t)
    | None => db_read (delivery_tenant deliveryId)
    end in
  match tenantId with
  | None | Some EmptyString => process cfg wid deliveryId
  | Some tenantId =>
      let* acquired := acquire cfg tenantId in
      if negb acquired then
        inc tenantLimiterDeferredTotal [] ;;
        let* now := Date_now in
        job_moveToDelayed job (now + HR_TENANT_RETRY_MS cfg) ;;
        Throw EDelayed
      else finally (process_and_retry wid deliveryId) (release cfg tenantId)
  end.

(** ** The sampling of the queue *)

(** What [getJobCounts] answers for the four states; a missing one counts 0. *)
Record JobCounts := mkJobCounts {
  jc_wait : option Z;
  jc_active : option Z;
  jc_delayed : option Z;
  jc_failed : option Z;
}.

Definition set_jobs (state : string) (n : option Z) : prog World unit :=
  set_gauge queueJobs [("state", state)] (default 0 n).

Definition sampleQueue (getJobCounts : prog World JobCounts) : prog World unit :=
  catch
    (let* counts := getJobCounts in
     set_jobs "wait" (jc_wait counts) ;;
     set_jobs "active" (jc_active counts) ;;
     set_jobs "delayed" (jc_delayed counts) ;;
     set_jobs "failed" (jc_failed counts))
    (fun _ => Ret tt).

(** A failing queue leaves the timer's promise fulfilled: no unhandled rejection. *)
Lemma sampleQueue_never_raises sched n counts w :
  exists w' n', run sched n (sampleQueue counts) w = (inr tt, w', n').
Proof.
  unfold sampleQueue. rewrite run_catch, run_bind. destruct (run sched n counts w) as [[[e|c] w1] n1]; cbn; by eexists _, _.
Qed.

(** ** Scheduling a retry *)

Lemma exec_retry_delay w n :
  policy_ok (retry_policy cfg) -> (forall k, 0 <= Math_random k < 2 ^ 53) ->
  exists d w', exec (retry_delay n) w = (inr (Fin d), w') /\ w_db w' = w_db w /\ w_now w' = w_now w /\
    w_redis w' = w_redis w /\
    0 <= d <= ceiling_spec n (retry_policy cfg) /\
    (0 < ceiling_spec n (retry_policy cfg) -> d < ceiling_spec n (retry_policy cfg)).
Proof.
  intros Hp Hk. unfold retry_delay.
  destruct (fullJitterDelayMs_bounds n (retry_policy cfg) (Math_random (w_draws w)) Hp (Hk _)) as (d & Hd & Hb & Hlt).
  destruct (js_le0 _) eqn:E.
  - exists 0, w. rewrite exponentialCeilingMs_spec in E by done. cbn in E. apply Z.leb_le in E.
    split_and!; try done; lia.
  - exists d, (drawn w). rewrite exec_bind. unfold draw_random. rewrite exec_call. cbn. by rewrite Hd.
Qed.

Lemma exec_schedule_retry w deliveryId d :
  policy_ok (retry_policy cfg) -> (forall k, 0 <= Math_random k < 2 ^ 53) ->
  deliveries (w_db w) !! deliveryId = Some d ->
  exists delay w', exec (schedule_retry deliveryId) w = (inl (ERetrySignal (Fin delay)), w') /\
    0 <= delay <= ceiling_spec (dl_attemptCount d) (retry_policy cfg) /\
    (0 < ceiling_spec (dl_attemptCount d) (retry_policy cfg) ->
       delay < ceiling_spec (dl_attemptCount d) (retry_policy cfg)) /\
    w_now w' = w_now w /\ w_redis w' = w_redis w /\
    w_db w' = set_deliveries (insert deliveryId
      (touch_delivery (w_now w) (set_nextRetryAt (w_now w + delay) d))) (w_db w).
Proof.
  intros Hp Hk Hd. unfold schedule_retry. rewrite exec_bind, exec_db_read, Hd, exec_bind.
  destruct (exec_retry_delay w (dl_attemptCount d) Hp Hk) as (delay & w1 & -> & Hdb & Hnow & Hr & Hb & Hlt).
  rewrite exec_bind, exec_Date_now, exec_bind, (exec_delivery_update _ _ _ d) by (by rewrite Hdb).
  cbn [exec]. eexists delay, _. split; [reflexivity|]. cbn. rewrite Hdb, Hnow. split_and!; try done; lia.
Qed.

(** ** The slot across the work it protects

    Everything the handler does between taking and releasing the slot leaves the
    slot keys to time. *)

Definition keeps_slots (w w' : World) : Prop :=
  w_now w <= w_now w' /\
  forall t, r_lookup (w_redis w') (w_now w') (slot_key t) =
    (e ← r_lookup (w_redis w) (w_now w) (slot_key t); if live (w_now w') e then Some e else None).

#[local] Instance keeps_slots_preorder : PreOrder keeps_slots.
Proof.
  split.
  - intros w. split; [lia|]. intros t. by apply r_lookup_later.
  - intros w1 w2 w3 [H1 L1] [H2 L2]. split; [lia|]. intros t. rewrite L2, L1.
    destruct (r_lookup (w_redis w1) (w_now w1) (slot_key t)) as [e|]; cbn; [|done].
    destruct (live (w_now w2) e) eqn:E2; cbn; [done|].
    destruct (live (w_now w3) e) eqn:E3; [|done]. unfold live in *. destruct (re_exp e); [|done]. lia.
Qed.

Lemma keeps_slots_time w w' :
  w_redis w' = w_redis w -> w_now w <= w_now w' -> keeps_slots w w'.
Proof. intros Hr Ht. split; [done|]. intros t. rewrite Hr. by apply r_lookup_later. Qed.

Lemma keeps_slots_circuit w w' : circuit_step w w' -> keeps_slots w w'.
Proof.
  intros [Hw Hk]. assert (w_now w' = w_now w) as Hn by (by rewrite Hw).
  split; [lia|]. intros t. rewrite Hn, Hk by done. by apply r_lookup_later.
Qed.

Lemma slots_kept w w' t h x : keeps_slots w w' -> w_now w' < x -> slots w t h x -> slots w' t h x.
Proof.
  intros [Hn Hk] Hx. unfold slots. rewrite Hk. intros [[-> ->]|(? & ? & ->)]; [by left|].
  right. split_and!; [done|done|]. cbn. by destruct (Z.ltb_spec (w_now w') x); [|lia].
Qed.

Lemma process_keeps_slots wid deliveryId : acts keeps_slots (process cfg wid deliveryId).
Proof.
  assert (forall w w', db_step w w' -> keeps_slots w w') as Hdb
    by (intros w w' (Hr & _ & Ht & _); apply keeps_slots_time; [done|lia]).
  apply process_acts; try apply _; try (intros; auto with hook; fail).
  - apply keeps_slots_circuit.
  - intros w w' (_ & Hr & _ & _ & Ht & _). by apply keeps_slots_time.
  - intros w f. apply keeps_slots_time; [done|cbn; lia].
  - intros w op m labels v _. apply keeps_slots_time; [done|cbn; lia].
Qed.

Lemma schedule_retry_keeps_slots deliveryId : acts keeps_slots (schedule_retry deliveryId).
Proof.
  assert (forall w w', db_step w w' -> keeps_slots w w') as Hdb
    by (intros w w' (Hr & _ & Ht & _); apply keeps_slots_time; [done|lia]).
  apply acts_bind; [by apply acts_db_read, _|]. intros d. apply acts_bind.
  - unfold retry_delay. destruct (js_le0 _); [done|]. apply acts_bind; [|done].
    apply acts_call. intros w. apply keeps_slots_time; [done|cbn; lia].
  - intros delay. apply acts_bind; [by apply acts_query, _|]. intros now.
    destruct delay; try done. apply acts_bind; [|done]. auto with hook.
Qed.

Lemma process_and_retry_keeps_slots wid deliveryId : acts keeps_slots (process_and_retry wid deliveryId).
Proof.
  apply acts_bind; [apply process_keeps_slots|]. intros r.
  case_bool_decide; [apply schedule_retry_keeps_slots|done].
Qed.

(** ** Properties *)

(** C24.  The slot is given back on every exit: if the tenant holds fewer slots
    than allowed when a job starts, then when the handler ends (with a result, a
    retry signal or any other exception) the tenant holds exactly as many slots
    as before, provided the key has not expired meanwhile; and if all slots are
    taken the job is put off, the handler raises [DelayedError], no attempt is
    made and the database is untouched. *)
Theorem handler_releases_slot w wid job t h x :
  0 < HR_TENANT_CONCURRENCY cfg -> 0 < HR_TENANT_SLOT_TTL_SEC cfg ->
  jd_tenantId (job_data job) = Some t -> t <> EmptyString ->
  0 <= h -> slots w t h x ->
  let '(r, w') := exec (handle_job wid job) w in
  if h <? HR_TENANT_CONCURRENCY cfg then
    let x' := if h =? 0 then w_now w + 1000 * HR_TENANT_SLOT_TTL_SEC cfg else x in
    w_now w' < x' -> slots w' t h x'
  else r = inl EDelayed /\ w_db w' = w_db w /\ requests w' = requests w /\ slots w' t h x.
Proof.
  intros Hmax Httl Hjt Hne Hh Hs. unfold handle_job. rewrite Hjt. cbn [bind].
  destruct t as [|c t0]; [done|]. set (t := String c t0) in *. rewrite exec_bind.
  destruct (exec_acquire cfg w t h x Hmax Httl Hh Hs) as (w1 & Hacq & Hnow & Hs1 & _).
  pose proof (acts_exec _ _ _ _ _ (acquire_acts cfg t) Hacq) as Hfr. rewrite Hacq.
  destruct (Z.ltb_spec h (HR_TENANT_CONCURRENCY cfg)) as [Hlt|Hge]; cbn [negb].
  - rewrite exec_finally.
    destruct (exec (process_and_retry wid (jd_deliveryId (job_data job))) w1) as [r w2] eqn:E.
    apply (acts_exec _ _ _ _ _ (process_and_retry_keeps_slots _ _)) in E.
    destruct (never_throws_exec _ w2 (release_never_throws cfg t)) as ([] & w3 & Er).
    pose proof (acts_exec _ _ _ _ _ (release_acts cfg t) Er) as Hw3. rewrite Er. intros Hx.
    assert (w_now w3 = w_now w2) as Hn3 by (by rewrite Hw3). rewrite Hn3 in Hx.
    pose proof (slots_kept _ _ _ _ _ E Hx Hs1) as Hs2.
    destruct (exec_release cfg w2 t (h + 1) _ Hmax ltac:(lia) Hs2) as (w3' & Er' & _ & Hs3 & _).
    rewrite Er in Er'. simplify_eq. by replace (h + 1 - 1) with h in Hs3 by lia.
  - rewrite exec_bind, exec_inc, exec_bind, exec_Date_now, exec_bind. cbn [exec job_moveToDelayed update call].
    cbn. split; [done|]. rewrite Hfr. split; [done|].
    destruct (Z.eqb_spec h 0); [lia|]. split.
    + unfold requests. cbn. rewrite !List.filter_app. cbn. by rewrite !app_nil_r.
    + rewrite Hfr in Hs1. exact Hs1.
Qed.

(** Every failed attempt is rescheduled: when [process] reports FAILED, the
    handler raises a [RetrySignal] from which BullMQ's strategy recovers a delay
    within the full-jitter ceiling of the new attempt count, and the delivery's
    [nextRetryAt] is the time of the decision plus exactly that delay; any other
    outcome of [process] is passed on unchanged and schedules nothing. *)
Theorem failed_attempt_is_rescheduled w wid deliveryId :
  policy_ok (retry_policy cfg) -> (forall k, 0 <= Math_random k < 2 ^ 53) ->
  let '(r, w1) := exec (process cfg wid deliveryId) w in
  let '(r', w') := exec (process_and_retry wid deliveryId) w in
  match r with
  | inr RFailed =>
    exists d delay, deliveries (w_db w1) !! deliveryId = Some d /\ dl_status d = FAILED_RETRYING /\
      r' = inl (ERetrySignal (Fin delay)) /\
      backoffStrategy lib_message (dl_attemptCount d) (Some "custom") (Some (ERetrySignal (Fin delay))) = Fin delay /\
      0 <= delay <= ceiling_spec (dl_attemptCount d) (retry_policy cfg) /\
      deliveries (w_db w') !! deliveryId =
        Some (touch_delivery (w_now w') (set_nextRetryAt (w_now w' + delay) d))
  | _ => (r', w') = (r, w1)
  end.
Proof.
  intros Hp Hk. destruct (exec_process cfg w wid deliveryId) as (r & w1 & E & H).
  unfold process_and_retry. rewrite exec_bind, !E. destruct r as [e|res]; [done|].
  case_bool_decide as Hr.
  - subst res. unfold process_spec in H.
    destruct (decide_process cfg w wid deliveryId) as [res|e|d0 ev ep] eqn:Ed.
    + destruct H as [[= <-] _]. apply decide_skip in Ed. by destruct Ed as [|[|[|]]].
    + by destruct H.
    + destruct H as (_ & _ & a & _ & _ & _ & d & Hdl & Hv & _).
      apply decide_attempt in Ed as (_ & Hdone & _). apply verdict_row_step in Hv; [|done].
      assert (deliveries (w_db w1) !! deliveryId = Some d) as Hd by (by rewrite Hdl, lookup_insert_eq).
      assert (dl_status d = FAILED_RETRYING) as Hst by (by inversion Hv).
      destruct (exec_schedule_retry w1 deliveryId d Hp Hk Hd) as (delay & w' & -> & Hb & _ & Hnow & _ & Hdb).
      exists d, delay. split_and!; try done; [lia..|].
      rewrite Hdb, Hnow. cbn. apply lookup_insert_eq.
  - by destruct res.
Qed.

End worker.

(** ** Concrete jobs *)

Definition demo_job : Job := mkJob "deliver" (mkJobData "d1" (Some "t1")) "dlv-d1" 8.

(** A receiver that is down, and the demo delivery to it. *)
Definition down_world := world_at 1000 demo_db 503.

Lemma handler_releases_slot_witness :
  slots (P := always 503) (exec (handle_job demo_cfg 0 demo_job) down_world).2 "t1" 0 61000.
Proof.
  assert (slots down_world "t1" 0 0) as Hs by (left; vm_compute; split; reflexivity).
  assert (w_now (exec (handle_job demo_cfg 0 demo_job) down_world).2 <? 61000 = true) as Hn
    by (vm_compute; reflexivity).
  pose proof (handler_releases_slot demo_cfg down_world 0 demo_job "t1" 0 0 eq_refl eq_refl eq_refl
    ltac:(discriminate) (Z.le_refl 0) Hs) as H.
  destruct (exec (handle_job demo_cfg 0 demo_job) down_world) as [r w']. cbn [snd] in *.
  apply H. by apply Z.ltb_lt in Hn.
Defined.

Lemma failed_attempt_is_rescheduled_witness :
  exists d delay, deliveries (w_db (exec (process demo_cfg 0 "d1") down_world).2) !! "d1" = Some d /\
    dl_attemptCount d = 1 /\ 0 <= delay <= 30000 /\
    (exec (process_and_retry demo_cfg 0 "d1") down_world).1 = inl (ERetrySignal (Fin delay)).
Proof.
  pose proof (failed_attempt_is_rescheduled demo_cfg down_world 0 "d1") as H.
  assert ((exec (process demo_cfg 0 "d1") down_world).1 = inr RFailed) as Hr by (vm_compute; reflexivity).
  assert (dl_attemptCount <$> deliveries (w_db (exec (process demo_cfg 0 "d1") down_world).2) !! "d1" = Some 1)
    as Hc by (vm_compute; reflexivity).
  destruct (exec (process demo_cfg 0 "d1") down_world) as [r w1].
  destruct (exec (process_and_retry demo_cfg 0 "d1") down_world) as [r' w'].
  cbn in Hr. subst r. destruct H as (d & delay & Hd & _ & -> & _ & Hb & _).
  - vm_compute. repeat split; congruence.
  - intros k. vm_compute. split; congruence.
  - cbn in Hc. rewrite Hd in Hc. injection Hc as Hc. rewrite Hc in Hb. exists d, delay.
    vm_compute (ceiling_spec _ _) in Hb. split_and!; try done; lia.
Defined.
