(* ===== verification/Retries.v ===== *)
(** * The retry loop ends

    The queue runs a job's handler again, after the delay of its [RetrySignal], as
    long as it raises one ([worker/backoff.ts], [worker/worker.service.ts]).  The
    loop ends within the attempts that are left, which is also what the relay
    allows the job ([jobs_of] in [Relay.v]). *)

From S2P Require Import Prelude JsNumber Errors Effects Backoff Platform Schema World.
From S2P Require Import Config TestPlatform Signature CircuitStore TenantLimiter SecretCipher EndpointCache HttpClient Processor Worker.
Open Scope Z_scope.

Section retries.
Context `{P : Platform}.
Variable cfg : Config.

(** The runs of one job: the final outcome, the world, and how many runs there
    were; [None] when [fuel] runs were not enough. *)
Fixpoint retry_loop (fuel : nat) (wid : nat) (D : string) (w : World) : option ((exn + ProcessResult) * World * nat) :=
  match fuel with
  | O => None
  | S fuel =>
      match exec (process_and_retry cfg wid D) w with
      | (inl (ERetrySignal (Fin delay)), w') =>
          '(r, w'', n) ← retry_loop fuel wid D (elapse delay w'); Some (r, w'', S n)
      | (r, w') => Some (r, w', 1%nat)
      end
  end.

Definition attempts_left (d : Delivery) : Z := Z.max 1 (maxAttempts cfg - dl_attemptCount d).

(** *** [process] itself never raises a retry signal *)

Definition no_signal (e : exn) : bool := match e with ERetrySignal _ => false | _ => true end.

Definition signal_free {A} (p : prog World A) : Prop :=
  forall w e w', exec p w = (inl e, w') -> no_signal e = true.

Lemma signal_free_bind {A B} (p : prog World A) (f : A -> prog World B) :
  signal_free p -> (forall a, signal_free (f a)) -> signal_free (bind p f).
Proof.
  intros Hp Hf w e w'. rewrite exec_bind. destruct (exec p w) as [[e0|a] w1] eqn:E; [|apply Hf].
  intros [= <- <-]. by eapply Hp.
Qed.

Lemma signal_free_never {A} (p : prog World A) : never_throws p -> signal_free p.
Proof. intros Hp w e w' E. destruct (never_throws_exec p w Hp) as (a & w1 & E1). congruence. Qed.

Lemma signal_free_ret {A} (a : A) : signal_free (Ret a).
Proof. intros w e w' [=]. Qed.

Lemma signal_free_query {A} svc (f : World -> A) : signal_free (query svc f).
Proof. intros w e w' [=]. Qed.

Lemma signal_free_update svc (f : World -> World) : signal_free (update svc f).
Proof. intros w e w' [=]. Qed.

Lemma signal_free_tx {A} (s : stm A) :
  (forall w e, (s w).1 = inl e -> no_signal e = true) -> signal_free (transaction s).
Proof.
  intros Hs w e w'. rewrite exec_transaction. specialize (Hs w). destruct (s w) as [[e0|x] w1]; [|done].
  intros [= <- <-]. by apply Hs.
Qed.

Lemma signal_free_delivery_update D f : signal_free (transaction (delivery_update D f)).
Proof. apply signal_free_tx. intros w e. unfold delivery_update. destruct (_ !! _); cbn; by intros [= <-]. Qed.

Lemma signal_free_endpoint_update D f : signal_free (transaction (endpoint_update D f)).
Proof. apply signal_free_tx. intros w e. unfold endpoint_update. destruct (_ !! _); cbn; by intros [= <-]. Qed.

Lemma signal_free_attempt_update D f : signal_free (transaction (attempt_update D f)).
Proof.
  apply signal_free_tx. intros w e. unfold attempt_update. destruct (_ !! _); cbn; [|by intros [= <-]].
  destruct (text_ok _); cbn; by intros [= <-].
Qed.

Lemma signal_free_claim D n g : signal_free (claim D n g).
Proof.
  intros w e w'. unfold claim. rewrite exec_catch, exec_bind, exec_transaction. unfold attempt_create.
  destruct (attempt_taken D n (w_db w)); [done|]. destruct (deliveries (w_db w) !! D); cbn; [done|]. by intros [= <- <-].
Qed.

Lemma decrypt_signal enc e : decrypt cfg enc = inl e -> no_signal e = true.
Proof. unfold decrypt. repeat case_match; by intros [= <-]. Qed.

Lemma signal_free_get wid ep : signal_free (get cfg wid ep).
Proof.
  intros w e w'. rewrite exec_get. destruct (cache_lookup wid ep w); [done|]. unfold fresh.
  destruct (endpoints (w_db w) !! ep) as [row|]; [|done]. destruct (decrypt cfg (ep_secretEnc row)) eqn:E; [|done].
  intros [= <- <-]. by eapply decrypt_signal.
Qed.

Lemma signal_free_skip r : signal_free (skip r).
Proof. apply signal_free_bind; [apply signal_free_update|intros _; apply signal_free_ret]. Qed.

Lemma signal_free_inc m labels : signal_free (inc m labels).
Proof. apply signal_free_update. Qed.

Lemma signal_free_observe m labels ms : signal_free (observe_seconds m labels ms).
Proof. apply signal_free_update. Qed.

#[local] Hint Resolve signal_free_ret signal_free_query signal_free_update signal_free_inc signal_free_observe signal_free_skip
  signal_free_delivery_update signal_free_endpoint_update signal_free_attempt_update signal_free_claim
  signal_free_get : signals.

Lemma signal_free_settle_success D ep n : signal_free (settle_success D ep n).
Proof.
  apply signal_free_bind; [apply signal_free_never, success_never_throws|intros _].
  repeat (apply signal_free_bind; [auto with signals|intros _]). auto with signals.
Qed.

Lemma signal_free_settle_failure wid D ep n c : signal_free (settle_failure cfg wid D ep n c).
Proof.
  apply signal_free_bind; [auto with signals|intros _].
  apply signal_free_bind; [apply signal_free_never, failure_never_throws|intros [disable k]].
  apply signal_free_bind; [auto with signals|intros _].
  apply signal_free_bind; [destruct disable; [apply signal_free_update|apply signal_free_ret]|intros _].
  repeat (apply signal_free_bind; [auto with signals|intros _]). auto with signals.
Qed.

Lemma signal_free_run_attempt wid D d ep headers body n i : signal_free (run_attempt cfg wid D d ep headers body n i).
Proof.
  apply signal_free_bind; [apply signal_free_never, allow_never_throws|intros []]; cbn [negb].
  - apply signal_free_bind; [apply signal_free_never, send_never_throws|intros o].
    apply signal_free_bind; [auto with signals|intros _]. apply signal_free_bind; [auto with signals|intros _].
    destruct o; [apply signal_free_settle_success|apply signal_free_settle_failure].
  - repeat (apply signal_free_bind; [auto with signals|intros _]). auto with signals.
Qed.

Lemma signal_free_process wid D : signal_free (process cfg wid D).
Proof.
  unfold process. apply signal_free_bind; [apply signal_free_query|intros [[d ev]|]]; [|auto with signals].
  destruct (_ || _); [auto with signals|]. apply signal_free_bind; [auto with signals|intros [ep|]]; [|auto with signals].
  destruct (negb _); [auto with signals|]. apply signal_free_bind; [apply signal_free_query|intros now].
  apply signal_free_bind; [auto with signals|intros [i|]]; [|auto with signals]. apply signal_free_run_attempt.
Qed.

(** One run: a retry signal means that an attempt was used and more than one was
    left; any other outcome is the one of [process]. *)
Lemma exec_process_and_retry w wid D d :
  policy_ok (retry_policy cfg) -> (forall k, 0 <= Math_random k < 2 ^ 53) ->
  deliveries (w_db w) !! D = Some d ->
  exists r w', exec (process_and_retry cfg wid D) w = (r, w') /\
    ((exists delay d', r = inl (ERetrySignal (Fin delay)) /\ deliveries (w_db w') !! D = Some d' /\
        dl_attemptCount d' = dl_attemptCount d + 1 /\ dl_attemptCount d + 1 < maxAttempts cfg) \/
     exec (process cfg wid D) w = (r, w') /\ r <> inr RFailed /\ forall e, r = inl e -> no_signal e = true).
Proof.
  intros Hp Hk Hd. unfold process_and_retry. rewrite exec_bind.
  destruct (exec_process cfg w wid D) as (r & w1 & E & H). rewrite E. destruct r as [e|res].
  { exists (inl e), w1. split; [done|]. right. split_and!; [done|done|]. intros e' [= <-]. by eapply signal_free_process. }
  case_bool_decide as Hr; [|exists (inr res), w1; split; [done|]; right; split_and!; congruence].
  subst res. unfold process_spec in H. destruct (decide_process cfg w wid D) as [res|e|d0 ev ep] eqn:Ed.
  - destruct H as [[= <-] _]. apply decide_skip in Ed. by destruct Ed as [|[|[|]]].
  - by destruct H.
  - destruct H as (_ & _ & a & _ & _ & _ & d1 & Hdl & Hv & _).
    apply decide_attempt in Ed as (Hd0 & Hdone & _). apply verdict_row_step in Hv; [|done].
    assert (d0 = d) as -> by congruence.
    assert (deliveries (w_db w1) !! D = Some d1) as Hd1 by (by rewrite Hdl, lookup_insert_eq).
    destruct (exec_schedule_retry cfg w1 D d1 Hp Hk Hd1) as (delay & w' & -> & _ & _ & _ & _ & Hdb).
    eexists _, w'. split; [reflexivity|]. left. eexists delay, _. split; [done|]. rewrite Hdb. cbn.
    split; [apply lookup_insert_eq|]. cbn. inversion Hv; subst; cbn. lia.
Qed.

(** The row after a run. *)
Lemma delivery_row_after w wid D d r w' :
  deliveries (w_db w) !! D = Some d -> exec (process cfg wid D) w = (r, w') ->
  exists d', deliveries (w_db w') !! D = Some d' /\ (r = inr RSucceeded -> dl_status d' = SUCCEEDED) /\
    (r = inr RDead -> dl_status d' = DEAD /\ maxAttempts cfg <= dl_attemptCount d').
Proof.
  intros Hd E. destruct (exec_process cfg w wid D) as (r0 & w0 & E0 & H). rewrite E in E0. injection E0 as <- <-.
  unfold process_spec in H. destruct (decide_process cfg w wid D) as [res|e|d0 ev ep] eqn:Ed.
  - destruct H as [-> [Hdb _]]. exists d. rewrite Hdb. split; [done|].
    apply decide_skip in Ed. by destruct Ed as [->|[->|[->| ->]]].
  - destruct H as [-> [Hdb _]]. exists d. by rewrite Hdb.
  - destruct H as (_ & _ & a & _ & _ & _ & H). apply decide_attempt in Ed as (Hd0 & Hdone & _). destruct r as [e|res].
    + exists d. by rewrite H.
    + destruct H as (d' & Hdl & Hv & _). apply verdict_row_step in Hv; [|done].
      exists d'. rewrite Hdl, lookup_insert_eq. split; [done|]. by destruct Hv.
Qed.

(** C14.  The retries of a delivery end: the handler, run again after each retry
    signal it raises, stops after at most as many runs as attempts are left, at
    least one ([HR_MAX_ATTEMPTS] less the attempts made), whatever the receiver
    answers and however the endpoint's breaker and status change; so the number of
    attempts the relay gives the queue never cuts the retries short.  The last run
    is one of [process] that reports no FAILED: the delivery is then SUCCEEDED or
    DEAD, or was skipped, or the run raised an exception other than a signal. *)
Theorem retries_end w wid D d :
  policy_ok (retry_policy cfg) -> (forall k, 0 <= Math_random k < 2 ^ 53) ->
  deliveries (w_db w) !! D = Some d ->
  exists r w' n, retry_loop (Z.to_nat (attempts_left d)) wid D w = Some (r, w', n) /\
    Z.of_nat n <= attempts_left d /\ r <> inr RFailed /\ (forall e, r = inl e -> no_signal e = true) /\
    exists w1 d1 d', exec (process cfg wid D) w1 = (r, w') /\
      deliveries (w_db w1) !! D = Some d1 /\ dl_attemptCount d1 = dl_attemptCount d + Z.of_nat n - 1 /\
      deliveries (w_db w') !! D = Some d' /\
      (r = inr RSucceeded -> dl_status d' = SUCCEEDED) /\
      (r = inr RDead -> dl_status d' = DEAD /\ maxAttempts cfg <= dl_attemptCount d').
Proof.
  intros Hp Hk. remember (Z.to_nat (attempts_left d)) as fuel eqn:Hf.
  revert w d Hf. induction fuel as [|fuel IH]; intros w d Hf Hd; [unfold attempts_left in Hf; lia|].
  destruct (exec_process_and_retry w wid D d Hp Hk Hd)
    as (r & w' & E & [(delay & d' & -> & Hd' & Hc & Hlt)|(Ep & Hr & Hsig)]).
  - destruct (IH (elapse delay w') d') as (r & w2 & n & El & Hn & Hr & Hsig & w1 & d1 & d2 & H1 & H2 & H3 & H4);
      [unfold attempts_left in *; lia|done|].
    exists r, w2, (S n). cbn [retry_loop]. rewrite E, El. split; [done|]. split; [unfold attempts_left in *; lia|].
    split; [done|]. split; [done|]. exists w1, d1, d2. split; [done|]. split; [done|]. split; [lia|done].
  - exists r, w', 1%nat. cbn [retry_loop]. rewrite E.
    split; [destruct r as [[| | | [] | | | |]|]; try done; by specialize (Hsig _ eq_refl)|].
    split; [unfold attempts_left; lia|]. split; [done|]. split; [done|].
    pose proof (delivery_row_after w wid D d r w' Hd Ep) as (d' & Hd' & H1 & H2).
    exists w, d, d'. split_and!; try done. lia.
Qed.

End retries.

(** The demo delivery to a receiver that is down: eight runs, then DEAD (the breaker
    is too patient to step in). *)
Lemma retries_end_witness :
  exists r w' n, retry_loop (P := always 503) demo_cfg 8 0 "d1" down_world = Some (r, w', n) /\ (n <= 8)%nat /\ r <> inr RFailed.
Proof.
  destruct (retries_end (P := always 503) demo_cfg down_world 0 "d1" (mkDelivery "v1" "e1" PENDING 0 None 0 0))
    as (r & w' & n & E & Hn & Hr & _).
  - vm_compute. repeat split; congruence.
  - intros k. vm_compute. split; congruence.
  - reflexivity.
  - exists r, w', n. split; [exact E|]. split; [|exact Hr].
    change (attempts_left demo_cfg (mkDelivery "v1" "e1" PENDING 0 None 0 0)) with 8 in Hn. lia.
Defined.
