(* ===== verification/Relay.v ===== *)
(** * The outbox relay: [relay/relay.service.ts]

    One polling pass: read the oldest pending outbox rows, enqueue the jobs of
    each, then mark the rows whose jobs were accepted. *)

From S2P Require Import Prelude Errors Effects Json Platform Schema Registry World Config TestPlatform Queue.
Open Scope Z_scope.
Open Scope hook_scope.

(** A row with the parts of its event the pass reads. *)
Record Message := mkMessage {
  ms_id : Z;
  ms_deliveryId : option string;
  ms_tenantId : string;
  ms_deliveries : list string;
}.

Definition event_deliveries (eventId : string) (d : Db) : list string :=
  fst <$> filter (fun p => dl_eventId p.2 = eventId) (map_to_list (deliveries d)).

Definition id_le (p q : Z * OutboxMessage) : Prop := p.1 <= q.1.

#[export] Instance id_le_dec : RelDecision id_le.
Proof. intros p q. unfold id_le. apply _. Defined.
#[export] Instance id_le_total : Total id_le.
Proof. intros p q. unfold id_le. lia. Qed.
#[export] Instance id_le_trans : Transitive id_le.
Proof. intros p q r. unfold id_le. lia. Qed.

Definition pending_map (d : Db) : gmap Z OutboxMessage :=
  filter (fun p => ob_status p.2 = OUTBOX_PENDING) (outbox d).

(** [outboxMessage.findMany({ where: PENDING, orderBy: id, take })] *)
Definition pending_rows (d : Db) : list (Z * OutboxMessage) :=
  merge_sort id_le (map_to_list (pending_map d)).

Definition message_of (d : Db) (p : Z * OutboxMessage) : option Message :=
  ev ← events d !! ob_eventId p.2;
  Some (mkMessage p.1 (ob_deliveryId p.2) (ev_tenantId ev) (event_deliveries (ob_eventId p.2) d)).

Definition find_batch (batchSize : nat) (d : Db) : list Message :=
  omap (message_of d) (take batchSize (pending_rows d)).

(** [targetsOf] *)
Definition targetsOf (m : Message) : list string :=
  match ms_deliveryId m with
  | Some (String _ _ as d) => [d]
  | _ => ms_deliveries m
  end.

Section relay.
Context `{P : Platform}.
Variable cfg : Config.

Definition jobs_of (m : Message) : list Job :=
  map (fun deliveryId =>
    mkJob "deliver" (mkJobData deliveryId (Some (ms_tenantId m)))
      (match ms_deliveryId m with
       | Some (String _ _) => deliveryJobId deliveryId (Some ("obx-" +:+ decZ (ms_id m)))
       | _ => deliveryJobId deliveryId None
       end)
      (HR_MAX_ATTEMPTS cfg)) (targetsOf m).

(** The loop: the ids of the rows enqueued before the first failure. *)
Fixpoint enqueue_batch (batch : list Message) : prog World (list Z) :=
  match batch with
  | [] => Ret []
  | m :: rest =>
      let* accepted := catch (queue_addBulk (jobs_of m) ;; Ret true) (fun _ => Ret false) in
      if accepted : bool then
        let* publishedIds := enqueue_batch rest in
        Ret (ms_id m :: publishedIds)
      else Ret []
  end.

Definition publish_row (now : Z) (m : OutboxMessage) : OutboxMessage :=
  mkOutbox (ob_eventId m) (ob_deliveryId m) OUTBOX_PUBLISHED (Some now) (ob_createdAt m).

(** [outboxMessage.updateMany({ where: { id in ids, PENDING }, data: PUBLISHED })] *)
Definition mark_published (ids : list Z) (now : Z) (d : Db) : Db :=
  set_outbox (map_imap (fun id m => Some
    (if bool_decide (id ∈ ids /\ ob_status m = OUTBOX_PENDING) then publish_row now m else m)))
    (outbox_seq d) d.

Definition count_pending (d : Db) : nat := length (pending_rows d).

(** The bookkeeping after the marking. *)
Definition after_marking (count : nat) : prog World nat :=
  inc_by outboxPublishedTotal (Z.of_nat count) ;;
  let* pending := db_read count_pending in
  set_gauge outboxPending [] (Z.of_nat pending) ;;
  Ret count.

Definition tick (batchSize : nat) : prog World nat :=
  let* batch := db_read (find_batch batchSize) in
  match batch with
  | [] => Ret 0%nat
  | _ =>
      let* publishedIds := enqueue_batch batch in
      match publishedIds with
      | [] => Ret 0%nat
      | _ =>
          let* now := Date_now in
          transaction (swrite (mark_published publishedIds now)) ;;
          after_marking (length publishedIds)
      end
  end.

(** ** What is enqueued *)

(** The jobs of the enqueue steps of a trace. *)
Definition enqueued (w : World) : list Job :=
  flat_map (fun o => match o with ObsEnqueue js => js | _ => [] end) (w_trace w).

(** Only enqueue steps extend the trace, and only the queue changes. *)
Definition enqueue_step (w w' : World) : Prop :=
  w_db w' = w_db w /\ exists l, w_trace w' = w_trace w ++ l.

#[local] Instance enqueue_step_preorder : PreOrder enqueue_step.
Proof.
  split; [intros w; split; [done|exists []; by rewrite app_nil_r]|].
  intros w1 w2 w3 [E1 [l1 T1]] [E2 [l2 T2]]. split; [congruence|].
  exists (l1 ++ l2). by rewrite T2, T1, app_assoc.
Qed.

Lemma enqueued_app w w' l : w_trace w' = w_trace w ++ l ->
  enqueued w' = enqueued w ++ flat_map (fun o => match o with ObsEnqueue js => js | _ => [] end) l.
Proof. intros H. unfold enqueued. by rewrite H, flat_map_app. Qed.

Lemma enqueued_mono w w' j : enqueue_step w w' -> j ∈ enqueued w -> j ∈ enqueued w'.
Proof. intros [_ [l Hl]] Hj. rewrite (enqueued_app w w' l Hl). set_solver. Qed.

Lemma enqueue_batch_acts batch : acts enqueue_step (enqueue_batch batch).
Proof.
  induction batch as [|m batch IH]; [done|]. apply acts_bind.
  - apply acts_catch; [|done]. apply acts_bind; [|done]. apply acts_update.
    intros w. split; [done|]. by eexists.
  - intros []; [|done]. by apply acts_bind.
Qed.

(** The loop accepts a prefix of the batch, and the jobs of every accepted
    message are enqueued, whatever fails. *)
Lemma enqueue_batch_enqueued batch sched n w r w' n' :
  run sched n (enqueue_batch batch) w = (r, w', n') ->
  exists k, r = inr (ms_id <$> take k batch) /\
    forall m j, m ∈ take k batch -> j ∈ jobs_of m -> j ∈ enqueued w'.
Proof.
  revert n w r w' n'. induction batch as [|m batch IH]; intros n w r w' n'; cbn [enqueue_batch].
  { intros [= <- <- <-]. exists 0%nat. split; [done|]. set_solver. }
  rewrite run_bind, run_catch, run_bind.
  destruct (run sched n (queue_addBulk (jobs_of m)) w) as [[[e|[]] w1] n1] eqn:E.
  - cbn. intros [= <- <- <-]. exists 0%nat. split; [done|]. set_solver.
  - cbn [run]. rewrite run_bind.
    assert (forall j, j ∈ jobs_of m -> j ∈ enqueued w1) as Hm.
    { unfold queue_addBulk, update, call in E. cbn in E. unfold Effects.attempt in E.
      assert (w1 = observe (ObsEnqueue (jobs_of m)) (with_queue (q_add_bulk (jobs_of m)) w)) as ->
        by (destruct (sched n); by simplify_eq/=).
      intros j Hj. unfold enqueued. cbn. rewrite flat_map_app. cbn. rewrite app_nil_r. set_solver. }
    destruct (run sched n1 (enqueue_batch batch) w1) as [[r2 w2] n2] eqn:E2.
    pose proof (acts_run _ _ _ _ _ _ _ _ (enqueue_batch_acts batch) E2) as Hstep.
    destruct (IH _ _ _ _ _ E2) as (k & -> & Hk). cbn. intros [= <- <- <-].
    exists (S k). split; [done|]. intros m0 j Hm0 Hj. cbn in Hm0.
    apply elem_of_cons in Hm0 as [->|Hm0]; [|by eapply Hk].
    eapply enqueued_mono; [exact Hstep|auto].
Qed.

(** ** The rows *)

Lemma pending_rows_spec d id m :
  (id, m) ∈ pending_rows d <-> outbox d !! id = Some m /\ ob_status m = OUTBOX_PENDING.
Proof.
  unfold pending_rows, pending_map.
  by rewrite (merge_sort_Permutation id_le), elem_of_map_to_list, map_lookup_filter_Some.
Qed.

Lemma find_batch_spec k d m :
  m ∈ find_batch k d ->
  exists row ev, outbox d !! ms_id m = Some row /\ ob_status row = OUTBOX_PENDING /\
    events d !! ob_eventId row = Some ev /\ message_of d (ms_id m, row) = Some m.
Proof.
  unfold find_batch. intros ([id row] & Hin & Hm)%list_elem_of_omap.
  apply elem_of_take in Hin as (i & Hi & _). apply list_elem_of_lookup_2 in Hi as Hin.
  apply pending_rows_spec in Hin as [Hrow Hst].
  pose proof Hm as Hm'. unfold message_of in Hm. apply bind_Some in Hm as (ev & Hev & Hm).
  cbn in Hm, Hev. simplify_eq. cbn in *. eauto 6.
Qed.

Lemma mark_published_lookup ids now d id :
  outbox (mark_published ids now d) !! id =
    (m ← outbox d !! id;
     Some (if bool_decide (id ∈ ids /\ ob_status m = OUTBOX_PENDING) then publish_row now m else m)).
Proof. unfold mark_published. cbn. by rewrite map_lookup_imap. Qed.

(** Where the deliveries of a row are to go, by the database that holds it. *)
Definition row_targets (d : Db) (row : OutboxMessage) : list string :=
  match ob_deliveryId row with
  | Some (String _ _ as x) => [x]
  | _ => event_deliveries (ob_eventId row) d
  end.

Definition has_job (w : World) (deliveryId : string) : Prop :=
  exists j, j ∈ enqueued w /\ jd_deliveryId (job_data j) = deliveryId.

Lemma jobs_of_targets d id row m x :
  message_of d (id, row) = Some m -> x ∈ row_targets d row ->
  exists j, j ∈ jobs_of m /\ jd_deliveryId (job_data j) = x.
Proof.
  intros (ev & Hev & [= <-])%bind_Some Hx. unfold jobs_of.
  assert (x ∈ targetsOf (mkMessage id (ob_deliveryId row) (ev_tenantId ev) (event_deliveries (ob_eventId row) d))) as Ht
    by (unfold targetsOf, row_targets in *; done).
  eexists. split; [by apply list_elem_of_fmap_2|]. done.
Qed.

(** A row is published only with its targets enqueued. *)
Definition published_safely (d : Db) (w' : World) : Prop :=
  forall id row', outbox (w_db w') !! id = Some row' -> ob_status row' = OUTBOX_PUBLISHED ->
    exists row, outbox d !! id = Some row /\ ob_eventId row' = ob_eventId row /\
      ob_deliveryId row' = ob_deliveryId row /\
      (ob_status row = OUTBOX_PUBLISHED \/ forall x, x ∈ row_targets d row -> has_job w' x).

Lemma published_safely_same d w' : outbox (w_db w') = outbox d -> published_safely d w'.
Proof. intros H id row' Hrow Hst. rewrite H in Hrow. exists row'. auto. Qed.

Lemma has_job_trace w w' x : w_trace w' = w_trace w -> has_job w x -> has_job w' x.
Proof. intros Ht (j & Hj & ?). exists j. split; [|done]. unfold enqueued. by rewrite Ht. Qed.

Lemma mark_published_safely k now w w1 n :
  w_db w1 = w_db w ->
  (forall m j, m ∈ take n (find_batch k (w_db w)) -> j ∈ jobs_of m -> j ∈ enqueued w1) ->
  published_safely (w_db w) (with_db (mark_published (ms_id <$> take n (find_batch k (w_db w))) now) w1).
Proof.
  intros Hdb Henq id row' Hrow Hst. cbn [w_db with_db] in Hrow. rewrite Hdb, mark_published_lookup in Hrow.
  apply bind_Some in Hrow as (row & Hrow & [= <-]). exists row.
  case_bool_decide as Hin; [|auto]. split_and!; try done. right. intros x Hx.
  destruct Hin as [Hin _]. apply list_elem_of_fmap in Hin as (m & -> & Hm).
  assert (m ∈ find_batch k (w_db w)) as Hb
    by (apply elem_of_take in Hm as (i & Hi & _); by apply list_elem_of_lookup_2 in Hi).
  apply find_batch_spec in Hb as (row0 & ev & Hrow0 & _ & _ & Hmsg). simplify_eq.
  destruct (jobs_of_targets _ _ _ _ _ Hmsg Hx) as (j & Hj & Hjx). exists j. split; [|done].
  exact (Henq m j Hm Hj).
Qed.

(** ** Draining *)

(** Every row's event exists (a foreign key of the schema). *)
Definition outbox_fk (d : Db) : Prop :=
  forall id row, outbox d !! id = Some row -> is_Some (events d !! ob_eventId row).

Lemma find_batch_ids k d : outbox_fk d -> ms_id <$> find_batch k d = take k (fst <$> pending_rows d).
Proof.
  intros Hfk. unfold find_batch. rewrite <- fmap_take.
  assert (forall p, p ∈ take k (pending_rows d) -> is_Some (events d !! ob_eventId p.2)) as Hall.
  { intros [id row] (i & Hi & _)%elem_of_take. apply list_elem_of_lookup_2, pending_rows_spec in Hi as [Hi _].
    by eapply Hfk. }
  induction (take k (pending_rows d)) as [|[id row] l IH]; [done|].
  destruct (Hall (id, row) ltac:(by left)) as [ev Hev]. cbn in Hev. cbn [omap list_omap].
  unfold message_of at 1. cbn [fst snd]. rewrite Hev. cbn. f_equal. apply IH. intros p Hp. apply Hall. by right.
Qed.

Lemma pending_map_mark ids now d :
  pending_map (mark_published ids now d) = filter (fun p => p.1 ∉ ids) (pending_map d).
Proof.
  apply map_eq. intros id. unfold pending_map. apply option_eq. intros m.
  rewrite !map_lookup_filter_Some, mark_published_lookup. cbn. destruct (outbox d !! id) as [row|]; cbn; [|naive_solver].
  case_bool_decide as H.
  - destruct H as [H1 H2]. split; [by intros [[= <-] ?]|]. intros [[[= <-] ?] ?]. done.
  - split; [intros [[= <-] Hp]|]; naive_solver.
Qed.

Lemma pending_map_length d : length (pending_rows d) = size (pending_map d).
Proof.
  unfold pending_rows. rewrite (merge_sort_Permutation id_le). apply length_map_to_list.
Qed.

(** Marking a duplicate-free list of pending ids takes exactly that many away. *)
Lemma size_filter_not_in (ids : list Z) (m : gmap Z OutboxMessage) :
  NoDup ids -> (forall id, id ∈ ids -> is_Some (m !! id)) ->
  (size (filter (fun p => p.1 ∉ ids) m) + length ids = size m)%nat.
Proof.
  revert m. induction ids as [|id ids IH]; intros m Hnd Hin.
  - rewrite map_filter_id by set_solver. simpl. lia.
  - apply NoDup_cons in Hnd as [Hni Hnd].
    assert (filter (fun p => p.1 ∉ id :: ids) m = filter (fun p => p.1 ∉ ids) (delete id m)) as ->.
    { apply map_eq. intros j. apply option_eq. intros x.
      rewrite !map_lookup_filter_Some, lookup_delete_Some. set_solver. }
    destruct (Hin id ltac:(by left)) as [x Hx].
    pose proof (map_size_delete_Some id m (mk_is_Some _ _ Hx)) as Hs.
    assert (size m <> 0%nat) by (intros E; apply map_size_empty_inv in E; by subst).
    assert (size (filter (fun p => p.1 ∉ ids) (delete id m)) + length ids = size (delete id m))%nat as HI.
    { apply IH; [done|]. intros j Hj. rewrite lookup_delete_ne by set_solver. apply Hin. by right. }
    simpl. lia.
Qed.

(** ** Passes without failures *)

Definition enqueue_all (b : list Message) (q : qstate) : qstate :=
  fold_left (fun q m => q_add_bulk (jobs_of m) q) b q.

Lemma enqueue_all_keeps b q id : is_Some (q_lookup q id) -> q_lookup (enqueue_all b q) id = q_lookup q id.
Proof.
  unfold enqueue_all. revert q. induction b as [|m b IH]; intros q Hq; cbn; [done|].
  rewrite IH by (by apply q_add_bulk_present). rewrite q_lookup_add_bulk. by destruct Hq as [j ->].
Qed.

Lemma enqueue_all_added b q m j :
  m ∈ b -> j ∈ jobs_of m -> is_Some (q_lookup (enqueue_all b q) (job_id j)).
Proof.
  revert q. induction b as [|m' b IH]; intros q Hm Hj; [by apply elem_of_nil in Hm|].
  cbn. apply elem_of_cons in Hm as [->|Hm]; [|by apply IH].
  assert (is_Some (q_lookup (q_add_bulk (jobs_of m') q) (job_id j))) as Hp by (by apply q_add_bulk_added).
  fold (enqueue_all b (q_add_bulk (jobs_of m') q)). by rewrite enqueue_all_keeps.
Qed.

(** A batch whose jobs are all there already adds none. *)
Lemma enqueue_all_present b q :
  (forall m j, m ∈ b -> j ∈ jobs_of m -> is_Some (q_lookup q (job_id j))) ->
  queue_eq (enqueue_all b q) q.
Proof.
  revert q. induction b as [|m b IH]; intros q Hall; cbn; [done|].
  fold (enqueue_all b (q_add_bulk (jobs_of m) q)).
  assert (queue_eq (q_add_bulk (jobs_of m) q) q) as Hq.
  { intros id. rewrite q_lookup_add_bulk. destruct (q_lookup q id) eqn:E; [done|].
    destruct (first_with_id id (jobs_of m)) as [j|] eqn:Ef; [|done]. unfold first_with_id in Ef.
    apply fmap_Some in Ef as ([i j'] & Hfind & ->). apply list_find_Some in Hfind as (Hj & Hid & _).
    apply list_elem_of_lookup_2 in Hj. destruct (Hall m j' ltac:(by left) Hj) as [x Hx]. cbn in Hid. congruence. }
  rewrite IH; [done|]. intros m' j Hm Hj. rewrite Hq. apply (Hall m'); [by right|done].
Qed.

Lemma exec_enqueue_batch b w :
  exists w', exec (enqueue_batch b) w = (inr (ms_id <$> b), w') /\
    w_db w' = w_db w /\ w_now w' = w_now w /\ w_queue w' = enqueue_all b (w_queue w).
Proof.
  revert w. induction b as [|m b IH]; intros w; cbn [enqueue_batch]; [by exists w|].
  rewrite exec_bind, exec_catch, exec_bind. unfold queue_addBulk. rewrite exec_update. cbn [exec].
  rewrite exec_bind. set (w1 := observe _ _).
  destruct (IH w1) as (w' & -> & Hdb & Hnow & Hq). exists w'. split; [done|]. by split_and!.
Qed.

Lemma exec_tick k w :
  let b := find_batch k (w_db w) in
  exists w', exec (tick k) w = (inr (length b), w') /\
    w_queue w' = enqueue_all b (w_queue w) /\ w_now w' = w_now w /\
    w_db w' = (match b with [] => w_db w | _ => mark_published (ms_id <$> b) (w_now w) (w_db w) end).
Proof.
  intros b. unfold tick. rewrite exec_bind, exec_db_read. fold b.
  destruct b as [|m b']; [by exists w|].
  rewrite exec_bind. destruct (exec_enqueue_batch (m :: b') w) as (w1 & -> & Hdb & Hnow & Hq).
  cbn [fmap list_fmap]. rewrite exec_bind, exec_Date_now, exec_bind, exec_transaction.
  cbn [swrite]. unfold after_marking.
  rewrite exec_bind, exec_inc_by, exec_bind, exec_db_read, exec_bind. cbn [exec].
  eexists. split; [cbn; by rewrite length_fmap|]. cbn. rewrite Hdb, Hq, Hnow. done.
Qed.

Lemma tick_pending k w :
  outbox_fk (w_db w) ->
  count_pending (w_db (exec (tick k) w).2) = (count_pending (w_db w) - k)%nat.
Proof.
  intros Hfk. destruct (exec_tick k w) as (w' & -> & _ & _ & Hdb). cbn [snd].
  pose proof (find_batch_ids k (w_db w) Hfk) as Hids. unfold count_pending in *. rewrite !pending_map_length.
  assert (pending_map (w_db w') = filter (fun p => p.1 ∉ ms_id <$> find_batch k (w_db w)) (pending_map (w_db w))) as ->.
  { rewrite Hdb. destruct (find_batch k (w_db w)) as [|m b]; [|apply pending_map_mark].
    cbn. symmetry. apply map_filter_id. set_solver. }
  rewrite Hids. clear Hdb Hids. set (ids := take k (pending_rows (w_db w)).*1).
  assert ((pending_rows (w_db w)).*1 ≡ₚ (map_to_list (pending_map (w_db w))).*1) as Hperm
    by (apply fmap_Permutation, merge_sort_Permutation).
  assert (size (filter (fun p => p.1 ∉ ids) (pending_map (w_db w))) + length ids = size (pending_map (w_db w)))%nat as Hs.
  { apply size_filter_not_in.
    - apply (sublist_NoDup _ (pending_rows (w_db w)).*1); [|apply sublist_take].
      rewrite Hperm. apply NoDup_fst_map_to_list.
    - intros id (j & Hj & _)%elem_of_take. apply list_elem_of_lookup_2 in Hj. rewrite Hperm in Hj.
      apply list_elem_of_fmap in Hj as ([id' m] & -> & Hm). apply elem_of_map_to_list in Hm. by exists m. }
  subst ids. rewrite length_take, length_fmap, pending_map_length in Hs. lia.
Qed.

(** Successive passes. *)
Fixpoint polls (m k : nat) (w : World) : World :=
  match m with O => w | S m => polls m k (exec (tick k) w).2 end.

(** A relation kept by every step of a pass after the rows are marked. *)
Lemma published_safely_step d w1 w2 :
  enqueue_step w1 w2 -> published_safely d w1 -> published_safely d w2.
Proof.
  intros Hstep Hp id row' Hrow Hst. pose proof Hstep as [Hdb _]. rewrite Hdb in Hrow.
  destruct (Hp id row' Hrow Hst) as (row & ? & ? & ? & [?|Hj]); exists row; auto.
  split_and!; try done. right. intros x Hx. destruct (Hj x Hx) as (j & ? & ?).
  exists j. split; [by eapply enqueued_mono|done].
Qed.

Lemma after_marking_acts count : acts enqueue_step (after_marking count).
Proof.
  assert (forall op m labels v, acts enqueue_step (metric_call op m labels v)) as Hinc
    by (intros op m labels v; apply acts_update; intros w; split; [done|by eexists]).
  apply acts_bind; [apply Hinc|]. intros _. apply acts_bind; [apply acts_db_read, _|].
  intros n. apply acts_bind; [apply Hinc|done].
Qed.

(** Enough passes empty the outbox. *)
Lemma tick_keeps_fk k w : outbox_fk (w_db w) -> outbox_fk (w_db (exec (tick k) w).2).
Proof.
  intros Hfk. destruct (exec_tick k w) as (w' & -> & _ & _ & Hdb). cbn [snd]. intros id row Hrow. revert Hrow. rewrite Hdb.
  destruct (find_batch k (w_db w)); [apply Hfk|]. rewrite mark_published_lookup.
  intros (row0 & Hr0 & [= <-])%bind_Some. cbn. case_bool_decide; cbn; by eapply Hfk.
Qed.

Lemma polls_drain m k w :
  outbox_fk (w_db w) -> (0 < k)%nat -> (count_pending (w_db w) <= m * k)%nat ->
  count_pending (w_db (polls m k w)) = 0%nat.
Proof.
  intros Hfk Hk. revert w Hfk. induction m as [|m IH]; intros w Hfk Hm; [cbn [polls]; lia|].
  change (polls (S m) k w) with (polls m k (exec (tick k) w).2). apply IH; [by apply tick_keeps_fk|].
  rewrite tick_pending by done. lia.
Qed.

(** ** Properties *)

(** At least once: run one pass against any failures (each database, queue
    and Redis call may fail before or after its effect, so the pass may die at any
    point).  In whatever state it leaves, every row it marked PUBLISHED has a job
    enqueued for each of its targets: the named delivery of a redelivery or ping,
    or every delivery of the event.  A row is never lost between the two steps. *)
Theorem tick_at_least_once sched n k w :
  let '(_, w', _) := run sched n (tick k) w in
  forall id row', outbox (w_db w') !! id = Some row' -> ob_status row' = OUTBOX_PUBLISHED ->
    exists row, outbox (w_db w) !! id = Some row /\
      (ob_status row = OUTBOX_PUBLISHED \/
       forall x, x ∈ row_targets (w_db w) row -> has_job w' x).
Proof.
  destruct (run sched n (tick k) w) as [[r w'] n'] eqn:E.
  enough (published_safely (w_db w) w') as Hp by (intros id row' Hr Hs; destruct (Hp id row' Hr Hs) as (row & ? & _ & _ & ?); eauto).
  assert (published_safely (w_db w) w) as H0 by (by apply published_safely_same).
  unfold tick in E. rewrite run_bind in E.
  destruct (run sched n (db_read (find_batch k)) w) as [[r0 w0] n0] eqn:E0.
  assert (w0 = w /\ forall b, r0 = inr b -> b = find_batch k (w_db w)) as [-> Hb].
  { unfold db_read, query, call in E0. cbn in E0. destruct (sched n); simplify_eq/=; split; try done; naive_solver. }
  destruct r0 as [e|b]; [by simplify_eq|]. rewrite (Hb b eq_refl) in E. clear Hb E0.
  destruct (find_batch k (w_db w)) as [|m0 b0] eqn:Eb; [by simplify_eq/=|]. rewrite <- Eb in E.
  rewrite run_bind in E. destruct (run sched n0 (enqueue_batch _) w) as [[r1 w1] n1] eqn:E1.
  pose proof (acts_run _ _ _ _ _ _ _ _ (enqueue_batch_acts _) E1) as Hst1.
  apply enqueue_batch_enqueued in E1 as (j & -> & Henq).
  pose proof (published_safely_step _ _ _ Hst1 H0) as H1.
  destruct (ms_id <$> take j (find_batch k (w_db w))) as [|i0 is0] eqn:Eids; [by simplify_eq/=|].
  rewrite <- Eids in E. rewrite run_bind, run_Date_now in E. cbv beta iota in E.
  rewrite run_bind in E. destruct (run sched (S n1) (transaction _) w1) as [[r2 w2] n2] eqn:E2.
  assert (published_safely (w_db w) w2) as H2.
  { pose proof (mark_published_safely k (w_now w1) w w1 j (proj1 Hst1) Henq) as Hm.
    unfold transaction, call in E2. cbn in E2. unfold Effects.attempt in E2.
    destruct (sched (S n1)); simplify_eq/=; try done. }
  destruct r2 as [e|[]]; [by simplify_eq|].
  eapply published_safely_step; [|exact H2].
  exact (acts_run _ _ _ _ _ _ _ _ (after_marking_acts _) E).
Qed.

(** The outbox drains: a pass without failures publishes the [k] oldest
    pending rows (all of them if there are fewer), so the backlog shrinks by
    [min k], and a relay that keeps polling an outbox nobody writes to empties it. *)
Theorem relay_drains k w :
  outbox_fk (w_db w) -> (0 < k)%nat ->
  (exec (tick k) w).1 = inr (Nat.min k (count_pending (w_db w))) /\
  (forall id row, outbox (w_db w) !! id = Some row ->
     option_map ob_status (outbox (w_db (exec (tick k) w).2) !! id) =
       Some (if bool_decide (id ∈ take k (fst <$> pending_rows (w_db w))) then OUTBOX_PUBLISHED else ob_status row)) /\
  forall m, (count_pending (w_db w) <= m * k)%nat ->
    count_pending (w_db (polls m k w)) = 0%nat.
Proof.
  intros Hfk Hk. split; [|split].
  - destruct (exec_tick k w) as (w' & -> & _). cbn. rewrite <- (length_fmap ms_id), (find_batch_ids k _ Hfk).
    by rewrite length_take, length_fmap.
  - intros id row Hrow. destruct (exec_tick k w) as (w' & -> & _ & _ & Hdb). cbn [snd]. rewrite Hdb.
    rewrite <- (find_batch_ids k _ Hfk). destruct (find_batch k (w_db w)) as [|m b] eqn:Eb.
    { rewrite Hrow. cbn. by rewrite bool_decide_eq_false_2 by set_solver. }
    rewrite mark_published_lookup, Hrow, <- Eb. cbn. case_bool_decide as H1; case_bool_decide as H2; try done; [naive_solver|].
    exfalso. apply H1. split; [done|]. apply list_elem_of_fmap in H2 as (m' & -> & Hm').
    apply find_batch_spec in Hm' as (row' & ev & Hr' & ? & _). by simplify_eq.
  - intros m. by apply polls_drain.
Qed.

(** Enqueuing again is absorbed: when a pass that died between the two
    steps is repeated, the queue holds exactly the jobs it held after the first
    time, because the jobs have the same ids. *)
Theorem requeue_absorbed b w :
  let w1 := (exec (enqueue_batch b) w).2 in
  let w2 := (exec (enqueue_batch b) w1).2 in
  forall id, q_lookup (w_queue w2) id = q_lookup (w_queue w1) id.
Proof.
  intros w1 w2. subst w1 w2. destruct (exec_enqueue_batch b w) as (w1 & -> & _ & _ & H1). cbn [snd].
  destruct (exec_enqueue_batch b w1) as (w2 & -> & _ & _ & H2). cbn [snd]. rewrite H2.
  apply enqueue_all_present. rewrite H1. intros m j Hm Hj. by apply enqueue_all_added with m.
Qed.

End relay.

(** ** A concrete outbox *)

Definition relay_db : Db :=
  set_outbox (fun _ => {[ 1 := mkOutbox "v1" None OUTBOX_PENDING None 0; 2 := mkOutbox "v1" (Some "d1") OUTBOX_PENDING None 5 ]}) 3
    (set_deliveries (insert "d1" (mkDelivery "v1" "e1" PENDING 0 None 0 0))
      (set_events (insert "v1" (mkEvent "t1" "order.created" JNull "key-1" 0)) empty_db)).

Definition relay_world := world_at 1000 relay_db 200.

Lemma relay_drains_witness :
  (exec (tick demo_cfg 1) relay_world).1 = inr 1%nat /\
  count_pending (w_db (polls demo_cfg 2 1 relay_world)) = 0%nat.
Proof.
  assert (outbox_fk (w_db relay_world)) as Hfk.
  { intros id row Hrow. unfold relay_world, relay_db in Hrow. cbn in Hrow.
    apply lookup_insert_Some in Hrow as [[_ <-]|[_ Hrow]]; [by eexists|].
    apply lookup_singleton_Some in Hrow as [_ <-]. by eexists. }
  destruct (relay_drains demo_cfg 1 relay_world Hfk ltac:(lia)) as (H1 & _ & H3). split; [exact H1|].
  apply H3. vm_compute. lia.
Defined.
