(* ===== verification/RateLimit.v ===== *)
(** * The publish rate limit: [events/publish-rate-limiter.ts]

    A fixed window per tenant, counted in one Redis key that expires with the
    window.  Redis failures admit the request. *)

From S2P Require Import Prelude Errors Effects Json Platform Schema Registry World Config TestPlatform.
Open Scope Z_scope.
Open Scope hook_scope.

Definition windowSec : Z := 60.

Section limiter.
Context `{P : Platform}.
Variable cfg : Config.

Definition rate_key (tenantId : string) : string := "hr:rl:" +:+ tenantId.

Definition rate_cap (plan : TenantPlan) : Z :=
  match plan with
  | PRO => HR_RATE_LIMIT_PRO_PER_MIN cfg
  | FREE => HR_RATE_LIMIT_FREE_PER_MIN cfg
  end.

(** The constructor opens a connection unless both limits are off. *)
Definition has_redis : bool :=
  negb ((HR_RATE_LIMIT_FREE_PER_MIN cfg <=? 0) && (HR_RATE_LIMIT_PRO_PER_MIN cfg <=? 0)).

(** The script, run atomically: the count and the remaining seconds. *)
Definition CONSUME_LUA (key : string) (window : Z) (now : Z) (r : rstate) : option (Z * Z) * rstate :=
  match r_incrby now key 1 r with
  | (None, r) => (None, r)
  | (Some n, r) =>
      let r := if n =? 1 then r_expire now key window r else r in
      (Some (n, ttl_of now (r_lookup r now key)), r)
  end.

Definition plan_label (plan : TenantPlan) : string := match plan with PRO => "PRO" | FREE => "FREE" end.

Definition is_domain (e : exn) : bool := match e with EDomain _ => true | _ => false end.

(** A connection that cannot be opened is a failure of the script's call. *)
Definition consume (tenantId : string) (plan : TenantPlan) : prog World unit :=
  let cap := rate_cap plan in
  if (cap <=? 0) || negb has_redis then Ret tt else
  catch
    (let* raw := redis_try (CONSUME_LUA (rate_key tenantId) windowSec) in
     let '(used, ttl) := raw in
     if cap <? used then
       inc eventsRateLimitedTotal [("plan", plan_label plan)] ;;
       Throw (EDomain (Errors.rateLimited (Z.max 1 ttl)))
     else Ret tt)
    (fun error => if is_domain error then Throw error else Ret tt).

(** Redis and the metrics are all it touches. *)
Definition rate_step (w w' : World) : Prop :=
  w_db w' = w_db w /\ w_queue w' = w_queue w /\ w_now w' = w_now w /\ requests w' = requests w.

#[export] Instance rate_step_preorder : PreOrder rate_step.
Proof.
  split; [done|]. intros w1 w2 w3 (? & ? & ? & ?) (? & ? & ? & ?).
  unfold rate_step. split_and!; congruence.
Qed.

Lemma consume_acts t plan : acts rate_step (consume t plan).
Proof.
  unfold consume. destruct (_ || _); [done|]. apply acts_catch; [|intros e; by destruct (is_domain e)].
  apply acts_bind.
  - eapply acts_mono; [|apply redis_try_step]. intros w w' ->. done.
  - intros [used ttl]. destruct (_ <? _); [|done]. apply acts_bind; [|done].
    apply acts_update. intros w. unfold rate_step. by rewrite requests_observe.
Qed.

(** ** The window *)

(** [n] requests were counted in the window that ends at [x]. *)
Definition window (w : World) (t : string) (n x : Z) : Prop :=
  (n = 0 /\ r_lookup (w_redis w) (w_now w) (rate_key t) = None) \/
  (0 < n /\ w_now w < x <= w_now w + 1000 * windowSec /\
   r_lookup (w_redis w) (w_now w) (rate_key t) = Some (mkEntry (RInt n) (Some x))).

Lemma CONSUME_LUA_spec r now k n x :
  0 <= n -> r_lookup r now k = (if n =? 0 then None else Some (mkEntry (RInt n) (Some x))) -> now < x ->
  let x' := if n =? 0 then now + 1000 * windowSec else x in
  exists r', CONSUME_LUA k windowSec now r = (Some (n + 1, (x' - now + 500) / 1000), r') /\
    r_lookup r' now k = Some (mkEntry (RInt (n + 1)) (Some x')).
Proof.
  intros Hn He Hx. unfold CONSUME_LUA. destruct (Z.eqb_spec n 0) as [->|Hne].
  - destruct (r_incrby_spec r now k 1 0 None He) as (r1 & -> & H1 & _); [done..|].
    destruct (r_expire_spec r1 now k windowSec _ H1 ltac:(done)) as [H2 _].
    change (0 + 1) with 1 in *. change (1 =? 1) with true. cbv iota. rewrite H2. by eexists.
  - destruct (r_incrby_spec r now k 1 n _ He) as (r1 & -> & H1 & _); [cbn; lia|done|].
    destruct (Z.eqb_spec (n + 1) 1); [lia|]. rewrite H1. by eexists.
Qed.

(** What is answered on the [n]-th request of a window that ends at [x]. *)
Definition verdict (cap n x now : Z) : exn + unit :=
  if n <? cap then inr tt else inl (EDomain (Errors.rateLimited (Z.max 1 ((x - now + 500) / 1000)))).

Lemma exec_consume w t plan n x :
  0 < rate_cap plan -> 0 <= n -> window w t n x ->
  let x' := if n =? 0 then w_now w + 1000 * windowSec else x in
  exists w', exec (consume t plan) w = (verdict (rate_cap plan) n x' (w_now w), w') /\
    w_now w' = w_now w /\ window w' t (n + 1) x'.
Proof.
  intros Hcap Hn Hw x'.
  assert (has_redis = true) as Hr.
  { unfold has_redis. destruct plan; cbn in Hcap;
      destruct (Z.leb_spec (HR_RATE_LIMIT_FREE_PER_MIN cfg) 0), (Z.leb_spec (HR_RATE_LIMIT_PRO_PER_MIN cfg) 0); try done; lia. }
  assert (exists y, w_now w < y /\ (n <> 0 -> y = x /\ x <= w_now w + 1000 * windowSec) /\
    r_lookup (w_redis w) (w_now w) (rate_key t) = (if n =? 0 then None else Some (mkEntry (RInt n) (Some y))))
    as (y & Hy & Hyx & Hl).
  { destruct Hw as [[-> Hl]|(? & ? & Hl)]; [exists (w_now w + 1)|exists x]; split_and!; try done; try lia.
    by destruct (Z.eqb_spec n 0); [lia|]. }
  destruct (CONSUME_LUA_spec _ _ _ n y Hn Hl Hy) as (r' & Hlua & Hl').
  assert ((if n =? 0 then w_now w + 1000 * windowSec else y) = x') as Hx'
    by (subst x'; destruct (Z.eqb_spec n 0); [done|]; by apply Hyx).
  cbv zeta in Hlua, Hl'. rewrite Hx' in Hlua, Hl'.
  assert (w_now w < x' <= w_now w + 1000 * windowSec) as Hb.
  { subst x'. destruct (Z.eqb_spec n 0); [unfold windowSec; lia|]. destruct (Hyx ltac:(done)) as [<- ?]. lia. }
  unfold consume. rewrite Hr. destruct (Z.leb_spec (rate_cap plan) 0); [lia|]. cbn [orb negb].
  rewrite exec_catch, exec_bind. unfold redis_try. rewrite exec_call, Hlua. unfold verdict.
  assert ((rate_cap plan <? n + 1) = negb (n <? rate_cap plan)) as ->
    by (destruct (Z.ltb_spec n (rate_cap plan)), (Z.ltb_spec (rate_cap plan) (n + 1)); try done; lia).
  destruct (n <? rate_cap plan); cbn [negb].
  - eexists. split; [reflexivity|]. split; [done|]. right. cbn. split_and!; try lia. done.
  - rewrite exec_bind, exec_inc. cbn [exec is_domain]. eexists. split; [reflexivity|]. split; [done|].
    right. cbn. split_and!; try lia. done.
Qed.

Lemma window_later w t n x d :
  window w t n x -> 0 <= d -> w_now w + d < x -> window (elapse d w) t n x.
Proof.
  intros [[-> Hl]|(? & ? & Hl)] Hd Hx; [left|right]; cbn [w_redis w_now elapse]; rewrite Z.max_r by lia.
  - split; [done|]. by rewrite (r_lookup_later _ (w_now w)), Hl by lia.
  - split_and!; try lia. rewrite (r_lookup_later _ (w_now w)), Hl by lia. cbn. unfold live. cbn.
    by destruct (Z.ltb_spec (w_now w + d) x); [|lia].
Qed.

Lemma window_over w t n x d :
  window w t n x -> 0 <= d -> x <= w_now w + d -> forall y, window (elapse d w) t 0 y.
Proof.
  intros Hw Hd Hx y. left. split; [done|]. cbn [w_redis w_now elapse]. rewrite Z.max_r by lia.
  rewrite (r_lookup_later _ (w_now w)) by lia. destruct Hw as [[-> ->]|(? & ? & ->)]; [done|].
  cbn. unfold live. cbn. by destruct (Z.ltb_spec (w_now w + d) x); [lia|].
Qed.

(** Requests of one tenant, each some milliseconds after the one before: the
    number that is admitted. *)
Fixpoint admitted (t : string) (plan : TenantPlan) (gaps : list Z) (w : World) : nat * World :=
  match gaps with
  | [] => (0%nat, w)
  | g :: gaps =>
      let '(r, w1) := exec (consume t plan) (elapse g w) in
      let '(n, w2) := admitted t plan gaps w1 in
      ((if r then 0 else 1) + n, w2)%nat
  end.

Definition total (gaps : list Z) : Z := foldr Z.add 0 gaps.

Lemma total_nonneg gaps : Forall (fun g => 0 <= g) gaps -> 0 <= total gaps.
Proof. induction 1; unfold total in *; simpl; lia. Qed.

Lemma admitted_spec t plan gaps w n x :
  0 < rate_cap plan -> 0 < n -> window w t n x -> Forall (fun g => 0 <= g) gaps ->
  w_now w + total gaps < x ->
  Z.of_nat (admitted t plan gaps w).1 = Z.min (Z.max 0 (rate_cap plan - n)) (Z.of_nat (length gaps)).
Proof.
  intros Hcap. revert w n. induction gaps as [|g gaps IH]; intros w n Hn Hw Hg Htot; cbn [admitted].
  { simpl. lia. }
  apply Forall_cons in Hg as [Hg Hgs]. cbn in Htot. fold (total gaps) in Htot.
  pose proof (total_nonneg gaps Hgs).
  pose proof (window_later w t n x g Hw Hg ltac:(lia)) as Hw1.
  destruct (exec_consume _ t plan n x Hcap ltac:(lia) Hw1) as (w' & -> & Hnow & Hw').
  destruct (Z.eqb_spec n 0); [lia|]. cbn in Hnow. rewrite Z.max_r in Hnow by lia.
  specialize (IH w' (n + 1) ltac:(lia) Hw' Hgs ltac:(lia)).
  destruct (admitted t plan gaps w') as [m w2]. cbn [fst] in *. unfold verdict. cbn [length].
  destruct (Z.ltb_spec n (rate_cap plan)); cbn; lia.
Qed.

(** A failure of a service is not one of the application's own errors. *)
Definition service_error (flt : fault) : Prop :=
  match flt with NoFault => True | FailBefore e | FailAfter e => is_domain e = false end.

(** ** Properties *)

(** The limit of a window: of the requests a tenant sends within one window
    of 60 s (the window opens with the first of them, whatever the gaps), exactly
    the first [cap] are admitted; [cap] is the plan's. *)
Theorem window_admits_cap w t plan gaps :
  0 < rate_cap plan -> r_lookup (w_redis w) (w_now w) (rate_key t) = None ->
  Forall (fun g => 0 <= g) gaps -> total gaps < 1000 * windowSec ->
  Z.of_nat (admitted t plan (0 :: gaps) w).1 = Z.min (rate_cap plan) (Z.of_nat (length (0 :: gaps))).
Proof.
  intros Hcap Hl Hg Ht. cbn [admitted].
  assert (window (elapse 0 w) t 0 0) as Hw.
  { left. split; [done|]. cbn. by replace (w_now w + Z.max 0 0) with (w_now w) by lia. }
  destruct (exec_consume _ t plan 0 0 Hcap ltac:(done) Hw) as (w' & -> & Hnow & Hw').
  cbv zeta in Hw'. change (0 =? 0) with true in *. cbv iota in *. cbn in Hnow.
  pose proof (admitted_spec t plan gaps w' 1 _ Hcap ltac:(lia) Hw' Hg) as H. rewrite Hnow in H.
  cbn [w_now elapse] in H. specialize (H ltac:(lia)).
  destruct (admitted t plan gaps w') as [m w2]. cbn [fst] in *. unfold verdict. cbn [length].
  destruct (Z.ltb_spec 0 (rate_cap plan)); [cbn; lia|lia].
Qed.

(** A refusal is honest about when to come back: the seconds it names are
    between 1 and 60, the window ends at most half a second after they have
    passed (Redis rounds the remaining time), and then the tenant is admitted. *)
Theorem retry_after_suffices w t plan n x secs :
  0 < rate_cap plan -> 0 < n -> window w t n x ->
  (exec (consume t plan) w).1 = inl (EDomain (Errors.rateLimited secs)) ->
  1 <= secs <= windowSec /\
  (exec (consume t plan) (elapse (1000 * secs + 500) (exec (consume t plan) w).2)).1 = inr tt.
Proof.
  intros Hcap Hn Hw Hres.
  destruct (exec_consume w t plan n x Hcap ltac:(lia) Hw) as (w' & E & Hnow & Hw').
  destruct (Z.eqb_spec n 0); [lia|]. rewrite E in *. cbn [fst snd] in *. unfold verdict in Hres.
  destruct (n <? rate_cap plan); [done|].
  assert (secs = Z.max 1 ((x - w_now w + 500) / 1000)) as ->.
  { injection Hres as H. symmetry. exact H. }
  assert (w_now w < x <= w_now w + 1000 * windowSec) as Hx by (destruct Hw as [[-> _]|(_ & ? & _)]; [lia|done]).
  pose proof (Z.div_mod (x - w_now w + 500) 1000 ltac:(lia)) as Hdiv.
  pose proof (Z.mod_pos_bound (x - w_now w + 500) 1000 ltac:(lia)) as Hmod.
  set (q := (x - w_now w + 500) / 1000) in *. unfold windowSec in *. split; [lia|].
  pose proof (window_over w' t (n + 1) x (1000 * Z.max 1 q + 500) Hw' ltac:(lia) ltac:(lia) 0) as H0.
  destruct (exec_consume _ t plan 0 0 Hcap ltac:(done) H0) as (w2 & -> & _). cbn [fst]. unfold verdict.
  by destruct (Z.ltb_spec 0 (rate_cap plan)); [|lia].
Qed.

(** Fail open: whatever Redis does (every call may fail before or after its
    effect, with any error of its own), [consume] either admits the request or refuses it with RATE_LIMITED
    (429); no other error ever leaves it, and with the limit off it does nothing. *)
Theorem consume_fails_open t plan sched n w :
  (forall i, service_error (sched i)) ->
  (exists w' n', run sched n (consume t plan) w = (inr tt, w', n')) \/
  (0 < rate_cap plan /\ exists secs w' n',
    run sched n (consume t plan) w = (inl (EDomain (Errors.rateLimited secs)), w', n') /\ 1 <= secs).
Proof.
  intros Hs. unfold consume. destruct (Z.leb_spec (rate_cap plan) 0); cbn [orb]; [left; by eexists _, _|].
  destruct (negb has_redis); [left; by eexists _, _|].
  rewrite run_catch, run_bind.
  destruct (run sched n (redis_try (CONSUME_LUA (rate_key t) windowSec)) w) as [[[e|[used ttl]] w1] n1] eqn:E.
  - assert (is_domain e = false) as ->; [|left; by eexists _, _].
    revert E. unfold redis_try, call. cbn. unfold Effects.attempt. specialize (Hs n).
    destruct (CONSUME_LUA _ _ _ _) as [[v|] r]; destruct (sched n); cbn in Hs |- *; intros; by simplify_eq/=.
  - destruct (rate_cap plan <? used); [|left; by eexists _, _].
    right. split; [done|]. rewrite run_bind. cbn. eexists _, _, _. split; [reflexivity|]. lia.
Qed.

End limiter.

(** ** Concrete tenants *)

Lemma window_admits_cap_witness :
  Z.of_nat (admitted demo_cfg "t1" FREE (0 :: replicate 99 500) (world_at 1000 empty_db 200)).1 = 60.
Proof.
  rewrite (window_admits_cap demo_cfg); [reflexivity|reflexivity|reflexivity| |reflexivity].
  apply Forall_replicate. lia.
Defined.

(** A limit of one request per window. *)
Definition tight_cfg : Config :=
  mkConfig "db" "admin-key-123" "QUFBQUFBQUFBQUFBQUFBQUFBQUFBQUFBQUFBQUFBQUE=" false false 3000 "redis"
    500 10000 10 30000 14400000 8 3 200 60 2 5000 50 1 600 0.

Definition used_world := (exec (consume tight_cfg "t1" FREE) (world_at 1000 empty_db 200)).2.

Lemma retry_after_suffices_witness :
  let w1 := (exec (consume tight_cfg "t1" FREE) used_world).2 in
  (exec (consume tight_cfg "t1" FREE) (elapse 60500 w1)).1 = inr tt.
Proof.
  intros w1. apply (retry_after_suffices tight_cfg used_world "t1" FREE 1 61000 60); [reflexivity|reflexivity| |vm_compute; reflexivity].
  right. split; [reflexivity|]. split; [vm_compute; split; [reflexivity|discriminate]|vm_compute; reflexivity].
Defined.

Lemma consume_fails_open_witness :
  exists w' n', run (fun _ => FailBefore (Error "ECONNREFUSED")) 0 (consume demo_cfg "t1" FREE)
    (world_at 1000 empty_db 200) = ((inr tt : exn + unit), w', n').
Proof.
  destruct (consume_fails_open demo_cfg "t1" FREE (fun _ => FailBefore (Error "ECONNREFUSED")) 0
    (world_at 1000 empty_db 200)) as [H|(_ & secs & w' & n' & H & _)]; [reflexivity|exact H|].
  exfalso. apply (f_equal (fun x => x.1.1)) in H. vm_compute in H. discriminate H.
Defined.
