(* ===== verification/Events.v ===== *)
(** * Publishing events: [events/events.service.ts], [events/events.controller.ts]

    The write half of the transactional outbox: the event, its fan-out and the
    outbox row in one transaction, with idempotency by a unique constraint. *)

From S2P Require Import Prelude Errors Effects Json Platform Schema Registry World Config TestPlatform RateLimit.
Open Scope Z_scope.
Open Scope hook_scope.

Definition MAX_PAYLOAD_BYTES : Z := 64 * 1024.

Record PublishEventDto := mkPublishEventDto { dto_type : string; dto_payload : json }.

Record PublishResult := mkPublishResult {
  pr_eventId : string;
  pr_deliveries : list (string * string);   (** delivery id, endpoint id *)
}.

(** ** Queries *)

(** The event of a tenant with an idempotency key. *)
Definition event_by_key (tenantId key : string) (d : Db) : option string :=
  fst <$> (snd <$> list_find (fun p => ev_tenantId p.2 = tenantId /\ ev_idempotencyKey p.2 = key)
             (map_to_list (events d))).

(** An endpoint subscribes to a type. *)
Definition subscribed (d : Db) (endpointId type : string) : bool :=
  bool_decide (Exists (fun p => sb_endpointId p.2 = endpointId /\ sb_eventType p.2 = type)
    (map_to_list (subscriptions d))).

Definition created_le (p q : string * Endpoint) : Prop := ep_createdAt p.2 <= ep_createdAt q.2.

#[export] Instance created_le_dec : RelDecision created_le.
Proof. intros p q. unfold created_le. apply _. Defined.
#[export] Instance created_le_total : Total created_le.
Proof. intros p q. unfold created_le. lia. Qed.
#[export] Instance created_le_trans : Transitive created_le.
Proof. intros p q r. unfold created_le. lia. Qed.

Definition is_target (d : Db) (tenantId type : string) (p : string * Endpoint) : Prop :=
  ep_tenantId p.2 = tenantId /\ ep_status p.2 = ACTIVE /\ subscribed d p.1 type = true.

#[export] Instance is_target_dec d t y p : Decision (is_target d t y p).
Proof. unfold is_target. apply _. Defined.

(** The ids of the endpoints an event fans out to, oldest first. *)
Definition fan_out (tenantId type : string) (d : Db) : list string :=
  fst <$> merge_sort created_le (filter (is_target d tenantId type) (map_to_list (endpoints d))).

Section publish.
Context `{P : Platform}.

(** ** Statements *)

(** [event.create]: the unique key and the tenant's foreign key; a new id unless
    one is given. *)
Definition event_insert (id tenantId type : string) (payload : json) (key : string) : stm unit := fun w =>
  let d := w_db w in
  match event_by_key tenantId key d, events d !! id, tenants d !! tenantId with
  | None, None, Some _ =>
      (inr tt, with_db (set_events (insert id
         (mkEvent tenantId type (jsonb_store payload) key (w_now w)))) w)
  | None, None, None => (inl P2003, w)
  | _, _, _ => (inl P2002, w)
  end.

Definition event_create (tenantId type : string) (payload : json) (key : string) : stm string :=
  let+ id := suuid in
  let+ _ := event_insert id tenantId type payload key in
  sret id.

Definition delivery_taken (id eventId endpointId : string) (d : Db) : bool :=
  match deliveries d !! id with
  | Some _ => true
  | None => bool_decide (Exists (fun p => dl_eventId p.2 = eventId /\ dl_endpointId p.2 = endpointId)
              (map_to_list (deliveries d)))
  end.

(** [delivery.create]: PENDING, no attempt yet. *)
Definition new_delivery (eventId endpointId : string) (now : Z) : Delivery :=
  mkDelivery eventId endpointId PENDING 0 None now now.

Definition delivery_create (id eventId endpointId : string) : stm unit := fun w =>
  if delivery_taken id eventId endpointId (w_db w) then (inl P2002, w)
  else (inr tt, with_db (set_deliveries (insert id (new_delivery eventId endpointId (w_now w)))) w).

(** [delivery.createMany] *)
Fixpoint delivery_createMany (eventId : string) (ds : list (string * string)) : stm unit :=
  match ds with
  | [] => sret tt
  | (id, ep) :: ds => let+ _ := delivery_create id eventId ep in delivery_createMany eventId ds
  end.

(** [targets.map((endpoint) => ({ id: randomUUID(), ... }))] *)
Fixpoint number_deliveries (targets : list string) : stm (list (string * string)) :=
  match targets with
  | [] => sret []
  | ep :: targets =>
      let+ id := suuid in
      let+ ds := number_deliveries targets in
      sret ((id, ep) :: ds)
  end.

Definition publish_body (tenantId : string) (dto : PublishEventDto) (key : string) : stm PublishResult :=
  let+ eventId := event_create tenantId (dto_type dto) (dto_payload dto) key in
  let+ targets := sread (fan_out tenantId (dto_type dto)) in
  let+ ds := number_deliveries targets in
  let+ _ := match ds with
    | [] => sret tt
    | _ => let+ _ := delivery_createMany eventId ds in let+ _ := outbox_create eventId None in sret tt
    end in
  sret (mkPublishResult eventId ds).

(** ** [EventsService.publish] *)

Definition is_unique_violation (e : exn) : bool :=
  match e with EPrisma c => bool_decide (c = "P2002") | _ => false end.

Definition publish (tenantId : string) (dto : PublishEventDto) (key : string) : prog World PublishResult :=
  let sizeBytes := Z.of_nat (String.length (stringify (dto_payload dto))) in
  if MAX_PAYLOAD_BYTES <? sizeBytes then Throw (EDomain (Errors.payloadTooLarge sizeBytes MAX_PAYLOAD_BYTES))
  else
    catch (transaction (publish_body tenantId dto key))
      (fun error =>
         if is_unique_violation error then
           let* existing := db_read (event_by_key tenantId key) in
           match existing with
           | Some id => Throw (EDomain (Errors.duplicateEvent id))
           | None => Throw error
           end
         else Throw error).

(** ** [EventsService.getDeliveries] *)

Record EventDelivery := mkEventDelivery {
  ed_deliveryId : string;
  ed_endpointId : string;
  ed_endpointUrl : string;
  ed_status : DeliveryStatus;
  ed_attemptCount : Z;
  ed_nextRetryAt : option Z;
  ed_updatedAt : Z;
}.

Definition delivery_created_le (p q : string * Delivery) : Prop := dl_createdAt p.2 <= dl_createdAt q.2.

#[export] Instance delivery_created_le_dec : RelDecision delivery_created_le.
Proof. intros p q. unfold delivery_created_le. apply _. Defined.

(** The query with [include: { endpoint }]; every delivery has its endpoint (a
    foreign key of the schema). *)
Definition event_deliveries_view (eventId : string) (d : Db) : list EventDelivery :=
  omap (fun p => ep ← endpoints d !! dl_endpointId p.2;
          Some (mkEventDelivery p.1 (dl_endpointId p.2) (ep_url ep) (dl_status p.2)
            (dl_attemptCount p.2) (dl_nextRetryAt p.2) (dl_updatedAt p.2)))
    (merge_sort delivery_created_le
       (filter (fun p => dl_eventId p.2 = eventId) (map_to_list (deliveries d)))).

Definition find_event (tenantId eventId : string) (d : Db) : option Event :=
  ev ← events d !! eventId; if bool_decide (ev_tenantId ev = tenantId) then Some ev else None.

Definition getDeliveries (tenantId eventId : string) : prog World (string * Z * list EventDelivery) :=
  let* event := db_read (find_event tenantId eventId) in
  match event with
  | None => Throw (EDomain Errors.eventNotFound)
  | Some ev =>
      let* ds := db_read (event_deliveries_view eventId) in
      Ret (ev_type ev, ev_createdAt ev, ds)
  end.

(** ** [EventsController.publish] *)

(** White space that [trim] removes, in the one-byte range. *)
Definition is_space (c : ascii) : bool :=
  let n := N_of_ascii c in ((9 <=? n) && (n <=? 13) || (n =? 32) || (n =? 160))%N.

Definition key_rejected (idempotencyKey : option string) : bool :=
  match idempotencyKey with
  | None | Some EmptyString => true
  | Some k => str_forall is_space k || (255 <? Z.of_nat (String.length k))
  end.

Definition controller_publish (cfg : Config) (tenantId : string) (plan : TenantPlan)
    (dto : PublishEventDto) (idempotencyKey : option string) : prog World PublishResult :=
  if key_rejected idempotencyKey then Throw (EDomain Errors.idempotencyKeyRequired)
  else
    consume cfg tenantId plan ;;
    let* result := publish tenantId dto (default EmptyString idempotencyKey) in
    inc eventsPublishedTotal [] ;;
    Ret result.

(** ** What a publication writes *)

Definition insert_deliveries (eventId : string) (now : Z) (ds : list (string * string))
    (m : gmap string Delivery) : gmap string Delivery :=
  fold_left (fun m p => <[p.1 := new_delivery eventId p.2 now]> m) ds m.

(** The database after the publication of [ev] as [eventId] with deliveries [ds]. *)
Definition published_db (eventId : string) (ev : Event) (ds : list (string * string)) (now : Z) (d : Db) : Db :=
  let d1 := set_deliveries (insert_deliveries eventId now ds) (set_events (insert eventId ev) d) in
  match ds with
  | [] => d1
  | _ => set_outbox (insert (outbox_seq d) (mkOutbox eventId None OUTBOX_PENDING None now)) (outbox_seq d + 1) d1
  end.

(** The rows of a publication: what a committed one has read and written. *)
Definition committed (tenantId : string) (dto : PublishEventDto) (key : string) (res : PublishResult)
    (now : Z) (d d' : Db) : Prop :=
  event_by_key tenantId key d = None /\ events d !! pr_eventId res = None /\ is_Some (tenants d !! tenantId) /\
  snd <$> pr_deliveries res = fan_out tenantId (dto_type dto) d /\
  NoDup (fst <$> pr_deliveries res) /\
  (forall id, id ∈ fst <$> pr_deliveries res -> deliveries d !! id = None) /\
  d' = published_db (pr_eventId res)
    (mkEvent tenantId (dto_type dto) (jsonb_store (dto_payload dto)) key now) (pr_deliveries res) now d.

(** ** The statements' effects *)

Definition draw_n (k : nat) (w : World) : World :=
  mkWorld (w_db w) (w_redis w) (w_queue w) (w_now w) (w_draws w + k) (w_caches w) (w_trace w).

Definition numbered (n : nat) (targets : list string) : list (string * string) :=
  imap (fun i ep => (randomUUID (n + i), ep)) targets.

Lemma numbered_snd n targets : snd <$> numbered n targets = targets.
Proof.
  unfold numbered. rewrite fmap_imap. transitivity (imap (const id) targets).
  - by apply imap_ext.
  - rewrite imap_const. apply list_fmap_id.
Qed.

Lemma number_deliveries_spec targets w :
  number_deliveries targets w = (inr (numbered (w_draws w) targets), draw_n (length targets) w).
Proof.
  revert w. induction targets as [|ep targets IH]; intros w; cbn [number_deliveries].
  - unfold sret, draw_n. cbn. rewrite Nat.add_0_r. by destruct w.
  - unfold sbind at 1, suuid. unfold sbind at 1. rewrite IH. cbn. unfold draw_n, numbered. cbn.
    rewrite Nat.add_0_r, Nat.add_succ_r. unfold sret. do 3 f_equal. apply imap_ext. intros i x _. cbn.
    by rewrite Nat.add_succ_r.
Qed.

Lemma db_only_delivery_create id ev ep : db_only (delivery_create id ev ep).
Proof. intros w. unfold delivery_create. by destruct (delivery_taken _ _ _ _). Qed.

Lemma db_only_delivery_createMany ev ds : db_only (delivery_createMany ev ds).
Proof.
  induction ds as [|[id ep] ds IH]; [done|]. apply db_only_bind; [apply db_only_delivery_create|done].
Qed.

Lemma db_only_number_deliveries targets : db_only (number_deliveries targets).
Proof. intros w. by rewrite number_deliveries_spec. Qed.

Lemma db_only_event_insert id t y p k : db_only (event_insert id t y p k).
Proof.
  intros w. unfold event_insert. cbv beta zeta.
  destruct (event_by_key t k (w_db w)), (events (w_db w) !! id), (tenants (w_db w) !! t); done.
Qed.

Lemma db_only_event_create t y p k : db_only (event_create t y p k).
Proof.
  apply db_only_bind; [done|]. intros id. apply db_only_bind; [apply db_only_event_insert|done].
Qed.

Lemma db_only_publish_body t dto key : db_only (publish_body t dto key).
Proof.
  apply db_only_bind; [apply db_only_event_create|]. intros id. apply db_only_bind; [done|]. intros targets.
  apply db_only_bind; [apply db_only_number_deliveries|]. intros ds. apply db_only_bind; [|done].
  destruct ds; [done|]. apply db_only_bind; [apply db_only_delivery_createMany|]. intros _.
  by apply db_only_bind.
Qed.

Lemma createMany_inv ev ds w w' :
  delivery_createMany ev ds w = (inr tt, w') ->
  w' = with_db (set_deliveries (insert_deliveries ev (w_now w) ds)) w /\ NoDup (fst <$> ds) /\
  forall id, id ∈ fst <$> ds -> deliveries (w_db w) !! id = None.
Proof.
  revert w. induction ds as [|[id ep] ds IH]; intros w.
  { intros [= <-]. split; [by destruct w as [[]]|]. split; [constructor|]. intros id Hid. set_solver. }
  cbn [delivery_createMany]. unfold sbind, delivery_create at 1.
  destruct (delivery_taken id ev ep (w_db w)) eqn:Ht; [done|]. intros H. apply IH in H as (-> & Hnd & Hfr).
  assert (deliveries (w_db w) !! id = None) as Hid
    by (unfold delivery_taken in Ht; by destruct (deliveries (w_db w) !! id)).
  cbn in Hfr. split; [done|]. split.
  - cbn. constructor; [|done]. intros Hin. apply Hfr in Hin. by rewrite lookup_insert_eq in Hin.
  - intros id' Hin. cbn in Hin. apply elem_of_cons in Hin as [->|Hin]; [done|].
    apply Hfr in Hin. by apply lookup_insert_None in Hin as [? _].
Qed.

Lemma insert_deliveries_old ev now ds m D :
  D ∉ fst <$> ds -> insert_deliveries ev now ds m !! D = m !! D.
Proof.
  unfold insert_deliveries. revert m. induction ds as [|[id ep] ds IH]; intros m HD; [done|]. cbn in *.
  rewrite IH by set_solver. apply lookup_insert_ne. set_solver.
Qed.

Lemma insert_deliveries_new ev now ds m D dl :
  insert_deliveries ev now ds m !! D = Some dl ->
  m !! D = Some dl \/ dl_eventId dl = ev /\ dl_endpointId dl ∈ snd <$> ds.
Proof.
  unfold insert_deliveries. revert m. induction ds as [|[id ep] ds IH]; intros m H; [by left|]. cbn in H |- *.
  apply IH in H as [H|[? ?]]; [|right; set_solver].
  apply lookup_insert_Some in H as [[_ <-]|[_ H]]; [right; set_solver|by left].
Qed.

(** A transaction body that returns has committed exactly a publication. *)
Lemma publish_body_inv t dto key w res w' :
  publish_body t dto key w = (inr res, w') ->
  committed t dto key res (w_now w) (w_db w) (w_db w').
Proof.
  unfold publish_body, event_create, event_insert, sbind, suuid, sread. cbn [w_db drawn].
  destruct (event_by_key t key (w_db w)) eqn:Hk;
    [by destruct (events (w_db w) !! randomUUID (w_draws w)), (tenants (w_db w) !! t)|].
  destruct (events (w_db w) !! randomUUID (w_draws w)) eqn:He;
    [by destruct (tenants (w_db w) !! t)|].
  destruct (tenants (w_db w) !! t) eqn:Ht; [|done].
  unfold sret. rewrite number_deliveries_spec. set (ds := numbered _ _). set (w1 := draw_n _ _).
  assert (snd <$> ds = fan_out t (dto_type dto) (w_db w)) as Htg by apply numbered_snd.
  destruct ds as [|p ds'] eqn:Eds.
  - intros [= <- <-]. unfold committed. cbn. split_and!; try done; [constructor|set_solver].
  - rewrite <- Eds in *. destruct (delivery_createMany (randomUUID (w_draws w)) ds w1) as [[e|[]] w2] eqn:Ec; [done|].
    apply createMany_inv in Ec as (-> & Hnd & Hfr). unfold outbox_create, sret. intros [= <- <-].
    unfold committed. cbn. split_and!; try done. by rewrite Eds.
Qed.

Lemma publish_body_duplicate t dto key w id :
  event_by_key t key (w_db w) = Some id -> (publish_body t dto key w).1 = inl P2002.
Proof.
  intros Hk. unfold publish_body, event_create, event_insert, sbind, suuid. cbn [w_db drawn]. rewrite Hk.
  by destruct (events (w_db w) !! randomUUID (w_draws w)), (tenants (w_db w) !! t).
Qed.

(** ** Lookups *)

Lemma event_by_key_Some t k d id :
  event_by_key t k d = Some id ->
  exists ev, events d !! id = Some ev /\ ev_tenantId ev = t /\ ev_idempotencyKey ev = k.
Proof.
  unfold event_by_key. destruct (list_find _ _) as [[i [id' ev]]|] eqn:E; [|done]. intros [= ->].
  apply list_find_Some in E as (Hi & [? ?] & _). exists ev. split; [|done].
  apply elem_of_map_to_list. by eapply list_elem_of_lookup_2.
Qed.

Lemma event_by_key_None t k d :
  event_by_key t k d = None ->
  forall id ev, events d !! id = Some ev -> ~ (ev_tenantId ev = t /\ ev_idempotencyKey ev = k).
Proof.
  unfold event_by_key. destruct (list_find _ _) as [[i [id' ev]]|] eqn:E; [done|]. intros _ id ev Hev.
  apply list_find_None in E. rewrite Forall_forall in E. apply (E (id, ev)). by apply elem_of_map_to_list.
Qed.

Lemma event_by_key_is_Some t k d id ev :
  events d !! id = Some ev -> ev_tenantId ev = t -> ev_idempotencyKey ev = k ->
  exists id', event_by_key t k d = Some id'.
Proof.
  intros Hev Ht Hk. destruct (event_by_key t k d) eqn:E; [by eexists|].
  by destruct (event_by_key_None t k d E id ev Hev).
Qed.

Lemma published_db_events id ev ds now d : events (published_db id ev ds now d) = <[id := ev]> (events d).
Proof. by destruct ds. Qed.

Lemma event_by_key_published t k d id ev ds now :
  event_by_key t k d = None -> ev_tenantId ev = t -> ev_idempotencyKey ev = k ->
  event_by_key t k (published_db id ev ds now d) = Some id.
Proof.
  intros Hn Ht Hk. destruct (event_by_key_is_Some t k (published_db id ev ds now d) id ev) as [id' Hid']; try done.
  { rewrite published_db_events. apply lookup_insert_eq. }
  rewrite Hid'. f_equal. apply event_by_key_Some in Hid' as (ev' & Hev' & Ht' & Hk').
  rewrite published_db_events in Hev'. apply lookup_insert_Some in Hev' as [[? _]|[_ Hev']]; [done|].
  by destruct (event_by_key_None t k d Hn id' ev' Hev').
Qed.

Lemma subscribed_spec d ep y :
  subscribed d ep y = true <-> exists i s, subscriptions d !! i = Some s /\ sb_endpointId s = ep /\ sb_eventType s = y.
Proof.
  unfold subscribed. rewrite bool_decide_eq_true, Exists_exists. split.
  - intros ([i s] & Hin & ? & ?). apply elem_of_map_to_list in Hin. by exists i, s.
  - intros (i & s & Hi & ? & ?). exists (i, s). by rewrite elem_of_map_to_list.
Qed.

Lemma fan_out_spec t y d id :
  id ∈ fan_out t y d <->
  exists ep, endpoints d !! id = Some ep /\ ep_tenantId ep = t /\ ep_status ep = ACTIVE /\
    exists i s, subscriptions d !! i = Some s /\ sb_endpointId s = id /\ sb_eventType s = y.
Proof.
  unfold fan_out. rewrite list_elem_of_fmap. split.
  - intros ([id' ep] & -> & Hin). rewrite (merge_sort_Permutation created_le) in Hin.
    apply list_elem_of_filter in Hin as [(Ht & Hs & Hsub%subscribed_spec) Hin].
    apply elem_of_map_to_list in Hin. by exists ep.
  - intros (ep & Hep & Ht & Hs & Hsub%subscribed_spec). exists (id, ep). split; [done|].
    rewrite (merge_sort_Permutation created_le). apply list_elem_of_filter. split; [done|]. by apply elem_of_map_to_list.
Qed.

Lemma fan_out_NoDup t y d : NoDup (fan_out t y d).
Proof.
  unfold fan_out. rewrite (merge_sort_Permutation created_le).
  apply (sublist_NoDup _ (map_to_list (endpoints d)).*1); [apply NoDup_fst_map_to_list|].
  apply fmap_sublist, sublist_filter.
Qed.

(** ** Fresh identifiers *)

(** The random identifiers still to be drawn are distinct and unused. *)
Definition ids_fresh (w : World) : Prop :=
  (forall i j, (w_draws w <= i)%nat -> (w_draws w <= j)%nat -> randomUUID i = randomUUID j -> i = j) /\
  forall i, (w_draws w <= i)%nat -> events (w_db w) !! randomUUID i = None /\ deliveries (w_db w) !! randomUUID i = None.

Definition deliveries_fk (d : Db) : Prop :=
  forall id dl, deliveries d !! id = Some dl -> is_Some (events d !! dl_eventId dl).

Lemma delivery_taken_false id ev ep d :
  deliveries d !! id = None ->
  (forall id' dl, deliveries d !! id' = Some dl -> ~ (dl_eventId dl = ev /\ dl_endpointId dl = ep)) ->
  delivery_taken id ev ep d = false.
Proof.
  intros Hid Hno. unfold delivery_taken. rewrite Hid. apply bool_decide_eq_false_2.
  intros ([id' dl] & Hin & Hd)%Exists_exists. apply elem_of_map_to_list in Hin. by apply (Hno id' dl).
Qed.

Lemma createMany_ok ev ds w :
  NoDup (fst <$> ds) -> NoDup (snd <$> ds) ->
  (forall id, id ∈ fst <$> ds -> deliveries (w_db w) !! id = None) ->
  (forall id dl ep, ep ∈ snd <$> ds -> deliveries (w_db w) !! id = Some dl ->
     ~ (dl_eventId dl = ev /\ dl_endpointId dl = ep)) ->
  exists w', delivery_createMany ev ds w = (inr tt, w').
Proof.
  revert w. induction ds as [|[id ep] ds IH]; intros w; cbn; [by eexists|].
  intros [Hni Hnd]%NoDup_cons [Hni2 Hnd2]%NoDup_cons Hfr Hno.
  unfold sbind, delivery_create at 1. rewrite delivery_taken_false; cycle 1.
  { apply Hfr. by left. } { intros id' dl. apply Hno. by left. }
  apply IH; [done..| |].
  - intros id' Hin. cbn. rewrite lookup_insert_ne by (intros ->; done). apply Hfr. by right.
  - intros id' dl ep' Hep. cbn. intros [[-> <-]|[_ Hl]]%lookup_insert_Some.
    + cbn. intros [_ ->]. done.
    + apply (Hno id'); [by right|done].
Qed.

Lemma numbered_fst_NoDup n targets :
  (forall i j, (n <= i)%nat -> (n <= j)%nat -> randomUUID i = randomUUID j -> i = j) ->
  NoDup (fst <$> numbered n targets).
Proof.
  intros Hinj. unfold numbered. rewrite fmap_imap. cbn. apply NoDup_alt. intros i j x Hi Hj.
  apply list_lookup_imap_Some in Hi as (y & _ & ->). apply list_lookup_imap_Some in Hj as (z & _ & Hz).
  cbn in Hz. apply Hinj in Hz; lia.
Qed.

Lemma numbered_fst n targets id : id ∈ fst <$> numbered n targets -> exists i, id = randomUUID (n + i).
Proof.
  unfold numbered. rewrite fmap_imap. intros Hin. apply list_elem_of_lookup in Hin as [i Hi].
  apply list_lookup_imap_Some in Hi as (y & _ & ->). by exists i.
Qed.

(** The body succeeds when its constraints allow it. *)
Lemma publish_body_ok t dto key w :
  ids_fresh w -> deliveries_fk (w_db w) -> event_by_key t key (w_db w) = None ->
  is_Some (tenants (w_db w) !! t) -> exists res w', publish_body t dto key w = (inr res, w').
Proof.
  intros [Hinj Hfr] Hfk Hk [tn Ht]. destruct (Hfr (w_draws w) ltac:(lia)) as [He _].
  unfold publish_body, event_create, event_insert, sbind, suuid, sread. cbn [w_db drawn].
  rewrite Hk, He, Ht. unfold sret. rewrite number_deliveries_spec. set (tg := fan_out _ _ _). set (w1 := draw_n _ _).
  cbn [w_draws with_db drawn]. set (ds := numbered (S (w_draws w)) tg).
  destruct ds as [|p ds'] eqn:Eds; [by eexists _, _|]. rewrite <- Eds.
  destruct (createMany_ok (randomUUID (w_draws w)) ds w1) as [w2 ->]; [| | | |by eexists _, _].
  - apply numbered_fst_NoDup. intros i j ? ?. apply Hinj; lia.
  - unfold ds. rewrite numbered_snd. apply fan_out_NoDup.
  - intros id [i ->]%numbered_fst. apply Hfr. lia.
  - intros id dl ep _ Hdl [Heq _]. cbn in Hdl. apply Hfk in Hdl as [ev Hev]. congruence.
Qed.

(** Any run of [publish]: the case analysis on where it fails. *)
Lemma run_publish sched n t dto key w :
  let '(r, w', _) := run sched n (publish t dto key) w in
  (w_queue w' = w_queue w /\ w_redis w' = w_redis w /\ w_trace w' = w_trace w) /\
  (w_db w' = w_db w \/ exists res, committed t dto key res (w_now w) (w_db w) (w_db w')) /\
  (forall res, r = inr res -> committed t dto key res (w_now w) (w_db w) (w_db w')).
Proof.
  unfold publish. cbv zeta. destruct (MAX_PAYLOAD_BYTES <? _); [cbn; split_and!; auto; done|].
  rewrite run_catch. unfold transaction at 1, call. cbn [run]. unfold Effects.attempt.
  pose proof (db_only_publish_body t dto key w) as (Hr & Hq & Hn & Hc & Htr).
  destruct (publish_body t dto key w) as [r0 w0] eqn:E. cbn [snd] in *.
  assert (match r0 with inr res => committed t dto key res (w_now w) (w_db w) (w_db w0) | _ => True end) as Hcom
    by (destruct r0; [done|by apply publish_body_inv in E]).
  assert (forall e n1 w1,
    (w_queue w1 = w_queue w /\ w_redis w1 = w_redis w /\ w_trace w1 = w_trace w) ->
    (w_db w1 = w_db w \/ exists res, committed t dto key res (w_now w) (w_db w) (w_db w1)) ->
    let '(r, w', _) := run sched n1 (if is_unique_violation e then
        let* existing := db_read (event_by_key t key) in
        match existing with
        | Some id => Throw (EDomain (Errors.duplicateEvent id))
        | None => Throw e end : prog World PublishResult else Throw e) w1 in
    (w_queue w' = w_queue w /\ w_redis w' = w_redis w /\ w_trace w' = w_trace w) /\
    (w_db w' = w_db w \/ exists res, committed t dto key res (w_now w) (w_db w) (w_db w')) /\
    (forall res, r = inr res -> committed t dto key res (w_now w) (w_db w) (w_db w'))) as Hcatch.
  { intros e n1 w1 H1 H2. destruct (is_unique_violation e); [|done].
    rewrite run_bind. unfold db_read, query, call. cbn [run]. unfold Effects.attempt.
    destruct (sched n1); cbn [run]; try done. by destruct (event_by_key t key (w_db w1)). }
  destruct r0 as [e|res]; destruct (sched n) as [|e'|e']; cbn [run snd];
    try (apply Hcatch; cbn; auto; fail); try (apply Hcatch; [done|right; by exists res]).
  split; [done|]. split; [right; by exists res|]. by intros ? [= <-].
Qed.

(** ** Properties *)

(** C15.  A publication is atomic and touches nothing but the database: whatever
    fails around it (each call before or after its effect, lost answers
    included), the database is afterwards either as it was or holds exactly one
    committed publication (the event, one PENDING delivery with a fresh id per
    ACTIVE subscribed endpoint of the tenant, and an outbox row exactly when there
    are deliveries); a returned result is the one committed; and no job is queued,
    no request sent. *)
Theorem publish_atomic sched n t dto key w :
  let '(r, w', _) := run sched n (publish t dto key) w in
  (w_queue w' = w_queue w /\ w_redis w' = w_redis w /\ w_trace w' = w_trace w) /\
  (w_db w' = w_db w \/ exists res, committed t dto key res (w_now w) (w_db w) (w_db w')) /\
  (forall res, r = inr res -> committed t dto key res (w_now w) (w_db w) (w_db w')).
Proof. apply run_publish. Qed.


(** C38.  Retrying is safe: publish, with any failures (the answer may be lost
    after the commit), and publish again with the same key.  If the first try left
    anything in the database, the second one answers DUPLICATE_EVENT with the id
    of the one event that was committed, and writes nothing. *)
Theorem publish_retry_absorbed sched n t dto key w :
  let '(_, w1, _) := run sched n (publish t dto key) w in
  w_db w1 = w_db w \/
  exists id ev, events (w_db w) !! id = None /\ events (w_db w1) = <[id := ev]> (events (w_db w)) /\
    forall w2, w_db w2 = w_db w1 ->
      (exec (publish t dto key) w2).1 = inl (EDomain (Errors.duplicateEvent id)) /\
      w_db (exec (publish t dto key) w2).2 = w_db w2.
Proof.
  pose proof (run_publish sched n t dto key w) as H.
  destruct (run sched n (publish t dto key) w) as [[r w1] n1] eqn:E.
  destruct H as (_ & [Hdb|[res Hc]] & _); [by left|]. right.
  destruct Hc as (Hk & He & _ & _ & _ & _ & Hdb). eexists (pr_eventId res), _. split; [done|].
  rewrite Hdb. rewrite published_db_events. split; [reflexivity|]. intros w2 Hw2.
  unfold publish in *. cbv zeta in *. destruct (MAX_PAYLOAD_BYTES <? _) eqn:Hsz.
  - exfalso. cbn in E. injection E as _ <- _. apply (f_equal events) in Hdb. rewrite published_db_events in Hdb.
    rewrite Hdb, lookup_insert_eq in He. done.
  - rewrite exec_catch, exec_transaction.
    assert (event_by_key t key (w_db w2) = Some (pr_eventId res)) as Hk2
      by (rewrite Hw2; by apply event_by_key_published).
    pose proof (publish_body_duplicate t dto key w2 _ Hk2) as Hd.
    destruct (publish_body t dto key w2) as [r2 w3]. cbn in Hd. subst r2. cbn [is_unique_violation P2002].
    rewrite bool_decide_eq_true_2 by done. rewrite exec_bind, exec_db_read. cbn [w_db with_db]. rewrite Hk2.
    by cbn.
Qed.

End publish.

(** ** A concrete publication: two subscribers, one of them disabled *)

Definition publish_db : Db :=
  set_tenants (insert "t1" (mkTenant "acme" FREE TENANT_ACTIVE 0))
    (set_endpoints (fun _ => {[ "e1" := mkEndpoint "t1" "https://a.example/hook" "v1:x" ACTIVE None 0 0 0;
                                "e2" := mkEndpoint "t1" "https://b.example/hook" "v1:x" DISABLED_AUTO None 0 1 0 ]})
      (set_subscriptions (fun _ => {[ 1 := mkSubscription "e1" "order.created"; 2 := mkSubscription "e2" "order.created" ]}) 3
        empty_db)).

Definition publish_world := world_at 1000 publish_db 200.
Definition publish_dto : PublishEventDto := mkPublishEventDto "order.created" (JObj [("n", JNum 1)]).

Lemma publish_world_fresh : ids_fresh publish_world.
Proof.
  split; [|intros i _; split; apply lookup_empty].
  intros i j _ _ H. cbn in H. apply (inj (String.append "uuid-")) in H.
  apply (inj dec) in H. lia.
Qed.

