(* ===== verification/Deliveries.v ===== *)
(** * The deliveries API: [deliveries/deliveries.service.ts], [deliveries.controller.ts]

    Keyset pagination with an opaque cursor, the history of attempts, and
    redelivery through the outbox. *)

From S2P Require Import Prelude Errors Effects Json Base64 DateTime Platform Schema World Config TestPlatform.
Open Scope Z_scope.
Open Scope hook_scope.

Definition PAGE_SIZE : nat := 20.

(** ** Cursors *)

(** [DeliveryCursor]: [parsed as DeliveryCursor] is a cast, so a decoded one holds
    any two JSON values. *)
Record DeliveryCursor := mkDeliveryCursor { cu_createdAt : json; cu_id : json }.

Definition encodeCursor (createdAt : Z) (id : string) : string :=
  to_base64url (stringify (JObj [("createdAt", JStr (toISOString createdAt)); ("id", JStr id)])).

Definition truthy (j : option json) : bool :=
  match j with
  | None | Some JNull | Some (JBool false) | Some (JNum 0) | Some (JStr EmptyString) => false
  | _ => true
  end.

Definition decodeCursor (raw : string) : exn + DeliveryCursor :=
  match parse (from_base64 raw) with
  | Some parsed =>
      match field "createdAt" parsed, field "id" parsed with
      | Some c, Some i =>
          if truthy (Some c) && truthy (Some i) then inr (mkDeliveryCursor c i)
          else inl (EDomain Errors.invalidCursor)
      | _, _ => inl (EDomain Errors.invalidCursor)
      end
  | None => inl (EDomain Errors.invalidCursor)
  end.

Lemma decode_encode createdAt id :
  id <> EmptyString ->
  decodeCursor (encodeCursor createdAt id) = inr (mkDeliveryCursor (JStr (toISOString createdAt)) (JStr id)).
Proof.
  intros Hid. unfold decodeCursor, encodeCursor. rewrite from_to_base64url, parse_stringify by done.
  assert (toISOString createdAt <> EmptyString) as Hd.
  { unfold toISOString. destruct (civil_from_days (createdAt / 86400000)) as [[y m] d]. unfold year_text.
    intros E. apply (f_equal String.length) in E. rewrite !str_length_app in E. cbn in E. lia. }
  destruct (toISOString createdAt); [done|]. by destruct id.
Qed.

(** A delivery as the list shows it. *)
Record DeliveryView := mkDeliveryView {
  dv_deliveryId : string;
  dv_endpointId : string;
  dv_endpointUrl : string;
  dv_eventType : string;
  dv_status : DeliveryStatus;
  dv_attemptCount : Z;
  dv_nextRetryAt : option Z;
  dv_createdAt : Z;
  dv_updatedAt : Z;
}.

Definition toView (id : string) (d : Delivery) (url eventType : string) : DeliveryView :=
  mkDeliveryView id (dl_endpointId d) url eventType (dl_status d) (dl_attemptCount d)
    (dl_nextRetryAt d) (dl_createdAt d) (dl_updatedAt d).

(** [orderBy: [{ createdAt: 'desc' }, { id: 'desc' }]] *)
Definition newer (p q : string * Delivery) : Prop :=
  dl_createdAt q.2 < dl_createdAt p.2 \/
  (dl_createdAt q.2 = dl_createdAt p.2 /\ String.le q.1 p.1).

#[export] Instance newer_dec : RelDecision newer.
Proof. intros p q. unfold newer. apply _. Defined.
#[export] Instance newer_total : Total newer.
Proof.
  intros p q. unfold newer. destruct (Z.lt_total (dl_createdAt p.2) (dl_createdAt q.2)) as [|[E|]]; [auto| |auto].
  rewrite E. destruct (total String.le p.1 q.1); auto.
Qed.
#[export] Instance newer_trans : Transitive newer.
Proof.
  intros p q r. unfold newer. intros [?|[E1 ?]] [?|[E2 ?]]; [left; lia|left; lia|left; lia|].
  right. split; [lia|]. by etrans.
Qed.

Section deliveries.
Context `{P : Platform}.
(** What [new Date] makes of a text that is not in [toISOString]'s form, and which
    texts the [uuid] type reads. *)
Context (legacyDate : json -> option Z) (uuid_ok : string -> bool).

(** [new Date(value)] *)
Definition new_Date (j : json) : option Z :=
  match j with
  | JStr s => Date_parse (fun s => legacyDate (JStr s)) s
  | JNum z => if Z.abs z <=? 8640000000000000 then Some z else None
  | JBool b => Some (if b then 1 else 0)
  | _ => legacyDate j
  end.

(** The arguments of the query, as Prisma accepts them. *)
Definition query_cursor (c : DeliveryCursor) : exn + (Z * string) :=
  match new_Date (cu_createdAt c), cu_id c with
  | Some t, JStr id => if uuid_ok id then inr (t, id) else inl (EPrisma "P2023")
  | _, _ => inl (EJs "PrismaClientValidationError" None "Invalid value for argument" None)
  end.

(** [OR: [createdAt < t, createdAt = t and id < cursor.id]] *)
Definition before_cursor (c : option (Z * string)) (p : string * Delivery) : Prop :=
  match c with
  | None => True
  | Some (t, id) => dl_createdAt p.2 < t \/ (dl_createdAt p.2 = t /\ String.ltb p.1 id = true)
  end.

#[export] Instance before_cursor_dec c p : Decision (before_cursor c p).
Proof. destruct c as [[t id]|]; cbn; apply _. Defined.

(** [event: { tenantId }] *)
Definition event_tenant (d : Db) (eventId : string) : option string := ev_tenantId <$> events d !! eventId.

Definition listed (tenantId : string) (status : option DeliveryStatus) (d : Db) (p : string * Delivery) : Prop :=
  event_tenant d (dl_eventId p.2) = Some tenantId /\
  match status with Some s => dl_status p.2 = s | None => True end.

#[export] Instance listed_dec t s d p : Decision (listed t s d p).
Proof. unfold listed. destruct s; apply _. Defined.

Definition matching (tenantId : string) (status : option DeliveryStatus) (c : option (Z * string)) (d : Db)
    : list (string * Delivery) :=
  merge_sort newer (filter (fun p => listed tenantId status d p /\ before_cursor c p) (map_to_list (deliveries d))).

(** A row with its [include]s. *)
Definition join_row (d : Db) (p : string * Delivery) : option (string * Delivery * string * string) :=
  ep ← endpoints d !! dl_endpointId p.2; ev ← events d !! dl_eventId p.2;
  Some (p.1, p.2, ep_url ep, ev_type ev).

Definition find_page (tenantId : string) (status : option DeliveryStatus) (c : option (Z * string)) (d : Db)
    : list (string * Delivery * string * string) :=
  omap (join_row d) (take (PAGE_SIZE + 1) (matching tenantId status c d)).

Definition row_view (r : string * Delivery * string * string) : DeliveryView :=
  let '(id, d, url, type) := r in toView id d url type.

Definition page_result (rows : list (string * Delivery * string * string)) : list DeliveryView * option string :=
  let hasMore := (PAGE_SIZE <? length rows)%nat in
  let page := if hasMore then take PAGE_SIZE rows else rows in
  (row_view <$> page,
   match hasMore, list.last page with
   | true, Some (id, d, _, _) => Some (encodeCursor (dl_createdAt d) id)
   | _, _ => None
   end).

(** [DeliveriesService.list] *)
Definition list_deliveries (tenantId : string) (status : option DeliveryStatus) (cursor : option string)
    : prog World (list DeliveryView * option string) :=
  let* c := match cursor with
    | None | Some EmptyString => Ret None
    | Some raw =>
        match decodeCursor raw with
        | inl e => Throw e
        | inr c => match query_cursor c with inl e => Throw e | inr p => Ret (Some p) end
        end
    end in
  let* rows := db_read (find_page tenantId status c) in
  Ret (page_result rows).

(** [DeliveriesController.list]: an unknown status is no filter. *)
Definition status_of_text (s : string) : option DeliveryStatus :=
  if bool_decide (s = "PENDING") then Some PENDING
  else if bool_decide (s = "SUCCEEDED") then Some SUCCEEDED
  else if bool_decide (s = "FAILED_RETRYING") then Some FAILED_RETRYING
  else if bool_decide (s = "DEAD") then Some DEAD else None.

Definition controller_list (tenantId : string) (status cursor : option string)
    : prog World (list DeliveryView * option string) :=
  list_deliveries tenantId (s ← status; status_of_text s) cursor.

(** ** One delivery *)

Definition find_owned (tenantId deliveryId : string) (d : Db) : option Delivery :=
  dl ← deliveries d !! deliveryId;
  if bool_decide (event_tenant d (dl_eventId dl) = Some tenantId) then Some dl else None.

Definition requireOwned (tenantId deliveryId : string) : prog World Delivery :=
  let* delivery := db_read (find_owned tenantId deliveryId) in
  match delivery with None => Throw (EDomain Errors.deliveryNotFound) | Some d => Ret d end.

Definition attempt_no_le (a b : DeliveryAttempt) : Prop := at_attemptNo a <= at_attemptNo b.

#[export] Instance attempt_no_le_dec : RelDecision attempt_no_le.
Proof. intros a b. unfold attempt_no_le. apply _. Defined.

Definition attempts_of (deliveryId : string) (d : Db) : list DeliveryAttempt :=
  merge_sort attempt_no_le (filter (fun a => at_deliveryId a = deliveryId) (snd <$> map_to_list (attempts d))).

Definition get_attempts (tenantId deliveryId : string) : prog World (Delivery * list DeliveryAttempt) :=
  let* delivery := requireOwned tenantId deliveryId in
  let* l := db_read (attempts_of deliveryId) in
  Ret (delivery, l).

Definition set_pending (d : Delivery) : Delivery :=
  mkDelivery (dl_eventId d) (dl_endpointId d) PENDING (dl_attemptCount d) None (dl_createdAt d) (dl_updatedAt d).

(** The answer is the delivery's id; its status field is the constant PENDING. *)
Definition redeliver (tenantId deliveryId : string) : prog World string :=
  let* delivery := requireOwned tenantId deliveryId in
  transaction (let+ _ := delivery_update deliveryId set_pending in
               outbox_create (dl_eventId delivery) (Some deliveryId)) ;;
  Ret deliveryId.
(** ** Pagination *)

Lemma filter_all {A} (Q : A -> Prop) `{!forall x, Decision (Q x)} (l : list A) :
  (forall x, x ∈ l -> Q x) -> filter Q l = l.
Proof.
  induction l as [|x l IH]; intros Hl; [done|].
  rewrite filter_cons_True by (apply Hl; by left). f_equal. apply IH. intros y Hy. apply Hl. by right.
Qed.

Lemma filter_none {A} (Q : A -> Prop) `{!forall x, Decision (Q x)} (l : list A) :
  (forall x, x ∈ l -> ~ Q x) -> filter Q l = [].
Proof.
  induction l as [|x l IH]; intros Hl; [done|].
  rewrite filter_cons_False by (apply Hl; by left). apply IH. intros y Hy. apply Hl. by right.
Qed.

Lemma ltb_le_ne (a b : string) : String.ltb a b = true <-> String.le a b /\ a <> b.
Proof.
  unfold String.ltb, String.le, String.leb. destruct (String.compare a b) eqn:E.
  - apply String.compare_eq_iff in E. naive_solver.
  - split; [|done]. intros _. split; [done|]. intros ->.
    pose proof (String.compare_antisym b b) as Ha. by rewrite E in Ha.
  - split; [done|]. by intros [[] _].
Qed.

Lemma before_cursor_newer id dl p :
  before_cursor (Some (dl_createdAt dl, id)) p <-> newer (id, dl) p /\ (dl_createdAt p.2 = dl_createdAt dl -> p.1 <> id).
Proof.
  unfold before_cursor, newer. cbn. rewrite ltb_le_ne. split.
  - intros [?|(E & ? & ?)]; [split; [by left|lia]|]. split; [right; split; [lia|done]|done].
  - intros [[?|[E Hle]] Hne]; [by left|]. right. split; [lia|]. split; [done|]. by apply Hne.
Qed.

Lemma matching_perm t s c d :
  matching t s c d ≡ₚ filter (fun p => listed t s d p /\ before_cursor c p) (map_to_list (deliveries d)).
Proof. apply merge_sort_Permutation. Qed.

Lemma matching_elem t s c d id dl :
  (id, dl) ∈ matching t s c d <->
  deliveries d !! id = Some dl /\ listed t s d (id, dl) /\ before_cursor c (id, dl).
Proof. rewrite matching_perm, list_elem_of_filter, elem_of_map_to_list. tauto. Qed.

Lemma matching_sorted t s c d : StronglySorted newer (matching t s c d).
Proof. apply Sorted_StronglySorted; [apply _|]. apply Sorted_merge_sort, _. Qed.

Lemma matching_NoDup t s c d : NoDup (fst <$> matching t s c d).
Proof.
  rewrite matching_perm. apply (sublist_NoDup _ (map_to_list (deliveries d)).*1); [apply NoDup_fst_map_to_list|].
  apply fmap_sublist, sublist_filter.
Qed.

(** What follows a row of the whole list is what its cursor selects. *)
Lemma matching_after t s d L1 id dl L2 :
  matching t s None d = L1 ++ (id, dl) :: L2 -> matching t s (Some (dl_createdAt dl, id)) d = L2.
Proof.
  intros HL. set (c := Some (dl_createdAt dl, id)).
  pose proof (matching_sorted t s None d) as Hs. pose proof (matching_NoDup t s None d) as Hnd.
  pose proof (fun p => matching_elem t s None d p.1 p.2) as Hel. rewrite HL in Hs, Hnd, Hel.
  assert (filter (before_cursor c) (L1 ++ (id, dl) :: L2) = L2) as Hf.
  { rewrite fmap_app in Hnd. cbn in Hnd. apply NoDup_app in Hnd as (_ & Hd & Hnd2). apply NoDup_cons in Hnd2 as [Hni _].
    rewrite filter_app, filter_cons_False by (unfold c; rewrite before_cursor_newer; cbn; intros [_ H]; by apply H).
    rewrite (filter_none _ L1), (filter_all _ L2); [done| |].
    - intros p Hp. apply before_cursor_newer. split.
      + apply StronglySorted_app_1_elem_of with (x1 := (id, dl)) (x2 := p) (l1 := [(id, dl)]) (l2 := L2).
        * by apply StronglySorted_app_1_r in Hs.
        * by left.
        * done.
      + intros _ Heq. apply Hni. rewrite <- Heq. by apply list_elem_of_fmap_2.
    - intros p Hp [Hnew Hne]%before_cursor_newer.
      assert (newer p (id, dl)) as Hnew'.
      { eapply StronglySorted_app_1_elem_of; [exact Hs|exact Hp|by left]. }
      assert (p.1 <> id) as Hpid.
      { intros <-. apply (Hd p.1); [by apply list_elem_of_fmap_2|by left]. }
      unfold newer in Hnew, Hnew'. cbn in Hnew, Hnew'. destruct Hnew as [?|[? Hle]], Hnew' as [?|[? Hle']]; try lia.
      apply Hpid. by apply (anti_symm String.le). }
  assert (matching t s c d ≡ₚ L2) as Hperm.
  { rewrite <- Hf, <- HL. apply NoDup_Permutation.
    - by eapply NoDup_fmap_1, matching_NoDup.
    - by eapply NoDup_filter, NoDup_fmap_1, matching_NoDup.
    - intros [i x]. rewrite list_elem_of_filter, !matching_elem. cbn. tauto. }
  apply (StronglySorted_unique_strong newer); [|apply matching_sorted| |done].
  - intros [i1 d1] [i2 d2] H1 H2 N1 N2. rewrite Hperm in H1.
    assert (forall p, p ∈ L2 -> deliveries d !! p.1 = Some p.2) as Hin.
    { intros [i x] Hx. apply (Hel (i, x)). set_solver. }
    apply Hin in H1, H2. cbn in *. unfold newer in *. cbn in *.
    assert (i1 = i2) as ->; [|by simplify_eq].
    destruct N1 as [?|[? Hle]], N2 as [?|[? Hle']]; try lia. by apply (anti_symm String.le).
  - apply StronglySorted_app_1_r in Hs. by apply StronglySorted_inv in Hs as [? _].
Qed.

(** Following the cursors from page to page. *)
Fixpoint pages (n : nat) (tenantId : string) (status : option DeliveryStatus) (cursor : option string)
    : prog World (list DeliveryView) :=
  match n with
  | O => Ret []
  | S n =>
      let* page := list_deliveries tenantId status cursor in
      match page.2 with
      | None => Ret page.1
      | Some c => let* rest := pages n tenantId status (Some c) in Ret (page.1 ++ rest)
      end
  end.

(** What the schema and the platform guarantee of every delivery: a non-empty
    [uuid], a creation time with a four-digit year, an endpoint and an event. *)
Definition list_wf (d : Db) : Prop :=
  forall id dl, deliveries d !! id = Some dl ->
    id <> EmptyString /\ uuid_ok id = true /\ four_digit_year (dl_createdAt dl) = true /\
    is_Some (endpoints d !! dl_endpointId dl) /\ is_Some (events d !! dl_eventId dl).

Definition joined (d : Db) (l : list (string * Delivery)) : list DeliveryView :=
  row_view <$> omap (join_row d) l.

Definition joins (d : Db) (l : list (string * Delivery)) : Prop :=
  forall p, p ∈ l -> is_Some (join_row d p).

Lemma joins_app d l1 l2 : joins d (l1 ++ l2) -> joins d l1 /\ joins d l2.
Proof. intros H. split; intros p Hp; apply H; set_solver. Qed.

Lemma joined_app d l1 l2 : joined d (l1 ++ l2) = joined d l1 ++ joined d l2.
Proof. unfold joined. by rewrite omap_app, fmap_app. Qed.

Lemma omap_join_length d l : joins d l -> length (omap (join_row d) l) = length l.
Proof.
  induction l as [|p l IH]; intros Hj; [done|].
  cbn [omap list_omap]. destruct (Hj p ltac:(by left)) as [r Hr]. rewrite Hr. cbn [length]. f_equal.
  apply IH. intros q Hq. apply Hj. by right.
Qed.

Lemma join_row_id d p r : join_row d p = Some r -> r.1.1.1 = p.1 /\ r.1.1.2 = p.2.
Proof. unfold join_row. intros (ep & _ & (ev & _ & [= <-])%bind_Some)%bind_Some. done. Qed.

(** A page of a list that is at most a page long, and of a longer one. *)
Lemma page_result_last d l :
  joins d l -> (length l <= PAGE_SIZE)%nat ->
  page_result (omap (join_row d) (take (PAGE_SIZE + 1) l)) = (joined d l, None).
Proof.
  intros Hj Hl. rewrite take_ge by lia. unfold page_result. rewrite (omap_join_length _ _ Hj).
  destruct (Nat.ltb_spec PAGE_SIZE (length l)); [lia|]. done.
Qed.

Lemma page_result_more d l1 id dl l2 :
  joins d (l1 ++ (id, dl) :: l2) -> S (length l1) = PAGE_SIZE -> l2 <> [] ->
  page_result (omap (join_row d) (take (PAGE_SIZE + 1) (l1 ++ (id, dl) :: l2))) =
    (joined d (l1 ++ [(id, dl)]), Some (encodeCursor (dl_createdAt dl) id)).
Proof.
  intros Hj Hl1 Hl2. destruct l2 as [|q l2]; [done|].
  replace (l1 ++ (id, dl) :: q :: l2) with ((l1 ++ [(id, dl); q]) ++ l2) in * by (by rewrite <- app_assoc).
  rewrite take_app_le, take_ge by (rewrite length_app; unfold PAGE_SIZE in *; cbn; lia).
  apply joins_app in Hj as [Hj _]. unfold page_result. rewrite (omap_join_length _ _ Hj).
  assert (length (l1 ++ [(id, dl); q]) = S PAGE_SIZE) as Hlen by (rewrite length_app; cbn; lia).
  rewrite Hlen. destruct (Nat.ltb_spec PAGE_SIZE (S PAGE_SIZE)); [|lia]. clear Hlen.
  replace (l1 ++ [(id, dl); q]) with ((l1 ++ [(id, dl)]) ++ [q]) in * by (by rewrite <- app_assoc).
  apply joins_app in Hj as [Hj _]. rewrite omap_app.
  rewrite take_app_length' by (rewrite omap_join_length, length_app by done; unfold PAGE_SIZE in *; cbn; lia).
  f_equal. rewrite omap_app. cbn. destruct (Hj (id, dl) ltac:(set_solver)) as [r Hr]. rewrite Hr.
  rewrite last_snoc. destruct r as [[[rid rd] u] y]. apply join_row_id in Hr as [? ?]. cbn in *. by subst.
Qed.

(** The cursor given and the position it stands for. *)
Definition cursor_is (cursor : option string) (c : option (Z * string)) : Prop :=
  match c with
  | None => cursor = None
  | Some (t, id) => cursor = Some (encodeCursor t id) /\ four_digit_year t = true /\ uuid_ok id = true /\ id <> EmptyString
  end.

Lemma exec_list t s cursor c w :
  cursor_is cursor c ->
  exec (list_deliveries t s cursor) w =
    (inr (page_result (omap (join_row (w_db w)) (take (PAGE_SIZE + 1) (matching t s c (w_db w))))), w).
Proof.
  intros Hc. unfold list_deliveries. rewrite exec_bind.
  destruct c as [[ct id]|].
  - destruct Hc as (-> & Hy & Hu & Hid). pose proof (decode_encode ct id Hid) as Hdec.
    destruct (encodeCursor ct id) as [|ch rest] eqn:E; [done|]. rewrite Hdec.
    unfold query_cursor. cbn [cu_createdAt cu_id new_Date]. rewrite Date_parse_toISOString by done.
    by rewrite Hu.
  - cbn in Hc. by subst.
Qed.

Lemma exec_pages n t s cursor c w L1 :
  list_wf (w_db w) -> cursor_is cursor c ->
  matching t s None (w_db w) = L1 ++ matching t s c (w_db w) ->
  (length (matching t s c (w_db w)) <= n * PAGE_SIZE)%nat ->
  exec (pages n t s cursor) w = (inr (joined (w_db w) (matching t s c (w_db w))), w).
Proof.
  intros Hwf. revert cursor c L1. induction n as [|n IH]; intros cursor c L1 Hc HL Hlen.
  { destruct (matching t s c (w_db w)); [done|]. cbn in Hlen. lia. }
  assert (joins (w_db w) (matching t s c (w_db w))) as Hj.
  { intros [id dl] (Hdl & _)%matching_elem. destruct (Hwf id dl Hdl) as (_ & _ & _ & [ep Hep] & [ev Hev]).
    unfold join_row. cbn. rewrite Hep. cbn. rewrite Hev. by eexists. }
  cbn [pages]. rewrite exec_bind, (exec_list t s cursor c w Hc).
  destruct (decide (length (matching t s c (w_db w)) <= PAGE_SIZE)%nat) as [Hle|Hgt].
  { by rewrite page_result_last. }
  set (M := matching t s c (w_db w)) in *.
  destruct (lookup_lt_is_Some_2 M (pred PAGE_SIZE)) as [[id dl] Hx]; [cbn; unfold PAGE_SIZE in *; lia|].
  pose proof (take_drop_middle M _ _ Hx) as HM.
  set (l1 := take (pred PAGE_SIZE) M) in *. set (l2 := drop (S (pred PAGE_SIZE)) M) in *.
  assert (length l1 = pred PAGE_SIZE) as Hl1 by (subst l1; rewrite length_take; unfold PAGE_SIZE in *; lia).
  assert (length l2 = (length M - PAGE_SIZE)%nat) as Hl2 by (subst l2; rewrite length_drop; unfold PAGE_SIZE in *; lia).
  rewrite <- HM. rewrite <- HM in Hj. rewrite page_result_more; [|done|rewrite Hl1; done|destruct l2; cbn in Hl2; [lia|done]].
  cbn [snd fst]. rewrite exec_bind.
  assert (deliveries (w_db w) !! id = Some dl) as Hdl.
  { apply list_elem_of_lookup_2 in Hx. subst M. by apply matching_elem in Hx as (? & _). }
  assert (matching t s None (w_db w) = (L1 ++ l1) ++ (id, dl) :: l2) as HL' by (by rewrite HL, <- HM, app_assoc).
  apply matching_after in HL' as Haf. destruct (Hwf id dl Hdl) as (? & ? & ? & _).
  rewrite (IH _ (Some (dl_createdAt dl, id)) ((L1 ++ l1) ++ [(id, dl)])).
  - cbn [exec]. rewrite Haf, <- joined_app, <- app_assoc. done.
  - by split_and!.
  - rewrite Haf, HL', <- !app_assoc. done.
  - rewrite Haf, Hl2. unfold PAGE_SIZE in *. lia.
Qed.

(** ** Redelivery *)

(** The database after a redelivery: the row is PENDING again and one outbox row
    names the delivery. *)
Definition redelivered_db (id : string) (dl : Delivery) (now : Z) (d : Db) : Db :=
  set_outbox (insert (outbox_seq d) (mkOutbox (dl_eventId dl) (Some id) OUTBOX_PENDING None now)) (outbox_seq d + 1)
    (set_deliveries (insert id (touch_delivery now (set_pending dl))) d).

Lemma find_owned_Some t id d dl :
  find_owned t id d = Some dl -> deliveries d !! id = Some dl /\ event_tenant d (dl_eventId dl) = Some t.
Proof. intros (x & Hx & H)%bind_Some. case_bool_decide; by simplify_eq. Qed.

(** ** Properties *)

(** C29.  Pagination is complete and stable: following [nextCursor] from the first
    page of an unchanging database (with at least as many pages as it takes)
    returns every delivery of the tenant with the requested status exactly once,
    newest first, ties by id, and nothing of another tenant. *)
Theorem pages_list_everything n t s w :
  list_wf (w_db w) ->
  let L := matching t s None (w_db w) in
  (length L <= n * PAGE_SIZE)%nat ->
  exec (pages n t s None) w = (inr (joined (w_db w) L), w) /\
  length (joined (w_db w) L) = length L /\ NoDup (fst <$> L) /\ StronglySorted newer L /\
  forall id dl, (id, dl) ∈ L <->
    deliveries (w_db w) !! id = Some dl /\ event_tenant (w_db w) (dl_eventId dl) = Some t /\
    match s with Some st => dl_status dl = st | None => True end.
Proof.
  intros Hwf L Hlen. split; [by apply (exec_pages n t s None None w [])|].
  split; [|split; [apply matching_NoDup|split; [apply matching_sorted|]]].
  - unfold joined. rewrite length_fmap. apply omap_join_length.
    intros [id dl] (Hdl & _)%matching_elem. destruct (Hwf id dl Hdl) as (_ & _ & _ & [ep Hep] & [ev Hev]).
    unfold join_row. cbn. rewrite Hep. cbn. rewrite Hev. by eexists.
  - intros id dl. unfold L. rewrite matching_elem. unfold listed. cbn. tauto.
Qed.

(** A cursor the API did not issue is refused as INVALID_CURSOR (400) when it
    does not decode to an object with both fields, before the database is asked;
    every issued one is accepted. *)
Theorem cursors_checked t s raw w :
  (raw <> EmptyString -> forall e, decodeCursor raw = inl e ->
     exec (list_deliveries t s (Some raw)) w = (inl (EDomain Errors.invalidCursor), w)) /\
  forall createdAt id, id <> EmptyString ->
    decodeCursor (encodeCursor createdAt id) = inr (mkDeliveryCursor (JStr (toISOString createdAt)) (JStr id)).
Proof.
  split; [|apply decode_encode]. intros Hne e He. unfold list_deliveries. destruct raw as [|c r]; [done|].
  rewrite He. cbn. do 2 f_equal. unfold decodeCursor in He. repeat case_match; by simplify_eq.
Qed.

(** Redelivery is a reservation in the database: whatever fails, the database
    is afterwards unchanged or has the delivery PENDING (attempt count kept, retry
    time cleared) together with the one outbox row that names it; an answer means
    the latter; the queue, Redis and the network are not touched; and a delivery
    that is not the tenant's is not found, with nothing written. *)
Theorem redeliver_reserves sched n t id w :
  let '(r, w', _) := run sched n (redeliver t id) w in
  (w_queue w' = w_queue w /\ w_redis w' = w_redis w /\ w_trace w' = w_trace w) /\
  match find_owned t id (w_db w) with
  | None => w_db w' = w_db w /\ forall x, r <> inr x
  | Some dl =>
      (w_db w' = w_db w \/ w_db w' = redelivered_db id dl (w_now w) (w_db w)) /\
      (forall x, r = inr x -> x = id /\ w_db w' = redelivered_db id dl (w_now w) (w_db w))
  end.
Proof.
  unfold redeliver, requireOwned. rewrite !run_bind. unfold db_read, query, call. cbn [run]. unfold Effects.attempt.
  assert (forall e, let '(r, w', _) := (inl e : exn + string, w, S n) in
    (w_queue w' = w_queue w /\ w_redis w' = w_redis w /\ w_trace w' = w_trace w) /\
    match find_owned t id (w_db w) with
    | None => w_db w' = w_db w /\ forall x, r <> inr x
    | Some dl => (w_db w' = w_db w \/ w_db w' = redelivered_db id dl (w_now w) (w_db w)) /\
        (forall x, r = inr x -> x = id /\ w_db w' = redelivered_db id dl (w_now w) (w_db w)) end) as Hfail.
  { intros e. split; [done|]. destruct (find_owned t id (w_db w)); split; auto; done. }
  destruct (sched n) as [|e|e]; cbn [run snd]; [|apply Hfail..].
  destruct (find_owned t id (w_db w)) as [dl|] eqn:Hf; cbn [run]; [|done].
  rewrite run_bind. unfold transaction, call. cbn [run]. unfold Effects.attempt, sbind, delivery_update, outbox_create.
  apply find_owned_Some in Hf as [Hdl _]. rewrite Hdl.
  destruct (sched (S n)) as [|e|e]; cbn [run snd].
  - split; [done|]. cbn. split; [by right|]. by intros x [= <-].
  - split; [done|]. split; [by left|done].
  - split; [done|]. split; [by right|done].
Qed.

End deliveries.

(** ** A concrete history: three deliveries, one of another tenant *)

Definition history_db : Db :=
  set_events (fun _ => {[ "v1" := mkEvent "t1" "order.created" JNull "k1" 0; "v2" := mkEvent "t2" "order.created" JNull "k1" 0 ]})
    (set_endpoints (fun _ => {[ "e1" := mkEndpoint "t1" "https://a.example/hook" "v1:x" ACTIVE None 0 0 0 ]})
      (set_deliveries (fun _ => {[ "d1" := mkDelivery "v1" "e1" DEAD 8 None 5 9; "d2" := mkDelivery "v1" "e1" DEAD 8 None 7 9;
                                   "d3" := mkDelivery "v2" "e1" DEAD 8 None 6 9 ]}) empty_db)).

Lemma pages_list_everything_witness :
  option_map (fun vs => dv_deliveryId <$> vs)
    (match (exec (pages (fun _ => None) (fun _ => true) 1 "t1" (Some DEAD) None) (world_at 1000 history_db 200)).1 with
     | inr vs => Some vs | inl _ => None end) = Some ["d2"; "d1"].
Proof.
  assert (list_wf (fun _ => true) history_db) as Hwf.
  { intros id dl H. unfold history_db in H. cbn in H.
    apply lookup_insert_Some in H as [[<- <-]|[_ H]]; [by split_and!; vm_compute; eauto|].
    apply lookup_insert_Some in H as [[<- <-]|[_ H]]; [by split_and!; vm_compute; eauto|].
    apply lookup_singleton_Some in H as [<- <-]. by split_and!; vm_compute; eauto. }
  destruct (pages_list_everything (fun _ => None) (fun _ => true) 1 "t1" (Some DEAD) (world_at 1000 history_db 200) Hwf)
    as [H _]; [vm_compute; lia|]. rewrite H. vm_compute. reflexivity.
Defined.
