(* ===== verification/Ssrf.v ===== *)
(** * Registering destinations: [security/ssrf.service.ts]

    The check of a URL when an endpoint is created or changed.  The address ranges
    themselves are in [IpAddress.v], the check at connection time in
    [HttpClient.v]. *)

From S2P Require Import Prelude Errors IpAddress Effects Platform Schema World Config TestPlatform HttpClient.
Open Scope Z_scope.
Open Scope hook_scope.

Section ssrf.
Context `{P : Platform}.
Variable cfg : Config.

Definition unsafe (reason : string) : exn := EDomain (Errors.unsafeEndpointUrl reason).

(** [resolveOrReject], with the system resolver. *)
Definition resolveOrReject (hostname : string) : prog World (list string) :=
  catch
    (let* ips := dnsLookup hostname in
     match ips with [] => Throw (Error "empty") | _ => Ret ips end)
    (fun _ => Throw (unsafe "호스트명을 해석할 수 없습니다")).

(** The loop over all the addresses. *)
Fixpoint reject_blocked (ips : list string) : prog World unit :=
  match ips with
  | [] => Ret tt
  | ip :: ips =>
      match blockedIpReason ip with
      | Some reason => Throw (unsafe (reason +:+ (" (" +:+ (ip +:+ ")"))))
      | None => reject_blocked ips
      end
  end.

Definition protocol_ok (protocol : string) : bool :=
  bool_decide (protocol = "https:") || (HR_ALLOW_INSECURE_HTTP cfg && bool_decide (protocol = "http:")).

Definition assertDeliverableUrl (rawUrl : string) : prog World unit :=
  match parse_url rawUrl with
  | None => Throw (unsafe "URL 형식이 아닙니다")
  | Some url =>
      if negb (protocol_ok (url_protocol url)) then Throw (unsafe "https만 허용됩니다")
      else if negb (bool_decide (url_username url = EmptyString)) || negb (bool_decide (url_password url = EmptyString))
      then Throw (unsafe "URL에 자격증명을 포함할 수 없습니다")
      else if HR_ALLOW_PRIVATE_DESTINATIONS cfg then Ret tt
      else
        let hostname := strip_brackets (url_hostname url) in
        let* ips := (if negb (isIP hostname =? 0) then Ret [hostname] else resolveOrReject hostname) in
        reject_blocked ips
  end.

(** ** Which URLs pass *)

(** The addresses a host stands for at draw [n]. *)
Definition addresses_of (n : nat) (hostname : string) : list string :=
  if negb (isIP hostname =? 0) then [hostname]
  else match dns_lookup n hostname with inl _ => [] | inr ips => ips end.

Definition unblocked (ip : string) : bool := match blockedIpReason ip with None => true | Some _ => false end.

Definition deliverable (n : nat) (rawUrl : string) : bool :=
  match parse_url rawUrl with
  | None => false
  | Some url =>
      protocol_ok (url_protocol url) &&
      bool_decide (url_username url = EmptyString) && bool_decide (url_password url = EmptyString) &&
      (HR_ALLOW_PRIVATE_DESTINATIONS cfg ||
       let ips := addresses_of n (strip_brackets (url_hostname url)) in
       negb (bool_decide (ips = [])) && forallb unblocked ips)
  end.

(** The resolver's draw is all that moves. *)
Definition draws_only (w w' : World) : Prop :=
  exists k, w' = mkWorld (w_db w) (w_redis w) (w_queue w) (w_now w) (w_draws w + k) (w_caches w) (w_trace w).

#[export] Instance draws_only_preorder : PreOrder draws_only.
Proof.
  split.
  - intros w. exists 0%nat. rewrite Nat.add_0_r. by destruct w.
  - intros w1 w2 w3 [k1 ->] [k2 ->]. exists (k1 + k2)%nat. cbn. by rewrite Nat.add_assoc.
Qed.

Lemma exec_reject_blocked ips w :
  exists e, exec (reject_blocked ips) w = (if forallb unblocked ips then inr tt else inl (unsafe e), w).
Proof.
  induction ips as [|ip ips [e IH]]; cbn; [by exists EmptyString|].
  unfold unblocked at 1. destruct (blockedIpReason ip) as [reason|]; cbn; [by eexists|]. rewrite IH. by exists e.
Qed.

Lemma exec_assert rawUrl w :
  exists reason w', draws_only w w' /\
    exec (assertDeliverableUrl rawUrl) w =
      (if deliverable (w_draws w) rawUrl then inr tt else inl (unsafe reason), w').
Proof.
  unfold assertDeliverableUrl, deliverable.
  destruct (parse_url rawUrl) as [url|]; [|by eexists _, w].
  destruct (protocol_ok _); cbn [negb andb]; [|by eexists _, w].
  case_bool_decide; cbn [negb andb orb]; [|by eexists _, w].
  case_bool_decide; cbn [negb andb orb]; [|by eexists _, w].
  destruct (HR_ALLOW_PRIVATE_DESTINATIONS cfg); cbn [orb]; [by exists EmptyString, w|].
  rewrite exec_bind. unfold addresses_of. set (h := strip_brackets _).
  destruct (isIP h =? 0); cbn [negb].
  - unfold resolveOrReject. rewrite exec_catch, exec_bind. unfold dnsLookup. rewrite exec_call.
    assert (draws_only w (drawn w)) as Hd by (exists 1%nat; unfold drawn; by rewrite Nat.add_1_r).
    destruct (dns_lookup (w_draws w) h) as [e|ips]; [by eexists _, (drawn w)|].
    destruct ips as [|ip ips]; [by eexists _, (drawn w)|].
    rewrite bool_decide_eq_false_2 by done. cbn [exec negb andb].
    destruct (exec_reject_blocked (ip :: ips) (drawn w)) as [reason ->]. by eexists reason, (drawn w).
  - cbn [exec]. destruct (exec_reject_blocked [h] w) as [reason ->].
    rewrite bool_decide_eq_false_2 by done. by exists reason, w.
Qed.

(** ** Properties *)

(** C33.  Registration admits exactly the deliverable URLs: one that parses, uses
    https (or http where that is allowed), carries no credentials and, unless
    private destinations are allowed, stands for at least one address none of
    which is in a blocked range (one private address among public ones is enough
    to refuse); every other URL is refused as UNSAFE_ENDPOINT_URL (400), and
    nothing but the resolver is used. *)
Theorem registration_admits_deliverable rawUrl w :
  let '(r, w') := exec (assertDeliverableUrl rawUrl) w in
  (w_db w' = w_db w /\ w_redis w' = w_redis w /\ w_queue w' = w_queue w /\ w_trace w' = w_trace w) /\
  (r = inr tt <->
    exists url, parse_url rawUrl = Some url /\
      (url_protocol url = "https:" \/ HR_ALLOW_INSECURE_HTTP cfg = true /\ url_protocol url = "http:") /\
      url_username url = EmptyString /\ url_password url = EmptyString /\
      (HR_ALLOW_PRIVATE_DESTINATIONS cfg = true \/
       addresses_of (w_draws w) (strip_brackets (url_hostname url)) <> [] /\
       forall ip, ip ∈ addresses_of (w_draws w) (strip_brackets (url_hostname url)) -> blockedIpReason ip = None)) /\
  (r <> inr tt -> exists reason, r = inl (EDomain (Errors.unsafeEndpointUrl reason))).
Proof.
  destruct (exec_assert rawUrl w) as (reason & w' & [k ->] & ->). split; [done|].
  assert (deliverable (w_draws w) rawUrl = true <->
    exists url, parse_url rawUrl = Some url /\
      (url_protocol url = "https:" \/ HR_ALLOW_INSECURE_HTTP cfg = true /\ url_protocol url = "http:") /\
      url_username url = EmptyString /\ url_password url = EmptyString /\
      (HR_ALLOW_PRIVATE_DESTINATIONS cfg = true \/
       addresses_of (w_draws w) (strip_brackets (url_hostname url)) <> [] /\
       forall ip, ip ∈ addresses_of (w_draws w) (strip_brackets (url_hostname url)) -> blockedIpReason ip = None)) as Hd.
  { unfold deliverable. destruct (parse_url rawUrl) as [url|]; [|naive_solver].
    unfold protocol_ok.
    rewrite !andb_true_iff, !orb_true_iff, !andb_true_iff, negb_true_iff, !bool_decide_eq_true, bool_decide_eq_false, forallb_forall.
    assert (forall l, (forall ip, List.In ip l -> unblocked ip = true) <-> (forall ip, ip ∈ l -> blockedIpReason ip = None)) as ->.
    { intros l. split; intros H ip Hin.
      - specialize (H ip). rewrite <- list_elem_of_In in H. specialize (H Hin). unfold unblocked in H.
        by destruct (blockedIpReason ip).
      - rewrite <- list_elem_of_In in Hin. unfold unblocked. by rewrite (H ip Hin). }
    naive_solver. }
  split.
  - rewrite <- Hd. destruct (deliverable _ _); naive_solver.
  - destruct (deliverable _ _); [done|]. by eexists.
Qed.

End ssrf.
