(* ===== verification/Endpoints.v ===== *)
(** * Endpoints: [endpoints/endpoints.service.ts], [api-keys/api-key.util.ts]

    Registration with an encrypted secret, updates, subscriptions as a whole and
    the connection test. Every lookup is scoped to the tenant. *)

From S2P Require Import Prelude Errors Effects Json Base64 Platform Schema.
From S2P Require Import World Config TestPlatform SecretCipher HttpClient Ssrf Events.
Open Scope Z_scope.
Open Scope hook_scope.

Record CreateEndpointDto := mkCreateEndpointDto { cd_url : string; cd_description : option string }.

(** An absent field ([None]) is left alone; [IsOptional] also admits null
    ([Some None]).  A status is ACTIVE ([true]) or DISABLED_MANUAL. *)
Record UpdateEndpointDto := mkUpdateEndpointDto {
  ud_url : option (option string);
  ud_description : option (option string);
  ud_status : option (option bool);
}.

Record EndpointView := mkEndpointView {
  evw_id : string;
  evw_url : string;
  evw_description : option string;
  evw_status : EndpointStatus;
  evw_consecutiveFailures : Z;
  evw_createdAt : Z;
}.

Definition endpoint_view (id : string) (e : Endpoint) : EndpointView :=
  mkEndpointView id (ep_url e) (ep_description e) (ep_status e) (ep_consecutiveFailures e) (ep_createdAt e).

(** [[...new Set(l)]] *)
Fixpoint unique_from (seen : list string) (l : list string) : list string :=
  match l with
  | [] => []
  | x :: l => if bool_decide (x ∈ seen) then unique_from seen l else x :: unique_from (x :: seen) l
  end.
Definition unique (l : list string) : list string := unique_from [] l.

(** [l.sort()] *)
Definition sort_strings (l : list string) : list string := merge_sort String.le l.

(** ** Queries *)

(** [findUnique({ tenantId_url })] *)
Definition endpoint_by_url (tenantId url : string) (d : Db) : option string :=
  fst <$> (snd <$> list_find (fun p => ep_tenantId p.2 = tenantId /\ ep_url p.2 = url)
             (map_to_list (endpoints d))).

Definition find_scoped (tenantId id : string) (d : Db) : option Endpoint :=
  e ← endpoints d !! id; if bool_decide (ep_tenantId e = tenantId) then Some e else None.

Definition delete_endpoint (id : string) (d : Db) : Db := set_endpoints (delete id) d.

(** The types an endpoint is subscribed to. *)
Definition event_types (id : string) (d : Db) : list string :=
  sb_eventType <$> filter (fun s => sb_endpointId s = id) (snd <$> map_to_list (subscriptions d)).

Definition newest_first (p q : string * Endpoint) : Prop := ep_createdAt q.2 <= ep_createdAt p.2.

#[export] Instance newest_first_dec : RelDecision newest_first.
Proof. intros p q. unfold newest_first. apply _. Defined.

Definition endpoint_list (tenantId : string) (d : Db) : list (EndpointView * list string) :=
  (fun p => (endpoint_view p.1 p.2, sort_strings (event_types p.1 d))) <$>
    merge_sort newest_first (filter (fun p => ep_tenantId p.2 = tenantId) (map_to_list (endpoints d))).

Section endpoints.
Context `{P : Platform}.
Variable cfg : Config.

(** [generateEndpointSecret] *)
Definition generateEndpointSecret : prog World string :=
  local (fun w => ("whsec_" +:+ to_base64url (randomBytes (w_draws w) 24), drawn w)).

(** ** Statements *)

(** [endpoint.create]: the unique key, the tenant's foreign key, the defaults. *)
Definition endpoint_create (tenantId url : string) (description : option string) (secretEnc : string)
    : stm (string * Endpoint) :=
  let+ id := suuid in
  fun w =>
    let d := w_db w in
    match endpoint_by_url tenantId url d, endpoints d !! id, tenants d !! tenantId with
    | None, None, Some _ =>
        let e := mkEndpoint tenantId url secretEnc ACTIVE description 0 (w_now w) (w_now w) in
        (inr (id, e), with_db (set_endpoints (insert id e)) w)
    | None, None, None => (inl P2003, w)
    | _, _, _ => (inl P2002, w)
    end.

(** [endpoint.update] with the unique key on a changed URL. *)
Definition endpoint_change (id : string) (f : Endpoint -> Endpoint) : stm Endpoint := fun w =>
  match endpoints (w_db w) !! id with
  | None => (inl P2025, w)
  | Some e =>
      let e' := touch_endpoint (w_now w) (f e) in
      match endpoint_by_url (ep_tenantId e') (ep_url e') (delete_endpoint id (w_db w)) with
      | Some _ => (inl P2002, w)
      | None => (inr e', with_db (set_endpoints (insert id e')) w)
      end
  end.

Definition apply_update (dto : UpdateEndpointDto) (e : Endpoint) : Endpoint :=
  mkEndpoint (ep_tenantId e) (match ud_url dto with Some (Some u) => u | _ => ep_url e end) (ep_secretEnc e)
    (match ud_status dto with Some (Some true) => ACTIVE | Some (Some false) => DISABLED_MANUAL | _ => ep_status e end)
    (match ud_description dto with Some s => s | None => ep_description e end)
    (match ud_status dto with Some (Some true) => 0 | _ => ep_consecutiveFailures e end)
    (ep_createdAt e) (ep_updatedAt e).

(** Prisma refuses null for a required column before it sends a statement. *)
Definition null_refused (dto : UpdateEndpointDto) : bool :=
  match ud_url dto, ud_status dto with Some None, _ | _, Some None => true | _, _ => false end.

Definition null_error : exn := EJs "PrismaClientValidationError" None "must not be null" None.

(** [subscription.deleteMany] *)
Definition subscription_deleteMany (endpointId : string) : stm unit :=
  swrite (fun d => set_subscriptions (filter (fun p => sb_endpointId p.2 <> endpointId)) (subscription_seq d) d).

(** [subscription.create]: [event_type] is a [VARCHAR(100)]. *)
Definition subscription_create (endpointId eventType : string) : stm unit := fun w =>
  let d := w_db w in
  if 100 <? Z.of_nat (String.length eventType) then (inl (EPrisma "P2000"), w)
  else match endpoints d !! endpointId with
       | None => (inl P2003, w)
       | Some _ =>
           if subscribed d endpointId eventType then (inl P2002, w)
           else (inr tt, with_db (set_subscriptions (insert (subscription_seq d) (mkSubscription endpointId eventType))
                                   (subscription_seq d + 1)) w)
       end.

Fixpoint subscription_createMany (endpointId : string) (types : list string) : stm unit :=
  match types with
  | [] => sret tt
  | y :: types => let+ _ := subscription_create endpointId y in subscription_createMany endpointId types
  end.

(** ** [EndpointsService] *)

Definition findScoped (tenantId id : string) : prog World Endpoint :=
  let* endpoint := db_read (find_scoped tenantId id) in
  match endpoint with None => Throw (EDomain Errors.endpointNotFound) | Some e => Ret e end.

Definition create (tenantId : string) (dto : CreateEndpointDto) : prog World (EndpointView * string) :=
  assertDeliverableUrl cfg (cd_url dto) ;;
  let* duplicate := db_read (endpoint_by_url tenantId (cd_url dto)) in
  match duplicate with
  | Some _ => Throw (EDomain Errors.endpointUrlExists)
  | None =>
      let* secret := generateEndpointSecret in
      let* secretEnc := encrypt cfg secret in
      let* row := transaction (endpoint_create tenantId (cd_url dto) (cd_description dto) secretEnc) in
      Ret (endpoint_view row.1 row.2, secret)
  end.

Definition list_endpoints (tenantId : string) : prog World (list (EndpointView * list string)) :=
  db_read (endpoint_list tenantId).

Definition get_endpoint (tenantId id : string) : prog World (EndpointView * list string) :=
  let* endpoint := findScoped tenantId id in
  let* types := db_read (event_types id) in
  Ret (endpoint_view id endpoint, sort_strings types).

Definition update_endpoint (tenantId id : string) (dto : UpdateEndpointDto) : prog World EndpointView :=
  findScoped tenantId id ;;
  (match ud_url dto with Some url => assertDeliverableUrl cfg (default "null" url) | None => Ret tt end) ;;
  if null_refused dto then Throw null_error
  else
    let* updated := transaction (endpoint_change id (apply_update dto)) in
    Ret (endpoint_view id updated).

Definition setSubscriptions (tenantId id : string) (eventTypes : list string) : prog World (list string) :=
  findScoped tenantId id ;;
  let types := unique eventTypes in
  transaction (let+ _ := subscription_deleteMany id in subscription_createMany id types) ;;
  Ret (sort_strings types).

Definition ping_payload (endpointId : string) : json := JObj [("ping", JBool true); ("endpointId", JStr endpointId)].

Definition draw_uuid : prog World string := local (fun w => (randomUUID (w_draws w), drawn w)).

Definition ping (tenantId endpointId : string) : prog World (string * string) :=
  findScoped tenantId endpointId ;;
  let* eventId := draw_uuid in
  let* deliveryId := draw_uuid in
  transaction
    (let+ _ := event_insert eventId tenantId "endpoint.ping" (ping_payload endpointId) ("ping:" +:+ deliveryId) in
     let+ _ := delivery_create deliveryId eventId endpointId in
     outbox_create eventId (Some deliveryId)) ;;
  Ret (eventId, deliveryId).
(** ** Lookups *)

Lemma find_scoped_Some t id d e : find_scoped t id d = Some e -> endpoints d !! id = Some e /\ ep_tenantId e = t.
Proof. intros (x & Hx & H)%bind_Some. case_bool_decide; by simplify_eq. Qed.

Lemma exec_findScoped t id w :
  exec (findScoped t id) w =
    (match find_scoped t id (w_db w) with Some e => inr e | None => inl (EDomain Errors.endpointNotFound) end, w).
Proof. unfold findScoped. rewrite exec_bind, exec_db_read. by destruct (find_scoped t id (w_db w)). Qed.

Lemma unique_from_spec seen l x : x ∈ unique_from seen l <-> x ∈ l /\ x ∉ seen.
Proof.
  revert seen. induction l as [|y l IH]; intros seen; cbn [unique_from]; [set_solver|].
  case_bool_decide as Hy; [rewrite IH; set_solver|]. rewrite elem_of_cons, IH.
  destruct (decide (x = y)) as [->|]; set_solver.
Qed.

Lemma unique_from_NoDup seen l : NoDup (unique_from seen l).
Proof.
  revert seen. induction l as [|y l IH]; intros seen; cbn [unique_from]; [constructor|].
  case_bool_decide; [done|]. constructor; [|done]. rewrite unique_from_spec. set_solver.
Qed.

Lemma unique_spec l x : x ∈ unique l <-> x ∈ l.
Proof. unfold unique. rewrite unique_from_spec. set_solver. Qed.

(** ** Subscriptions *)

(** The autoincrement key is above the keys in use. *)
Definition subs_wf (d : Db) : Prop := forall i s, subscriptions d !! i = Some s -> i < subscription_seq d.

Definition fits (y : string) : bool := Z.of_nat (String.length y) <=? 100.

(** The statements of [setSubscriptions] on the table. *)
Definition subs_only (w w' : World) : Prop :=
  exists f n, w' = with_db (set_subscriptions f n) w.

Lemma subs_only_refl w : subs_only w w.
Proof. exists id, (subscription_seq (w_db w)). by destruct w as [[]]. Qed.

Lemma subs_only_trans w1 w2 w3 : subs_only w1 w2 -> subs_only w2 w3 -> subs_only w1 w3.
Proof. intros (f & n & ->) (g & m & ->). by exists (g ∘ f), m. Qed.

Lemma createMany_subs id types w e :
  endpoints (w_db w) !! id = Some e -> subs_wf (w_db w) -> NoDup types ->
  (forall y, y ∈ types -> subscribed (w_db w) id y = false) ->
  exists w', subscription_createMany id types w = (if forallb fits types then inr tt else inl (EPrisma "P2000"), w') /\
    subs_only w w' /\
    (forallb fits types = true -> forall ep y, subscribed (w_db w') ep y = true <->
       subscribed (w_db w) ep y = true \/ ep = id /\ y ∈ types).
Proof.
  revert w. induction types as [|y types IH]; intros w He Hwf Hnd Hno.
  { exists w. split; [done|]. split; [apply subs_only_refl|]. intros _ ep y. set_solver. }
  apply NoDup_cons in Hnd as [Hni Hnd]. cbn [subscription_createMany forallb]. unfold sbind, subscription_create at 1.
  assert ((100 <? Z.of_nat (String.length y)) = negb (fits y)) as ->
    by (unfold fits; destruct (Z.ltb_spec 100 (Z.of_nat (String.length y))), (Z.leb_spec (Z.of_nat (String.length y)) 100); try done; lia).
  destruct (fits y); cbn [negb andb]; [|exists w; split; [done|split; [apply subs_only_refl|done]]].
  rewrite He, Hno by (by left). set (w1 := with_db _ w).
  assert (forall ep y', subscribed (w_db w1) ep y' = true <->
    subscribed (w_db w) ep y' = true \/ ep = id /\ y' = y) as Hsub.
  { intros ep y'. rewrite !subscribed_spec. cbn. split.
    - intros (i & s & [[<- <-]|[Hne Hs]]%lookup_insert_Some & H1 & H2); [by right|left; eauto].
    - intros [(i & s & Hi & ? & ?)|[-> ->]].
      + exists i, s. split; [|done]. rewrite lookup_insert_ne; [done|]. apply Hwf in Hi. lia.
      + eexists _, _. split; [apply lookup_insert_eq|done]. }
  destruct (IH w1) as (w' & -> & Hso & Hs'); [done| |done| |].
  - intros i s. cbn. intros [[<- _]|[_ Hi]]%lookup_insert_Some; [lia|]. apply Hwf in Hi. lia.
  - intros y' Hy'. apply not_true_iff_false. rewrite Hsub. intros [Ht|[_ ->]]; [|done].
    rewrite Hno in Ht by (by right). done.
  - exists w'. split; [done|]. split; [by eapply subs_only_trans; [by eexists _, _|]|].
    intros Hf ep y'. rewrite Hs', Hsub, elem_of_cons by done. naive_solver.
Qed.

(** ** Registration *)

(** The identifiers still to be drawn are not in use. *)
Definition endpoint_ids_free (w : World) : Prop :=
  forall i, (w_draws w <= i)%nat -> endpoints (w_db w) !! randomUUID i = None.

(** A registration that is not refused: the row, and what else moves. *)
Lemma exec_create_ok `{!GcmLaws P} t dto w :
  endpoint_ids_free w ->
  deliverable cfg (w_draws w) (cd_url dto) = true -> endpoint_by_url t (cd_url dto) (w_db w) = None ->
  is_Some (tenants (w_db w) !! t) ->
  exists i e secret n,
    exec (create t dto) w = (inr (endpoint_view (randomUUID i) e, secret),
      mkWorld (set_endpoints (insert (randomUUID i) e) (w_db w)) (w_redis w) (w_queue w) (w_now w) n (w_caches w) (w_trace w)) /\
    (w_draws w <= i < n)%nat /\
    e = mkEndpoint t (cd_url dto) (ep_secretEnc e) ACTIVE (cd_description dto) 0 (w_now w) (w_now w) /\
    decrypt cfg (ep_secretEnc e) = inr secret /\ secret <> EmptyString /\ (String.length secret <= 100)%nat.
Proof.
  intros Hfr Hd Hu [tn Ht]. unfold create. rewrite exec_bind.
  destruct (exec_assert cfg (cd_url dto) w) as (reason & w1 & [k ->] & ->). rewrite Hd.
  rewrite exec_bind, exec_db_read. cbn [w_db]. rewrite Hu.
  rewrite exec_bind. unfold generateEndpointSecret. rewrite exec_local. cbv beta iota zeta.
  set (secret := "whsec_" +:+ _). rewrite exec_bind. unfold encrypt. rewrite exec_local. cbv beta iota zeta.
  rewrite exec_bind, exec_transaction. unfold endpoint_create, sbind, suuid. cbn [w_db w_draws drawn].
  rewrite Hu, Hfr, Ht by lia. assert (secret <> EmptyString) as Hs
    by (intros E; apply (f_equal String.length) in E; subst secret; by rewrite str_length_app in E).
  eexists _, _, secret, _. split; [reflexivity|]. split; [cbn; lia|]. split; [reflexivity|]. split; [|split; [exact Hs|]].
  2:{ unfold secret. rewrite str_length_app. change (String.length "whsec_") with 6%nat.
      match goal with |- context [to_base64url ?x] => pose proof (to_base64url_length x) as Hl end.
      rewrite randomBytes_length in Hl. lia. }
  apply decrypt_seal; try done. intros E.
  pose proof (randomBytes_length (S (w_draws w + k)) 12) as Hl. by rewrite E in Hl.
Qed.

(** A replacement of subscriptions. *)
Lemma exec_setSubscriptions t id types w :
  is_Some (find_scoped t id (w_db w)) -> subs_wf (w_db w) ->
  exists w', exec (setSubscriptions t id types) w =
      (if forallb fits types then inr (sort_strings (unique types)) else inl (EPrisma "P2000"), w') /\
    (if forallb fits types then
       subs_only w w' /\
       forall ep y, subscribed (w_db w') ep y = true <-> if decide (ep = id) then y ∈ types else subscribed (w_db w) ep y = true
     else w_db w' = w_db w).
Proof.
  intros [e Hf] Hwf. unfold setSubscriptions. rewrite exec_bind, exec_findScoped, Hf.
  apply find_scoped_Some in Hf as [He _]. rewrite exec_bind, exec_transaction. unfold sbind, subscription_deleteMany, swrite.
  set (w1 := with_db _ w).
  assert (forall ep y, subscribed (w_db w1) ep y = true <-> subscribed (w_db w) ep y = true /\ ep <> id) as Hdel.
  { intros ep y. rewrite !subscribed_spec. cbn. split.
    - intros (i & s & [Hs Hne]%map_lookup_filter_Some & <- & <-). cbn in Hne. split; [by exists i, s|done].
    - intros [(i & s & Hs & <- & <-) Hne]. exists i, s. split; [|done]. by apply map_lookup_filter_Some. }
  assert (forallb fits types = forallb fits (unique types)) as ->.
  { apply eq_true_iff_eq. rewrite !forallb_forall. split; intros H x Hx; apply H; apply list_elem_of_In;
      apply list_elem_of_In in Hx; by apply unique_spec. }
  destruct (createMany_subs id (unique types) w1 e) as (w' & -> & Hso & Hs).
  - done.
  - intros i s Hi. cbn in Hi. apply map_lookup_filter_Some in Hi as [Hi _]. by apply Hwf in Hi.
  - apply unique_from_NoDup.
  - intros y _. apply not_true_iff_false. rewrite Hdel. by intros [_ ?].
  - destruct (forallb fits (unique types)); cbn [exec]; [|by eexists]. exists w'. split; [done|].
    split; [eapply subs_only_trans; [by eexists _, _|exact Hso]|].
    intros ep y. rewrite Hs, Hdel, unique_spec by done. case_decide; naive_solver.
Qed.

(** ** Properties *)

(** Tenant isolation: an endpoint that does not exist and one that belongs to
    another tenant are the same to every operation: reading, changing, subscribing
    and pinging it answer ENDPOINT_NOT_FOUND (404) and change nothing. *)
Theorem endpoints_scoped t id w dto types :
  (forall e, endpoints (w_db w) !! id = Some e -> ep_tenantId e <> t) ->
  exec (get_endpoint t id) w = (inl (EDomain Errors.endpointNotFound), w) /\
  exec (update_endpoint t id dto) w = (inl (EDomain Errors.endpointNotFound), w) /\
  exec (setSubscriptions t id types) w = (inl (EDomain Errors.endpointNotFound), w) /\
  exec (ping t id) w = (inl (EDomain Errors.endpointNotFound), w).
Proof.
  intros Ht. assert (find_scoped t id (w_db w) = None) as Hf.
  { unfold find_scoped. destruct (endpoints (w_db w) !! id) as [e|] eqn:E; [|done]. cbn.
    by rewrite bool_decide_eq_false_2 by (by apply Ht). }
  unfold get_endpoint, update_endpoint, setSubscriptions, ping.
  split_and!; rewrite exec_bind, exec_findScoped, Hf; done.
Qed.


(** An update on every branch: it fails without a change for a foreign id
    (404), a URL that is not deliverable (400), a status of null (which validation
    lets pass and Prisma refuses: the API answers 500) or a URL that another
    endpoint of the tenant has (the unique violation is not translated: 500 again);
    otherwise exactly the given fields of that one row change, where ACTIVE also
    clears the row's failure counter. Redis, so the breaker's own state, and the
    workers' caches are never touched. *)
Theorem update_endpoint_outcomes t id dto w :
  let '(r, w') := exec (update_endpoint t id dto) w in
  (w_redis w' = w_redis w /\ w_caches w' = w_caches w /\ w_queue w' = w_queue w /\ w_trace w' = w_trace w) /\
  match find_scoped t id (w_db w) with
  | None => r = inl (EDomain Errors.endpointNotFound) /\ w_db w' = w_db w
  | Some e =>
      if match ud_url dto with Some url => negb (deliverable cfg (w_draws w) (default "null" url)) | None => false end
      then w_db w' = w_db w /\ exists reason, r = inl (EDomain (Errors.unsafeEndpointUrl reason))
      else if null_refused dto then r = inl null_error /\ w_db w' = w_db w
      else
        let e' := touch_endpoint (w_now w) (apply_update dto e) in
        match endpoint_by_url t (ep_url e') (delete_endpoint id (w_db w)) with
        | Some _ => r = inl P2002 /\ w_db w' = w_db w
        | None => r = inr (endpoint_view id e') /\ w_db w' = set_endpoints (insert id e') (w_db w)
        end
  end.
Proof.
  unfold update_endpoint. rewrite exec_bind, exec_findScoped.
  destruct (find_scoped t id (w_db w)) as [e|] eqn:Hf; [|done]. apply find_scoped_Some in Hf as [He Ht].
  rewrite exec_bind.
  assert (exists w1, draws_only w w1 /\ exists reason,
    exec (match ud_url dto with Some url => assertDeliverableUrl cfg (default "null" url) | None => Ret tt end) w =
      (if match ud_url dto with Some url => negb (deliverable cfg (w_draws w) (default "null" url)) | None => false end
       then inl (unsafe reason) else inr tt, w1)) as (w1 & Hw1 & reason & ->).
  { destruct (ud_url dto) as [url|]; [|exists w; split; [reflexivity|by exists EmptyString]].
    destruct (exec_assert cfg (default "null" url) w) as (reason & w1 & Hw1 & ->). exists w1. split; [done|]. exists reason.
    by destruct (deliverable _ _ _). }
  destruct Hw1 as [k ->]. destruct (match ud_url dto with Some url => _ | None => false end); [split; [done|split; [done|by eexists]]|].
  destruct (null_refused dto); [done|].
  rewrite exec_bind, exec_transaction. unfold endpoint_change. cbn [w_db w_now]. rewrite He.
  cbn [touch_endpoint apply_update ep_tenantId ep_url]. rewrite Ht.
  by destruct (endpoint_by_url t _ _).
Qed.

(** Subscriptions are replaced as a whole, atomically: when every type fits
    its column the endpoint is afterwards subscribed to exactly the given types
    (duplicates collapsed), every other endpoint as before; a type that is too
    long makes the whole call fail and leaves all subscriptions as they were. *)
Theorem subscriptions_replaced t id types w :
  is_Some (find_scoped t id (w_db w)) -> subs_wf (w_db w) ->
  let '(r, w') := exec (setSubscriptions t id types) w in
  if forallb fits types then
    r = inr (sort_strings (unique types)) /\
    (forall ep y, subscribed (w_db w') ep y = true <->
       if decide (ep = id) then y ∈ types else subscribed (w_db w) ep y = true) /\
    endpoints (w_db w') = endpoints (w_db w)
  else r = inl (EPrisma "P2000") /\ w_db w' = w_db w.
Proof.
  intros Hf Hwf. destruct (exec_setSubscriptions t id types w Hf Hwf) as (w' & -> & Hw).
  destruct (forallb fits types); [|done]. destruct Hw as [(f & n & ->) Hs]. done.
Qed.

(** The database after a ping. *)
Definition pinged (t ep : string) (ids : string * string) (now : Z) (d d' : Db) : Prop :=
  let '(ev, dl) := ids in
  is_Some (find_scoped t ep d) /\ events d !! ev = None /\ deliveries d !! dl = None /\
  d' = set_outbox (insert (outbox_seq d) (mkOutbox ev (Some dl) OUTBOX_PENDING None now)) (outbox_seq d + 1)
         (set_deliveries (insert dl (new_delivery ev ep now))
           (set_events (insert ev (mkEvent t "endpoint.ping" (jsonb_store (ping_payload ep)) ("ping:" +:+ dl) now)) d)).

Lemma ping_body_inv t ep ev dl w r w' :
  is_Some (find_scoped t ep (w_db w)) ->
  (let+ _ := event_insert ev t "endpoint.ping" (ping_payload ep) ("ping:" +:+ dl) in
   let+ _ := delivery_create dl ev ep in
   outbox_create ev (Some dl)) w = (r, w') ->
  w_queue w' = w_queue w /\ w_redis w' = w_redis w /\ w_trace w' = w_trace w /\
  forall x, r = inr x -> pinged t ep (ev, dl) (w_now w) (w_db w) (w_db w').
Proof.
  intros Hf. unfold sbind, event_insert, delivery_create, outbox_create.
  destruct (event_by_key t ("ping:" +:+ dl) (w_db w)) eqn:Hk;
    [by destruct (events (w_db w) !! ev), (tenants (w_db w) !! t); intros [= <- <-]|].
  destruct (events (w_db w) !! ev) eqn:Hev; [by destruct (tenants (w_db w) !! t); intros [= <- <-]|].
  destruct (tenants (w_db w) !! t); [|by intros [= <- <-]].
  cbn [w_db with_db]. destruct (delivery_taken _ _ _ _) eqn:Ht; [by intros [= <- <-]|].
  intros [= <- <-]. split_and!; try done. intros x _. unfold pinged. cbn. split_and!; try done.
  unfold delivery_taken in Ht. cbn in Ht. by destruct (deliveries (w_db w) !! dl).
Qed.

(** A ping reserves one delivery to one endpoint: whatever fails, the database
    is afterwards unchanged or holds, together, one new event, one PENDING delivery
    to that endpoint (subscribed or not) and the outbox row that names it; an
    answer means the latter; nothing is queued or sent by the API itself. *)
Theorem ping_reserves sched n t ep w :
  let '(r, w', _) := run sched n (ping t ep) w in
  (w_queue w' = w_queue w /\ w_redis w' = w_redis w /\ w_trace w' = w_trace w) /\
  (w_db w' = w_db w \/ exists ids, pinged t ep ids (w_now w) (w_db w) (w_db w')) /\
  (forall ids, r = inr ids -> pinged t ep ids (w_now w) (w_db w) (w_db w')).
Proof.
  unfold ping, findScoped. rewrite (run_bind sched n), (run_bind sched n). unfold db_read, query, call. cbn [run]. unfold Effects.attempt.
  destruct (sched n); cbn [run]; [|split; [done|split; [by left|done]]..].
  destruct (find_scoped t ep (w_db w)) as [e|] eqn:Hf; cbn [run]; [|split; [done|split; [by left|done]]].
  unfold draw_uuid. do 2 (rewrite run_bind, run_local; cbn [fst snd]). rewrite run_bind.
  unfold transaction, call. cbn [run]. unfold Effects.attempt.
  set (wd := drawn (drawn w)). set (ev := randomUUID _). set (dl := randomUUID _).
  assert (is_Some (find_scoped t ep (w_db wd))) as Hf' by (by exists e).
  destruct ((let+ _ := event_insert ev t "endpoint.ping" (ping_payload ep) ("ping:" +:+ dl) in
     let+ _ := delivery_create dl ev ep in outbox_create ev (Some dl)) wd) as [r w'] eqn:E.
  apply ping_body_inv in E as (Hq & Hr & Ht & Hp); [|done].
  destruct r as [x|x]; destruct (sched _); cbn [run snd];
    (split; [done|]); split; try done; try (by left); try (right; eexists (ev, dl); by eapply Hp).
  intros ids [= <-]. by eapply Hp.
Qed.

End endpoints.

(** ** Concrete calls, on the tenant and the endpoints of [publish_db] *)

Lemma endpoints_scoped_witness :
  exec (ping "t2" "e1") publish_world = (inl (EDomain Errors.endpointNotFound), publish_world).
Proof.
  apply (endpoints_scoped demo_cfg "t2" "e1" publish_world (mkUpdateEndpointDto None None None) []).
  intros e H. vm_compute in H. injection H as <-. discriminate.
Defined.

(** A tenant with the endpoint that a first registration has given it. *)
Definition registered_world : World (P := always 200) :=
  snd (exec (create demo_cfg "t1" (mkCreateEndpointDto "https://c.example/hook" None)) publish_world).

Lemma registered_ids_free : endpoint_ids_free registered_world.
Proof.
  intros i Hi. assert (w_draws registered_world = 4)%nat as Hd by (vm_compute; reflexivity). rewrite Hd in Hi.
  revert i Hi. apply (ids_drawn_free 200). vm_compute. reflexivity.
Qed.


Lemma subscriptions_replaced_witness :
  (exec (setSubscriptions "t1" "e1" ["payment.done"; "order.paid"; "payment.done"]) publish_world).1 =
    inr ["order.paid"; "payment.done"].
Proof.
  assert (subs_wf (w_db publish_world)) as Hwf.
  { intros i s H. cbn in H |- *. apply lookup_insert_Some in H as [[<- _]|[_ H]]; [lia|].
    apply lookup_singleton_Some in H as [<- _]. lia. }
  pose proof (subscriptions_replaced "t1" "e1" ["payment.done"; "order.paid"; "payment.done"] publish_world
    ltac:(vm_compute; eauto) Hwf) as H.
  destruct (exec (setSubscriptions "t1" "e1" ["payment.done"; "order.paid"; "payment.done"]) publish_world) as [r w'].
  destruct H as [-> _]. vm_compute. reflexivity.
Defined.
