(* ===== verification/Tenancy.v ===== *)
(** * Tenants and their keys: [auth/], [api-keys/], [tenants/tenants.service.ts]

    Key generation and hashing, the guard of the tenant API with its lazy
    revocation, the admin guard, rotation with a grace period, and the creation of
    a tenant with its first key. *)

From S2P Require Import Prelude Errors Effects Base64 Platform Schema World Config TestPlatform.
Open Scope Z_scope.
Open Scope hook_scope.

Definition GRACE_PERIOD_MS : Z := 24 * 60 * 60 * 1000.

(** [s.slice(-4)] *)
Definition last4 (s : string) : string := String.substring (String.length s - 4) 4 s.

(** The rest of [s] after the prefix [p], if it starts with it. *)
Fixpoint after_prefix (p s : string) : option string :=
  match p, s with
  | EmptyString, _ => Some s
  | String a p', String b s' => if Ascii.eqb a b then after_prefix p' s' else None
  | _, _ => None
  end.

Definition startsWith (p s : string) : bool := bool_decide (is_Some (after_prefix p s)).

Lemma after_prefix_Some p s r : after_prefix p s = Some r <-> s = p +:+ r.
Proof.
  revert s. induction p as [|a p IH]; intros s.
  - cbn. split; [by intros [= ->]|by intros ->].
  - destruct s as [|b s]; cbn [after_prefix]; [split; [done|]; intros E; by apply (f_equal String.length) in E; rewrite str_length_app in E|].
    change (String a p +:+ r) with (String a (p +:+ r)). destruct (Ascii.eqb_spec a b) as [->|Hne].
    + rewrite IH. split; [by intros ->|by intros [= ->]].
    + split; [done|]. by intros [= <- _].
Qed.

(** [where: { keyHash }] and its tenant *)
Definition key_by_hash (h : string) (d : Db) : option (string * ApiKey) :=
  snd <$> list_find (fun p => ak_keyHash p.2 = h) (map_to_list (apiKeys d)).

Definition find_key (h : string) (d : Db) : option (string * ApiKey * Tenant) :=
  '(id, k) ← key_by_hash h d; t ← tenants d !! ak_tenantId k; Some (id, k, t).

Definition set_key_status (s : ApiKeyStatus) (k : ApiKey) : ApiKey :=
  mkApiKey (ak_tenantId k) (ak_keyHash k) (ak_last4 k) s (ak_expiresAt k) (ak_createdAt k).

Definition demote (expiresAt : Z) (k : ApiKey) : ApiKey :=
  mkApiKey (ak_tenantId k) (ak_keyHash k) (ak_last4 k) KEY_GRACE (Some expiresAt) (ak_createdAt k).

(** [updateMany({ where: { tenantId, status: 'ACTIVE' } })] *)
Definition demote_active (tenantId : string) (expiresAt : Z) (d : Db) : Db :=
  set_apiKeys (fmap (fun k =>
    if bool_decide (ak_tenantId k = tenantId /\ ak_status k = KEY_ACTIVE) then demote expiresAt k else k)) d.

Section tenancy.
Context `{P : Platform}.
Variable cfg : Config.

(** ** [api-key.util.ts] *)

Definition hashApiKey (key : string) : string := sha256_hex key.

Definition generateApiKey : prog World string :=
  local (fun w => ("sk_live_" +:+ to_base64url (randomBytes (w_draws w) 32), drawn w)).

(** ** [ApiKeyGuard.canActivate] *)

(** The key of an [Authorization] header, empty if it is not a bearer one. *)
Definition bearer (header : option string) : string :=
  default EmptyString (after_prefix "Bearer " (default EmptyString header)).

Definition apiKey_update (id : string) (f : ApiKey -> ApiKey) : stm unit := fun w =>
  match apiKeys (w_db w) !! id with
  | None => (inl P2025, w)
  | Some k => (inr tt, with_db (set_apiKeys (insert id (f k))) w)
  end.

(** A GRACE key that has run out is revoked here. *)
Definition check_grace (id : string) (k : ApiKey) : prog World unit :=
  match ak_status k with
  | KEY_GRACE =>
      let* expired := match ak_expiresAt k with
        | None => Ret true
        | Some x => let* now := Date_now in Ret (x <=? now)
        end in
      if expired : bool then
        transaction (apiKey_update id (set_key_status KEY_REVOKED)) ;;
        Throw (EDomain Errors.invalidApiKey)
      else Ret tt
  | _ => Ret tt
  end.

Definition canActivate (header : option string) : prog World (string * TenantPlan) :=
  let key := bearer header in
  if negb (startsWith "sk_live_" key) then Throw (EDomain Errors.invalidApiKey)
  else
    let* found := db_read (find_key (hashApiKey key)) in
    match found with
    | None => Throw (EDomain Errors.invalidApiKey)
    | Some (id, k, t) =>
        if bool_decide (ak_status k = KEY_REVOKED) then Throw (EDomain Errors.invalidApiKey)
        else
          check_grace id k ;;
          if negb (bool_decide (tn_status t = TENANT_ACTIVE)) then Throw (EDomain Errors.tenantSuspended)
          else Ret (ak_tenantId k, tn_plan t)
    end.

(** ** [AdminGuard.canActivate] *)

(** [timingSafeEqual] on buffers of equal length is equality. *)
Definition admin_canActivate (header : option string) : prog World bool :=
  let provided := default EmptyString header in
  if negb (String.length provided =? String.length (HR_ADMIN_KEY cfg))%nat
     || negb (String.eqb provided (HR_ADMIN_KEY cfg))
  then Throw (EDomain Errors.adminKeyRequired)
  else Ret true.

(** ** [ApiKeysService.rotate] *)

(** [apiKey.create]: the unique hash, the tenant's foreign key. *)
Definition apiKey_create (tenantId key : string) : stm unit :=
  let+ id := suuid in
  fun w =>
    let d := w_db w in
    match key_by_hash (hashApiKey key) d, apiKeys d !! id, tenants d !! tenantId with
    | None, None, Some _ =>
        (inr tt, with_db (set_apiKeys (insert id
           (mkApiKey tenantId (hashApiKey key) (last4 key) KEY_ACTIVE None (w_now w)))) w)
    | None, None, None => (inl P2003, w)
    | _, _, _ => (inl P2002, w)
    end.

(** The answer: the new key and its last four characters. *)
Definition rotate (tenantId : string) : prog World (string * string) :=
  let* key := generateApiKey in
  let* now := Date_now in
  transaction
    (let+ _ := swrite (demote_active tenantId (now + GRACE_PERIOD_MS)) in
     apiKey_create tenantId key) ;;
  Ret (key, last4 key).

(** ** [TenantsService.create] *)

Definition tenant_by_name (name : string) (d : Db) : option string :=
  fst <$> (snd <$> list_find (fun p => tn_name p.2 = name) (map_to_list (tenants d))).

Definition tenant_create (name : string) (plan : TenantPlan) : stm string :=
  let+ id := suuid in
  fun w =>
    match tenant_by_name name (w_db w), tenants (w_db w) !! id with
    | None, None => (inr id, with_db (set_tenants (insert id (mkTenant name plan TENANT_ACTIVE (w_now w)))) w)
    | _, _ => (inl P2002, w)
    end.

Definition create_tenant (name : string) (plan : TenantPlan) : prog World (string * string) :=
  let* exists_ := db_read (tenant_by_name name) in
  match exists_ with
  | Some _ => Throw (EDomain Errors.tenantNameExists)
  | None =>
      let* key := generateApiKey in
      let* id := transaction (let+ id := tenant_create name plan in let+ _ := apiKey_create id key in sret id) in
      Ret (id, key)
  end.
(** ** The guard as a function of the database and the time *)

Definition key_live (now : Z) (k : ApiKey) : bool :=
  match ak_status k with
  | KEY_ACTIVE => true
  | KEY_GRACE => match ak_expiresAt k with Some x => now <? x | None => false end
  | KEY_REVOKED => false
  end.

Definition guard_result (header : option string) (w : World) : exn + (string * TenantPlan) :=
  if negb (startsWith "sk_live_" (bearer header)) then inl (EDomain Errors.invalidApiKey)
  else match find_key (hashApiKey (bearer header)) (w_db w) with
       | None => inl (EDomain Errors.invalidApiKey)
       | Some (_, k, t) =>
           if negb (key_live (w_now w) k) then inl (EDomain Errors.invalidApiKey)
           else if bool_decide (tn_status t = TENANT_ACTIVE) then inr (ak_tenantId k, tn_plan t)
           else inl (EDomain Errors.tenantSuspended)
       end.

Lemma key_by_hash_Some h d id k :
  key_by_hash h d = Some (id, k) -> apiKeys d !! id = Some k /\ ak_keyHash k = h.
Proof.
  unfold key_by_hash. destruct (list_find _ _) as [[i p]|] eqn:E; [|done]. intros [= ->].
  apply list_find_Some in E as (Hi & ? & _). split; [|done]. apply elem_of_map_to_list. by eapply list_elem_of_lookup_2.
Qed.

Lemma key_by_hash_None h d :
  key_by_hash h d = None -> forall id k, apiKeys d !! id = Some k -> ak_keyHash k <> h.
Proof.
  unfold key_by_hash. destruct (list_find _ _) as [[i p]|] eqn:E; [done|]. intros _ id k Hk.
  apply list_find_None in E. rewrite Forall_forall in E. apply (E (id, k)). by apply elem_of_map_to_list.
Qed.

Lemma find_key_Some h d id k t :
  find_key h d = Some (id, k, t) -> apiKeys d !! id = Some k /\ ak_keyHash k = h /\ tenants d !! ak_tenantId k = Some t.
Proof.
  unfold find_key. intros ([id' k'] & Hk & (t' & Ht & [= -> -> ->])%bind_Some)%bind_Some.
  by apply key_by_hash_Some in Hk as [? ?].
Qed.

(** Only a key found expired is written, and only its status. *)
Definition lazily_revoked (header : option string) (w w' : World) : Prop :=
  w' = w \/ exists id k t, find_key (hashApiKey (bearer header)) (w_db w) = Some (id, k, t) /\
    ak_status k = KEY_GRACE /\ key_live (w_now w) k = false /\
    w' = with_db (set_apiKeys (insert id (set_key_status KEY_REVOKED k))) w.

Lemma exec_canActivate header w :
  exists w', exec (canActivate header) w = (guard_result header w, w') /\ lazily_revoked header w w'.
Proof.
  unfold canActivate, guard_result. destruct (startsWith _ _); cbn [negb]; [|exists w; split; [done|by left]].
  rewrite exec_bind, exec_db_read. destruct (find_key (hashApiKey (bearer header)) (w_db w)) as [[[id k] t]|] eqn:Hf;
    [|exists w; split; [done|by left]].
  apply find_key_Some in Hf as Hrow. destruct Hrow as (Hid & _ & _).
  assert (forall w1 : World, exec (if negb (bool_decide (tn_status t = TENANT_ACTIVE))
      then Throw (EDomain Errors.tenantSuspended) else Ret (ak_tenantId k, tn_plan t)) w1 =
    (if bool_decide (tn_status t = TENANT_ACTIVE) then inr (ak_tenantId k, tn_plan t)
     else inl (EDomain Errors.tenantSuspended), w1)) as Htail by (intros w1; by destruct (bool_decide _)).
  assert (ak_status k = KEY_GRACE -> key_live (w_now w) k = false ->
    exec (transaction (apiKey_update id (set_key_status KEY_REVOKED)) ;; Throw (EDomain Errors.invalidApiKey) : prog World unit) w =
      (inl (EDomain Errors.invalidApiKey), with_db (set_apiKeys (insert id (set_key_status KEY_REVOKED k))) w)) as Hrev.
  { intros _ _. rewrite exec_bind, exec_transaction. unfold apiKey_update. by rewrite Hid. }
  unfold check_grace, key_live in *. destruct (ak_status k) eqn:Hs.
  - rewrite bool_decide_eq_false_2 by done. cbn [bind negb]. rewrite Htail. exists w. split; [done|by left].
  - rewrite bool_decide_eq_false_2 by done. rewrite exec_bind, exec_bind.
    destruct (ak_expiresAt k) as [x|] eqn:Hx; cbn [exec].
    + rewrite exec_bind, exec_Date_now. cbn [exec]. rewrite Z.ltb_antisym.
      destruct (x <=? w_now w) eqn:Hlt; cbn [negb].
      * rewrite Hrev by (try done; by rewrite Z.ltb_antisym, Hlt). eexists. split; [done|]. right.
        exists id, k, t. unfold key_live. rewrite Hs, Hx, Z.ltb_antisym, Hlt. done.
      * cbn [exec]. rewrite Htail. exists w. split; [done|by left].
    + rewrite Hrev by done. eexists. split; [done|]. right. exists id, k, t. unfold key_live. by rewrite Hs, Hx.
  - rewrite bool_decide_eq_true_2 by done. cbn [negb]. exists w. split; [done|by left].
Qed.

(** ** Rotation *)

(** [UNIQUE(key_hash)] *)
Definition keys_unique (d : Db) : Prop :=
  forall i j k1 k2, apiKeys d !! i = Some k1 -> apiKeys d !! j = Some k2 -> ak_keyHash k1 = ak_keyHash k2 -> i = j.

Lemma key_by_hash_lookup d id k :
  keys_unique d -> apiKeys d !! id = Some k -> key_by_hash (ak_keyHash k) d = Some (id, k).
Proof.
  intros Hu Hk. destruct (key_by_hash (ak_keyHash k) d) as [[j k']|] eqn:E.
  - apply key_by_hash_Some in E as [Hj Hh]. assert (j = id) as -> by (by eapply Hu). congruence.
  - by destruct (key_by_hash_None _ _ E id k Hk).
Qed.

Lemma demote_active_lookup t x d id :
  apiKeys (demote_active t x d) !! id =
    (fun k => if bool_decide (ak_tenantId k = t /\ ak_status k = KEY_ACTIVE) then demote x k else k) <$> apiKeys d !! id.
Proof. unfold demote_active. cbn. by rewrite lookup_fmap. Qed.

Lemma demote_active_hash t x d id k :
  apiKeys (demote_active t x d) !! id = Some k ->
  exists k0, apiKeys d !! id = Some k0 /\ ak_keyHash k = ak_keyHash k0.
Proof.
  rewrite demote_active_lookup. intros (k0 & Hk0 & ->)%fmap_Some. exists k0. split; [done|]. by destruct (bool_decide _).
Qed.

Lemma key_by_hash_demoted t x h d : key_by_hash h d = None -> key_by_hash h (demote_active t x d) = None.
Proof.
  intros Hn. destruct (key_by_hash h (demote_active t x d)) as [[id k]|] eqn:E; [|done].
  apply key_by_hash_Some in E as [(k0 & Hk0 & Hh)%demote_active_hash Hk].
  destruct (key_by_hash_None _ _ Hn id k0 Hk0). congruence.
Qed.

(** The keys after a rotation. *)
Definition rotated (t key id : string) (now : Z) (d : Db) : Db :=
  set_apiKeys (insert id (mkApiKey t (hashApiKey key) (last4 key) KEY_ACTIVE None now))
    (demote_active t (now + GRACE_PERIOD_MS) d).

Lemma rotated_unique t key id now d :
  keys_unique d -> key_by_hash (hashApiKey key) d = None -> keys_unique (rotated t key id now d).
Proof.
  intros Hu Hn i j k1 k2. unfold rotated. cbn.
  assert (forall i0 k, apiKeys (demote_active t (now + GRACE_PERIOD_MS) d) !! i0 = Some k -> ak_keyHash k <> hashApiKey key) as Hno.
  { intros i0 k (k0 & Hk0 & ->)%demote_active_hash. by eapply key_by_hash_None. }
  intros [[<- <-]|[Hi H1]]%lookup_insert_Some [[<- <-]|[Hj H2]]%lookup_insert_Some Heq; try done.
  - cbn in Heq. destruct (Hno j k2 H2). done.
  - cbn in Heq. by destruct (Hno i k1 H1).
  - apply demote_active_hash in H1 as (a & Ha & Ea), H2 as (b & Hb & Eb). eapply Hu; [exact Ha|exact Hb|congruence].
Qed.

Lemma bearer_header key : bearer (Some ("Bearer " +:+ key)) = key.
Proof. unfold bearer. cbn [default from_option Datatypes.id]. by rewrite (proj2 (after_prefix_Some _ _ key) eq_refl). Qed.

(** The guard on a key whose row is known. *)
Lemma guard_result_row key id k t w :
  startsWith "sk_live_" key = true -> keys_unique (w_db w) -> apiKeys (w_db w) !! id = Some k ->
  ak_keyHash k = hashApiKey key -> tenants (w_db w) !! ak_tenantId k = Some t -> tn_status t = TENANT_ACTIVE ->
  guard_result (Some ("Bearer " +:+ key)) w =
    if key_live (w_now w) k then inr (ak_tenantId k, tn_plan t) else inl (EDomain Errors.invalidApiKey).
Proof.
  intros Hp Hu Hk Hh Ht Ha. unfold guard_result. rewrite bearer_header, Hp. cbn [negb].
  unfold find_key. rewrite <- Hh, (key_by_hash_lookup _ id k Hu Hk). cbn. rewrite Ht. cbn.
  rewrite (bool_decide_eq_true_2 _ Ha). by destruct (key_live _ _).
Qed.

(** ** Properties *)

(** Who gets in: a request is authenticated, as a tenant and with its plan,
    exactly when its header is "Bearer " and a key of the service's form whose hash
    is stored for that tenant, the key is ACTIVE or in its grace period at this
    moment, and the tenant is not suspended; every other request is answered 401
    or 403; and nothing is written except that a GRACE key found expired becomes
    REVOKED. *)
Theorem guard_admits_live_keys header w t plan :
  let '(r, w') := exec (canActivate header) w in
  (r = inr (t, plan) <->
    exists key id k tn, header = Some ("Bearer " +:+ key) /\ startsWith "sk_live_" key = true /\
      find_key (hashApiKey key) (w_db w) = Some (id, k, tn) /\
      (ak_status k = KEY_ACTIVE \/ ak_status k = KEY_GRACE /\ exists x, ak_expiresAt k = Some x /\ w_now w < x) /\
      tn_status tn = TENANT_ACTIVE /\ t = ak_tenantId k /\ plan = tn_plan tn) /\
  (forall e, r = inl e -> e = EDomain Errors.invalidApiKey \/ e = EDomain Errors.tenantSuspended) /\
  lazily_revoked header w w'.
Proof.
  destruct (exec_canActivate header w) as (w' & -> & Hl). split; [|split; [|exact Hl]].
  - unfold guard_result. split.
    + destruct (startsWith "sk_live_" (bearer header)) eqn:Hp; cbn [negb]; [|done].
      destruct (find_key _ _) as [[[id k] tn]|] eqn:Hf; [|done].
      destruct (key_live (w_now w) k) eqn:Hlive; cbn [negb]; [|done]. case_bool_decide as Ha; [|done]. intros [= <- <-].
      exists (bearer header), id, k, tn. split_and!; try done.
      * unfold bearer in *. destruct header as [h|]; [|done]. cbn [default from_option Datatypes.id] in *.
        destruct (after_prefix "Bearer " h) as [r|] eqn:E; [|done]. cbn [default from_option Datatypes.id].
        by apply after_prefix_Some in E as ->.
      * unfold key_live in Hlive. destruct (ak_status k); [by left| |done]. right. split; [done|].
        destruct (ak_expiresAt k) as [x|]; [|done]. exists x. split; [done|]. by apply Z.ltb_lt.
    + intros (key & id & k & tn & -> & Hp & Hf & Hk & Ha & -> & ->). rewrite bearer_header, Hp, Hf. cbn [negb].
      assert (key_live (w_now w) k = true) as ->.
      { unfold key_live. destruct Hk as [->|(-> & x & -> & Hx)]; [done|]. by apply Z.ltb_lt. }
      cbn [negb]. by rewrite bool_decide_eq_true_2.
  - intros e. unfold guard_result. repeat case_match; intros; simplify_eq; auto.
Qed.

(** What the platform has still to draw is not in use: keys whose hash is stored, the
    identifiers of keys, and those of tenants.  Earlier draws are: every key and
    tenant of the program comes from one. *)
Definition keys_to_come (w : World) : Prop :=
  forall n, (w_draws w <= n)%nat ->
    key_by_hash (hashApiKey ("sk_live_" +:+ to_base64url (randomBytes n 32))) (w_db w) = None /\
    apiKeys (w_db w) !! randomUUID n = None.

Definition tenants_to_come (w : World) : Prop :=
  forall n, (w_draws w <= n)%nat -> tenants (w_db w) !! randomUUID n = None.

(** C34.  Rotation without an outage: after [rotate] the new key is accepted from
    now on, every key of the tenant that was ACTIVE is accepted for exactly 24 more
    hours and refused from then on, and no other tenant's key changes.  What is still
    to be drawn is taken to be unused. *)
Theorem rotation_grace t tn w :
  tenants (w_db w) !! t = Some tn -> tn_status tn = TENANT_ACTIVE -> keys_unique (w_db w) ->
  keys_to_come w ->
  let '(r, w') := exec (rotate t) w in
  (exists key, r = inr (key, last4 key) /\ forall d, 0 <= d ->
     (exec (canActivate (Some ("Bearer " +:+ key))) (elapse d w')).1 = inr (t, tn_plan tn)) /\
  (forall old id k d, apiKeys (w_db w) !! id = Some k -> ak_tenantId k = t -> ak_status k = KEY_ACTIVE ->
     ak_keyHash k = hashApiKey old -> startsWith "sk_live_" old = true -> 0 <= d ->
     (exec (canActivate (Some ("Bearer " +:+ old))) (elapse d w')).1 =
       if d <? GRACE_PERIOD_MS then inr (t, tn_plan tn) else inl (EDomain Errors.invalidApiKey)) /\
  (forall id k, apiKeys (w_db w) !! id = Some k -> ak_tenantId k <> t -> apiKeys (w_db w') !! id = Some k).
Proof.
  intros Ht Ha Hu Hc. pose proof (fun n H => proj1 (Hc n H)) as Hkey. pose proof (fun n H => proj2 (Hc n H)) as Hid. unfold rotate. rewrite exec_bind. unfold generateApiKey. rewrite exec_local. cbv beta iota zeta.
  set (key := "sk_live_" +:+ _). rewrite exec_bind, exec_Date_now, exec_bind, exec_transaction.
  unfold sbind, swrite, apiKey_create, sbind, suuid. cbn [w_db w_now w_draws drawn with_db].
  rewrite key_by_hash_demoted by (apply Hkey; lia). set (x := w_now w + GRACE_PERIOD_MS). set (nid := randomUUID _).
  assert (apiKeys (demote_active t x (w_db w)) !! nid = None) as -> by (rewrite demote_active_lookup; unfold nid; by rewrite Hid by lia).
  assert (tenants (demote_active t x (w_db w)) = tenants (w_db w)) as -> by done. rewrite Ht. cbn [exec].
  set (w' := with_db _ _). assert (w_db w' = rotated t key nid (w_now w) (w_db w)) as Hdb by done.
  pose proof (rotated_unique t key nid (w_now w) _ Hu (Hkey (w_draws w) ltac:(lia))) as Hu'. rewrite <- Hdb in Hu'.
  assert (tenants (w_db w') !! t = Some tn) as Ht' by done.
  split; [|split].
  - exists key. split; [done|]. intros d Hd.
    destruct (exec_canActivate (Some ("Bearer " +:+ key)) (elapse d w')) as (w2 & -> & _). cbn [fst].
    rewrite (guard_result_row key nid (mkApiKey t (hashApiKey key) (last4 key) KEY_ACTIVE None (w_now w)) tn); try done.
    cbn. apply lookup_insert_eq.
  - intros old id k d Hk Hkt Hks Hkh Hp Hd.
    destruct (exec_canActivate (Some ("Bearer " +:+ old)) (elapse d w')) as (w2 & -> & _). cbn [fst].
    assert (apiKeys (w_db w') !! id = Some (demote x k)) as Hk'.
    { rewrite Hdb. unfold rotated. cbn. rewrite lookup_insert_ne.
      - fold x. rewrite lookup_fmap, Hk. cbn. by rewrite bool_decide_eq_true_2.
      - intros <-. unfold nid in Hk. by rewrite Hid in Hk by lia. }
    rewrite (guard_result_row old id (demote x k) tn); try done; [|cbn; by rewrite Hkt].
    cbn. rewrite Hkt. rewrite Z.max_r by lia. unfold x.
    assert ((w_now w + d <? w_now w + GRACE_PERIOD_MS) = (d <? GRACE_PERIOD_MS)) as ->; [|done].
    destruct (Z.ltb_spec d GRACE_PERIOD_MS), (Z.ltb_spec (w_now w + d) (w_now w + GRACE_PERIOD_MS)); try done; lia.
  - intros id k Hk Hkt. rewrite Hdb. unfold rotated. cbn. rewrite lookup_insert_ne.
    + rewrite lookup_fmap, Hk. cbn. rewrite bool_decide_eq_false_2; [done|]. by intros [? _].
    + intros <-. unfold nid in Hk. by rewrite Hid in Hk by lia.
Qed.

(** The first key opens the door: creating a tenant answers 409 with nothing
    written for a used name, and otherwise writes an ACTIVE tenant and one key that
    the guard accepts for exactly that tenant and plan; the key itself is not
    stored, only its hash. *)
Theorem create_tenant_outcomes name plan w :
  keys_unique (w_db w) ->
  keys_to_come w -> tenants_to_come w ->
  let '(r, w') := exec (create_tenant name plan) w in
  match tenant_by_name name (w_db w) with
  | Some _ => r = inl (EDomain Errors.tenantNameExists) /\ w' = w
  | None => exists id key kid, r = inr (id, key) /\
      tenants (w_db w') = <[id := mkTenant name plan TENANT_ACTIVE (w_now w)]> (tenants (w_db w)) /\
      apiKeys (w_db w') = <[kid := mkApiKey id (hashApiKey key) (last4 key) KEY_ACTIVE None (w_now w)]> (apiKeys (w_db w)) /\
      (exec (canActivate (Some ("Bearer " +:+ key))) w').1 = inr (id, plan)
  end.
Proof.
  intros Hu Hc Htc. pose proof (fun n H => proj1 (Hc n H)) as Hkey. pose proof (fun n H => proj2 (Hc n H)) as Hid. unfold create_tenant. rewrite exec_bind, exec_db_read.
  destruct (tenant_by_name name (w_db w)) eqn:Hn; [done|].
  rewrite exec_bind. unfold generateApiKey. rewrite exec_local. cbv beta iota zeta. set (key := "sk_live_" +:+ _).
  rewrite exec_bind, exec_transaction. unfold sbind, tenant_create, apiKey_create, sbind, suuid, sret.
  cbn [w_db w_now w_draws drawn]. rewrite Hn, Htc by lia. cbn [w_db w_now w_draws drawn with_db].
  set (id := randomUUID (S (w_draws w))). set (kid := randomUUID _).
  assert (forall h d, key_by_hash h (set_tenants (insert id (mkTenant name plan TENANT_ACTIVE (w_now w))) d) = key_by_hash h d) as Hkh by done.
  rewrite Hkh. unfold key at 1. rewrite Hkey by lia. fold key.
  assert (forall d, apiKeys (set_tenants (insert id (mkTenant name plan TENANT_ACTIVE (w_now w))) d) = apiKeys d) as -> by done.
  unfold kid at 1. rewrite Hid by lia. fold kid.
  cbn [tenants set_tenants]. rewrite lookup_insert_eq. cbn [exec].
  eexists id, key, kid. split; [done|]. split; [done|]. split; [done|].
  set (w' := with_db _ _).
  destruct (exec_canActivate (Some ("Bearer " +:+ key)) w') as (w2 & -> & _). cbn [fst].
  rewrite (guard_result_row key kid (mkApiKey id (hashApiKey key) (last4 key) KEY_ACTIVE None (w_now w)) (mkTenant name plan TENANT_ACTIVE (w_now w))); try done.
  - intros i j k1 k2. unfold w'. cbn.
    assert (forall i k, apiKeys (w_db w) !! i = Some k -> ak_keyHash k <> hashApiKey key) as Hno
      by (intros i0 k0; apply key_by_hash_None, Hkey; lia).
    intros [[<- <-]|[Hi H1]]%lookup_insert_Some [[<- <-]|[Hj H2]]%lookup_insert_Some Heq; try done.
    + by destruct (Hno j k2 H2).
    + by destruct (Hno i k1 H1).
    + by eapply Hu.
  - unfold w'. cbn. apply lookup_insert_eq.
  - unfold w'. cbn. apply lookup_insert_eq.
Qed.

End tenancy.

(** ** Tenants that the program makes *)

Lemma keys_unique_check d : NoDup (ak_keyHash <$> (map_to_list (apiKeys d)).*2) -> keys_unique d.
Proof.
  intros Hnd i j k1 k2 H1 H2 Hh. apply elem_of_map_to_list in H1, H2.
  apply list_elem_of_lookup in H1 as [a Ha], H2 as [b Hb].
  assert (a = b) as ->; [|congruence]. eapply (NoDup_lookup _ a b (ak_keyHash k1)); [exact Hnd|..].
  - by rewrite !list_lookup_fmap, Ha.
  - by rewrite !list_lookup_fmap, Hb, Hh.
Qed.

Definition world_of {A} (x : A * World (P := always 200)) : World (P := always 200) := snd x.

(** A first tenant, made from nothing, whose key has been rotated since. *)
Definition founded_world := world_of (exec (create_tenant "acme" PRO) (world_at 1000 empty_db 200)).
Definition tenancy_world := world_of (exec (rotate "uuid-1") founded_world).

Definition key_at (n : nat) : string := "sk_live_" +:+ to_base64url (randomBytes (Platform := always 200) n 32).

(** The draws after the fifth differ from the first and the fourth. *)
Lemma key_at_other n : (5 <= n)%nat -> key_at n <> key_at 0 /\ key_at n <> key_at 3.
Proof.
  intros Hn. do 5 (destruct n as [|n]; [lia|]). clear Hn. unfold key_at.
  change (randomBytes (Platform := always 200) (S (S (S (S (S n))))) 32) with
    ("BBBBB" +:+ string_of_list_ascii (replicate (n `min` 27) "B"%char ++ replicate (27 - n) "A"%char)).
  generalize (string_of_list_ascii (replicate (n `min` 27) "B"%char ++ replicate (27 - n) "A"%char)) as s. intros s.
  split; intros H; apply (f_equal (String.get 13)) in H; destruct s as [|a [|b s]]; vm_compute in H; discriminate H.
Qed.

Lemma tenancy_hashes : ak_keyHash <$> (map_to_list (apiKeys (w_db tenancy_world))).*2 = [key_at 0; key_at 3].
Proof. vm_compute. reflexivity. Qed.

Lemma tenancy_unique : keys_unique (w_db tenancy_world).
Proof.
  apply keys_unique_check. rewrite tenancy_hashes. apply NoDup_cons. split; [|apply NoDup_singleton].
  rewrite list_elem_of_singleton. vm_compute. discriminate.
Qed.

Lemma key_by_hash_absent h d : h ∉ ak_keyHash <$> (map_to_list (apiKeys d)).*2 -> key_by_hash h d = None.
Proof.
  intros Hh. destruct (key_by_hash h d) as [[id k]|] eqn:E; [|done]. apply key_by_hash_Some in E as [Hk <-].
  destruct Hh. apply list_elem_of_fmap. exists k. split; [done|]. apply list_elem_of_fmap. exists (id, k). split; [done|].
  by apply elem_of_map_to_list.
Qed.

Lemma tenancy_keys_to_come : keys_to_come tenancy_world.
Proof.
  intros n Hn. assert (w_draws tenancy_world = 5)%nat as Hd by (vm_compute; reflexivity). rewrite Hd in Hn. split.
  - apply key_by_hash_absent. rewrite tenancy_hashes. change (key_at n ∉ [key_at 0; key_at 3]).
    destruct (key_at_other n Hn) as [H0 H3]. rewrite elem_of_cons, list_elem_of_singleton.
    intros [E|E]; [exact (H0 E)|exact (H3 E)].
  - revert n Hn. apply (ids_drawn_free 200). vm_compute. reflexivity.
Qed.

Lemma tenancy_tenants_to_come : tenants_to_come tenancy_world.
Proof. intros n Hn. apply (ids_drawn_free 200 5); [vm_compute; reflexivity|]. exact Hn. Qed.

(** The key that the rotation has given to it. *)
Definition tenancy_key : string := key_at 3.

(** Another rotation for that tenant: the key it had, an hour and two days later. *)
Lemma rotation_grace_witness :
  let w' := world_of (exec (rotate "uuid-1") tenancy_world) in
  (exec (canActivate (Some ("Bearer " +:+ tenancy_key))) (elapse 3600000 w')).1 = inr ("uuid-1", PRO) /\
  (exec (canActivate (Some ("Bearer " +:+ tenancy_key))) (elapse 172800000 w')).1 = inl (EDomain Errors.invalidApiKey).
Proof.
  assert (tenants (w_db tenancy_world) !! "uuid-1" = Some (mkTenant "acme" PRO TENANT_ACTIVE 1000)) as Ht by (vm_compute; reflexivity).
  assert (apiKeys (w_db tenancy_world) !! "uuid-4" =
    Some (mkApiKey "uuid-1" (hashApiKey (P := always 200) tenancy_key) (last4 tenancy_key) KEY_ACTIVE None 1000)) as Hk by (vm_compute; reflexivity).
  pose proof (rotation_grace (P := always 200) "uuid-1" _ tenancy_world Ht eq_refl tenancy_unique tenancy_keys_to_come) as H.
  unfold world_of. destruct (exec (rotate "uuid-1") tenancy_world) as [r w']. destruct H as (_ & H & _). cbn [snd].
  assert (startsWith "sk_live_" tenancy_key = true) as Hs by (vm_compute; reflexivity).
  split; [exact (H tenancy_key "uuid-4" _ 3600000 Hk eq_refl eq_refl eq_refl Hs ltac:(lia))|
          exact (H tenancy_key "uuid-4" _ 172800000 Hk eq_refl eq_refl eq_refl Hs ltac:(lia))].
Defined.

(** A second tenant, after the first. *)
Lemma create_tenant_outcomes_witness :
  exists id key w', exec (create_tenant "globex" FREE) tenancy_world = (inr (id, key), w') /\
    (exec (canActivate (Some ("Bearer " +:+ key))) w').1 = inr (id, FREE).
Proof.
  pose proof (create_tenant_outcomes (P := always 200) "globex" FREE tenancy_world tenancy_unique tenancy_keys_to_come
    tenancy_tenants_to_come) as H.
  destruct (exec (create_tenant "globex" FREE) tenancy_world) as [r w'].
  assert (tenant_by_name "globex" (w_db tenancy_world) = None) as Hn by (vm_compute; reflexivity). rewrite Hn in H.
  destruct H as (id & key & kid & -> & _ & _ & H). exists id, key, w'. split; [reflexivity|exact H].
Defined.
