(* ===== verification/Footprint.v ===== *)
(** * Footprints: what the programs may do to the shared state

    [Footprint Rel] is the interface between an invariant of the shared state and
    the programs of the API, the relay and the worker.  [BaseFootprint Rel]: [Rel] is
    kept by every process-local step and every Redis and queue command;
    [Footprint Rel] adds the transactions of the API, and [EndpointFootprint Rel]
    those of the endpoints API, which some invariants justify only by what the
    handler has checked before.  Every program then keeps [Rel] at each of its actions
    ([acts]), which is what the pool of interleaved programs needs.  The transactions
    that some invariants have to treat on their own (claiming and settling an attempt,
    a redelivery, marking outbox rows) stay hypotheses of the programs they occur
    in. *)

From S2P Require Import Prelude JsNumber Backoff Errors Effects Json Platform Schema Registry World Config Signature.
From S2P Require Import CircuitStore TenantLimiter SecretCipher EndpointCache HttpClient Processor Worker.
From S2P Require Import Relay RateLimit Events Deliveries Ssrf Endpoints Tenancy.
Open Scope Z_scope.
Open Scope hook_scope.

Class BaseFootprint `{P : Platform} (Rel : World -> World -> Prop) := {
  fp_preorder :: PreOrder Rel;
  (** whatever touches neither the database, the caches nor the trace *)
  fp_local : forall w w', w_db w' = w_db w -> w_caches w' = w_caches w -> w_trace w' = w_trace w -> Rel w w';
  (** whatever is observed apart from requests to receivers, with metrics called as
      the registry wants *)
  fp_observe : forall o w, is_http o = false -> obs_ok o = true -> Rel w (observe o w);
}.

Class Footprint `{P : Platform} (Rel : World -> World -> Prop) := {
  fp_base :: BaseFootprint Rel;
  fp_publish : forall t dto key, acts Rel (transaction (publish_body t dto key));
  fp_subscriptions : forall id types, acts Rel (transaction
    (let+ _ := subscription_deleteMany id in subscription_createMany id (unique types)));
  fp_apiKey_update : forall id s, acts Rel (transaction (apiKey_update id (set_key_status s)));
  fp_rotate : forall t x key, acts Rel (transaction
    (let+ _ := swrite (demote_active t x) in apiKey_create t key));
  fp_tenant : forall name plan key, acts Rel (transaction
    (let+ id := tenant_create name plan in let+ _ := apiKey_create id key in sret id));
}.

(** The transactions of the endpoints API whose effect may depend on what their
    handler has checked before. *)
Class EndpointFootprint `{P : Platform} (Rel : World -> World -> Prop) := {
  fp_ping : forall e t p k d ep, acts Rel (transaction
    (let+ _ := event_insert e t "endpoint.ping" p k in
     let+ _ := delivery_create d e ep in
     outbox_create e (Some d)));
  fp_endpoint_create : forall t url desc sec, acts Rel (transaction (endpoint_create t url desc sec));
  fp_endpoint_change : forall id dto, acts Rel (transaction (endpoint_change id (apply_update dto)));
}.

(** ** Transactions away from events, deliveries, attempts and the outbox *)

Section elsewhere.
Context `{P : Platform}.

Definition elsewhere {R} (s : stm R) : Prop :=
  db_only s /\ forall w, let d := w_db w in let d' := w_db (s w).2 in
    events d' = events d /\ deliveries d' = deliveries d /\
    attempts d' = attempts d /\ attempt_seq d' = attempt_seq d /\
    outbox d' = outbox d /\ outbox_seq d' = outbox_seq d.

Lemma elsewhere_bind {R R'} (s : stm R) (k : R -> stm R') :
  elsewhere s -> (forall x, elsewhere (k x)) -> elsewhere (sbind s k).
Proof.
  intros [Hd Hs] Hk. split; [apply db_only_bind; [done|intros x; apply Hk]|].
  intros w. unfold sbind. specialize (Hs w). destruct (s w) as [[e|x] w1]; [done|]. cbn in Hs |- *.
  destruct Hs as (? & ? & ? & ? & ? & ?). destruct (proj2 (Hk x) w1) as (? & ? & ? & ? & ? & ?). cbn in *.
  split_and!; congruence.
Qed.

Lemma elsewhere_ret {R} (x : R) : elsewhere (sret x).
Proof. done. Qed.

Lemma elsewhere_uuid : elsewhere suuid.
Proof. done. Qed.

Lemma elsewhere_endpoint_create t url desc sec : elsewhere (endpoint_create t url desc sec).
Proof.
  apply elsewhere_bind; [done|]. intros id. split; intros w; cbv zeta;
    destruct (endpoint_by_url t url (w_db w)), (endpoints (w_db w) !! id), (tenants (w_db w) !! t); done.
Qed.

Lemma elsewhere_endpoint_change id f : elsewhere (endpoint_change id f).
Proof.
  split; intros w; unfold endpoint_change; destruct (endpoints (w_db w) !! id) as [e|]; try done;
    destruct (endpoint_by_url _ _ _); done.
Qed.

Lemma elsewhere_endpoint_update id f : elsewhere (endpoint_update id f).
Proof. split; intros w; unfold endpoint_update; by destruct (endpoints (w_db w) !! id). Qed.

Lemma elsewhere_subscriptions id types :
  elsewhere (let+ _ := subscription_deleteMany id in subscription_createMany id types).
Proof.
  apply elsewhere_bind; [done|]. intros _. induction types as [|y types IH]; [done|].
  apply elsewhere_bind; [|intros _; exact IH]. split; intros w; unfold subscription_create; cbv zeta;
    destruct (100 <? _); try done; destruct (endpoints (w_db w) !! id); try done;
    destruct (subscribed (w_db w) id y); done.
Qed.

Lemma elsewhere_apiKey_update id f : elsewhere (apiKey_update id f).
Proof. split; intros w; unfold apiKey_update; by destruct (apiKeys (w_db w) !! id). Qed.

Lemma elsewhere_apiKey_create t key : elsewhere (apiKey_create t key).
Proof.
  apply elsewhere_bind; [done|]. intros id. split; intros w; cbv zeta;
    destruct (key_by_hash (hashApiKey key) (w_db w)), (apiKeys (w_db w) !! id), (tenants (w_db w) !! t); done.
Qed.

Lemma elsewhere_tenant_create name plan : elsewhere (tenant_create name plan).
Proof.
  apply elsewhere_bind; [done|]. intros id. split; intros w;
    destruct (tenant_by_name name (w_db w)), (tenants (w_db w) !! id); done.
Qed.

(** A relation that ignores these tables has the footprint as soon as it is kept
    by a publication and a ping. *)
Lemma footprint_elsewhere (Rel : World -> World -> Prop) :
  PreOrder Rel ->
  (forall w w', w_db w' = w_db w -> w_caches w' = w_caches w -> w_trace w' = w_trace w -> Rel w w') ->
  (forall o w, is_http o = false -> obs_ok o = true -> Rel w (observe o w)) ->
  (forall R (s : stm R), elsewhere s -> acts Rel (transaction s)) ->
  (forall t dto key, acts Rel (transaction (publish_body t dto key))) ->
  Footprint Rel.
Proof.
  intros H1 H2 H3 He H4. split; [split; auto|done|intros; apply He..].
  - apply elsewhere_subscriptions.
  - apply elsewhere_apiKey_update.
  - apply elsewhere_bind; [done|]. intros _. apply elsewhere_apiKey_create.
  - apply elsewhere_bind; [apply elsewhere_tenant_create|]. intros id.
    apply elsewhere_bind; [apply elsewhere_apiKey_create|]. intros _. apply elsewhere_ret.
Qed.

Lemma endpoint_footprint_elsewhere (Rel : World -> World -> Prop) :
  (forall R (s : stm R), elsewhere s -> acts Rel (transaction s)) ->
  (forall e t p k d ep, acts Rel (transaction
    (let+ _ := event_insert e t "endpoint.ping" p k in
     let+ _ := delivery_create d e ep in outbox_create e (Some d)))) ->
  EndpointFootprint Rel.
Proof.
  intros He H. split; [done|intros; apply He..].
  - apply elsewhere_endpoint_create.
  - apply elsewhere_endpoint_change.
Qed.

End elsewhere.

Section footprint.
Context `{P : Platform}.
Context (Rel : World -> World -> Prop) `{F : !BaseFootprint Rel}.

(** ** Single actions *)

Lemma fp_read {R} (f : Db -> R) : acts Rel (db_read f).
Proof. by apply acts_db_read, _. Qed.

Lemma fp_now : acts Rel Date_now.
Proof. by apply acts_query, _. Qed.

Lemma fp_metric op m labels v : call_ok op m labels v = true -> acts Rel (metric_call op m labels v).
Proof. intros H. apply acts_update. intros w. by apply fp_observe. Qed.

Lemma fp_result r : acts Rel (inc deliveriesTotal [("result", result_label r)]).
Proof. apply fp_metric. by destruct r. Qed.

Lemma fp_class c : acts Rel (inc deliveryErrorsTotal [("error_class", class_label c)]).
Proof. apply fp_metric. by destruct c. Qed.

Lemma fp_local_step {R} (f : World -> R * World) :
  (forall w, w_db (f w).2 = w_db w /\ w_caches (f w).2 = w_caches w /\ w_trace (f w).2 = w_trace w) -> acts Rel (local f).
Proof. intros Hf. apply acts_call. intros w. destruct (Hf w) as (? & ? & ?). destruct (f w). by apply fp_local. Qed.

Lemma fp_dns h : acts Rel (dnsLookup h).
Proof. apply acts_call. intros w. by apply fp_local. Qed.

Lemma fp_redis {A} (p : prog World A) : acts redis_step p -> acts Rel p.
Proof. apply acts_mono. intros w w' ->. by apply fp_local. Qed.

Lemma fp_circuit {A} (p : prog World A) : acts circuit_step p -> acts Rel p.
Proof. apply acts_mono. intros w w' [-> _]. by apply fp_local. Qed.

End footprint.

(** A call of a metric. *)
Ltac fp_count :=
  match goal with
  | |- acts ?R _ => first [by apply (fp_result R) | by apply (fp_class R) | by apply (fp_metric R)]
  end.

(** Programs built from such steps. *)
Ltac fp :=
  repeat first
    [ done
    | match goal with |- acts ?R _ => first [apply (fp_read R) | apply (fp_now R) | by apply (fp_metric R) | apply (fp_dns R)] end
    | apply acts_bind | apply acts_catch | apply acts_finally
    | progress intros
    | case_match ].

(** ** Programs without transactions of the API *)

Section base_programs.
Context `{P : Platform}.
Context (Rel : World -> World -> Prop) `{F : !BaseFootprint Rel}.
Variable cfg : Config.

Lemma consume_footprint t plan : acts Rel (consume cfg t plan).
Proof.
  unfold consume. destruct (_ || _); [done|]. apply acts_catch; [|intros e; by destruct (is_domain e)].
  apply acts_bind; [apply (fp_redis Rel), redis_try_step|]. intros [used ttl]. destruct (_ <? _); [|done].
  apply acts_bind; [apply (fp_metric Rel); by destruct plan|done].
Qed.

Lemma getDeliveries_footprint t ev : acts Rel (getDeliveries t ev).
Proof. unfold getDeliveries. fp. Qed.

Lemma list_deliveries_footprint legacyDate uuid_ok t s c :
  acts Rel (list_deliveries legacyDate uuid_ok t s c).
Proof. unfold list_deliveries. fp. Qed.

Lemma get_attempts_footprint t d : acts Rel (get_attempts t d).
Proof. unfold get_attempts, requireOwned. fp. Qed.

Lemma resolve_footprint h : acts Rel (resolveOrReject h).
Proof. unfold resolveOrReject. fp. Qed.

Lemma reject_footprint ips : acts Rel (reject_blocked ips).
Proof. induction ips as [|ip ips IH]; cbn; fp. Qed.

Lemma assert_footprint url : acts Rel (assertDeliverableUrl cfg url).
Proof.
  unfold assertDeliverableUrl. destruct (parse_url url) as [u|]; [|done].
  repeat (case_match; [done|]). apply acts_bind; [|intros; apply reject_footprint].
  case_match; [done|apply resolve_footprint].
Qed.

Lemma findScoped_footprint t id : acts Rel (findScoped t id).
Proof. unfold findScoped. fp. Qed.

Lemma get_endpoint_footprint t id : acts Rel (get_endpoint t id).
Proof. unfold get_endpoint. apply acts_bind; [apply findScoped_footprint|]. fp. Qed.

Lemma enqueue_one_footprint js : acts Rel (queue_addBulk js).
Proof.
  apply acts_update. intros w. transitivity (with_queue (q_add_bulk js) w); [by apply fp_local|by apply fp_observe].
Qed.

Lemma enqueue_batch_footprint batch : acts Rel (enqueue_batch cfg batch).
Proof.
  induction batch as [|m batch IH]; [done|]. cbn [enqueue_batch].
  apply acts_bind; [|intros []; [by apply acts_bind|done]]. apply acts_catch; [|done].
  apply acts_bind; [apply enqueue_one_footprint|done].
Qed.

Lemma tick_footprint k :
  (forall ids now, acts Rel (transaction (swrite (mark_published ids now)))) -> acts Rel (tick cfg k).
Proof.
  intros Hmark. unfold tick. apply acts_bind; [fp|]. intros batch. destruct batch as [|m batch]; [done|].
  apply acts_bind; [apply enqueue_batch_footprint|]. intros ids. destruct ids as [|i ids]; [done|].
  apply acts_bind; [fp|]. intros now. apply acts_bind; [apply Hmark|]. intros _. unfold after_marking.
  apply acts_bind; [apply (fp_metric Rel), call_ok_published|]. fp.
Qed.

Lemma skip_footprint r : acts Rel (skip r).
Proof. apply acts_bind; [apply (fp_result Rel)|done]. Qed.

Lemma connect_footprint addrs : acts Rel (connect addrs).
Proof. apply acts_update. intros w. by apply fp_observe. Qed.

Lemma check_literal_footprint url : acts Rel (check_literal cfg url).
Proof. by destruct (check_literal_cases cfg url) as [[e ->]|[-> _]]. Qed.

Lemma moveToDelayed_footprint job t : acts Rel (job_moveToDelayed job t).
Proof. apply acts_update. intros w. by apply fp_observe. Qed.

Lemma retry_delay_footprint n : acts Rel (retry_delay cfg n).
Proof.
  unfold retry_delay. destruct (js_le0 _); [done|]. apply acts_bind; [|done].
  apply acts_call. intros w. by apply fp_local.
Qed.

Lemma schedule_retry_footprint D :
  (forall t, acts Rel (transaction (delivery_update D (set_nextRetryAt t)))) -> acts Rel (schedule_retry cfg D).
Proof.
  intros Hd. unfold schedule_retry. apply acts_bind; [fp|]. intros d.
  apply acts_bind; [apply retry_delay_footprint|]. intros delay. apply acts_bind; [fp|]. intros now.
  destruct delay; try done. apply acts_bind; [apply Hd|done].
Qed.

Lemma handle_job_footprint wid job :
  (forall D, acts Rel (process cfg wid D)) ->
  (forall D t, acts Rel (transaction (delivery_update D (set_nextRetryAt t)))) ->
  acts Rel (handle_job cfg wid job).
Proof.
  intros Hp Hd. unfold handle_job. apply acts_bind; [destruct (jd_tenantId _); [done|fp]|].
  intros [[|ch t]|]; [apply Hp| |apply Hp]. apply acts_bind; [apply (fp_redis Rel), acquire_acts|]. intros []; cbn [negb].
  - apply acts_finally; [|apply (fp_redis Rel), release_acts]. apply acts_bind; [apply Hp|]. intros r.
    case_bool_decide; [|done]. by apply schedule_retry_footprint.
  - apply acts_bind; [fp|]. intros _. apply acts_bind; [fp|]. intros now.
    apply acts_bind; [apply moveToDelayed_footprint|done].
Qed.

Lemma sampleQueue_footprint getJobCounts : acts Rel getJobCounts -> acts Rel (sampleQueue getJobCounts).
Proof.
  intros Hc. apply acts_catch; [|done]. apply acts_bind; [done|]. intros c.
  repeat (apply acts_bind; [by apply (fp_metric Rel)|intros _]). by apply (fp_metric Rel).
Qed.

Lemma sample_footprint {R} (f : World -> R) : acts Rel (query QueueService f).
Proof. by apply acts_query, _. Qed.

End base_programs.

(** ** Programs of the API *)

Section programs.
Context `{P : Platform}.
Context (Rel : World -> World -> Prop) `{F : !Footprint Rel}.
Variable cfg : Config.

(** ** Events *)

Lemma publish_footprint t dto key : acts Rel (publish t dto key).
Proof.
  unfold publish. destruct (_ <? _); [done|]. apply acts_catch; [apply fp_publish|fp].
Qed.

Lemma controller_publish_footprint t plan dto key : acts Rel (controller_publish cfg t plan dto key).
Proof.
  unfold controller_publish. destruct (key_rejected key); [done|].
  apply acts_bind; [apply (consume_footprint Rel)|]. intros _. apply acts_bind; [apply publish_footprint|]. fp.
Qed.

(** ** Endpoints *)

Lemma create_footprint `{!EndpointFootprint Rel} t dto : acts Rel (create cfg t dto).
Proof.
  unfold create. apply acts_bind; [apply (assert_footprint Rel)|]. intros _. apply acts_bind; [fp|]. intros [e|]; [done|].
  apply acts_bind; [by apply (fp_local_step Rel)|]. intros secret. apply acts_bind; [by apply (fp_local_step Rel)|]. intros enc.
  apply acts_bind; [apply fp_endpoint_create|done].
Qed.

Lemma update_endpoint_footprint `{!EndpointFootprint Rel} t id dto : acts Rel (update_endpoint cfg t id dto).
Proof.
  unfold update_endpoint. apply acts_bind; [apply (findScoped_footprint Rel)|]. intros _.
  apply acts_bind; [destruct (ud_url dto); [apply (assert_footprint Rel)|done]|]. intros _. destruct (null_refused dto); [done|].
  apply acts_bind; [apply fp_endpoint_change|done].
Qed.

Lemma setSubscriptions_footprint t id types : acts Rel (setSubscriptions t id types).
Proof.
  unfold setSubscriptions. apply acts_bind; [apply (findScoped_footprint Rel)|]. intros _.
  apply acts_bind; [apply fp_subscriptions|done].
Qed.

Lemma ping_footprint `{!EndpointFootprint Rel} t id : acts Rel (ping t id).
Proof.
  unfold ping. apply acts_bind; [apply (findScoped_footprint Rel)|]. intros _.
  do 2 (apply acts_bind; [by apply (fp_local_step Rel)|]; intros ?).
  apply acts_bind; [apply fp_ping|done].
Qed.

(** ** Tenants *)

Lemma canActivate_footprint header : acts Rel (canActivate header).
Proof.
  unfold canActivate, check_grace. case_match; [done|]. apply acts_bind; [fp|].
  intros [[[id k] t]|]; [|done]. case_match; [done|]. apply acts_bind; [|intros _; by case_match].
  destruct (ak_status k); try done. apply acts_bind; [fp|]. intros []; [|done].
  apply acts_bind; [apply fp_apiKey_update|done].
Qed.

Lemma rotate_footprint t : acts Rel (rotate t).
Proof.
  unfold rotate. apply acts_bind; [by apply (fp_local_step Rel)|]. intros key. apply acts_bind; [fp|]. intros now.
  apply acts_bind; [apply fp_rotate|done].
Qed.

Lemma create_tenant_footprint name plan : acts Rel (create_tenant name plan).
Proof.
  unfold create_tenant. apply acts_bind; [fp|]. intros [t|]; [done|].
  apply acts_bind; [by apply (fp_local_step Rel)|]. intros key. apply acts_bind; [apply fp_tenant|done].
Qed.

End programs.
