(* ===== verification/Receiver.v ===== *)
(** * The receiving side: [demo-receiver/server.js]

    The reference receiver verifies a delivery's signature and age and records the
    delivery ids it has processed; together with the sending side this turns
    at-least-once delivery into one effect per delivery.  A request is what
    [express.raw] hands over: its headers and the raw bytes of the body of an
    [application/json] request within the size limit.  [verify] works on their text:
    a template literal and [toString('utf8')] decode the [Buffer]. *)

From S2P Require Import Prelude Errors Json ToNumber Platform Schema World Config TestPlatform Signature Processor.
Open Scope Z_scope.

Definition TOLERANCE_SEC : Z := 300.

Record HookRequest := mkHookRequest {
  hr_headers : list (string * string);
  hr_body : string;     (** bytes *)
}.

(** [req.header(name)], names in lower case; [!value] holds of an empty one. *)
Definition header (k : string) (rq : HookRequest) : option string :=
  v ← snd <$> (snd <$> list_find (fun p => p.1 = k) (hr_headers rq));
  if bool_decide (v = EmptyString) then None else Some v.

Record Receiver := mkReceiver {
  rv_secrets : list string;             (** [secrets] *)
  rv_processed : gmap string json;      (** [processed_delivery_ids] *)
}.

(** A response: its status, and the [duplicate] flag of the body. *)
Record Reply := mkReply { rp_status : Z; rp_duplicate : bool }.

Inductive notice := Received (deliveryId : string) | Duplicate (deliveryId : string)
| FailNotice (deliveryId : string) | Slow (deliveryId : string).

Section receiver.
Context `{P : Platform}.

Inductive checked :=
| Rejected (status : Z)
| Throws
| Accepted (deliveryId : string) (body : json).

(** [Math.abs(Date.now() / 1000 - Number(timestamp)) > TOLERANCE_SEC], scaled to
    integers; NaN compares false. *)
Definition out_of_tolerance (now : Z) (timestamp : string) : bool :=
  match Number timestamp with
  | NotANumber => false
  | Infinite => true
  | Decimal m e =>
      let k := e + 3 in
      if 0 <=? k then 1000 * TOLERANCE_SEC <? Z.abs (now - m * 10 ^ k)
      else 1000 * TOLERANCE_SEC * 10 ^ (- k) <? Z.abs (now * 10 ^ (- k) - m)
  end.

(** [`${timestamp}.${req.body}`] decodes the bytes of the body. *)
Definition signed_by (timestamp body signature s : string) : bool :=
  String.eqb ("v1=" +:+ hmac_sha256_hex s (timestamp +:+ ("." +:+ utf8_decode body))) signature.

Definition verify (now : Z) (secrets : list string) (rq : HookRequest) : checked :=
  match header "x-delivery-id" rq, header "x-hookrelay-timestamp" rq, header "x-hookrelay-signature" rq with
  | Some deliveryId, Some timestamp, Some signature =>
      if out_of_tolerance now timestamp then Rejected 400
      else if existsb (signed_by timestamp (hr_body rq) signature) secrets then
        match parse (utf8_decode (hr_body rq)) with Some body => Accepted deliveryId body | None => Throws end
      else Rejected 401
  | _, _, _ => Rejected 400
  end.

(** Property access on a parsed body: of null it throws. *)
Definition prop (k : string) (body : json) : option (option json) :=
  match body with
  | JNull => None
  | _ => Some (field k body)
  end.

(** The INSERT: it throws on the primary key, on NULL and on values SQLite cannot
    bind. *)
Definition bindable (v : option json) : option json :=
  match v with Some (JStr _ | JNum _ | JFrac _) => v | _ => None end.

(** [consume]: the answer is [duplicate]. *)
Definition consume (deliveryId : string) (eventId : option json) (s : Receiver) : bool * Receiver :=
  match bindable eventId, rv_processed s !! deliveryId with
  | Some v, None => (false, mkReceiver (rv_secrets s) (<[deliveryId := v]> (rv_processed s)))
  | _, _ => (true, s)
  end.

(** [POST /hooks] *)
Definition hooks (now : Z) (rq : HookRequest) (s : Receiver) : Reply * list notice * Receiver :=
  match verify now (rv_secrets s) rq with
  | Rejected status => (mkReply status false, [], s)
  | Throws => (mkReply 500 false, [], s)
  | Accepted deliveryId body =>
      match prop "eventId" body with
      | None => (mkReply 500 false, [], s)
      | Some eventId =>
          let '(duplicate, s') := consume deliveryId eventId s in
          if duplicate then (mkReply 200 true, [Duplicate deliveryId], s')
          else (mkReply 200 false, [Received deliveryId], s')
      end
  end.

(** [POST /hooks/fail] *)
Definition hooks_fail (now : Z) (rq : HookRequest) (s : Receiver) : Reply * list notice * Receiver :=
  match verify now (rv_secrets s) rq with
  | Rejected status => (mkReply status false, [], s)
  | Throws => (mkReply 500 false, [], s)
  | Accepted deliveryId _ => (mkReply 500 false, [FailNotice deliveryId], s)
  end.

(** [POST /hooks/slow]: an answer at once, or what the timer does later, in the
    state it finds then. *)
Definition hooks_slow (now : Z) (rq : HookRequest) (s : Receiver)
    : Reply + (Receiver -> Reply * list notice * Receiver) :=
  match verify now (rv_secrets s) rq with
  | Rejected status => inl (mkReply status false)
  | Throws => inl (mkReply 500 false)
  | Accepted deliveryId body => inr (fun s =>
      match prop "eventId" body with
      | None => (mkReply 500 false, [], s)
      | Some eventId =>
          let '(duplicate, s') := consume deliveryId eventId s in
          (mkReply 200 duplicate, [if duplicate then Duplicate deliveryId else Slow deliveryId], s')
      end)
  end.

(** [POST /config] *)
Definition config (secret : option json) (s : Receiver) : Receiver :=
  match secret with
  | Some (JStr (String _ _ as x)) =>
      if bool_decide (x ∈ rv_secrets s) then s else mkReceiver (rv_secrets s ++ [x]) (rv_processed s)
  | _ => s
  end.

(** *** [GET /stream]

    [sseClients]: the lines each open connection has been written. *)
Definition sseClients : Type := gmap nat (list notice).

Definition stream (client : nat) (clients : sseClients) : sseClients := <[client := []]> clients.
Definition stream_closed (client : nat) (clients : sseClients) : sseClients := base.delete client clients.
Definition broadcast (clients : sseClients) (payload : notice) : sseClients :=
  (fun lines => lines ++ [payload]) <$> clients.

(** ** Deliveries of this platform *)

(** The request the worker builds for delivery [D] of event [eventId] at [sentAt], its
    text in UTF-8. *)
Definition delivered (D eventId : string) (ev : Event) (secret : string) (sentAt : Z) : HookRequest :=
  let body := delivery_body eventId ev in
  mkHookRequest (delivery_headers D ev secret body sentAt) (utf8_encode body).

Definition delivery_json (eventId : string) (ev : Event) : json :=
  JObj [("eventId", JStr eventId); ("type", JStr (ev_type ev));
    ("occurredAt", JStr (DateTime.toISOString (ev_createdAt ev))); ("payload", ev_payload ev)].

Definition fresh_enough (arrivedAt sentAt : Z) : Prop := Z.abs (arrivedAt - 1000 * (sentAt / 1000)) <= 300000.

Lemma decZ_not_empty z : decZ z <> EmptyString.
Proof.
  assert (forall n, dec n <> EmptyString) as H by (intros n E; pose proof (undec_dec n) as U; by rewrite E in U).
  destruct z; cbn [decZ]; [apply H|apply H|]. intros E. apply (f_equal String.length) in E. by rewrite str_length_app in E.
Qed.

Lemma header_some k v rq :
  (snd <$> (snd <$> list_find (fun p => p.1 = k) (hr_headers rq))) = Some v -> v <> EmptyString ->
  header k rq = Some v.
Proof. intros H Hv. unfold header. rewrite H. cbn. by rewrite bool_decide_false. Qed.

Lemma signature_not_empty secret t body : signDeliveryBody secret t body <> EmptyString.
Proof. unfold signDeliveryBody. intros E. apply (f_equal String.length) in E. by rewrite str_length_app in E. Qed.

Lemma fresh_in_tolerance arrivedAt sentAt :
  fresh_enough arrivedAt sentAt -> out_of_tolerance arrivedAt (decZ (sentAt / 1000)) = false.
Proof.
  unfold fresh_enough, out_of_tolerance, TOLERANCE_SEC. rewrite Number_decZ. cbn [Z.leb Z.add Z.compare].
  change (10 ^ (0 + 3)) with 1000. intros H. apply Z.ltb_ge. lia.
Qed.

Lemma verify_delivered arrivedAt secrets D eventId ev secret sentAt :
  D <> EmptyString -> secret ∈ secrets -> integral (ev_payload ev) = true ->
  out_of_tolerance arrivedAt (decZ (sentAt / 1000)) = false ->
  verify arrivedAt secrets (delivered D eventId ev secret sentAt) = Accepted D (delivery_json eventId ev).
Proof.
  intros HD Hs Hp Ht. unfold verify.
  rewrite (header_some "x-delivery-id" D); [|reflexivity|done].
  rewrite (header_some "x-hookrelay-timestamp" (decZ (sentAt / 1000))); [|reflexivity|apply decZ_not_empty].
  rewrite (header_some "x-hookrelay-signature"
    (signDeliveryBody secret (sentAt / 1000) (delivery_body eventId ev))); [|reflexivity|apply signature_not_empty].
  rewrite Ht.
  assert (existsb (signed_by (decZ (sentAt / 1000)) (hr_body (delivered D eventId ev secret sentAt))
    (signDeliveryBody secret (sentAt / 1000) (delivery_body eventId ev))) secrets = true) as ->.
  { apply existsb_exists. exists secret. split; [by apply list_elem_of_In|]. unfold signed_by. cbn [hr_body delivered].
    rewrite utf8_decode_encode. apply String.eqb_refl. }
  cbn [hr_body delivered]. rewrite utf8_decode_encode. unfold delivery_body. rewrite parse_stringify; [done|]. cbn. by rewrite Hp.
Qed.

(** *** Many requests *)

Definition is_received (D : string) (n : notice) : bool :=
  match n with Received D' => String.eqb D D' | _ => false end.

Fixpoint receive (rqs : list (Z * HookRequest)) (s : Receiver) : list notice * Receiver :=
  match rqs with
  | [] => ([], s)
  | (now, rq) :: rqs =>
      let '(_, ns, s1) := hooks now rq s in
      let '(ns', s2) := receive rqs s1 in (ns ++ ns', s2)
  end.

Definition count_received (D : string) (ns : list notice) : nat := length (List.filter (is_received D) ns).

(** One request: a notice of reception goes with the recording of the id. *)
Lemma hooks_step now rq s D :
  let '(_, ns, s') := hooks now rq s in
  rv_secrets s' = rv_secrets s /\
  (is_Some (rv_processed s !! D) -> rv_processed s' !! D = rv_processed s !! D /\ count_received D ns = 0%nat) /\
  (rv_processed s !! D = None ->
     count_received D ns = (if decide (is_Some (rv_processed s' !! D)) then 1 else 0)%nat).
Proof.
  assert (rv_secrets s = rv_secrets s /\
    (is_Some (rv_processed s !! D) -> rv_processed s !! D = rv_processed s !! D /\ count_received D [] = 0%nat) /\
    (rv_processed s !! D = None -> count_received D [] = (if decide (is_Some (rv_processed s !! D)) then 1 else 0)%nat)) as Hno.
  { split_and!; try done. intros ->. by rewrite decide_False by (by intros [? ?]). }
  unfold hooks. destruct (verify now (rv_secrets s) rq) as [st| |D' body]; [exact Hno..|].
  destruct (prop "eventId" body) as [eid|]; [|exact Hno].
  unfold consume. destruct (bindable eid) as [v|]; [|exact Hno].
  destruct (rv_processed s !! D') eqn:E; [exact Hno|]. cbn [rv_secrets rv_processed]. split; [done|].
  unfold count_received. cbn. destruct (String.eqb_spec D D') as [->|Hne]; cbn.
  - rewrite E, lookup_insert_eq. split; [by intros [? ?]|]. intros _. by rewrite decide_True by eauto.
  - rewrite lookup_insert_ne by done. split; [done|]. intros ->. by rewrite decide_False by (by intros [? ?]).
Qed.

Lemma receive_done rqs s D :
  is_Some (rv_processed s !! D) ->
  count_received D (receive rqs s).1 = 0%nat /\ is_Some (rv_processed (receive rqs s).2 !! D).
Proof.
  revert s. induction rqs as [|[now rq] rqs IH]; intros s Hs; [done|]. cbn [receive].
  pose proof (hooks_step now rq s D) as H. destruct (hooks now rq s) as [[rep ns] s1].
  destruct H as (_ & H & _). destruct (H Hs) as [Hp Hc]. rewrite <- Hp in Hs. specialize (IH s1 Hs).
  destruct (receive rqs s1) as [ns' s2]. cbn [fst snd] in *. destruct IH as [IH1 IH2].
  split; [|done]. unfold count_received in *. rewrite List.filter_app, length_app. lia.
Qed.

(** A genuine request among any others is processed, once. *)
Lemma receive_once rqs s D eventId ev secret arrivedAt sentAt :
  D <> EmptyString -> secret ∈ rv_secrets s -> integral (ev_payload ev) = true ->
  rv_processed s !! D = None ->
  (arrivedAt, delivered D eventId ev secret sentAt) ∈ rqs ->
  out_of_tolerance arrivedAt (decZ (sentAt / 1000)) = false ->
  count_received D (receive rqs s).1 = 1%nat /\ is_Some (rv_processed (receive rqs s).2 !! D).
Proof.
  intros HD Hsec Hp Hs Hin Ht. revert s Hsec Hs. induction rqs as [|[now rq] rqs IH]; intros s Hsec Hs; [set_solver|].
  cbn [receive]. pose proof (hooks_step now rq s D) as H.
  assert ((now, rq) = (arrivedAt, delivered D eventId ev secret sentAt) ->
    is_Some (rv_processed (hooks now rq s).2 !! D)) as Hgen.
  { intros [= -> ->]. unfold hooks. cbn [fst snd]. rewrite verify_delivered by done.
    change (prop "eventId" (delivery_json eventId ev)) with (Some (Some (JStr eventId))). cbv beta iota.
    unfold consume. cbn [bindable]. rewrite Hs. cbn [snd rv_processed]. rewrite lookup_insert_eq. eauto. }
  destruct (hooks now rq s) as [[rep ns] s1]. destruct H as (Hk & _ & Hc). specialize (Hc Hs). cbn [snd] in Hgen.
  destruct (decide (is_Some (rv_processed s1 !! D))) as [Hd|Hd].
  - destruct (receive_done rqs s1 D Hd) as [H1 H2]. destruct (receive rqs s1) as [ns' s2]. cbn [fst snd] in *.
    split; [|done]. unfold count_received in *. rewrite List.filter_app, length_app. lia.
  - apply elem_of_cons in Hin as [Hin|Hin]; [by destruct Hd; apply Hgen|].
    destruct (IH Hin s1) as [H1 H2]; [by rewrite Hk|by apply eq_None_not_Some|].
    destruct (receive rqs s1) as [ns' s2]. cbn [fst snd] in *.
    split; [|done]. unfold count_received in *. rewrite List.filter_app, length_app. lia.
Qed.

Lemma broadcasts ns clients client lines :
  clients !! client = Some lines -> fold_left broadcast ns clients !! client = Some (lines ++ ns).
Proof.
  revert clients lines. induction ns as [|n ns IH]; intros clients lines H; [by rewrite app_nil_r|]. cbn [fold_left].
  rewrite (IH _ (lines ++ [n])); [by rewrite <- app_assoc|]. unfold broadcast, sseClients in *. by rewrite lookup_fmap, H.
Qed.

(** ** Properties *)

(** Each delivery takes effect once: if, among any requests at any times
    (retries, replays, forgeries), the receiver gets at least one that the worker
    built for [D] with one of its secrets, within 300 s of the signed second, then
    exactly one request for [D] is processed and all the others are duplicates or
    refused. *)
Theorem effectively_once rqs s D eventId ev secret arrivedAt sentAt :
  D <> EmptyString -> secret ∈ rv_secrets s -> integral (ev_payload ev) = true ->
  rv_processed s !! D = None ->
  (arrivedAt, delivered D eventId ev secret sentAt) ∈ rqs -> fresh_enough arrivedAt sentAt ->
  count_received D (receive rqs s).1 = 1%nat /\ is_Some (rv_processed (receive rqs s).2 !! D).
Proof. intros. by eapply receive_once, fresh_in_tolerance. Qed.

(** A live client sees it once as well: one that is connected throughout is written
    exactly the notices of the requests, in their order, among them one reception of
    the delivery. *)
Theorem live_client_sees_once client clients rqs s D eventId ev secret arrivedAt sentAt :
  D <> EmptyString -> secret ∈ rv_secrets s -> integral (ev_payload ev) = true ->
  rv_processed s !! D = None ->
  (arrivedAt, delivered D eventId ev secret sentAt) ∈ rqs -> fresh_enough arrivedAt sentAt ->
  exists lines, fold_left broadcast (receive rqs s).1 (stream client clients) !! client = Some lines /\
    lines = (receive rqs s).1 /\ count_received D lines = 1%nat.
Proof.
  intros. exists (receive rqs s).1. split; [|split; [done|by eapply receive_once, fresh_in_tolerance]].
  apply (broadcasts _ (stream client clients) client []). apply lookup_insert_eq.
Qed.


(** The signature is over the text of the body, not over its bytes: requests with the
    same headers whose bodies decode to the same text, as bodies with different bytes
    that are not UTF-8 may, are answered alike, so a body is accepted under the MAC of
    another one. *)
Theorem signature_covers_text now rq body s :
  utf8_decode body = utf8_decode (hr_body rq) -> hooks now (mkHookRequest (hr_headers rq) body) s = hooks now rq s.
Proof.
  intros Hb. unfold hooks, verify, signed_by. cbn [hr_body]. rewrite Hb. reflexivity.
Qed.

End receiver.

(** ** One delivery sent twice, forged and replayed *)

Definition hook_event : Event := mkEvent "t1" "order.created" (JObj [("n", JNum 1)]) "key-1" 0.

Definition hook_request : HookRequest := delivered (P := always 200) "d1" "v1" hook_event "whsec_1" 5500.

Definition hook_traffic : list (Z * HookRequest) :=
  [ (5000, mkHookRequest [("x-delivery-id", "d1"); ("x-hookrelay-timestamp", "5"); ("x-hookrelay-signature", "v1=?")] "{}");
    (5600, hook_request); (36000, hook_request); (900000, hook_request) ].

Lemma effectively_once_witness :
  count_received "d1" (receive (P := always 200) hook_traffic (mkReceiver ["whsec_1"] ∅)).1 = 1%nat.
Proof.
  apply (effectively_once (P := always 200) hook_traffic
    (mkReceiver ["whsec_1"] ∅) "d1" "v1" hook_event "whsec_1" 5600 5500).
  - discriminate.
  - by left.
  - reflexivity.
  - reflexivity.
  - right. by left.
  - unfold fresh_enough. vm_compute. discriminate.
Defined.

(** Two bodies that differ in an invalid byte, and one signature. *)
Lemma signature_covers_text_witness :
  let bytes c := stringify (JObj [("eventId", JStr (String c EmptyString))]) in
  let signed := "v1=whsec_1|5." +:+ bytes "?"%char in
  let rq c := mkHookRequest [("x-delivery-id", "d1"); ("x-hookrelay-timestamp", "5"); ("x-hookrelay-signature", signed)] (bytes c) in
  let s := mkReceiver ["whsec_1"] ∅ in
  hooks (P := always 200) 5000 (rq "254"%char) s = hooks (P := always 200) 5000 (rq "255"%char) s /\
  (hooks (P := always 200) 5000 (rq "255"%char) s).1 = (mkReply 200 false, [Received "d1"]).
Proof.
  intros bytes signed rq s. split; [|vm_compute; reflexivity].
  assert (utf8_decode (Platform := always 200) (bytes "254"%char) = utf8_decode (Platform := always 200) (bytes "255"%char)) as E
    by (vm_compute; reflexivity).
  exact (signature_covers_text (P := always 200) 5000 (rq "255"%char) (bytes "254"%char) s E).
Defined.
