(* ===== verification/Ledger.v ===== *)
(** * The ledger of attempts

    What counts for how often a delivery is sent: the attempt rows that were
    claimed, the deliveries' recorded counts, the requests that left the system
    and the outbox rows that name a delivery.  [keeps_ledger] is the relation all
    steps keep except three of the worker's (claiming an attempt, sending its
    request, recording its verdict); every program of the API and the relay
    consists of such steps only. *)

From S2P Require Import Prelude Errors Effects Json Platform Schema World Config Signature CircuitStore.
From S2P Require Import TenantLimiter SecretCipher EndpointCache HttpClient Processor Relay RateLimit.
From S2P Require Import Events Deliveries Ssrf Endpoints Tenancy Footprint.
Open Scope Z_scope.
Open Scope hook_scope.

(** The delivery a request was sent for: its [x-delivery-id] header. *)
Definition request_delivery (rq : HttpRequest) : option string :=
  snd <$> (snd <$> list_find (fun p => p.1 = "x-delivery-id") (rq_headers rq)).

Definition request_for (D : string) (o : obs) : bool :=
  match o with ObsHttp rq => bool_decide (request_delivery rq = Some D) | _ => false end.

Definition claim_of (a : DeliveryAttempt) : string * Z := (at_deliveryId a, at_attemptNo a).

Definition progress_of (d : Delivery) : Z * bool := (dl_attemptCount d, is_done d).

Section ledger.
Context `{P : Platform}.

Definition claims (w : World) : gmap Z (string * Z) := claim_of <$> attempts (w_db w).

Definition progress (w : World) : gmap string (Z * bool) := progress_of <$> deliveries (w_db w).

(** Requests sent for a delivery, and outbox rows that name it (one for each
    redelivery, one for a ping). *)
Definition sent (D : string) (w : World) : nat := length (List.filter (request_for D) (requests w)).

Definition granted (D : string) (w : World) : nat :=
  size (filter (fun p : Z * OutboxMessage => ob_deliveryId p.2 = Some D) (outbox (w_db w))).

(** The sequences are ahead of the keys. *)
Definition seqs_ok (w : World) : Prop :=
  (forall id, is_Some (attempts (w_db w) !! id) -> id < attempt_seq (w_db w)) /\
  (forall id, is_Some (outbox (w_db w) !! id) -> id < outbox_seq (w_db w)).

Record ledger_le (w w' : World) : Prop := {
  le_claims : claims w' = claims w;
  le_seq : attempt_seq (w_db w') = attempt_seq (w_db w);
  le_sent : forall D, sent D w' = sent D w;
  le_granted : forall D, (granted D w <= granted D w')%nat;
  le_old : forall D c b, progress w !! D = Some (c, b) ->
    exists b', progress w' !! D = Some (c, b') /\ (b' = b \/ b' = false /\ (granted D w < granted D w')%nat);
  le_new : forall D c b, progress w' !! D = Some (c, b) -> progress w !! D = None -> c = 0 /\ b = false;
}.

Definition keeps_ledger (w w' : World) : Prop := seqs_ok w -> seqs_ok w' /\ ledger_le w w'.

#[export] Instance ledger_le_preorder : PreOrder ledger_le.
Proof.
  split.
  - intros w. split; try done; [intros D c b ->; eauto|]. intros D c b -> [=].
  - intros w1 w2 w3 [C1 Q1 S1 G1 O1 N1] [C2 Q2 S2 G2 O2 N2]. split; try congruence.
    + intros D. etrans; [apply G1|apply G2].
    + intros D c b Hb. destruct (O1 D c b Hb) as (b1 & Hb1 & H1). destruct (O2 D c b1 Hb1) as (b2 & Hb2 & H2).
      exists b2. split; [done|]. specialize (G1 D). specialize (G2 D).
      destruct H1 as [->|[-> ?]]; destruct H2 as [->|[-> ?]]; try (right; split; [done|lia]). by left.
    + intros D c b Hc Hn. destruct (progress w2 !! D) as [[c1 b1]|] eqn:E.
      * destruct (N1 D c1 b1 E Hn) as [-> ->]. destruct (O2 D 0 false E) as (b' & Hb' & H). rewrite Hc in Hb'.
        injection Hb' as -> ->. split; [done|]. by destruct H as [|[? _]].
      * by eapply N2.
Qed.

#[export] Instance keeps_ledger_preorder : PreOrder keeps_ledger.
Proof.
  split; [by intros w ?|]. intros w1 w2 w3 H1 H2 Hw. destruct (H1 Hw) as [Hw2 ?].
  destruct (H2 Hw2) as [? ?]. split; [done|]. by etrans.
Qed.

(** ** Steps that do not touch the tables in question *)

Definition same_ledger (w w' : World) : Prop :=
  attempts (w_db w') = attempts (w_db w) /\ attempt_seq (w_db w') = attempt_seq (w_db w) /\
  deliveries (w_db w') = deliveries (w_db w) /\
  outbox (w_db w') = outbox (w_db w) /\ outbox_seq (w_db w') = outbox_seq (w_db w) /\
  requests w' = requests w.

#[export] Instance same_ledger_preorder : PreOrder same_ledger.
Proof.
  split; [done|]. intros w1 w2 w3 (? & ? & ? & ? & ? & ?) (? & ? & ? & ? & ? & ?).
  unfold same_ledger. split_and!; congruence.
Qed.

Lemma same_ledger_keeps w w' : same_ledger w w' -> keeps_ledger w w'.
Proof.
  intros (Ha & Hs & Hd & Ho & Hos & Hr) [H1 H2]. unfold seqs_ok. rewrite Ha, Hs, Ho, Hos.
  split; [done|]. split; unfold claims, sent, granted, progress; rewrite ?Ha, ?Hd, ?Ho, ?Hr; try done.
  - intros D c b ->. eauto.
  - intros D c b -> [=].
Qed.

Lemma same_ledger_db w w' : w_db w' = w_db w -> requests w' = requests w -> same_ledger w w'.
Proof. intros H1 H2. unfold same_ledger. by rewrite H1. Qed.

Lemma same_ledger_observe o w : is_http o = false -> same_ledger w (observe o w).
Proof. intros Ho. apply same_ledger_db; [done|]. by rewrite requests_observe. Qed.


(** *** Writes of the ledger's tables that keep it *)

(** Rows of other tables. *)
Lemma ledger_with_db f w :
  attempts (f (w_db w)) = attempts (w_db w) -> attempt_seq (f (w_db w)) = attempt_seq (w_db w) ->
  deliveries (f (w_db w)) = deliveries (w_db w) -> outbox (f (w_db w)) = outbox (w_db w) ->
  outbox_seq (f (w_db w)) = outbox_seq (w_db w) -> keeps_ledger w (with_db f w).
Proof. intros. by apply same_ledger_keeps. Qed.

(** A new delivery. *)
Lemma ledger_new_delivery id ev ep now w :
  deliveries (w_db w) !! id = None ->
  keeps_ledger w (with_db (set_deliveries (insert id (new_delivery ev ep now))) w).
Proof.
  intros Hid Hs. split; [exact Hs|]. split; try done; unfold progress; cbn; rewrite fmap_insert; intros D c b Hb.
  - exists b. split; [|by left]. rewrite lookup_insert_ne; [done|]. intros <-.
    rewrite lookup_fmap, Hid in Hb. done.
  - intros Hn. apply lookup_insert_Some in Hb as [[_ [= <- <-]]|[_ Hb]]; [done|congruence].
Qed.

(** A new outbox row. *)
Lemma granted_insert D id row w :
  outbox (w_db w) !! id = None ->
  size (filter (fun p : Z * OutboxMessage => ob_deliveryId p.2 = Some D) (<[id := row]> (outbox (w_db w)))) =
  (granted D w + if decide (ob_deliveryId row = Some D) then 1 else 0)%nat.
Proof.
  intros Hid. unfold granted. destruct (decide (ob_deliveryId row = Some D)) as [H|H].
  - rewrite map_filter_insert_True by done. rewrite map_size_insert_None; [lia|].
    apply map_lookup_filter_None. left. done.
  - rewrite map_filter_insert_False by done. rewrite delete_id by done. lia.
Qed.

Definition new_row (e : string) (d : option string) (now : Z) : OutboxMessage :=
  mkOutbox e d OUTBOX_PENDING None now.

Lemma seqs_fresh w : seqs_ok w -> outbox (w_db w) !! outbox_seq (w_db w) = None.
Proof.
  intros [_ H]. destruct (outbox (w_db w) !! outbox_seq (w_db w)) eqn:E; [|done].
  specialize (H (outbox_seq (w_db w)) (mk_is_Some _ _ E)). lia.
Qed.

Lemma seqs_outbox_create e d w : seqs_ok w -> seqs_ok (outbox_create e d w).2.
Proof.
  intros [H1 H2]. split; [exact H1|]. cbn. intros id [<-|?%H2]%lookup_insert_is_Some'; lia.
Qed.

Lemma ledger_outbox_create e d w : keeps_ledger w (outbox_create e d w).2.
Proof.
  intros Hs. split; [by apply seqs_outbox_create|].
  pose proof (seqs_fresh w Hs) as Hf. split; try done.
  - intros D. unfold granted at 2. cbn. rewrite granted_insert by done. lia.
  - intros D c b Hb. exists b. split; [exact Hb|by left].
  - intros D c b Hb Hn. unfold progress in *. cbn in Hb. congruence.
Qed.

(** ** Statements *)

Definition stm_ledger {R} (s : stm R) : Prop := db_only s /\ forall w, keeps_ledger w (s w).2.

Lemma stm_bind {R R'} (s : stm R) (k : R -> stm R') :
  stm_ledger s -> (forall x, stm_ledger (k x)) -> stm_ledger (sbind s k).
Proof.
  intros [Hd Hs] Hk. split; [apply db_only_bind; [done|intros x; apply Hk]|].
  intros w. unfold sbind. specialize (Hs w). destruct (s w) as [[e|x] w1]; [done|]. cbn in Hs.
  etrans; [exact Hs|apply Hk].
Qed.

Lemma stm_same {R} (s : stm R) :
  db_only s -> (forall w, w_db (s w).2 = w_db w) -> stm_ledger s.
Proof.
  intros Hd H. split; [done|]. intros w. apply same_ledger_keeps, same_ledger_db; [done|].
  destruct (Hd w) as (_ & _ & _ & _ & Ht). unfold requests. by rewrite Ht.
Qed.

Lemma stm_ret {R} (x : R) : stm_ledger (sret x).
Proof. by apply stm_same. Qed.
Lemma stm_throw {R} e : stm_ledger (@sthrow P R e).
Proof. by apply stm_same. Qed.
Lemma stm_read {R} (f : Db -> R) : stm_ledger (sread f).
Proof. by apply stm_same. Qed.
Lemma stm_uuid : stm_ledger suuid.
Proof. by apply stm_same. Qed.

Lemma stm_outbox_create e d : stm_ledger (outbox_create e d).
Proof. split; [done|apply ledger_outbox_create]. Qed.

Lemma stm_delivery_create id ev ep : stm_ledger (delivery_create id ev ep).
Proof.
  split; [apply db_only_delivery_create|]. intros w. unfold delivery_create.
  destruct (delivery_taken id ev ep (w_db w)) eqn:Ht; [done|]. apply ledger_new_delivery.
  unfold delivery_taken in Ht. by destruct (deliveries (w_db w) !! id).
Qed.

Lemma stm_createMany ev ds : stm_ledger (delivery_createMany ev ds).
Proof.
  induction ds as [|[id ep] ds IH]; [apply stm_ret|]. apply stm_bind; [apply stm_delivery_create|done].
Qed.

Lemma stm_event_insert id t y p k : stm_ledger (event_insert id t y p k).
Proof.
  split; [apply db_only_event_insert|]. intros w. unfold event_insert. cbv beta zeta.
  destruct (event_by_key t k (w_db w)), (events (w_db w) !! id), (tenants (w_db w) !! t); try done.
  by apply ledger_with_db.
Qed.

Lemma stm_number_deliveries ts : stm_ledger (number_deliveries ts).
Proof.
  apply stm_same; [apply db_only_number_deliveries|]. intros w. by rewrite number_deliveries_spec.
Qed.

Lemma acts_ledger {R} (s : stm R) : stm_ledger s -> acts keeps_ledger (transaction s).
Proof.
  intros [Hd Hs]. apply acts_call. intros w. specialize (Hd w). specialize (Hs w).
  destruct (s w) as [[e|x] w']; [|done]. cbn in *. apply same_ledger_keeps, same_ledger_db; [done|].
  destruct Hd as (_ & _ & _ & _ & Ht). unfold requests. cbn. by rewrite Ht.
Qed.

Lemma ledger_same_db w w' : w_db w' = w_db w -> requests w' = requests w -> keeps_ledger w w'.
Proof. intros. by apply same_ledger_keeps, same_ledger_db. Qed.

Lemma stm_elsewhere {R} (s : stm R) : elsewhere s -> stm_ledger s.
Proof.
  intros [Hd H]. split; [done|]. intros w. apply same_ledger_keeps.
  destruct (H w) as (_ & ? & ? & ? & ? & ?). destruct (Hd w) as (_ & _ & _ & _ & Ht).
  unfold same_ledger. split_and!; try done. unfold requests. by rewrite Ht.
Qed.

End ledger.

#[export] Hint Resolve stm_bind stm_ret stm_throw stm_read stm_uuid stm_outbox_create stm_delivery_create
  stm_createMany stm_event_insert stm_number_deliveries acts_ledger : hook.

(** ** The transactions of the API and the relay keep the ledger *)

Section programs.
Context `{P : Platform}.

Lemma stm_publish_body t dto key : stm_ledger (publish_body t dto key).
Proof.
  unfold publish_body, event_create.
  repeat (apply stm_bind; [auto with hook|intros]); [|apply stm_ret].
  match goal with |- stm_ledger (match ?l with _ => _ end) => destruct l end; auto with hook.
Qed.

(** A delivery becomes PENDING again only together with an outbox row for it. *)
Lemma redeliver_body_ledger ev D :
  stm_ledger (let+ _ := delivery_update D set_pending in outbox_create ev (Some D)).
Proof.
  split; [by apply db_only_bind; [apply db_only_delivery_update|]|]. intros w Hs.
  unfold sbind, delivery_update. destruct (deliveries (w_db w) !! D) as [d|] eqn:Hd; [|done].
  set (w1 := with_db _ w).
  split; [by apply (seqs_outbox_create ev (Some D) w1)|].
  assert (forall D', granted D' (outbox_create ev (Some D) w1).2 =
    (granted D' w + if decide (Some D = Some D') then 1 else 0)%nat) as Hg.
  { intros D'. unfold granted at 1. cbn. rewrite granted_insert by (by apply seqs_fresh). done. }
  assert (forall D', D' <> D -> progress (outbox_create ev (Some D) w1).2 !! D' = progress w !! D') as Hp.
  { intros D' Hne. unfold progress. cbn. by rewrite !lookup_fmap, lookup_insert_ne. }
  split; try done.
  - intros D'. rewrite Hg. lia.
  - intros D' c b Hb. destruct (decide (D' = D)) as [->|Hne].
    + exists false. unfold progress in *. cbn. rewrite lookup_fmap, Hd in Hb. injection Hb as <- <-.
      rewrite lookup_fmap, lookup_insert_eq. split; [done|]. right. split; [done|]. rewrite Hg, decide_True by done. lia.
    + exists b. rewrite Hp by done. split; [done|by left].
  - intros D' c b Hb Hn. destruct (decide (D' = D)) as [->|Hne]; [|rewrite Hp in Hb by done; congruence].
    unfold progress in Hn. rewrite lookup_fmap, Hd in Hn. done.
Qed.

Lemma mark_published_ledger ids now w : keeps_ledger w (with_db (mark_published ids now) w).
Proof.
  intros [H1 H2].
  assert (forall id, outbox (mark_published ids now (w_db w)) !! id =
    (fun m => if bool_decide (id ∈ ids /\ ob_status m = OUTBOX_PENDING) then publish_row now m else m) <$>
      outbox (w_db w) !! id) as Hl.
  { intros id. cbn. rewrite map_lookup_imap. by destruct (outbox (w_db w) !! id). }
  split; [split; [exact H1|]|].
  { intros id. cbn [w_db with_db]. rewrite Hl, fmap_is_Some. apply H2. }
  assert (forall D, granted D (with_db (mark_published ids now) w) = granted D w) as Hg.
  { intros D. unfold granted. rewrite <- !size_dom. f_equal. apply set_eq. intros id.
    rewrite !elem_of_dom. cbn [w_db with_db]. split; intros [m Hm]; apply map_lookup_filter_Some in Hm as [Hm Hd];
      rewrite ?Hl in Hm; [apply fmap_Some in Hm as (m0 & Hm & ->)|].
    - exists m0. apply map_lookup_filter_Some. split; [done|]. cbn in *. by case_bool_decide.
    - eexists. apply map_lookup_filter_Some. rewrite Hl, Hm. split; [done|]. cbn in *. by case_bool_decide. }
  split; try done.
  - intros D. by rewrite Hg.
  - intros D c b Hb. exists b. split; [exact Hb|by left].
  - intros D c b Hb Hn. unfold progress in *. cbn in Hb. congruence.
Qed.

#[export] Instance ledger_footprint : Footprint keeps_ledger.
Proof.
  apply footprint_elsewhere.
  - apply _.
  - intros w w' Hd _ Ht. apply ledger_same_db; [done|]. unfold requests. by rewrite Ht.
  - intros o w Ho _. by apply same_ledger_keeps, same_ledger_observe.
  - intros R s Hs. by apply acts_ledger, stm_elsewhere.
  - intros. apply acts_ledger, stm_publish_body.
Qed.

#[export] Instance ledger_endpoint_footprint : EndpointFootprint keeps_ledger.
Proof.
  apply endpoint_footprint_elsewhere.
  - intros R s Hs. by apply acts_ledger, stm_elsewhere.
  - intros. apply acts_ledger. repeat (apply stm_bind; [auto with hook|intros _]). auto with hook.
Qed.

Lemma redeliver_ledger t D : acts keeps_ledger (redeliver t D).
Proof.
  unfold redeliver, requireOwned. apply acts_bind; [fp|]. intros d.
  apply acts_bind; [apply acts_ledger, redeliver_body_ledger|done].
Qed.

Lemma tick_ledger cfg k : acts keeps_ledger (tick cfg k).
Proof.
  apply (tick_footprint keeps_ledger). intros ids now. apply acts_ledger. split; [done|].
  intros w. apply mark_published_ledger.
Qed.

End programs.
