(* ===== verification/Dtos.v ===== *)
(** * Request validation: the DTO classes and the [ValidationPipe] of [app.setup.ts]

    Each class is a reader from the JSON body to the value the service gets
    ([None] is the pipe's 400).  The pipe refuses unknown properties
    ([forbidNonWhitelisted]); [IsOptional] admits an absent and a null property.
    [IsUrl] is a function of the validator package, a parameter here. *)

From S2P Require Import Prelude Errors Json Schema IpAddress Events Endpoints.
Open Scope Z_scope.

(** ** Event types *)

(** [[a-z0-9_]] *)
Definition type_char (c : ascii) : bool :=
  let n := N_of_ascii c in
  ((97 <=? n) && (n <=? 122) || (48 <=? n) && (n <=? 57) || (n =? 95))%N.

Definition segment (s : string) : bool := negb (String.eqb s EmptyString) && str_forall type_char s.

(** [EVENT_TYPE_PATTERN.test(s)]: dot-separated segments, at least two. *)
Definition EVENT_TYPE_PATTERN (s : string) : bool :=
  let segs := split_on "." s in (2 <=? length segs)%nat && forallb segment segs.

(** ** Reading an object *)

Definition prop (k : string) (l : list (string * json)) : option json := field k (JObj l).

(** [whitelist] with [forbidNonWhitelisted] *)
Definition only (keys : list string) (l : list (string * json)) : bool :=
  forallb (fun p => bool_decide (p.1 ∈ keys)) l.

(** [@Length(min, max)] on a string *)
Definition Length (min max : Z) (s : string) : bool :=
  let n := Z.of_nat (String.length s) in (min <=? n) && (n <=? max).

Definition as_string (j : option json) : option string :=
  match j with Some (JStr s) => Some s | _ => None end.

(** A property under [@IsOptional()]: [Some None] is absent or null. *)
Definition optional {A} (check : json -> option A) (j : option json) : option (option A) :=
  match j with
  | None | Some JNull => Some None
  | Some j => Some <$> check j
  end.

(** The same where the service tells null from absent. *)
Definition nullable {A} (check : json -> option A) (j : option json) : option (option (option A)) :=
  match j with
  | None => Some None
  | Some JNull => Some (Some None)
  | Some j => a ← check j; Some (Some (Some a))
  end.

Section dtos.
Variable is_url : string -> bool.

(** [publish-event.dto.ts] *)
Definition read_PublishEventDto (body : json) : option PublishEventDto :=
  match body with
  | JObj l =>
      type ← as_string (prop "type" l);
      if only ["type"; "payload"] l && Length 1 100 type && EVENT_TYPE_PATTERN type then
        match prop "payload" l with
        | Some (JObj payload) => Some (mkPublishEventDto type (JObj payload))
        | _ => None
        end
      else None
  | _ => None
  end.

Definition check_url (j : json) : option string :=
  match j with JStr s => if is_url s && Length 1 500 s then Some s else None | _ => None end.

Definition check_description (j : json) : option string :=
  match j with JStr s => if Length 1 200 s then Some s else None | _ => None end.

(** [@IsIn(['ACTIVE', 'DISABLED_MANUAL'])] *)
Definition check_status (j : json) : option bool :=
  match j with
  | JStr s => if bool_decide (s = "ACTIVE") then Some true
              else if bool_decide (s = "DISABLED_MANUAL") then Some false else None
  | _ => None
  end.

(** [endpoint.dtos.ts] *)
Definition read_CreateEndpointDto (body : json) : option CreateEndpointDto :=
  match body with
  | JObj l =>
      url ← (j ← prop "url" l; check_url j);
      description ← optional check_description (prop "description" l);
      if only ["url"; "description"] l then Some (mkCreateEndpointDto url description) else None
  | _ => None
  end.

Definition read_UpdateEndpointDto (body : json) : option UpdateEndpointDto :=
  match body with
  | JObj l =>
      url ← nullable check_url (prop "url" l);
      description ← nullable check_description (prop "description" l);
      status ← nullable check_status (prop "status" l);
      if only ["url"; "description"; "status"] l then Some (mkUpdateEndpointDto url description status) else None
  | _ => None
  end.

Definition check_event_type (j : json) : option string :=
  match j with JStr s => if EVENT_TYPE_PATTERN s then Some s else None | _ => None end.

Definition read_SetSubscriptionsDto (body : json) : option (list string) :=
  match body with
  | JObj l =>
      match prop "eventTypes" l with
      | Some (JArr types) =>
          if only ["eventTypes"] l && (length types <=? 100)%nat then mapM check_event_type types else None
      | _ => None
      end
  | _ => None
  end.

Definition check_plan (j : json) : option TenantPlan :=
  match j with
  | JStr s => if bool_decide (s = "FREE") then Some FREE else if bool_decide (s = "PRO") then Some PRO else None
  | _ => None
  end.

(** [create-tenant.dto.ts], with the controller's [plan ?? 'FREE'] *)
Definition read_CreateTenantDto (body : json) : option (string * TenantPlan) :=
  match body with
  | JObj l =>
      name ← as_string (prop "name" l);
      plan ← optional check_plan (prop "plan" l);
      if only ["name"; "plan"] l && Length 2 100 name then Some (name, default FREE plan) else None
  | _ => None
  end.

End dtos.

(** ** The shape of event types *)

Lemma type_char_no_dot s : str_forall type_char s = true -> str_forall (fun x => negb (Ascii.eqb x ".")) s = true.
Proof.
  apply str_forall_impl. intros c Hc. destruct (Ascii.eqb_spec c "."); [by subst|done].
Qed.

Lemma segment_chars s : segment s = true -> str_forall (fun x => negb (Ascii.eqb x ".")) s = true.
Proof. unfold segment. intros [_ H]%andb_true_iff. by apply type_char_no_dot. Qed.

Lemma concat_sep_cons sep s l : l <> [] -> concat_sep sep (s :: l) = s +:+ (sep +:+ concat_sep sep l).
Proof. by destruct l. Qed.

Lemma split_on_concat l :
  l <> [] -> Forall (fun s => segment s = true) l -> split_on "." (concat_sep "." l) = l.
Proof.
  intros Hl H. induction H as [|s l Hs _ IH]; [done|]. destruct l as [|s' l].
  - apply split_on_no_sep. by apply segment_chars.
  - rewrite concat_sep_cons by done.
    change ("." +:+ concat_sep "." (s' :: l)) with (String "." (concat_sep "." (s' :: l))).
    rewrite split_on_sep by (by apply segment_chars). by rewrite IH.
Qed.

Lemma concat_split_on s : concat_sep "." (split_on "." s) = s.
Proof.
  induction s as [|x s IH]; [done|]. cbn [split_on]. pose proof (split_on_nonempty "." s) as Hn.
  destruct (Ascii.eqb_spec x ".") as [->|Hx].
  - rewrite concat_sep_cons by done. rewrite IH. done.
  - destruct (split_on "." s) as [|p ps]; [done|]. destruct ps as [|q ps].
    + cbn in *. by rewrite IH.
    + rewrite concat_sep_cons in * by done. rewrite <- IH. done.
Qed.

(** ** Properties *)

(** The event-type pattern accepts exactly the strings that are two or more
    non-empty words over [a-z], [0-9] and [_], joined by single dots. *)
Theorem event_type_spec s :
  EVENT_TYPE_PATTERN s = true <->
  exists segs, s = concat_sep "." segs /\ (2 <= length segs)%nat /\
    Forall (fun g => g <> EmptyString /\ str_forall type_char g = true) segs.
Proof.
  assert (forall g, segment g = true <-> g <> EmptyString /\ str_forall type_char g = true) as Hseg.
  { intros g. unfold segment. rewrite andb_true_iff, negb_true_iff. destruct (String.eqb_spec g EmptyString); naive_solver. }
  unfold EVENT_TYPE_PATTERN. rewrite andb_true_iff, Nat.leb_le, forallb_forall. split.
  - intros [Hl Hs]. exists (split_on "." s). rewrite concat_split_on. split_and!; [done|done|].
    apply Forall_forall. intros g Hg. apply Hseg, Hs. by apply list_elem_of_In.
  - intros (segs & -> & Hl & Hs).
    assert (Forall (fun g => segment g = true) segs) as Hs' by (eapply Forall_impl; [exact Hs|]; intros g; apply Hseg).
    assert (segs <> []) by (intros ->; cbn in Hl; lia). rewrite split_on_concat by done. split; [done|].
    intros g Hg. rewrite Forall_forall in Hs'. apply Hs'. by apply list_elem_of_In.
Qed.

(** What a publication accepts as an event's type. *)
Definition publishable (type : string) : bool := Length 1 100 type && EVENT_TYPE_PATTERN type.

Lemma read_publish_type body dto :
  read_PublishEventDto body = Some dto ->
  publishable (dto_type dto) = true /\ exists l, dto_payload dto = JObj l.
Proof.
  unfold read_PublishEventDto. destruct body as [| | | | | |l]; try done.
  intros (type & _ & H)%bind_Some. destruct (only _ l && _ && _) eqn:E; [|done].
  destruct (prop "payload" l) as [[| | | | | |p]|]; try done. injection H as <-. cbn.
  apply andb_true_iff in E as [E He]. apply andb_true_iff in E as [_ E]. unfold publishable. rewrite E, He. eauto.
Qed.

Lemma mapM_check l types : mapM check_event_type l = Some types ->
  l = JStr <$> types /\ Forall (fun y => EVENT_TYPE_PATTERN y = true) types.
Proof.
  revert types. induction l as [|j l IH]; intros types H; [by injection H as <-|].
  cbn in H. apply bind_Some in H as (y & Hy & (ys & Hys & [= <-])%bind_Some).
  destruct (IH ys Hys) as [-> Hall]. destruct j as [| | | |s| |]; try done. cbn in Hy.
  destruct (EVENT_TYPE_PATTERN s) eqn:E; [|done]. injection Hy as <-. split; [done|]. by constructor.
Qed.

Lemma pattern_nonempty s : EVENT_TYPE_PATTERN s = true -> 1 <= Z.of_nat (String.length s).
Proof. destruct s; [done|]. cbn [String.length]. lia. Qed.

(** Publishers and subscribers agree on event types up to one gap: a validated
    publication has a type of 1 to 100 characters that matches the pattern and a
    JSON object as its payload; a validated subscription set has at most 100
    types, all matching the same pattern, and each of them can be published
    exactly when it fits the [VARCHAR(100)] column of subscriptions, since the
    subscription DTO does not bound the length. *)
Theorem subscribable_types body types y :
  read_SetSubscriptionsDto body = Some types -> y ∈ types ->
  (length types <= 100)%nat /\ EVENT_TYPE_PATTERN y = true /\ publishable y = fits y /\
  (forall body' dto, read_PublishEventDto body' = Some dto ->
     publishable (dto_type dto) = true /\ exists l, dto_payload dto = JObj l).
Proof.
  intros H Hy. unfold read_SetSubscriptionsDto in H. destruct body as [| | | | | |l]; try done.
  destruct (prop "eventTypes" l) as [[| | | | |js|]|]; try done.
  destruct (only ["eventTypes"] l && (length js <=? 100)%nat) eqn:E; [|done].
  apply andb_true_iff in E as [_ E%Nat.leb_le]. apply mapM_check in H as [-> Hall].
  rewrite length_fmap in E. split; [done|]. rewrite Forall_forall in Hall. specialize (Hall y Hy). split; [done|].
  split; [|apply read_publish_type].
  unfold publishable, fits, Length. rewrite Hall, andb_true_r. apply pattern_nonempty in Hall.
  by destruct (Z.leb_spec 1 (Z.of_nat (String.length y))); [|lia].
Qed.

Lemma subscribable_types_witness :
  publishable "order.created" = true /\ fits "order.created" = true.
Proof.
  destruct (subscribable_types (JObj [("eventTypes", JArr [JStr "order.created"; JStr "order.paid"])])
    ["order.created"; "order.paid"] "order.created") as (_ & _ & H & _); [reflexivity|by left|].
  split; [reflexivity|]. by rewrite <- H.
Defined.
