(* ===== verification/Sends.v ===== *)
(** * What a processed delivery sends

    The request of an attempt: at most one per run of [process], to the endpoint's
    URL, with the event's body signed under the endpoint's secret, whatever fails
    around it; and a delivery is SUCCEEDED only if the receiver answered that very
    request with a 2xx. *)

From S2P Require Import Prelude Errors Effects Json Platform Schema Registry World Config TestPlatform Signature.
From S2P Require Import CircuitStore SecretCipher EndpointCache HttpClient Processor.
Open Scope Z_scope.
Open Scope hook_scope.

Section sends.
Context `{P : Platform}.
Variable cfg : Config.

(** The receiver answers a request with success, at some draw. *)
Definition accepted (rq : HttpRequest) : Prop :=
  exists k st text lat, http_reply k rq = Responds st text lat /\ 200 <= st < 300.

(** The request of a delivery of [ev] to [ep] at [sentAt]. *)
Definition delivery_request (D eventId : string) (ev : Event) (ep : EndpointConfig) (sentAt : Z) : HttpRequest :=
  let body := delivery_body eventId ev in
  mkRequest (ec_url ep) (delivery_headers D ev (ec_secret ep) body sentAt) body.

(** ** Steps that send nothing *)

Definition quiet (w w' : World) : Prop := requests w' = requests w.

#[local] Instance quiet_preorder : PreOrder quiet.
Proof. split; [done|]. intros w1 w2 w3 H1 H2. unfold quiet in *. congruence. Qed.

Lemma quiet_db w w' : db_step w w' -> quiet w w'.
Proof. intros (_ & _ & _ & _ & Ht). unfold quiet, requests. by rewrite Ht. Qed.

Lemma quiet_circuit w w' : circuit_step w w' -> quiet w w'.
Proof. by intros [-> _]. Qed.

Lemma quiet_metric op m labels v : acts quiet (metric_call op m labels v).
Proof. apply acts_update. intros w. by apply requests_observe. Qed.

Lemma quiet_tx {R} (s : stm R) : db_only s -> acts quiet (transaction s).
Proof. intros Hs. apply acts_transaction; [done|apply quiet_db]. Qed.

Lemma quiet_settle_success D ep n : acts quiet (settle_success D ep n).
Proof.
  apply settle_success_acts; try apply _.
  - intros i f _. apply quiet_tx, db_only_endpoint_update.
  - intros D' f _. apply quiet_tx, db_only_delivery_update.
  - apply quiet_circuit.
  - intros w op m labels v _. by apply requests_observe.
Qed.

Lemma quiet_settle_failure wid D ep n c : acts quiet (settle_failure cfg wid D ep n c).
Proof.
  apply settle_failure_acts; try apply _.
  - intros i f _. apply quiet_tx, db_only_endpoint_update.
  - intros D' f _. apply quiet_tx, db_only_delivery_update.
  - apply quiet_circuit.
  - done.
  - intros w op m labels v _. by apply requests_observe.
Qed.

Lemma quiet_finishFailure D i n c b t : acts quiet (finishFailure cfg D i n c b t).
Proof.
  apply finishFailure_acts.
  - intros j f _. apply quiet_tx, db_only_attempt_update.
  - intros D' f _. apply quiet_tx, db_only_delivery_update.
Qed.

Lemma failure_is_not_success wid D ep n c : rets (fun r => r <> RSucceeded) (settle_failure cfg wid D ep n c).
Proof.
  unfold settle_failure. repeat (apply rets_bind; intros ?). cbn. by destruct (maxAttempts cfg <=? n).
Qed.

Lemma finish_is_not_success D i n c b t : rets (fun r => r <> RSucceeded) (finishFailure cfg D i n c b t).
Proof.
  unfold finishFailure. repeat (apply rets_bind; intros ?). cbn. by destruct (maxAttempts cfg <=? n).
Qed.

(** ** One exchange *)

(** Nothing was sent, or exactly [rq]; an answer is the receiver's. *)
Definition exchanged (rq : HttpRequest) (w w' : World) (r : exn + (Z * string)) : Prop :=
  (requests w' = requests w /\ exists e, r = inl e) \/
  (requests w' = requests w ++ [ObsHttp rq] /\
   forall st text, r = inr (st, text) -> exists k lat, http_reply k rq = Responds st text lat).

Lemma exchange_answer rq t w x w' :
  (let w' := observe (ObsHttp rq) (drawn w) in
   let '(r, lat) := match http_reply (w_draws w) rq with
     | Responds status text lat => (inr (status, text), lat)
     | Fails e lat => (inl e, lat) end in
   if t <? lat then (inl TimeoutError, elapse t w') else (r, elapse lat w')) = (x, w') ->
  requests w' = requests w ++ [ObsHttp rq] /\
  forall st text, x = inr (st, text) -> exists k lat, http_reply k rq = Responds st text lat.
Proof.
  assert (forall d, requests (elapse d (observe (ObsHttp rq) (drawn w))) = requests w ++ [ObsHttp rq]) as H
    by (intros d; unfold requests; cbn; by rewrite List.filter_app).
  destruct (http_reply (w_draws w) rq) as [st text lat|e lat] eqn:E; cbv beta iota zeta;
    destruct (t <? lat); intros [= <- <-]; rewrite H; (split; [done|]); try done. intros ? ? [= <- <-]. eauto.
Qed.

Lemma run_exchange sched n rq t w r w' n' :
  run sched n (http_exchange rq t) w = (r, w', n') -> exchanged rq w w' r.
Proof.
  unfold http_exchange, call. cbn [run].
  destruct (Effects.attempt (sched n) Receiver _ w) as [x w1] eqn:E.
  intros Hr. assert (r = x /\ w' = w1) as [-> ->] by (by destruct x; cbn [run] in Hr; simplify_eq).
  unfold Effects.attempt in E. destruct (sched n) as [|e|e]; cbv beta iota in E.
  - right. by apply exchange_answer in E.
  - injection E as <- <-. left. eauto.
  - match type of E with (_, ?t.2) = _ => destruct t as [y w2] eqn:E2 end. apply exchange_answer in E2 as [E2 _].
    injection E as <- <-. right. by split.
Qed.

Lemma exchanged_after rq w w1 w' r : quiet w w1 -> exchanged rq w1 w' r -> exchanged rq w w' r.
Proof. unfold quiet, exchanged. by intros ->. Qed.

Lemma quiet_connect addrs : acts quiet (connect addrs).
Proof. apply acts_update. intros w. by apply requests_observe. Qed.

Lemma quiet_dns h : acts quiet (dnsLookup h).
Proof. by apply acts_call. Qed.

Lemma run_query_local {R} sched n (f : World -> R) w : run sched n (query Local f) w = (inr (f w), w, S n).
Proof. done. Qed.

(** A quiet step that may fail, then an exchange. *)
Lemma quiet_then {A} sched n (p : prog World A) (k : A -> prog World (Z * string)) rq w r w' n' :
  acts quiet p ->
  (forall a w1 n1 w2 n2 x, run sched n1 (k a) w1 = (x, w2, n2) -> exchanged rq w1 w2 x) ->
  run sched n (bind p k) w = (r, w', n') -> exchanged rq w w' r.
Proof.
  intros Hp Hk. rewrite run_bind. destruct (run sched n p w) as [[[e|a] w1] n1] eqn:E;
    apply (acts_run _ _ _ _ _ _ _ _ Hp) in E.
  - intros [= <- <- <-]. left. eauto.
  - intros H%Hk. by eapply exchanged_after.
Qed.

Lemma throw_exchanged sched n e rq w r w' n' : run sched n (Throw e) w = (r, w', n') -> exchanged rq w w' r.
Proof. intros [= <- <- <-]. left. eauto. Qed.

Lemma run_request sched n rq t w r w' n' :
  run sched n (request cfg rq t) w = (r, w', n') -> exchanged rq w w' r.
Proof.
  unfold request. apply quiet_then; [by apply acts_query, _|]. clear. intros [] w n w' n' r; [apply run_exchange|].
  destruct (parse_url (rq_url rq)) as [u|]; [|apply throw_exchanged].
  destruct (negb _); (apply quiet_then; [apply quiet_connect || apply quiet_dns|]); clear; intros a w n w' n' r.
  - apply run_exchange.
  - destruct (lookup_hook cfg a); [apply throw_exchanged|]. apply quiet_then; [apply quiet_connect|].
    clear. intros _ w n w' n' r. apply run_exchange.
Qed.

(** *** [send]: at most that one request, and success only for its 2xx. *)
Lemma run_send_sends sched n w url headers body t r w' n' :
  run sched n (send cfg url headers body t) w = (r, w', n') ->
  exists o, r = inr o /\
    ((requests w' = requests w /\ ok o = false) \/
     (requests w' = requests w ++ [ObsHttp (mkRequest url headers body)] /\
      (ok o = true -> accepted (mkRequest url headers body)))).
Proof.
  intros E. pose proof (run_send cfg sched n w url headers body t) as H.
  destruct (run sched (S n) _ w) as [[x w1] n1] eqn:E1. rewrite H in E. injection E as <- <- <-.
  eexists. split; [done|].
  destruct (check_literal_cases cfg url) as [[e Hl]|[Hl _]]; rewrite Hl in E1; cbn [bind] in E1.
  { injection E1 as <- <- <-. by left. }
  apply run_request in E1 as [[Hr [e ->]]|[Hr Hst]]; [by left|]. right. split; [done|].
  destruct x as [e|[st text]]; [done|]. unfold response_outcome.
  destruct ((200 <=? st) && (st <? 300)) eqn:Hr2; [|done]. intros _.
  destruct (Hst st text eq_refl) as (k & lat & Hk). exists k, st, text, lat. split; [done|].
  apply andb_true_iff in Hr2 as [?%Z.leb_le ?%Z.ltb_lt]. lia.
Qed.

(** *** A run of [process] *)

(** Nothing was sent, and no success; or just [rq], and success only if accepted. *)
Definition sends_at_most (rq : HttpRequest) (w w' : World) (r : exn + ProcessResult) : Prop :=
  (requests w' = requests w /\ r <> inr RSucceeded) \/
  (requests w' = requests w ++ [ObsHttp rq] /\ (r = inr RSucceeded -> accepted rq)).

Lemma sends_quiet {A} (p : prog World A) sched n w r w' n' :
  acts quiet p -> run sched n p w = (r, w', n') -> requests w' = requests w.
Proof. intros Hp E. exact (acts_run _ _ _ _ _ _ _ _ Hp E). Qed.

Lemma not_success sched n (p : prog World ProcessResult) w r w' n' :
  rets (fun r => r <> RSucceeded) p -> run sched n p w = (r, w', n') -> r <> inr RSucceeded.
Proof. intros Hp E ->. by apply (rets_run _ _ _ _ _ _ _ _ Hp E). Qed.

(** What follows the exchange sends nothing more. *)
Lemma run_settled sched n wid D ep claimed attemptNo outcome w r w' n' :
  run sched n (observe_seconds deliveryDuration [] (durationMs outcome) ;;
    transaction (attempt_update claimed (set_outcome outcome)) ;;
    match outcome with
    | Ok _ _ _ => settle_success D ep attemptNo
    | Failed c _ _ _ => settle_failure cfg wid D ep attemptNo c
    end) w = (r, w', n') ->
  requests w' = requests w /\ (r = inr RSucceeded -> ok outcome = true).
Proof.
  intros E. split.
  - eapply sends_quiet, E. apply acts_bind; [apply quiet_metric|intros _].
    apply acts_bind; [apply quiet_tx, db_only_attempt_update|intros _].
    destruct outcome; [apply quiet_settle_success|apply quiet_settle_failure].
  - destruct outcome as [|c st b d]; [done|]. intros ->. exfalso. eapply not_success; [|exact E|done].
    do 2 (apply rets_bind; intros _). apply failure_is_not_success.
Qed.

Lemma run_attempt_sends sched n wid D d ep headers body attemptNo claimed w r w' n' :
  run sched n (run_attempt cfg wid D d ep headers body attemptNo claimed) w = (r, w', n') ->
  sends_at_most (mkRequest (ec_url ep) headers body) w w' r.
Proof.
  unfold run_attempt. rewrite run_bind.
  destruct (run sched n (allow cfg _) w) as [[[e|a] w1] n1] eqn:E1;
    (apply sends_quiet in E1; [|by eapply acts_mono, allow_acts; apply quiet_circuit]).
  { intros [= <- <- <-]. by left. }
  destruct a; cbn [negb].
  - rewrite run_bind. destruct (run sched n1 (send cfg _ _ _ _) w1) as [[x w2] n2] eqn:E2.
    apply run_send_sends in E2 as (o & -> & Hs). cbv beta iota. intros E3%run_settled.
    destruct E3 as [E3 Ho]. unfold sends_at_most. rewrite E3, <- E1.
    destruct Hs as [[-> Hf]|[-> Ha]]; [left|right]; (split; [done|]); [|auto].
    intros Hr. by rewrite Ho in Hf.
  - intros E2. left. split.
    + rewrite <- E1. eapply sends_quiet, E2. do 3 (apply acts_bind; [apply quiet_metric|intros _]). apply quiet_finishFailure.
    + eapply not_success, E2. do 3 (apply rets_bind; intros _). apply finish_is_not_success.
Qed.

Lemma run_db_read {R} sched n (f : Db -> R) w r w' n' :
  run sched n (db_read f) w = (r, w', n') -> w' = w /\ forall x, r = inr x -> x = f (w_db w).
Proof.
  unfold db_read, query, call. cbn [run]. unfold Effects.attempt.
  destruct (sched n); cbn; intros [= <- <- <-]; split; try done. by intros x [= <-].
Qed.

Lemma run_get sched n wid ep w r w' n' :
  run sched n (get cfg wid ep) w = (r, w', n') ->
  requests w' = requests w /\ w_now w' = w_now w /\
  forall v, r = inr (Some v) -> effective_endpoint cfg w wid ep = inr (Some v).
Proof.
  unfold get, effective_endpoint, fresh. rewrite run_bind, run_query_local.
  destruct (cache_lookup wid ep w) as [v|].
  { intros [= <- <- <-]. split_and!; naive_solver. }
  rewrite run_bind. destruct (run sched (S n) (db_read _) w) as [[[e|row] w1] n1] eqn:E.
  { apply run_db_read in E as [-> _]. by intros [= <- <- <-]. }
  apply run_db_read in E as [-> Hrow]. rewrite (Hrow row eq_refl). destruct (endpoints (w_db w) !! ep) as [e|].
  - destruct (decrypt cfg (ep_secretEnc e)) as [x|secret]; [by intros [= <- <- <-]|].
    intros [= <- <- <-]. split_and!; naive_solver.
  - by intros [= <- <- <-].
Qed.

(** C19.  What processing a delivery sends, whatever fails around it (database,
    Redis, queue, resolver, receiver, before or after the effect): nothing, and
    then the result is not SUCCEEDED; or exactly one request, for a delivery that
    was not done, to the URL the worker holds for its ACTIVE endpoint, whose body
    is the event's and whose headers sign it under the endpoint's secret, and then
    the result is SUCCEEDED only if the receiver answered that request with a 2xx. *)
Theorem process_sends sched n wid D w :
  let '(r, w', _) := run sched n (process cfg wid D) w in
  (requests w' = requests w /\ r <> inr RSucceeded) \/
  exists d ev ep, find_delivery D (w_db w) = Some (d, ev) /\ is_done d = false /\
    effective_endpoint cfg w wid (dl_endpointId d) = inr (Some ep) /\ ec_status ep = ACTIVE /\
    let rq := delivery_request D (dl_eventId d) ev ep (w_now w) in
    requests w' = requests w ++ [ObsHttp rq] /\ (r = inr RSucceeded -> accepted rq).
Proof.
  destruct (run sched n (process cfg wid D) w) as [[r w'] n'] eqn:E. revert E.
  assert (forall x n1 w1, requests w1 = requests w -> x <> RSucceeded -> run sched n1 (skip x) w1 = (r, w', n') ->
    requests w' = requests w /\ r <> inr RSucceeded) as Hskip.
  { intros x n1 w1 <- Hx Hrun. split; [|by eapply not_success, Hrun; apply rets_bind].
    eapply sends_quiet, Hrun. apply acts_bind; [apply quiet_metric|done]. }
  unfold process. rewrite run_bind.
  destruct (run sched n (db_read _) w) as [[x w1] n1] eqn:E1. apply run_db_read in E1 as [-> Hx].
  destruct x as [e|found]; [intros [= <- <- <-]; by left|]. rewrite (Hx found eq_refl). clear found Hx.
  destruct (find_delivery D (w_db w)) as [[d ev]|]; [|intros E; left; by eapply Hskip, E].
  fold (is_done d). destruct (is_done d) eqn:Hdone; [intros E; left; by eapply Hskip, E|].
  rewrite run_bind. destruct (run sched n1 (get cfg wid _) w) as [[x w2] n2] eqn:E2.
  apply run_get in E2 as (Hr2 & Hn2 & Hget). destruct x as [e|[ep|]]; [| |intros E; left; by eapply Hskip, E].
  { intros [= <- <- <-]. by left. }
  specialize (Hget ep eq_refl). case_bool_decide as Hact; cbn [negb]; [|intros E; left; by eapply Hskip, E].
  rewrite run_bind, run_Date_now, Hn2. cbv beta iota zeta. rewrite run_bind.
  destruct (run sched _ (claim _ _ _) w2) as [[[e|id] w3] n3] eqn:E3;
    (apply sends_quiet in E3; [|apply (claim_acts quiet); intros; apply quiet_tx, db_only_attempt_create]);
    rewrite Hr2 in E3.
  { intros [= <- <- <-]. by left. }
  destruct id as [id|]; [|intros E; left; by eapply Hskip, E].
  intros E%run_attempt_sends. unfold sends_at_most in E. rewrite E3 in E. destruct E as [?|?]; [by left|right].
  by exists d, ev, ep.
Qed.

End sends.
