(* ===== verification/Api.v ===== *)
(** * The HTTP API: the controllers

    Every route as NestJS composes it from the decorators: the guard, the parameter
    pipes and the body's DTO, the service call, and the global exception filter
    ([endpoints.controller.ts], [events.controller.ts], [deliveries.controller.ts],
    [api-keys.controller.ts], [tenants.controller.ts], [app.setup.ts]).  The theorem:
    whatever fails, a request writes nothing that belongs to another tenant than the
    one its key authenticates. *)

From Stdlib Require Import QArith_base.
From S2P Require Import Prelude Errors Effects Json Platform Schema Registry World Config TestPlatform Processor.
From S2P Require Import RateLimit Events Deliveries Ssrf Endpoints Tenancy Footprint Dtos Sends.
Open Scope Z_scope.
Open Scope hook_scope.

(** The routes of a tenant, with what the request carries. *)
Inductive Call :=
| PostEndpoint (body : json)
| GetEndpoints
| GetEndpoint (id : string)
| PatchEndpoint (id : string) (body : json)
| PutSubscriptions (id : string) (body : json)
| PostPing (id : string)
| PostEvent (idempotencyKey : option string) (body : json)
| GetEventDeliveries (id : string)
| GetDeliveries (status cursor : option string)
| GetAttempts (id : string)
| PostRedeliver (id : string)
| PostRotate.

(** What a handler returns. *)
Inductive Answer :=
| AnEndpoint (e : EndpointView)
| ANewEndpoint (e : EndpointView) (secret : string)
| AnEndpointWithTypes (e : EndpointView) (types : list string)
| Endpoints_ (l : list (EndpointView * list string))
| Types (endpointId : string) (l : list string)
| Pinged (eventId deliveryId endpointId : string)
| Published (r : PublishResult)
| EventDeliveries (eventId type : string) (createdAt : Z) (l : list EventDelivery)
| Page (l : list DeliveryView) (nextCursor : option string)
| Attempts (deliveryId : string) (d : Delivery) (l : list DeliveryAttempt)
| Redelivered (deliveryId : string)
| NewKey (apiKey last4 : string)
| NewTenant (tenantId name : string) (plan : TenantPlan) (apiKey : string).

Section api.
Context `{P : Platform}.
Variable cfg : Config.
Context (legacyDate : json -> option Z) (uuid_ok : string -> bool).
(** [IsUrl] of the validator package, and the messages that class-validator builds *)
Context (is_url : string -> bool) (dto_message : json -> list string).

(** [ParseUUIDPipe] *)
Definition uuid_param (id : string) : prog World string :=
  if uuid_ok id then Ret id else Throw (EHttpException 400 (MText "Validation failed (uuid is expected)")).

(** [@Body() dto] under the validation pipe, whose exception carries an array *)
Definition dto {A} (read : json -> option A) (body : json) : prog World A :=
  match read body with Some x => Ret x | None => Throw (EHttpException 400 (MTexts (dto_message body))) end.

(** *** [EndpointsController] *)

Definition endpoints_create (tenantId : string) (body : json) : prog World Answer :=
  let* d := dto (read_CreateEndpointDto is_url) body in
  let* r := create cfg tenantId d in Ret (ANewEndpoint r.1 r.2).

Definition endpoints_list (tenantId : string) : prog World Answer :=
  let* l := list_endpoints tenantId in Ret (Endpoints_ l).

Definition endpoints_get (tenantId id : string) : prog World Answer :=
  let* id := uuid_param id in
  let* r := get_endpoint tenantId id in Ret (AnEndpointWithTypes r.1 r.2).

Definition endpoints_update (tenantId id : string) (body : json) : prog World Answer :=
  let* id := uuid_param id in
  let* d := dto (read_UpdateEndpointDto is_url) body in
  let* e := update_endpoint cfg tenantId id d in Ret (AnEndpoint e).

Definition endpoints_setSubscriptions (tenantId id : string) (body : json) : prog World Answer :=
  let* id := uuid_param id in
  let* types := dto read_SetSubscriptionsDto body in
  let* l := setSubscriptions tenantId id types in Ret (Types id l).

Definition endpoints_ping (tenantId id : string) : prog World Answer :=
  let* id := uuid_param id in
  let* r := ping tenantId id in Ret (Pinged r.1 r.2 id).

(** *** [EventsController] *)

Definition events_publish (tenantId : string) (plan : TenantPlan) (key : option string) (body : json) : prog World Answer :=
  let* d := dto read_PublishEventDto body in
  let* r := controller_publish cfg tenantId plan d key in Ret (Published r).

Definition events_deliveries (tenantId id : string) : prog World Answer :=
  let* id := uuid_param id in
  let* r := getDeliveries tenantId id in Ret (EventDeliveries id r.1.1 r.1.2 r.2).

(** *** [DeliveriesController] *)

Definition deliveries_list (tenantId : string) (status cursor : option string) : prog World Answer :=
  let* r := controller_list legacyDate uuid_ok tenantId status cursor in Ret (Page r.1 r.2).

Definition deliveries_attempts (tenantId id : string) : prog World Answer :=
  let* id := uuid_param id in
  let* r := get_attempts tenantId id in Ret (Attempts id r.1 r.2).

Definition deliveries_redeliver (tenantId id : string) : prog World Answer :=
  let* id := uuid_param id in
  let* d := redeliver tenantId id in Ret (Redelivered d).

(** *** [ApiKeysController] and [TenantsController] *)

Definition apiKeys_rotate (tenantId : string) : prog World Answer :=
  let* r := rotate tenantId in Ret (NewKey r.1 r.2).

Definition tenants_create (body : json) : prog World Answer :=
  let* d := dto read_CreateTenantDto body in
  let* r := create_tenant d.1 d.2 in Ret (NewTenant r.1 d.1 d.2 r.2).

(** ** Routing *)

Definition handle (tenantId : string) (plan : TenantPlan) (c : Call) : prog World Answer :=
  match c with
  | PostEndpoint body => endpoints_create tenantId body
  | GetEndpoints => endpoints_list tenantId
  | GetEndpoint id => endpoints_get tenantId id
  | PatchEndpoint id body => endpoints_update tenantId id body
  | PutSubscriptions id body => endpoints_setSubscriptions tenantId id body
  | PostPing id => endpoints_ping tenantId id
  | PostEvent key body => events_publish tenantId plan key body
  | GetEventDeliveries id => events_deliveries tenantId id
  | GetDeliveries status cursor => deliveries_list tenantId status cursor
  | GetAttempts id => deliveries_attempts tenantId id
  | PostRedeliver id => deliveries_redeliver tenantId id
  | PostRotate => apiKeys_rotate tenantId
  end.

(** [@HttpCode(202)] on publish, NestJS's defaults otherwise *)
Definition success_status (c : Call) : Z :=
  match c with
  | PostEvent _ _ => 202
  | PostEndpoint _ | PostPing _ | PostRedeliver _ | PostRotate => 201
  | _ => 200
  end.

(** The method, the path and the route of a request. *)
Definition call_method (c : Call) : string :=
  match c with
  | PostEndpoint _ | PostPing _ | PostEvent _ _ | PostRedeliver _ | PostRotate => "POST"
  | PatchEndpoint _ _ => "PATCH"
  | PutSubscriptions _ _ => "PUT"
  | _ => "GET"
  end.

Definition at_route (id : string) (c : Call) : string :=
  match c with
  | PostEndpoint _ | GetEndpoints => "/endpoints"
  | GetEndpoint _ | PatchEndpoint _ _ => "/endpoints/" +:+ id
  | PutSubscriptions _ _ => "/endpoints/" +:+ id +:+ "/subscriptions"
  | PostPing _ => "/endpoints/" +:+ id +:+ "/ping"
  | PostEvent _ _ => "/events"
  | GetEventDeliveries _ => "/events/" +:+ id +:+ "/deliveries"
  | GetDeliveries _ _ => "/deliveries"
  | GetAttempts _ => "/deliveries/" +:+ id +:+ "/attempts"
  | PostRedeliver _ => "/deliveries/" +:+ id +:+ "/redeliver"
  | PostRotate => "/api-keys/rotate"
  end.

Definition call_route : Call -> string := at_route ":id".

Definition call_path (c : Call) : string :=
  at_route (match c with
            | GetEndpoint id | PatchEndpoint id _ | PutSubscriptions id _ | PostPing id
            | GetEventDeliveries id | GetAttempts id | PostRedeliver id => id
            | _ => EmptyString
            end) c.

(** [HttpMetricsInterceptor.intercept].  [finalize] runs when the handler has
    returned or thrown; at that point [res.statusCode] is [status], the one the
    framework has set for the route, since the exception filter, which sets the
    error's, comes after the interceptors.  The clock is the model's. *)
Definition route_labels (method route : string) : list (string * string) := [("method", method); ("route", route)].

Definition request_labels (method route : string) (status : Z) : list (string * string) :=
  route_labels method route ++ [("status", decZ status)].

Definition intercept {A} (path method route : string) (status : Z) (handler : prog World A) : prog World A :=
  if String.eqb path "/metrics" then handler
  else
    let* started := Date_now in
    finally handler
      (inc httpRequestsTotal (request_labels method route status) ;;
       let* ended := Date_now in
       observe_seconds httpRequestDuration (route_labels method route) (ended - started)).

(** A route under the global filter: the error response, or status and answer. *)
Definition respond (status : Z) (route : prog World Answer) : prog World (ErrorResponse + Z * Answer) :=
  catch (let* a := route in Ret (inr (status, a))) (fun e => Ret (inl (GlobalExceptionFilter_catch e))).

(** [req.method]: Express lets a GET route answer HEAD requests, too. *)
Definition method_label (head : bool) (c : Call) : string :=
  if head && String.eqb (call_method c) "GET" then "HEAD" else call_method c.

(** Guards come before interceptors, these before the pipes.  [head] tells a HEAD
    request on a GET route. *)
Definition tenant_route (head : bool) (authorization : option string) (c : Call) : prog World (ErrorResponse + Z * Answer) :=
  respond (success_status c)
    (let* tenant := canActivate authorization in
     intercept (call_path c) (method_label head c) (call_route c) (success_status c) (handle tenant.1 tenant.2 c)).

(** [POST /tenants] *)
Definition post_tenants (adminKey : option string) (body : json) : prog World (ErrorResponse + Z * Answer) :=
  respond 201
    (admin_canActivate cfg adminKey ;;
     intercept "/tenants" "POST" "/tenants" 201
       (tenants_create body)).

(** ** What belongs to other tenants *)

Section own.
Variable t : string.

Record foreign_kept (d d' : Db) : Prop := {
  fo_tenants : tenants d' = tenants d;
  fo_attempts : attempts d' = attempts d;
  fo_outbox : forall i m, outbox d !! i = Some m -> outbox d' !! i = Some m;
  fo_events : forall i ev, ev_tenantId ev <> t -> events d' !! i = Some ev <-> events d !! i = Some ev;
  fo_endpoints : forall i e, ep_tenantId e <> t -> endpoints d' !! i = Some e <-> endpoints d !! i = Some e;
  fo_apiKeys : forall i k, ak_tenantId k <> t -> apiKeys d' !! i = Some k <-> apiKeys d !! i = Some k;
  fo_subscriptions : forall i s e, endpoints d !! sb_endpointId s = Some e -> ep_tenantId e <> t ->
    subscriptions d' !! i = Some s <-> subscriptions d !! i = Some s;
  fo_deliveries : forall i dl ev, events d !! dl_eventId dl = Some ev -> ev_tenantId ev <> t ->
    deliveries d' !! i = Some dl <-> deliveries d !! i = Some dl;
}.

#[export] Instance foreign_kept_preorder : PreOrder foreign_kept.
Proof.
  split; [by split|]. intros d1 d2 d3 [A1 B1 C1 D1 E1 F1 G1 H1] [A2 B2 C2 D2 E2 F2 G2 H2].
  split; try congruence; [auto|..].
  - intros i ev Hne. by rewrite D2, D1.
  - intros i e Hne. by rewrite E2, E1.
  - intros i k Hne. by rewrite F2, F1.
  - intros i s e He Hne. rewrite (G2 i s e) by (done || by apply E1). by apply (G1 i s e).
  - intros i dl ev Hev Hne. rewrite (H2 i dl ev) by (done || by apply D1). by apply (H1 i dl ev).
Qed.

(** The sequences are ahead of the keys they number. *)
Definition numbered_ok (d : Db) : Prop :=
  (forall i, is_Some (subscriptions d !! i) -> i < subscription_seq d) /\
  (forall i, is_Some (outbox d !! i) -> i < outbox_seq d).

(** Steps that keep what belongs to others, under what has been checked. *)
Definition own_db (K : Db -> Prop) (d d' : Db) : Prop :=
  K d -> numbered_ok d -> K d' /\ numbered_ok d' /\ foreign_kept d d'.

Definition own (K : Db -> Prop) (w w' : World) : Prop := own_db K (w_db w) (w_db w').

#[export] Instance own_footprint K : BaseFootprint (own K).
Proof.
  split; [split|..].
  - intros w HK Hn. split_and!; [done|done|reflexivity].
  - intros w1 w2 w3 H1 H2 HK Hn. destruct (H1 HK Hn) as (HK' & Hn' & ?). destruct (H2 HK' Hn') as (? & ? & ?).
    split_and!; [done|done|by etrans].
  - intros w w' Hd _ _ HK Hn. rewrite Hd. split_and!; [done|done|reflexivity].
  - intros o w _ _ HK Hn. split_and!; [done|done|reflexivity].
Qed.

Lemma own_transaction K {R} (s : stm R) :
  (forall w x w', s w = (inr x, w') -> own K w w') -> acts (own K) (transaction s).
Proof.
  intros Hs. apply acts_call. intros w HK Hn. specialize (Hs w). destruct (s w) as [[e|x] w']; cbn.
  - split_and!; [done|done|reflexivity].
  - by apply (Hs x w' eq_refl HK Hn).
Qed.

(** Statement by statement. *)
Definition own_stm (K : Db -> Prop) {R} (s : stm R) : Prop := forall w, own K w (s w).2.

Lemma own_bind K {R R'} (s : stm R) (k : R -> stm R') :
  own_stm K s -> (forall x, own_stm K (k x)) -> own_stm K (sbind s k).
Proof.
  intros Hs Hk w. unfold sbind. specialize (Hs w). destruct (s w) as [[e|x] w1]; [done|].
  etrans; [exact Hs|apply Hk].
Qed.

Lemma own_acts K {R} (s : stm R) : own_stm K s -> acts (own K) (transaction s).
Proof. intros Hs. apply own_transaction. intros w x w' E. specialize (Hs w). by rewrite E in Hs. Qed.

(** *** A new event of the tenant with its deliveries *)

Lemma own_publication id ev now ds d d' :
  events d !! id = None -> ev_tenantId ev = t ->
  (forall D, D ∈ fst <$> ds -> deliveries d !! D = None) ->
  tenants d' = tenants d -> attempts d' = attempts d -> endpoints d' = endpoints d -> apiKeys d' = apiKeys d ->
  subscriptions d' = subscriptions d -> subscription_seq d' = subscription_seq d ->
  events d' = <[id := ev]> (events d) -> deliveries d' = insert_deliveries id now ds (deliveries d) ->
  (outbox d' = outbox d /\ outbox_seq d' = outbox_seq d \/
   exists m, outbox d' = <[outbox_seq d := m]> (outbox d) /\ outbox_seq d' = outbox_seq d + 1) ->
  own_db (fun _ => True) d d'.
Proof.
  intros Hid Ht Hfr E1 E2 E3 E4 E5 E6 E7 E8 Ho _ [N1 N2]. split; [done|].
  assert (forall i, is_Some (outbox d' !! i) -> i < outbox_seq d') as N2'.
  { destruct Ho as [[-> ->]|(m & -> & ->)]; [done|]. intros i [<-|Hi]%lookup_insert_is_Some'; [lia|]. apply N2 in Hi. lia. }
  split; [split; [by rewrite E5, E6|done]|]. split; rewrite ?E1, ?E2, ?E3, ?E4, ?E5; try done.
  - intros i m Hm. destruct Ho as [[-> _]|(m' & -> & _)]; [done|]. rewrite lookup_insert_ne; [done|].
    intros <-. specialize (N2 _ (mk_is_Some _ _ Hm)). lia.
  - intros i x Hne. rewrite E7, lookup_insert_Some. split; [by intros [[_ <-]|[_ ?]]|].
    intros Hx. right. split; [|done]. intros <-. congruence.
  - intros i dl x Hx Hne. rewrite E8. split.
    + intros [?|[Hd _]]%insert_deliveries_new; [done|]. rewrite Hd in Hx. congruence.
    + intros Hd. rewrite insert_deliveries_old; [done|]. intros Hin%Hfr. congruence.
Qed.

Lemma own_publish_body b key : acts (own (fun _ => True)) (transaction (publish_body t b key)).
Proof.
  apply own_transaction. intros w res w' E.
  apply publish_body_inv in E as (_ & Hev & _ & _ & _ & Hfr & Hdb). unfold own. rewrite Hdb.
  apply (own_publication (pr_eventId res) (mkEvent t (dto_type b) (jsonb_store (dto_payload b)) key (w_now w))
    (w_now w) (pr_deliveries res)); try done;
    unfold published_db; destruct (pr_deliveries res); try reflexivity; [by left|right; by eexists].
Qed.

Lemma own_ping_body e p k d ep : acts (own (fun _ => True)) (transaction
  (let+ _ := event_insert e t "endpoint.ping" p k in let+ _ := delivery_create d e ep in outbox_create e (Some d))).
Proof.
  apply own_transaction. intros w x w'. unfold sbind, event_insert, delivery_create. cbv beta zeta.
  destruct (event_by_key t k (w_db w)); [done|]. destruct (events (w_db w) !! e) eqn:He; [done|].
  destruct (tenants (w_db w) !! t); [|done].
  cbn [w_db with_db]. destruct (delivery_taken d e ep _) eqn:Ht; [done|]. intros [= <- <-].
  apply (own_publication e (mkEvent t "endpoint.ping" (jsonb_store p) k (w_now w)) (w_now w) [(d, ep)]); try done.
  - intros D HD. apply list_elem_of_singleton in HD as ->. unfold delivery_taken in Ht. cbn in Ht |- *.
    by destruct (deliveries (w_db w) !! d).
  - right. by eexists.
Qed.

(** *** Endpoints and subscriptions, of an endpoint the tenant owns *)

Definition owns (id : string) (d : Db) : Prop := exists e, endpoints d !! id = Some e /\ ep_tenantId e = t.

Lemma foreign_endpoints id e d : (forall e0, endpoints d !! id = Some e0 -> ep_tenantId e0 = t) ->
  ep_tenantId e = t -> foreign_kept d (set_endpoints (insert id e) d).
Proof.
  intros H0 He. split; try done. intros i x Hne. cbn. rewrite lookup_insert_Some. split.
  - by intros [[_ <-]|[_ ?]].
  - intros Hx. right. split; [|done]. intros <-. by specialize (H0 _ Hx).
Qed.

Lemma own_endpoint_create url desc sec : acts (own (fun _ => True)) (transaction (endpoint_create t url desc sec)).
Proof.
  apply own_transaction. intros w x w'. unfold endpoint_create, sbind, suuid. cbn [w_db drawn].
  destruct (endpoint_by_url t url (w_db w)); [done|]. destruct (endpoints (w_db w) !! _) eqn:He; [done|].
  destruct (tenants (w_db w) !! t); [|done]. intros [= <- <-] _ Hn. split_and!; [done|done|].
  apply (foreign_endpoints _ _ (w_db w)); [|done]. intros e0 He0. discriminate (eq_trans (eq_sym He) He0).
Qed.

Lemma own_endpoint_change id b : acts (own (owns id)) (transaction (endpoint_change id (apply_update b))).
Proof.
  apply own_transaction. intros w x w'. unfold endpoint_change.
  destruct (endpoints (w_db w) !! id) as [e|] eqn:He; [|done]. destruct (endpoint_by_url _ _ _); [done|].
  intros [= <- <-] (e1 & He1 & Ht) Hn. assert (e1 = e) as -> by congruence. split_and!; [|done|].
  - exists (touch_endpoint (w_now w) (apply_update b e)). split; [|done]. apply lookup_insert_eq.
  - apply foreign_endpoints; [|done]. intros e0 He0. congruence.
Qed.

Lemma own_deleteMany id : own_stm (owns id) (subscription_deleteMany id).
Proof.
  intros w (e & He & Ht) [N1 N2]. split; [by exists e|]. split; [split; [|done]|].
  - intros i [s [Hi _]%map_lookup_filter_Some]. by apply N1.
  - split; try done. intros i s e' He' Hne. cbn. rewrite map_lookup_filter_Some. split; [by intros [? _]|].
    intros Hs. split; [done|]. cbn. intros E. rewrite E in He'. congruence.
Qed.

Lemma own_subscription_create id y : own_stm (owns id) (subscription_create id y).
Proof.
  intros w (e & He & Ht) [N1 N2]. unfold subscription_create.
  destruct (100 <? _); [split_and!; [by exists e|done|reflexivity]|]. rewrite He.
  destruct (subscribed _ _ _); [split_and!; [by exists e|done|reflexivity]|].
  split; [by exists e|]. split; [split; [|done]|].
  - cbn. intros i [<-|Hi]%lookup_insert_is_Some'; [lia|]. apply N1 in Hi. lia.
  - split; try done. intros i s e' He' Hne. cbn. rewrite lookup_insert_Some. split.
    + intros [[_ <-]|[_ ?]]; [cbn in He'; congruence|done].
    + intros Hs. right. split; [|done]. intros <-. specialize (N1 _ (mk_is_Some _ _ Hs)). lia.
Qed.

Lemma own_subscriptions id types : acts (own (owns id)) (transaction
  (let+ _ := subscription_deleteMany id in subscription_createMany id types)).
Proof.
  apply own_acts, own_bind; [apply own_deleteMany|]. intros _.
  induction types as [|y types IH]; [intros w; reflexivity|].
  apply own_bind; [apply own_subscription_create|by intros _].
Qed.

(** *** Redelivery and rotation *)

Definition owned (eventId id : string) (d : Db) : Prop :=
  event_tenant d eventId = Some t /\ exists dl, deliveries d !! id = Some dl /\ dl_eventId dl = eventId.

Lemma own_redelivery eventId id : acts (own (owned eventId id)) (transaction
  (let+ _ := delivery_update id set_pending in outbox_create eventId (Some id))).
Proof.
  apply own_transaction. intros w x w'. unfold sbind, delivery_update, outbox_create.
  intros E [Hev (dl & Hdl & Hid)] [N1 N2]. rewrite Hdl in E. injection E as _ <-.
  split; [split; [done|]; exists (touch_delivery (w_now w) (set_pending dl)); split; [apply lookup_insert_eq|done]|].
  split; [split; [done|]|].
  - cbn. intros i [<-|Hi]%lookup_insert_is_Some'; [lia|]. apply N2 in Hi. lia.
  - split; try done.
    + intros i m Hm. cbn. rewrite lookup_insert_ne; [done|]. intros <-. specialize (N2 _ (mk_is_Some _ _ Hm)). lia.
    + intros i dl' ev' Hev' Hne. cbn. rewrite lookup_insert_Some. unfold event_tenant in Hev. split.
      * intros [[<- <-]|[_ ?]]; [|done]. cbn in Hev'. rewrite Hid in Hev'. rewrite Hev' in Hev. cbn in Hev. congruence.
      * intros Hd. right. split; [|done]. intros <-. assert (dl' = dl) as -> by congruence.
        rewrite Hid in Hev'. rewrite Hev' in Hev. cbn in Hev. congruence.
Qed.

Lemma own_rotation x key : acts (own (fun _ => True)) (transaction
  (let+ _ := swrite (demote_active t x) in apiKey_create t key)).
Proof.
  apply own_acts, own_bind.
  - intros w _ Hn. split_and!; [done|done|]. split; try done. intros i k Hne. cbn. rewrite lookup_fmap_Some. split.
    + intros (k0 & <- & Hk). revert Hne. case_bool_decide as Hc; [|done].
      intros Hne. by destruct Hne, Hc.
    + intros Hk. exists k. split; [|done]. by rewrite bool_decide_eq_false_2 by naive_solver.
  - intros _. apply own_bind; [intros w _ Hn; split_and!; [done|done|reflexivity]|]. intros id w. cbv beta zeta.
    destruct (key_by_hash _ _), (apiKeys (w_db w) !! id) eqn:Hk, (tenants (w_db w) !! t); try reflexivity.
    intros _ Hn. split_and!; [done|done|]. split; try done.
    intros i k Hne. cbn. rewrite lookup_insert_Some. split; [by intros [[_ <-]|[_ ?]]|].
    intros Hi. right. split; [|done]. intros <-. congruence.
Qed.

(** *** The routes *)

Definition runs_own {A} (p : prog World A) : Prop :=
  forall sched n w r w' n', run sched n p w = (r, w', n') -> own (fun _ => True) w w'.

Lemma runs_own_acts {A} (p : prog World A) : acts (own (fun _ => True)) p -> runs_own p.
Proof. intros Hp sched n w r w' n' E. by apply (acts_run (own (fun _ => True)) p sched n w r w' n'). Qed.

Lemma runs_own_bind {A B} (p : prog World A) (k : A -> prog World B) :
  runs_own p -> (forall a, runs_own (k a)) -> runs_own (bind p k).
Proof.
  intros Hp Hk sched n w r w' n'. rewrite run_bind. destruct (run sched n p w) as [[[e|a] w1] n1] eqn:E.
  - intros [= <- <- <-]. by eapply Hp.
  - intros E'. transitivity w1; [by eapply Hp|by eapply Hk].
Qed.

(** A lookup that establishes what the rest needs. *)
Lemma runs_own_checked {A B} (K : A -> Db -> Prop) (f : Db -> option A) e (k : A -> prog World B) :
  (forall x d, f d = Some x -> K x d) -> (forall x, acts (own (K x)) (k x)) ->
  runs_own (let* x := (let* x := db_read f in match x with None => Throw e | Some x => Ret x end) in k x).
Proof.
  intros HK Hk sched n w r w' n'. rewrite !run_bind. destruct (run sched n (db_read f) w) as [[x w1] n1] eqn:E.
  apply run_db_read in E as [-> Hx]. destruct x as [e'|x]; [by intros [= <- <- <-]|].
  rewrite (Hx x eq_refl). destruct (f (w_db w)) as [a|] eqn:Hf; cbn [run]; [|by intros [= <- <- <-]].
  intros E%(acts_run (own (K a))); [|done]. intros _ Hn. by destruct (E (HK _ _ Hf) Hn) as (_ & ? & ?).
Qed.

Lemma runs_own_scoped {A} id (k : Endpoint -> prog World A) :
  (forall e, acts (own (owns id)) (k e)) -> runs_own (let* e := findScoped t id in k e).
Proof. apply (runs_own_checked (fun _ => owns id)). intros e d Hf%find_scoped_Some. by exists e. Qed.

Lemma dto_own K {A} (read : json -> option A) b : acts (own K) (dto read b).
Proof. unfold dto. by destruct (read b). Qed.

Lemma uuid_param_own K id : acts (own K) (uuid_param id).
Proof. unfold uuid_param. by destruct (uuid_ok id). Qed.

Lemma create_own b : acts (own (fun _ => True)) (create cfg t b).
Proof.
  unfold create. apply acts_bind; [apply (assert_footprint _)|]. intros _. apply acts_bind; [apply (fp_read _)|].
  intros [?|]; [done|]. do 2 (apply acts_bind; [by apply (fp_local_step _)|]; intros ?).
  apply acts_bind; [apply own_endpoint_create|done].
Qed.

Lemma update_own id b : runs_own (update_endpoint cfg t id b).
Proof.
  apply runs_own_scoped. intros _. apply acts_bind; [destruct (ud_url b); [apply (assert_footprint _)|done]|].
  intros _. destruct (null_refused b); [done|]. apply acts_bind; [apply own_endpoint_change|done].
Qed.

Lemma setSubscriptions_own id types : runs_own (setSubscriptions t id types).
Proof. apply runs_own_scoped. intros _. apply acts_bind; [apply own_subscriptions|done]. Qed.

Lemma ping_own id : acts (own (fun _ => True)) (ping t id).
Proof.
  unfold ping. apply acts_bind; [apply (findScoped_footprint _)|]. intros _.
  do 2 (apply acts_bind; [by apply (fp_local_step _)|]; intros ?). apply acts_bind; [apply own_ping_body|done].
Qed.

Lemma publish_own plan b key : acts (own (fun _ => True)) (controller_publish cfg t plan b key).
Proof.
  unfold controller_publish, publish. destruct (key_rejected key); [done|].
  apply acts_bind; [apply (consume_footprint _)|]. intros _. apply acts_bind; [|intros []; fp].
  destruct (_ <? _); [done|]. apply acts_catch; [apply own_publish_body|fp].
Qed.

Lemma redeliver_own id : runs_own (redeliver t id).
Proof.
  apply (runs_own_checked (fun dl => owned (dl_eventId dl) id)).
  - intros dl d [Hd Ht]%find_owned_Some. split; [done|by exists dl].
  - intros dl. apply acts_bind; [apply own_redelivery|done].
Qed.

Lemma rotate_own : acts (own (fun _ => True)) (rotate t).
Proof.
  unfold rotate. apply acts_bind; [by apply (fp_local_step _)|]. intros key. apply acts_bind; [apply (fp_now _)|].
  intros now. apply acts_bind; [apply own_rotation|done].
Qed.

Lemma handle_own plan c : runs_own (handle t plan c).
Proof.
  destruct c; cbn [handle];
    unfold endpoints_create, endpoints_list, endpoints_get, endpoints_update, endpoints_setSubscriptions, endpoints_ping,
      events_publish, events_deliveries, deliveries_list, deliveries_attempts, deliveries_redeliver, apiKeys_rotate;
    repeat match goal with
      | |- runs_own (bind (uuid_param _) _) => apply runs_own_bind; [apply runs_own_acts, uuid_param_own|intros ?]
      | |- runs_own (bind (dto _ _) _) => apply runs_own_bind; [apply runs_own_acts, dto_own|intros ?]
      end; (apply runs_own_bind; [|intros ?; by apply runs_own_acts]).
  - apply runs_own_acts, create_own.
  - apply runs_own_acts, (fp_read _).
  - apply runs_own_acts, (get_endpoint_footprint _).
  - apply update_own.
  - apply setSubscriptions_own.
  - apply runs_own_acts, ping_own.
  - apply runs_own_acts, publish_own.
  - apply runs_own_acts, (getDeliveries_footprint _).
  - apply runs_own_acts, (list_deliveries_footprint _).
  - apply runs_own_acts, (get_attempts_footprint _).
  - apply redeliver_own.
  - apply runs_own_acts, rotate_own.
Qed.

Lemma own_metric K op m labels v : acts (own K) (metric_call op m labels v).
Proof. apply acts_update. intros w HK Hn. split_and!; [done|done|reflexivity]. Qed.

Lemma intercept_own {A} path method route status (p : prog World A) :
  runs_own p -> runs_own (intercept path method route status p).
Proof.
  intros Hp. unfold intercept. destruct (String.eqb _ _); [done|].
  apply runs_own_bind; [apply runs_own_acts, (fp_now _)|]. intros started sched n w r w' n'.
  rewrite run_finally. destruct (run sched n p w) as [[x w1] n1] eqn:E. apply Hp in E.
  destruct (run sched n1 _ w1) as [[y w2] n2] eqn:E2. apply (acts_run (own (fun _ => True))) in E2.
  2:{ apply acts_bind; [apply own_metric|intros _]. apply acts_bind; [apply (fp_now _)|intros ended]. apply own_metric. }
  destruct y; intros [= <- <- <-]; by etrans.
Qed.

End own.
(** ** The guard under faults *)

Lemma run_now_local sched n w : run sched n Date_now w = (inr (w_now w), w, S n).
Proof. done. Qed.

Lemma run_revocation sched n id k h t w r w' n' :
  find_key (hashApiKey (bearer h)) (w_db w) = Some (id, k, t) -> ak_status k = KEY_GRACE -> key_live (w_now w) k = false ->
  run sched n (transaction (apiKey_update id (set_key_status KEY_REVOKED)) ;; Throw (EDomain Errors.invalidApiKey) : prog World unit) w =
    (r, w', n') -> (forall x, r <> inr x) /\ lazily_revoked h w w'.
Proof.
  intros Hf Hs Hl. rewrite run_bind. unfold transaction, call. cbn [run]. unfold Effects.attempt, apiKey_update.
  apply find_key_Some in Hf as Hrow. destruct Hrow as (-> & _ & _).
  assert (lazily_revoked h w (with_db (set_apiKeys (insert id (set_key_status KEY_REVOKED k))) w)) by (right; by exists id, k, t).
  assert (lazily_revoked h w w) by by left.
  by destruct (sched n); cbn; intros [= <- <- <-].
Qed.

Lemma run_canActivate sched n h w r w' n' :
  run sched n (canActivate h) w = (r, w', n') ->
  lazily_revoked h w w' /\ forall x, r = inr x -> guard_result h w = inr x /\ w' = w.
Proof.
  unfold canActivate, guard_result. assert (lazily_revoked h w w) as Hr by by left.
  destruct (startsWith _ _); cbn [negb]; [|by intros [= <- <- <-]].
  rewrite run_bind. destruct (run sched n (db_read _) w) as [[x w1] n1] eqn:E. apply run_db_read in E as [-> Hx].
  destruct x as [e|x]; [by intros [= <- <- <-]|]. rewrite <- (Hx x eq_refl).
  destruct x as [[[id k] t]|]; [|by intros [= <- <- <-]]. specialize (Hx _ eq_refl).
  assert (forall n2 x, run sched n2 (if negb (bool_decide (tn_status t = TENANT_ACTIVE))
      then Throw (EDomain Errors.tenantSuspended) else Ret (ak_tenantId k, tn_plan t)) w = x ->
    x = (if bool_decide (tn_status t = TENANT_ACTIVE) then inr (ak_tenantId k, tn_plan t)
         else inl (EDomain Errors.tenantSuspended), w, n2)) as Htail by (intros n2 x <-; by destruct (bool_decide _)).
  assert (ak_status k = KEY_GRACE -> key_live (w_now w) k = false -> forall n2 r w' n',
    run sched n2 (bind (transaction (apiKey_update id (set_key_status KEY_REVOKED)) ;; Throw (EDomain Errors.invalidApiKey) : prog World unit)
      (fun _ => if negb (bool_decide (tn_status t = TENANT_ACTIVE))
      then Throw (EDomain Errors.tenantSuspended) else Ret (ak_tenantId k, tn_plan t))) w = (r, w', n') ->
    lazily_revoked h w w' /\ forall x, r = inr x -> inl (EDomain Errors.invalidApiKey) = inr x /\ w' = w) as Hrev.
  { intros H1 H2 n2 r2 w2 n2'. rewrite run_bind.
    destruct (run sched n2 (_ ;; _) w) as [[y w3] n3] eqn:E. apply (run_revocation _ _ id k h t) in E as [Hy Hz]; [|done..].
    destruct y as [e|y]; [by intros [= <- <- <-]|by destruct (Hy y)]. }
  unfold check_grace. unfold key_live in *. destruct (ak_status k) eqn:Hs.
  - rewrite bool_decide_eq_false_2 by done. cbn [bind negb]. intros [= -> -> ->]%Htail. by case_bool_decide.
  - rewrite bool_decide_eq_false_2 by done. destruct (ak_expiresAt k) as [x|]; [|by apply Hrev].
    rewrite Z.ltb_antisym in *. cbn [bind]. unfold Date_now, query, call. cbn [bind run Effects.attempt].
    destruct (x <=? w_now w); cbn [negb]; [by apply Hrev|]. intros [= -> -> ->]%Htail. by case_bool_decide.
  - rewrite bool_decide_eq_true_2 by done. by intros [= <- <- <-].
Qed.

(** ** Properties *)

(** C11.  A request writes only its own tenant's data: whatever the route, its
    parameters and its body, and whatever fails while it is served (database, Redis
    or DNS, before or after taking effect), the handler answers, with a success or an
    error response; and either the guard refused the key, and nothing is written but
    the revocation of an expired key, or the key authenticates a tenant and every
    event, endpoint, key, subscription and delivery of another tenant, every tenant
    and every attempt is left as it was, and no outbox row is touched. *)
Theorem api_writes_own_tenant sched n head authorization c w :
  numbered_ok (w_db w) ->
  let '(r, w', _) := run sched n (tenant_route head authorization c) w in
  numbered_ok (w_db w') /\
  ((exists e, r = inr (inl e)) /\ lazily_revoked authorization w w' \/
   exists t plan answer, guard_result authorization w = inr (t, plan) /\ r = inr answer /\
     foreign_kept t (w_db w) (w_db w')).
Proof.
  intros Hn. destruct (run sched n (tenant_route head authorization c) w) as [[r w'] n'] eqn:E. revert E.
  unfold tenant_route, respond. rewrite run_catch, !run_bind.
  destruct (run sched n (canActivate authorization) w) as [[x w1] n1] eqn:E1.
  apply run_canActivate in E1 as [Hl Hg]. destruct x as [e|[t plan]].
  { cbn [run]. intros [= <- <- <-]. split; [|left; split; [by eexists|done]].
    destruct Hl as [->|(id & k & tn & _ & _ & _ & ->)]; done. }
  destruct (Hg _ eq_refl) as [Hg' ->]. clear Hg Hl.
  destruct (run sched n1 (intercept _ _ _ _ (handle _ _ c)) w) as [[y w2] n2] eqn:E2.
  destruct (intercept_own t _ _ _ _ _ (handle_own t plan c) _ _ _ _ _ _ E2 I Hn) as (_ & Hn' & Hf).
  destruct y as [e|a]; cbn [run]; intros [= <- <- <-]; (split; [done|right; by eexists _, _, _]).
Qed.

(** What a request leaves in the metrics: one that the guard accepts is counted
    under the status of the route's success, whatever it is answered (an error is
    never seen in the [status] label), and one that it refuses is not counted. *)
Theorem requests_counted_as_successes sched n head authorization c w :
  let '(r, w', _) := run sched n (tenant_route head authorization c) w in
  w_trace w' = w_trace w /\ (exists e, r = inr (inl e)) \/
  exists tr d, w_trace w' = tr ++
    [ObsMetric MInc httpRequestsTotal (request_labels (method_label head c) (call_route c) (success_status c)) 1;
     ObsMetric MObserve httpRequestDuration (route_labels (method_label head c) (call_route c)) (milli d)].
Proof.
  destruct (run sched n (tenant_route head authorization c) w) as [[r w'] n'] eqn:E. revert E.
  unfold tenant_route, respond. rewrite run_catch, !run_bind.
  destruct (run sched n (canActivate authorization) w) as [[x w1] n1] eqn:E1.
  apply run_canActivate in E1 as [Hl Hg]. destruct x as [e|[t plan]].
  { cbn [run]. intros [= <- <- <-]. left. split; [|by eexists].
    by destruct Hl as [->|(id & k & tn & _ & _ & _ & ->)]. }
  unfold intercept. assert (String.eqb (call_path c) "/metrics" = false) as -> by by destruct c.
  rewrite run_bind, run_now_local, run_finally. cbn [fst snd].
  destruct (run sched _ (handle _ _ c) w1) as [[y w2] n2].
  destruct y as [e|a]; cbn; intros [= <- <- <-]; right; cbn; rewrite <- app_assoc; by eexists _, _.
Qed.

(** Without the admin key nothing is written and the answer is an error. *)
Theorem tenants_need_admin_key sched n adminKey body w :
  adminKey <> Some (HR_ADMIN_KEY cfg) -> HR_ADMIN_KEY cfg <> EmptyString ->
  run sched n (post_tenants adminKey body) w =
    (inr (inl (GlobalExceptionFilter_catch (EDomain Errors.adminKeyRequired))), w, n).
Proof.
  intros Hk Hne. unfold post_tenants, respond, admin_canActivate.
  assert (String.eqb (default EmptyString adminKey) (HR_ADMIN_KEY cfg) = false) as ->.
  { apply String.eqb_neq. destruct adminKey as [k|]; cbn; [|done]. by intros ->. }
  by rewrite orb_true_r.
Qed.

End api.

(** ** Two tenants: one replaces its subscriptions *)

Definition api_db : Db :=
  set_apiKeys (insert "k1" (mkApiKey "t1" "sk_live_one" "_one" KEY_ACTIVE None 0))
    (set_endpoints (insert "e9" (mkEndpoint "t2" "https://z.example/hook" "v1:x" ACTIVE None 0 0 0))
      (set_subscriptions (insert 3 (mkSubscription "e9" "order.created")) 4 publish_db)).

Definition api_world := world_at 1000 api_db 200.

Definition api_run := run (fun _ => NoFault) 0
  (tenant_route (P := always 200) demo_cfg (fun _ => None) (fun _ => true) (fun _ => true) (fun _ => ["Bad Request"])
    false (Some "Bearer sk_live_one") (PutSubscriptions "e1" (JObj [("eventTypes", JArr [JStr "order.paid"])]))) api_world.

Lemma api_writes_own_tenant_witness :
  api_run.1.1 = inr (inr (200, Types "e1" ["order.paid"])) /\
  subscribed (w_db api_run.1.2) "e1" "order.paid" = true /\
  subscriptions (w_db api_run.1.2) !! 3 = Some (mkSubscription "e9" "order.created").
Proof.
  assert (numbered_ok (w_db api_world)) as Hn.
  { split; intros i [x Hi].
    - cbn in Hi |- *. apply lookup_insert_Some in Hi as [[<- _]|[_ Hi]]; [lia|].
      apply lookup_insert_Some in Hi as [[<- _]|[_ Hi]]; [lia|]. apply lookup_singleton_Some in Hi as [<- _]. lia.
    - cbn in Hi. by rewrite lookup_empty in Hi. }
  pose proof (api_writes_own_tenant (P := always 200) demo_cfg (fun _ => None) (fun _ => true) (fun _ => true)
    (fun _ => ["Bad Request"]) (fun _ => NoFault) 0 false (Some "Bearer sk_live_one")
    (PutSubscriptions "e1" (JObj [("eventTypes", JArr [JStr "order.paid"])])) api_world Hn) as H.
  assert (api_run.1.1 = inr (inr (200, Types "e1" ["order.paid"]))) as Hr by (vm_compute; reflexivity).
  assert (subscribed (w_db api_run.1.2) "e1" "order.paid" = true) as Hs by (vm_compute; reflexivity).
  assert (forall t plan, guard_result (P := always 200) (Some "Bearer sk_live_one") api_world = inr (t, plan) -> t = "t1") as Hg.
  { intros t plan Hg. vm_compute in Hg. by injection Hg as <- _. }
  split; [exact Hr|split; [exact Hs|]]. revert Hr H. unfold api_run. destruct (run _ _ _ _) as [[r w'] n'].
  cbn [fst snd]. intros -> [_ [[[e He] _]|(t & plan & answer & Ht & _ & Hk)]]; [discriminate He|].
  apply Hg in Ht as ->. apply (fo_subscriptions _ _ _ Hk 3 _ (mkEndpoint "t2" "https://z.example/hook" "v1:x" ACTIVE None 0 0 0));
    [reflexivity|discriminate|reflexivity].
Defined.
