(* ===== verification/Wire.v ===== *)
(** * The HTTP API on the wire

    From a request (method, URL, headers, body text) to the response text: the route
    table of the controllers' decorators, the JSON body, the query, and the bodies of
    the answers, around the handlers of [Api.v].  Express matches the decorators'
    paths as its documentation says: without regard to the case of the fixed parts,
    with an optional slash at the end, a parameter being one character at least; a GET
    route answers HEAD requests, without a body; [enableCors] answers every OPTIONS
    request itself; [express.json()] reads bodies of up to 100 KB.  The decoding of URL
    components, the text of the metrics, the messages of the framework's own errors and
    the reason phrases are arguments. *)

From S2P Require Import Prelude Errors Effects Json IpAddress DateTime Platform Schema World Config.
From S2P Require Import Processor RateLimit Events Deliveries Endpoints Tenancy Dtos Api.
Open Scope Z_scope.
Open Scope hook_scope.

Record HttpReq := mkHttpReq {
  hq_method : string;
  hq_url : string;
  hq_headers : gmap string string;     (** names in lower case *)
  hq_body : option string;
}.

(** A response, as [fetch] hands it over. *)
Record Response := mkResponse {
  rs_status : Z;
  rs_statusText : string;
  rs_text : string;
}.

Definition rs_ok (r : Response) : bool := (200 <=? rs_status r) && (rs_status r <=? 299).

(** ** The bodies of the answers *)

Definition endpoint_status_text (s : EndpointStatus) : string :=
  match s with ACTIVE => "ACTIVE" | DISABLED_AUTO => "DISABLED_AUTO" | DISABLED_MANUAL => "DISABLED_MANUAL" end.

Definition status_text (s : DeliveryStatus) : string :=
  match s with
  | PENDING => "PENDING" | SUCCEEDED => "SUCCEEDED" | FAILED_RETRYING => "FAILED_RETRYING" | DEAD => "DEAD"
  end.

Definition or_null {A} (f : A -> json) (x : option A) : json := match x with Some a => f a | None => JNull end.

Definition date_json (t : Z) : json := JStr (toISOString t).

Definition endpoint_members (e : EndpointView) : list (string * json) :=
  [("id", JStr (evw_id e)); ("url", JStr (evw_url e)); ("description", or_null JStr (evw_description e));
   ("status", JStr (endpoint_status_text (evw_status e))); ("consecutiveFailures", JNum (evw_consecutiveFailures e));
   ("createdAt", date_json (evw_createdAt e))].

Definition types_member (types : list string) : string * json := ("eventTypes", JArr (map JStr types)).

Definition event_delivery_json (d : EventDelivery) : json :=
  JObj [("deliveryId", JStr (ed_deliveryId d)); ("endpointId", JStr (ed_endpointId d));
    ("endpointUrl", JStr (ed_endpointUrl d)); ("status", JStr (status_text (ed_status d)));
    ("attemptCount", JNum (ed_attemptCount d)); ("nextRetryAt", or_null date_json (ed_nextRetryAt d));
    ("updatedAt", date_json (ed_updatedAt d))].

Definition delivery_json (d : DeliveryView) : json :=
  JObj [("deliveryId", JStr (dv_deliveryId d)); ("endpointId", JStr (dv_endpointId d));
    ("endpointUrl", JStr (dv_endpointUrl d)); ("eventType", JStr (dv_eventType d));
    ("status", JStr (status_text (dv_status d))); ("attemptCount", JNum (dv_attemptCount d));
    ("nextRetryAt", or_null date_json (dv_nextRetryAt d)); ("createdAt", date_json (dv_createdAt d));
    ("updatedAt", date_json (dv_updatedAt d))].

Definition attempt_json (a : DeliveryAttempt) : json :=
  JObj [("attemptNo", JNum (at_attemptNo a)); ("responseStatus", or_null JNum (at_responseStatus a));
    ("responseBodyHead", or_null JStr (at_responseBodyHead a));
    ("errorClass", or_null (fun c => JStr (class_label c)) (at_errorClass a));
    ("durationMs", or_null JNum (at_durationMs a)); ("requestHeadersDigest", JStr (at_requestHeadersDigest a));
    ("attemptedAt", date_json (at_attemptedAt a))].

(** What the services return, as [res.json] sends it. *)
Definition answer_json (a : Answer) : json :=
  match a with
  | AnEndpoint e => JObj (endpoint_members e)
  | ANewEndpoint e secret => JObj (endpoint_members e ++ [("secret", JStr secret)])
  | AnEndpointWithTypes e types => JObj (endpoint_members e ++ [types_member types])
  | Endpoints_ l => JArr (map (fun p => JObj (endpoint_members p.1 ++ [types_member p.2])) l)
  | Types endpointId types => JObj [("endpointId", JStr endpointId); types_member types]
  | Pinged eventId deliveryId endpointId =>
      JObj [("eventId", JStr eventId); ("deliveryId", JStr deliveryId); ("endpointId", JStr endpointId)]
  | Published r =>
      JObj [("eventId", JStr (pr_eventId r));
        ("deliveries", JArr (map (fun p => JObj [("deliveryId", JStr p.1); ("endpointId", JStr p.2)]) (pr_deliveries r)))]
  | EventDeliveries eventId type createdAt l =>
      JObj [("eventId", JStr eventId); ("type", JStr type); ("createdAt", date_json createdAt);
        ("deliveries", JArr (map event_delivery_json l))]
  | Page l nextCursor =>
      JObj [("deliveries", JArr (map delivery_json l)); ("nextCursor", or_null JStr nextCursor)]
  | Attempts deliveryId d l =>
      JObj [("deliveryId", JStr deliveryId); ("status", JStr (status_text (dl_status d)));
        ("attemptCount", JNum (dl_attemptCount d)); ("nextRetryAt", or_null date_json (dl_nextRetryAt d));
        ("attempts", JArr (map attempt_json l))]
  | Redelivered deliveryId => JObj [("deliveryId", JStr deliveryId); ("status", JStr "PENDING")]
  | NewKey apiKey last4 => JObj [("apiKey", JStr apiKey); ("apiKeyLast4", JStr last4); ("graceHours", JNum 24)]
  | NewTenant tenantId name plan apiKey =>
      JObj [("tenantId", JStr tenantId); ("name", JStr name); ("plan", JStr (plan_label plan));
        ("apiKey", JStr apiKey); ("apiKeyLast4", JStr (last4 apiKey))]
  end.

Definition detail_json (d : detail) : json := match d with DStr s => JStr s | DNum z => JNum z end.

(** The body the exception filter sends: the response object of a [DomainException],
    or [code] and [message]. *)
Definition error_body (r : ErrorResponse) : json :=
  JObj ([("code", JStr (er_code r)); ("message", message_json (er_message r))] ++
    match er_details r with
    | Some l => [("details", JObj (map (fun p => (p.1, detail_json p.2)) l))]
    | None => []
    end).

(** ** The request *)

Fixpoint trim_left (f : ascii -> bool) (s : string) : string :=
  match s with String c s' => if f c then trim_left f s' else s | EmptyString => EmptyString end.
Fixpoint str_rev (s acc : string) : string := match s with String c s' => str_rev s' (String c acc) | EmptyString => acc end.
Definition trim_by (f : ascii -> bool) (s : string) : string :=
  str_rev (trim_left f (str_rev (trim_left f s) EmptyString)) EmptyString.

(** [s.trim()] *)
Definition trim : string -> string := trim_by Events.is_space.

(** The media type of a [Content-Type] header, without its parameters. *)
Definition media_type (s : string) : string := toLowerCase (trim (hd EmptyString (split_on ";" s))).

(** [express.json()]'s default [limit], ['100kb'] *)
Definition BODY_LIMIT : Z := 100 * 1024.

(** What the body parser does with a body. *)
Inductive Reading := Read (body : json) | Malformed | TooLarge.

(** [express.json()]: a body that is not [application/json] is not read; the
    validation pipe takes its absence for [{}]. *)
Definition json_body (rq : HttpReq) : Reading :=
  match hq_body rq, hq_headers rq !! "content-type" with
  | None, _ | Some EmptyString, _ | _, None => Read (JObj [])
  | Some text, Some type =>
      if String.eqb (media_type type) "application/json" then
        if BODY_LIMIT <? Z.of_nat (String.length text) then TooLarge
        else match parse text with Some (JObj l) => Read (JObj l) | Some (JArr l) => Read (JArr l) | _ => Malformed end
      else Read (JObj [])
  end.

(** The exception of a body over the limit is body-parser's own, neither a
    [DomainException] nor an [HttpException]. *)
Definition entity_too_large : exn := EJs "PayloadTooLargeError" None "request entity too large" None.

Definition is_head (rq : HttpReq) : bool := String.eqb (hq_method rq) "HEAD".

(** The response to a HEAD request. *)
Definition without_body (r : Response) : Response := mkResponse (rs_status r) (rs_statusText r) EmptyString.

Section wire.
Context `{P : Platform}.
Variable cfg : Config.
Context (legacyDate : json -> option Z) (uuid_ok : string -> bool).
Context (is_url : string -> bool) (dto_message : json -> list string).
Context (decode : string -> string) (not_found bad_json : string -> string) (reason : Z -> string).
(** What [registry.metrics()] of prom-client gives. *)
Variable exposition : exn + string.

Definition split_url (url : string) : string * string :=
  match split_on "?" url with
  | path :: query => (path, concat_sep "?" query)
  | [] => (url, EmptyString)
  end.

(** [@Query(name)] *)
Definition query_param (name query : string) : option string :=
  p ← list_find (fun piece => hd EmptyString (split_on "=" piece) = name) (split_on "&" query);
  Some (decode (concat_sep "=" (tail (split_on "=" p.2)))).

Inductive Route :=
| TenantsRoute (body : json)
| CallRoute (c : Call)
| MetricsRoute
| NoRoute
| BadJson
| BodyTooLarge
| Preflight.

(** The optional slash at the end of a path. *)
Fixpoint drop_slash (segments : list string) : list string :=
  match segments with
  | [] => []
  | [s] => if String.eqb s EmptyString then [] else [s]
  | s :: segments' => s :: drop_slash segments'
  end.

(** The decorators of the controllers.  [:id] is the second segment of its routes. *)
Definition route_of (method : string) (segments : list string) (query : string) (idempotencyKey : option string)
    (body : json) : Route :=
  let id := decode (nth 1 segments EmptyString) in
  if existsb (String.eqb EmptyString) segments then NoRoute
  else match map toLowerCase segments with
  | ["metrics"] => if String.eqb method "GET" then MetricsRoute else NoRoute
  | ["tenants"] => if String.eqb method "POST" then TenantsRoute body else NoRoute
  | ["api-keys"; "rotate"] => if String.eqb method "POST" then CallRoute PostRotate else NoRoute
  | ["endpoints"] =>
      if String.eqb method "POST" then CallRoute (PostEndpoint body)
      else if String.eqb method "GET" then CallRoute GetEndpoints else NoRoute
  | ["endpoints"; _] =>
      if String.eqb method "GET" then CallRoute (GetEndpoint id)
      else if String.eqb method "PATCH" then CallRoute (PatchEndpoint id body) else NoRoute
  | ["endpoints"; _; "subscriptions"] =>
      if String.eqb method "PUT" then CallRoute (PutSubscriptions id body) else NoRoute
  | ["endpoints"; _; "ping"] => if String.eqb method "POST" then CallRoute (PostPing id) else NoRoute
  | ["events"] => if String.eqb method "POST" then CallRoute (PostEvent idempotencyKey body) else NoRoute
  | ["events"; _; "deliveries"] =>
      if String.eqb method "GET" then CallRoute (GetEventDeliveries id) else NoRoute
  | ["deliveries"] =>
      if String.eqb method "GET"
      then CallRoute (GetDeliveries (query_param "status" query) (query_param "cursor" query)) else NoRoute
  | ["deliveries"; _; "attempts"] => if String.eqb method "GET" then CallRoute (GetAttempts id) else NoRoute
  | ["deliveries"; _; "redeliver"] => if String.eqb method "POST" then CallRoute (PostRedeliver id) else NoRoute
  | _ => NoRoute
  end.

(** CORS, the body parser and the router, in this order; a GET route answers HEAD. *)
Definition dispatch (rq : HttpReq) : Route :=
  if String.eqb (hq_method rq) "OPTIONS" then Preflight
  else match json_body rq with
  | Malformed => BadJson
  | TooLarge => BodyTooLarge
  | Read body =>
      let '(path, query) := split_url (hq_url rq) in
      match split_on "/" path with
      | EmptyString :: segments =>
          route_of (if is_head rq then "GET" else hq_method rq) (drop_slash segments) query
            (hq_headers rq !! "idempotency-key") body
      | _ => NoRoute
      end
  end.

Definition http_response (r : ErrorResponse + Z * Answer) : Response :=
  match r with
  | inl e => mkResponse (er_status e) (reason (er_status e)) (stringify (error_body e))
  | inr (status, a) => mkResponse status (reason status) (stringify (answer_json a))
  end.

Definition refusal (e : exn) : Response := http_response (inl (GlobalExceptionFilter_catch e)).

(** [MetricsController.metrics]: no guard, and the interceptor lets [/metrics] pass;
    under another spelling of the path it counts the request. *)
Definition get_metrics (path method : string) : prog World Response :=
  catch
    (intercept path method "/metrics" 200
      match exposition with inr text => Ret (mkResponse 200 (reason 200) text) | inl e => Throw e end)
    (fun e => Ret (refusal e)).

(** The response to a request, as the framework makes it. *)
Definition serve_route (rq : HttpReq) : prog World Response :=
  match dispatch rq with
  | TenantsRoute body =>
      let* r := post_tenants cfg dto_message (hq_headers rq !! "x-admin-key") body in Ret (http_response r)
  | CallRoute c =>
      let* r := tenant_route cfg legacyDate uuid_ok is_url dto_message (is_head rq) (hq_headers rq !! "authorization") c in
      Ret (http_response r)
  | MetricsRoute => get_metrics (split_url (hq_url rq)).1 (if is_head rq then "HEAD" else "GET")
  | NoRoute => Ret (refusal (EHttpException 404 (MText (not_found (hq_url rq)))))
  | BadJson => Ret (refusal (EHttpException 400 (MText (bad_json (default EmptyString (hq_body rq))))))
  | BodyTooLarge => Ret (refusal entity_too_large)
  | Preflight => Ret (mkResponse 204 (reason 204) EmptyString)
  end.

(** One request to the API. *)
Definition api_server (rq : HttpReq) : prog World Response :=
  let* r := serve_route rq in Ret (if is_head rq then without_body r else r).

End wire.

Lemma error_body_integral r : integral (error_body r) = true.
Proof.
  assert (integral (message_json (er_message r)) = true) as Hm
    by (destruct (er_message r) as [s|l]; [done|]; cbn; by induction l).
  unfold error_body. cbn [integral forallb app snd]. rewrite Hm. cbn [andb].
  destruct (er_details r) as [l|]; [|done]. cbn. rewrite andb_true_r. induction l as [|[k [s|z]] l IH]; [done|exact IH|exact IH].
Qed.

Lemma error_body_fields r :
  field "code" (error_body r) = Some (JStr (er_code r)) /\ field "message" (error_body r) = Some (message_json (er_message r)).
Proof. unfold error_body. by destruct (er_details r). Qed.

Lemma forallb_map_all {A B} (f : B -> bool) (g : A -> B) l : (forall x, f (g x) = true) -> forallb f (map g l) = true.
Proof. intros H. induction l as [|x l IH]; [done|]. cbn. by rewrite H. Qed.

(** Every answer is within the domain in which JSON text round-trips. *)
Lemma answer_integral a : integral (answer_json a) = true.
Proof.
  assert (forall e, forallb (fun p => integral p.2) (endpoint_members e) = true) as He
    by (intros e; cbn; by destruct (evw_description e)).
  destruct a as [e|e s|e ts|l|i ts|ev d i|r|ev t c l|l n|i d l|i|k l4|t n p k]; cbn [answer_json integral];
    rewrite ?forallb_app, ?He; cbn [forallb integral snd types_member andb]; rewrite ?andb_true_r; try done.
  - by apply forallb_map_all.
  - apply forallb_map_all. intros [e ts]. cbn [integral fst snd]. rewrite forallb_app, He. cbn. rewrite andb_true_r.
    by apply forallb_map_all.
  - by apply forallb_map_all.
  - by apply forallb_map_all.
  - apply forallb_map_all. intros d. cbn. by destruct (ed_nextRetryAt d).
  - apply andb_true_intro. split; [|by destruct n]. apply forallb_map_all. intros d. cbn. by destruct (dv_nextRetryAt d).
  - apply andb_true_intro. split; [by destruct (dl_nextRetryAt d)|]. apply forallb_map_all. intros x. cbn.
    by destruct (at_responseStatus x), (at_responseBodyHead x), (at_errorClass x), (at_durationMs x).
Qed.

(** ** A client of the API *)

(** The characters that structure a URL. *)
Definition structural (c : ascii) : bool :=
  (c =? "/")%char || (c =? "?")%char || (c =? "&")%char || (c =? "=")%char.

Definition plain (s : string) : bool := str_forall (fun c => negb (structural c)) s.

Lemma plain_no c s : structural c = true -> plain s = true -> str_forall (fun x => negb (Ascii.eqb x c)) s = true.
Proof.
  intros Hc. apply str_forall_impl. intros x Hx. destruct (Ascii.eqb_spec x c) as [->|]; [by rewrite Hc in Hx|done].
Qed.

Section client.
Variable encode : string -> string.

Definition query_pieces (status cursor : option string) : list string :=
  match status with Some s => ["status=" +:+ encode s] | None => [] end ++
  match cursor with Some s => ["cursor=" +:+ encode s] | None => [] end.

Definition call_url (c : Call) : string :=
  match c with
  | GetDeliveries status cursor =>
      match query_pieces status cursor with
      | [] => "/deliveries"
      | pieces => "/deliveries?" +:+ concat_sep "&" pieces
      end
  | GetEndpoint id | PatchEndpoint id _ | PutSubscriptions id _ | PostPing id
  | GetEventDeliveries id | GetAttempts id | PostRedeliver id => at_route (encode id) c
  | _ => at_route EmptyString c
  end.

Definition call_body (c : Call) : option json :=
  match c with
  | PostEndpoint b | PatchEndpoint _ b | PutSubscriptions _ b | PostEvent _ b => Some b
  | _ => None
  end.

Definition call_headers (authorization : string) (c : Call) : gmap string string :=
  let h := <["authorization" := authorization]> (<["content-type" := "application/json"]> ∅) in
  match c with PostEvent (Some key) _ => <["idempotency-key" := key]> h | _ => h end.

(** The request that makes call [c]. *)
Definition request_of (authorization : string) (c : Call) : HttpReq :=
  mkHttpReq (call_method c) (call_url c) (call_headers authorization c) (stringify <$> call_body c).

(** Spaces and tabs around the value of a header do not survive the transport. *)
Definition blank (c : ascii) : bool := (c =? " ")%char || (c =? "009")%char.

Definition arrived (rq : HttpReq) : HttpReq :=
  mkHttpReq (hq_method rq) (hq_url rq) (trim_by blank <$> hq_headers rq) (hq_body rq).

(** What can be the value of a header: no control characters, no outer blanks. *)
Definition header_value (s : string) : Prop :=
  str_forall (fun c => blank c || (32 <=? Z.of_N (N_of_ascii c)) && negb (c =? "127")%char) s = true /\ trim_by blank s = s.

Definition call_id (c : Call) : option string :=
  match c with
  | GetEndpoint id | PatchEndpoint id _ | PutSubscriptions id _ | PostPing id
  | GetEventDeliveries id | GetAttempts id | PostRedeliver id => Some id
  | _ => None
  end.

Definition call_key (c : Call) : option string := match c with PostEvent key _ => key | _ => None end.

(** What a client can send, and the server reads back: headers that are values, an id
    that makes a segment of a path (an empty one or a dot segment does not), a body that is
    an object without fractional numbers, of at most 100 KB, and a URL and headers
    well within the 16 KB of Node's HTTP parser. *)
Record sendable (authorization : string) (c : Call) : Prop := {
  se_authorization : header_value authorization;
  se_key : forall key, call_key c = Some key -> header_value key;
  se_id : forall id, call_id c = Some id -> id ∉ [EmptyString; "."; ".."];
  se_body : forall b, call_body c = Some b ->
    integral b = true /\ (exists l, b = JObj l) /\ Z.of_nat (String.length (stringify b)) <= BODY_LIMIT;
  se_head : Z.of_nat (String.length (call_url c) + String.length authorization +
    String.length (default EmptyString (call_key c))) <= 8192;
}.

Context (decode : string -> string).
Context (decode_encode : forall s, decode (encode s) = s) (encode_plain : forall s, plain (encode s) = true).
Context (encode_something : forall s, s <> EmptyString -> encode s <> EmptyString).

Lemma json_body_object method url headers l :
  integral (JObj l) = true -> headers !! "content-type" = Some "application/json" ->
  Z.of_nat (String.length (stringify (JObj l))) <= BODY_LIMIT ->
  json_body (mkHttpReq method url headers (Some (stringify (JObj l)))) = Read (JObj l).
Proof.
  intros Hi Hc Hl. unfold json_body. cbn [hq_body hq_headers]. rewrite Hc. pose proof (parse_stringify _ Hi) as Hp.
  rewrite (proj2 (Z.ltb_ge _ _) Hl), Hp. change (String.eqb (media_type "application/json") "application/json") with true.
  by destruct (stringify (JObj l)) eqn:E; [discriminate E|].
Qed.

Lemma json_body_none method url headers : json_body (mkHttpReq method url headers None) = Read (JObj []).
Proof. done. Qed.

Lemma split_url_plain path :
  str_forall (fun x => negb (Ascii.eqb x "?")) path = true -> split_url path = (path, EmptyString).
Proof. intros H. unfold split_url. by rewrite split_on_no_sep. Qed.

Lemma split_url_query path query :
  str_forall (fun x => negb (Ascii.eqb x "?")) path = true -> str_forall (fun x => negb (Ascii.eqb x "?")) query = true ->
  split_url (path +:+ String "?" query) = (path, query).
Proof. intros H H2. unfold split_url. by rewrite split_on_sep, split_on_no_sep. Qed.

(** The paths with an id. *)
Lemma split_path a id b :
  str_forall (fun x => negb (Ascii.eqb x "/")) a = true -> plain id = true ->
  str_forall (fun x => negb (Ascii.eqb x "/")) b = true ->
  split_on "/" (String "/" (a +:+ String "/" id)) = [EmptyString; a; id] /\
  split_on "/" (String "/" (a +:+ String "/" (id +:+ String "/" b))) = [EmptyString; a; id; b].
Proof.
  intros Ha Hid Hb. assert (str_forall (fun x => negb (Ascii.eqb x "/")) id = true) as Hi by by apply plain_no.
  cbn [split_on Ascii.eqb Bool.eqb]. rewrite !split_on_sep by done. by rewrite !split_on_no_sep.
Qed.

Lemma query_param_hit name value rest :
  str_forall (fun x => negb (Ascii.eqb x "&")) (name +:+ String "=" value) = true ->
  str_forall (fun x => negb (Ascii.eqb x "=")) name = true -> str_forall (fun x => negb (Ascii.eqb x "=")) value = true ->
  query_param decode name (name +:+ String "=" value) = Some (decode value) /\
  query_param decode name ((name +:+ String "=" value) +:+ String "&" rest) = Some (decode value).
Proof.
  intros H1 H2 H3. assert (split_on "=" (name +:+ String "=" value) = [name; value]) as Hs
    by (by rewrite split_on_sep, split_on_no_sep).
  unfold query_param. rewrite split_on_sep, split_on_no_sep by done. cbn [list_find].
  case_decide as Hd; [|by destruct Hd; rewrite Hs]. cbn. by rewrite Hs.
Qed.

Lemma query_param_miss name piece rest :
  str_forall (fun x => negb (Ascii.eqb x "&")) piece = true -> hd EmptyString (split_on "=" piece) <> name ->
  query_param decode name piece = None /\
  query_param decode name (piece +:+ String "&" rest) = query_param decode name rest.
Proof.
  intros H1 H2. unfold query_param. rewrite split_on_sep, split_on_no_sep by done. cbn [list_find].
  case_decide; [done|]. split; [done|]. by destruct (list_find _ _) as [[]|].
Qed.

Lemma encode_no c s : structural c = true -> str_forall (fun x => negb (Ascii.eqb x c)) (encode s) = true.
Proof. intros Hc. by apply plain_no. Qed.

Definition queried (status cursor : option string) (query : string) : Prop :=
  query_param decode "status" query = status /\ query_param decode "cursor" query = cursor.

Lemma query_reads status cursor : queried status cursor (concat_sep "&" (query_pieces status cursor)).
Proof.
  assert (forall name v, str_forall (fun x => negb (Ascii.eqb x "&")) name = true ->
    str_forall (fun x => negb (Ascii.eqb x "&")) (name +:+ String "=" (encode v)) = true) as Hamp.
  { intros name v Hn. rewrite str_forall_app, Hn. cbn. by apply encode_no. }
  assert (forall name v, str_forall (fun x => negb (Ascii.eqb x "=")) name = true ->
    hd EmptyString (split_on "=" (name +:+ String "=" (encode v))) = name) as Hhd
    by (intros name v Hn; by rewrite split_on_sep).
  pose proof (fun v => encode_no "=" v eq_refl) as Heq.
  unfold queried, query_pieces. destruct status as [s|], cursor as [k|]; cbn [app concat_sep].
  - change ("status=" +:+ encode s) with ("status" +:+ String "=" (encode s)).
    change ("&" +:+ ("cursor=" +:+ encode k)) with (String "&" ("cursor" +:+ String "=" (encode k))).
    rewrite (proj2 (query_param_hit "status" (encode s) _ (Hamp "status" s eq_refl) eq_refl (Heq s))), decode_encode.
    split; [done|]. rewrite (proj2 (query_param_miss "cursor" _ _ (Hamp "status" s eq_refl) ltac:(by rewrite Hhd))).
    by rewrite (proj1 (query_param_hit "cursor" (encode k) EmptyString (Hamp "cursor" k eq_refl) eq_refl (Heq k))), decode_encode.
  - change ("status=" +:+ encode s) with ("status" +:+ String "=" (encode s)).
    rewrite (proj1 (query_param_hit "status" (encode s) EmptyString (Hamp "status" s eq_refl) eq_refl (Heq s))), decode_encode.
    split; [done|]. by apply (query_param_miss "cursor" _ EmptyString (Hamp "status" s eq_refl) ltac:(by rewrite Hhd)).
  - change ("cursor=" +:+ encode k) with ("cursor" +:+ String "=" (encode k)).
    rewrite (proj1 (query_param_hit "cursor" (encode k) EmptyString (Hamp "cursor" k eq_refl) eq_refl (Heq k))), decode_encode.
    split; [|done]. by apply (query_param_miss "status" _ EmptyString (Hamp "cursor" k eq_refl) ltac:(by rewrite Hhd)).
  - done.
Qed.

Lemma call_headers_type authorization c : call_headers authorization c !! "content-type" = Some "application/json".
Proof. by destruct c as [| | | | | |[]| | | | |]. Qed.

Lemma call_headers_key authorization c :
  call_headers authorization c !! "idempotency-key" = match c with PostEvent key _ => key | _ => None end.
Proof. by destruct c as [| | | | | |[]| | | | |]. Qed.

(** The request that a client makes of call [c], as it arrives; a GET may be a HEAD. *)
Definition received_as (method : string) (authorization : string) (c : Call) : HttpReq :=
  arrived (mkHttpReq method (call_url c) (call_headers authorization c) (stringify <$> call_body c)).

(** The body of a call, as the server reads it. *)
Lemma request_body method authorization c :
  sendable authorization c -> json_body (received_as method authorization c) = Read (default (JObj []) (call_body c)).
Proof.
  intros [_ _ _ Hb _]. unfold received_as, arrived. cbn [hq_body hq_headers]. destruct (call_body c) as [b|]; [|done].
  destruct (Hb b eq_refl) as (Hi & [l ->] & Hl). apply json_body_object; [done| |done].
  rewrite lookup_fmap, call_headers_type. reflexivity.
Qed.

Lemma received_key method authorization c :
  sendable authorization c -> hq_headers (received_as method authorization c) !! "idempotency-key" = call_key c.
Proof.
  intros [_ Hk _ _ _]. unfold received_as, arrived. cbn [hq_headers]. rewrite lookup_fmap, call_headers_key. fold (call_key c).
  destruct (call_key c) as [key|]; [|done]. cbn. f_equal. apply (Hk key eq_refl).
Qed.

Lemma received_authorization method authorization c :
  sendable authorization c -> hq_headers (received_as method authorization c) !! "authorization" = Some authorization.
Proof.
  intros [[_ Ha] _ _ _ _]. unfold received_as, arrived. cbn [hq_headers]. rewrite lookup_fmap.
  assert (call_headers authorization c !! "authorization" = Some authorization) as -> by by destruct c as [| | | | | |[]| | | | |].
  cbn. by rewrite Ha.
Qed.

(** The path of a call, as the server splits it. *)
Definition call_segments (c : Call) : list string :=
  match c with
  | PostEndpoint _ | GetEndpoints => ["endpoints"]
  | GetEndpoint id | PatchEndpoint id _ => ["endpoints"; encode id]
  | PutSubscriptions id _ => ["endpoints"; encode id; "subscriptions"]
  | PostPing id => ["endpoints"; encode id; "ping"]
  | PostEvent _ _ => ["events"]
  | GetEventDeliveries id => ["events"; encode id; "deliveries"]
  | GetDeliveries _ _ => ["deliveries"]
  | GetAttempts id => ["deliveries"; encode id; "attempts"]
  | PostRedeliver id => ["deliveries"; encode id; "redeliver"]
  | PostRotate => ["api-keys"; "rotate"]
  end.

Lemma with_id_url a id b :
  str_forall (fun x => negb (Ascii.eqb x "?")) a = true -> str_forall (fun x => negb (Ascii.eqb x "?")) b = true ->
  split_url (a +:+ encode id +:+ b) = (a +:+ encode id +:+ b, EmptyString).
Proof. intros Ha Hb. apply split_url_plain. rewrite !str_forall_app, Ha, Hb. cbn. rewrite andb_true_r. by apply encode_no. Qed.

Lemma query_no_mark status cursor :
  str_forall (fun x => negb (Ascii.eqb x "?")) (concat_sep "&" (query_pieces status cursor)) = true.
Proof.
  pose proof (fun s => encode_no "?" s eq_refl) as He.
  destruct status as [s|], cursor as [k|]; cbn [query_pieces app concat_sep]; rewrite ?str_forall_app, ?He; done.
Qed.

Lemma call_url_splits c :
  exists query, (split_on "/" (split_url (call_url c)).1, (split_url (call_url c)).2) = (EmptyString :: call_segments c, query) /\
    forall status cursor, c = GetDeliveries status cursor -> queried status cursor query.
Proof.
  destruct c as [b| |id|id b|id b|id|key b|id|status cursor|id|id|]; cbn [call_url at_route call_segments].
  1,2,7,12: by exists EmptyString.
  6:{ pose proof (query_reads status cursor) as Hq. pose proof (query_no_mark status cursor) as Hm.
      destruct (query_pieces status cursor) as [|p ps] eqn:E.
      - exists EmptyString. split; [done|]. by intros ? ? [= <- <-].
      - exists (concat_sep "&" (p :: ps)). split; [|by intros ? ? [= <- <-]].
        change ("/deliveries?" +:+ concat_sep "&" (p :: ps)) with ("/deliveries" +:+ String "?" (concat_sep "&" (p :: ps))).
        by rewrite split_url_query. }
  all: exists EmptyString; split; [|done].
  1,2: rewrite <- (str_app_nil (encode id)), with_id_url, str_app_nil by done; cbn [fst snd]; f_equal;
    apply (proj1 (split_path "endpoints" (encode id) EmptyString eq_refl (encode_plain id) eq_refl)).
  all: rewrite with_id_url by done; cbn [fst snd]; f_equal.
  - apply (proj2 (split_path "endpoints" (encode id) "subscriptions" eq_refl (encode_plain id) eq_refl)).
  - apply (proj2 (split_path "endpoints" (encode id) "ping" eq_refl (encode_plain id) eq_refl)).
  - apply (proj2 (split_path "events" (encode id) "deliveries" eq_refl (encode_plain id) eq_refl)).
  - apply (proj2 (split_path "deliveries" (encode id) "attempts" eq_refl (encode_plain id) eq_refl)).
  - apply (proj2 (split_path "deliveries" (encode id) "redeliver" eq_refl (encode_plain id) eq_refl)).
Qed.

(** A non-empty id is a segment. *)
Lemma segments_kept c :
  (forall id, call_id c = Some id -> id ∉ [EmptyString; "."; ".."]) ->
  drop_slash (call_segments c) = call_segments c /\ existsb (String.eqb EmptyString) (call_segments c) = false.
Proof.
  intros Hid. assert (forall id, call_id c = Some id -> String.eqb (encode id) EmptyString = false) as He.
  { intros id Hc. apply String.eqb_neq, encode_something. intros ->. apply (Hid _ Hc). left. }
  assert (forall s, String.eqb EmptyString s = String.eqb s EmptyString) as Hs by (by intros []).
  destruct c as [b| |id|id b|id b|id|key b|id|status cursor|id|id|]; cbn [call_segments drop_slash existsb];
    rewrite ?Hs, ?(He id eq_refl); done.
Qed.

(** The router on a request that has arrived. *)
Lemma dispatch_received method authorization c :
  sendable authorization c -> String.eqb method "OPTIONS" = false ->
  (if String.eqb method "HEAD" then "GET" else method) = call_method c ->
  dispatch decode (received_as method authorization c) = CallRoute c.
Proof.
  intros Hs Ho Hm. unfold dispatch. rewrite (request_body _ authorization c Hs), (received_key _ authorization c Hs).
  unfold is_head. cbn [received_as arrived hq_url hq_method]. rewrite Ho, Hm.
  destruct (call_url_splits c) as (query & Hu & Hq).
  destruct (split_url (call_url c)) as [path q] eqn:E. cbn [fst snd] in Hu. injection Hu as -> ->.
  destruct (segments_kept c (se_id _ _ Hs)) as [-> He]. unfold route_of. rewrite He.
  destruct c as [b| |id|id b|id b|id|key b|id|status cursor|id|id|]; cbn; rewrite ?decode_encode; try done.
  by destruct (Hq _ _ eq_refl) as [-> ->].
Qed.

(** C20.  The wire: the request that a client builds for a call, with its method, its
    URL with an encoded id or query, its headers and its printed body, arrives with the
    key it was sent with and is dispatched to exactly that call with the same
    arguments, so every route of the API can be reached and none shadows another; and a
    HEAD request on a GET route reaches the same handler.  The client sends header
    values that survive the transport, a non-empty id and at most 100 KB ([sendable]). *)
Theorem requests_reach_their_handlers authorization c :
  sendable authorization c ->
  let rq := arrived (request_of authorization c) in
  dispatch decode rq = CallRoute c /\ is_head rq = false /\ hq_headers rq !! "authorization" = Some authorization /\
  (call_method c = "GET" -> dispatch decode (received_as "HEAD" authorization c) = CallRoute c).
Proof.
  intros Hs rq. split_and!.
  - apply (dispatch_received (call_method c)); [done|by destruct c..].
  - by destruct c.
  - by apply (received_authorization (call_method c)).
  - intros Hm. by apply dispatch_received.
Qed.

End client.

(** ** A call with an id, a body and headers; a page with both parameters *)

(** Every character escaped, and what undoes it. *)
Fixpoint percent_encode (s : string) : string :=
  match s with
  | EmptyString => EmptyString
  | String c s' =>
      String "%" (String (hex_digit (N_of_ascii c / 16)) (String (hex_digit (N_of_ascii c mod 16)) (percent_encode s')))
  end.

Definition hex_value (c : ascii) : N :=
  let n := N_of_ascii c in (if n <? 58 then n - 48 else n - 87)%N.

Fixpoint percent_decode (s : string) : string :=
  match s with
  | String "%" (String a (String b s')) => String (ascii_of_N (16 * hex_value a + hex_value b)) (percent_decode s')
  | String c s' => String c (percent_decode s')
  | EmptyString => EmptyString
  end.

Lemma percent_decode_encode s : percent_decode (percent_encode s) = s.
Proof.
  induction s as [|c s IH]; [done|]. cbn [percent_encode percent_decode Ascii.eqb Bool.eqb]. rewrite IH. f_equal.
  by destruct c as [[] [] [] [] [] [] [] []]; vm_compute.
Qed.

Lemma percent_encode_plain s : plain (percent_encode s) = true.
Proof.
  induction s as [|c s IH]; [done|]. unfold plain in *. cbn [percent_encode str_forall]. rewrite IH.
  by destruct c as [[] [] [] [] [] [] [] []]; vm_compute.
Qed.

Lemma percent_encode_something s : s <> EmptyString -> percent_encode s <> EmptyString.
Proof. by destruct s. Qed.

Lemma requests_reach_their_handlers_witness :
  let call := PutSubscriptions "e1" (JObj [("eventTypes", JArr [JStr "order.paid"])]) in
  let page := GetDeliveries (Some "DEAD") (Some "a/b") in
  hq_url (request_of percent_encode "Bearer sk_live_one" call) = "/endpoints/%65%31/subscriptions" /\
  hq_url (request_of percent_encode "Bearer sk_live_one" page) = "/deliveries?status=%44%45%41%44&cursor=%61%2f%62" /\
  dispatch percent_decode (arrived (request_of percent_encode "Bearer sk_live_one" call)) = CallRoute call /\
  dispatch percent_decode (received_as percent_encode "HEAD" "Bearer sk_live_one" page) = CallRoute page.
Proof.
  intros call page.
  assert (header_value "Bearer sk_live_one") as Ha by (split; vm_compute; reflexivity).
  pose proof (requests_reach_their_handlers percent_encode percent_decode percent_decode_encode percent_encode_plain
    percent_encode_something "Bearer sk_live_one") as H.
  split; [reflexivity|]. split; [reflexivity|]. split.
  - apply H. split; [exact Ha|intros ? [=]|intros id [= <-]; apply (bool_decide_unpack _); vm_compute; exact I| |vm_compute; discriminate].
    intros b [= <-]. split; [reflexivity|]. split; [eexists; reflexivity|vm_compute; discriminate].
  - apply H; [|reflexivity]. split; [exact Ha|intros ? [=]|intros ? [=]|intros ? [=]|vm_compute; discriminate].
Defined.

(** ** The leniency of the router, and what it does not reach *)

Example router_examples :
  let at_ method path := dispatch percent_decode (mkHttpReq method path ∅ None) in
  at_ "GET" "/Endpoints/" = CallRoute GetEndpoints /\ at_ "GET" "/endpoints//" = NoRoute /\
  at_ "GET" "/endpoints/%65%31/" = CallRoute (GetEndpoint "e1") /\ at_ "HEAD" "/deliveries" = CallRoute (GetDeliveries None None) /\
  at_ "DELETE" "/endpoints/e1" = NoRoute /\ at_ "OPTIONS" "/nowhere" = Preflight /\ at_ "GET" "/metrics/" = MetricsRoute.
Proof. vm_compute. split_and!; reflexivity. Qed.

(** A body over the parser's limit is answered 500, though the registry has a 413 for
    payloads that are too large: the filter knows only its own exceptions and NestJS's. *)
Theorem oversized_body_is_internal_error `{P : Platform} cfg legacyDate uuid_ok is_url dto_message decode not_found bad_json
    reason exposition rq text w :
  hq_method rq = "POST" -> hq_body rq = Some text -> hq_headers rq !! "content-type" = Some "application/json" ->
  BODY_LIMIT < Z.of_nat (String.length text) ->
  exec (api_server cfg legacyDate uuid_ok is_url dto_message decode not_found bad_json reason exposition rq) w =
    (inr (mkResponse 500 (reason 500) (stringify (JObj [("code", JStr "INTERNAL_ERROR");
      ("message", JStr "서버 오류가 발생했습니다.")]))), w).
Proof.
  intros Hm Hb Ht Hl. unfold api_server, serve_route, dispatch, json_body, is_head. rewrite Hm, Hb, Ht.
  destruct text as [|c text]; [cbn in Hl; unfold BODY_LIMIT in Hl; lia|].
  change (String.eqb (media_type "application/json") "application/json") with true.
  by rewrite (proj2 (Z.ltb_lt _ _) Hl).
Qed.
