(* ===== verification/Answers.v ===== *)
(** * What the API answers

    Every response of the API, for every request and whatever its services do: the
    answer of the route that was asked for, with the status of the route, or an error
    response with a status between 400 and 599, a code and a message.  So a client that
    finds [res.ok] has a body of the shape its route returns.  [typed] follows the
    values and the exceptions of a program through its combinators. *)

From Stdlib Require Import QArith_base.
From S2P Require Import Prelude Errors Effects Json IpAddress Platform Schema Registry World Config TestPlatform SecretCipher Processor.
From S2P Require Import RateLimit Events Deliveries Ssrf Endpoints Tenancy Dtos Api Wire.
Open Scope Z_scope.
Open Scope hook_scope.

(** An exception that ends in an error response: those that choose their status are
    client errors, all others become a 500. *)
Definition graded (e : exn) : Prop :=
  match e with
  | EDomain d => 400 <= dx_status d <= 499
  | EHttpException status _ => 400 <= status <= 499
  | _ => True
  end.

Lemma graded_status e : graded e -> 400 <= er_status (GlobalExceptionFilter_catch e) <= 599.
Proof. destruct e; cbn; lia. Qed.

Lemma private_graded e : is_public e = false -> graded e.
Proof. by destruct e. Qed.

(** ** Programs with values in [phi] and exceptions in [psi]

    A failing service raises a graded exception. *)

Section typed.
Context {S : Type}.

Fixpoint yields (psi : exn -> Prop) {A} (phi : A -> Prop) (p : prog S A) : Prop :=
  match p with
  | Ret a => phi a
  | Throw e => psi e
  | Act _ f k => (forall s, yields psi phi (k (f s).1)) /\ (forall e, graded e -> yields psi phi (k (inl e)))
  end.

Definition typed {A} : (A -> Prop) -> prog S A -> Prop := yields graded.

Lemma yields_bind {A B} psi (phi : A -> Prop) (phi' : B -> Prop) (p : prog S A) f :
  yields psi phi p -> (forall a, phi a -> yields psi phi' (f a)) -> yields psi phi' (bind p f).
Proof.
  intros Hp Hf. induction p as [a|e|svc R g k IH]; cbn in *; [by apply Hf|done|].
  destruct Hp as [H1 H2]. split; intros; apply IH; auto.
Qed.

Lemma yields_catch {A} psi psi' (phi : A -> Prop) (p : prog S A) h :
  yields psi phi p -> (forall e, psi e -> yields psi' phi (h e)) -> yields psi' phi (catch p h).
Proof.
  intros Hp Hh. induction p as [a|e|svc R g k IH]; cbn in *; [done|by apply Hh|].
  destruct Hp as [H1 H2]. split; intros; apply IH; auto.
Qed.

Lemma yields_any {A} (p : prog S A) : yields (fun _ => True) (fun _ => True) p.
Proof. induction p as [a|e|svc R g k IH]; cbn; [done..|]. split; intros; apply IH. Qed.

Lemma yields_weaken {A} (psi psi' : exn -> Prop) (phi : A -> Prop) (p : prog S A) :
  (forall e, psi e -> psi' e) -> yields psi phi p -> yields psi' phi p.
Proof.
  intros He Hp. induction p as [a|e|svc R g k IH]; cbn in *; [done|by apply He|].
  destruct Hp as [H1 H2]. split; intros; apply IH; auto.
Qed.

Lemma yields_finally {A} psi (phi : A -> Prop) (p : prog S A) c :
  yields psi phi p -> yields psi (fun _ => True) c -> yields psi phi (finally p c).
Proof.
  intros Hp Hc. induction p as [a|e|svc R g k IH]; cbn in *; [by eapply yields_bind..|].
  destruct Hp as [H1 H2]. split; intros; apply IH; auto.
Qed.

Lemma typed_bind {A B} (phi : A -> Prop) (psi : B -> Prop) (p : prog S A) f :
  typed phi p -> (forall a, phi a -> typed psi (f a)) -> typed psi (bind p f).
Proof. apply yields_bind. Qed.

Lemma typed_catch {A} (phi : A -> Prop) (p : prog S A) h :
  typed phi p -> (forall e, graded e -> typed phi (h e)) -> typed phi (catch p h).
Proof. apply yields_catch. Qed.

Lemma typed_finally {A} (phi : A -> Prop) (p : prog S A) c :
  typed phi p -> typed (fun _ => True) c -> typed phi (finally p c).
Proof. apply yields_finally. Qed.

Lemma typed_call {R} (phi : R -> Prop) svc (f : S -> (exn + R) * S) :
  (forall s, match (f s).1 with inl e => graded e | inr x => phi x end) -> typed phi (call svc f).
Proof. intros H. split; [|done]. intros s. specialize (H s). by destruct (f s).1. Qed.

Lemma typed_query {R} (phi : R -> Prop) svc (f : S -> R) : (forall s, phi (f s)) -> typed phi (query svc f).
Proof. intros H. by apply typed_call. Qed.

Lemma typed_update svc (f : S -> S) : typed (fun _ => True) (update svc f).
Proof. by apply typed_call. Qed.

(** The schedule's failures are those of services, not the application's errors. *)
Definition service_faults (sched : nat -> fault) : Prop :=
  forall n e, sched n = FailBefore e \/ sched n = FailAfter e -> is_public e = false.

Lemma yields_run {A} psi (phi : A -> Prop) (p : prog S A) sched n s :
  service_faults sched -> yields psi phi p ->
  match (run sched n p s).1.1 with inl e => psi e | inr a => phi a end.
Proof.
  intros Hs. revert n s. induction p as [a|e|svc R f k IH]; intros n s Hp; [done|done|]. cbn in *. destruct Hp as [H1 H2].
  assert (exists s', attempt (sched n) svc f s = ((f s).1, s') \/ exists e, graded e /\ attempt (sched n) svc f s = (inl e, s')) as (s' & Hat).
  { unfold attempt. pose proof (Hs n) as He. destruct svc, (sched n) as [|e|e];
      try (exists (f s).2; left; apply surjective_pairing);
      try (exists s; right; exists e; split; [apply private_graded, He; by left|done]);
      exists (f s).2; right; exists e; (split; [apply private_graded, He; by right|done]). }
  destruct Hat as [->|(e & He & ->)]; apply IH; auto.
Qed.

End typed.

Create HintDb typed.
#[export] Hint Resolve typed_bind typed_call typed_query typed_update : typed.

(** ** The services *)

Section services.
Context `{P : Platform}.

Notation anything := (typed (fun _ => True)).

(** A statement raises no error of the application. *)
Definition private {R} (s : stm R) : Prop := forall w e, (s w).1 = inl e -> is_public e = false.

Lemma private_bind {R R'} (s : stm R) (k : R -> stm R') : private s -> (forall x, private (k x)) -> private (sbind s k).
Proof.
  intros Hs Hk w e. unfold sbind. specialize (Hs w). destruct (s w) as [[e'|x] w1]; cbn in *; [|apply Hk].
  intros [= <-]. by apply Hs.
Qed.

Lemma private_ret {R} (x : R) : private (sret x).
Proof. done. Qed.

Lemma typed_transaction {R} (phi : R -> Prop) (s : stm R) :
  private s -> (forall w x, (s w).1 = inr x -> phi x) -> typed phi (transaction s).
Proof.
  intros Hs Hx. apply typed_call. intros w. specialize (Hs w). specialize (Hx w).
  destruct (s w) as [[e|x] w']; cbn in *; [by apply private_graded, Hs|by apply Hx].
Qed.

Lemma any_transaction {R} (s : stm R) : private s -> anything (transaction s).
Proof. intros Hs. by apply typed_transaction. Qed.

Lemma typed_db_read {R} (f : Db -> R) : anything (db_read f).
Proof. by apply typed_query. Qed.

Lemma typed_local {R} (f : World -> R * World) : anything (local f).
Proof. apply typed_call. intros w. by destruct (f w). Qed.

Lemma typed_Date_now : anything Date_now.
Proof. by apply typed_query. Qed.

Lemma private_endpoint_create t url desc sec : private (endpoint_create t url desc sec).
Proof.
  apply private_bind; [done|]. intros id w e. cbv zeta.
  destruct (endpoint_by_url t url (w_db w)), (endpoints (w_db w) !! id), (tenants (w_db w) !! t); cbn; by intros [= <-].
Qed.

Lemma private_endpoint_change id f : private (endpoint_change id f).
Proof.
  intros w e. unfold endpoint_change. destruct (endpoints (w_db w) !! id); cbn; [|by intros [= <-]].
  destruct (endpoint_by_url _ _ _); cbn; by intros [= <-].
Qed.

Lemma private_subscriptions id types :
  private (let+ _ := subscription_deleteMany id in subscription_createMany id types).
Proof.
  apply private_bind; [done|]. intros _. induction types as [|y types IH]; [done|]. apply private_bind; [|by intros _].
  intros w e. unfold subscription_create. cbv zeta. destruct (100 <? _); cbn; [by intros [= <-]|].
  destruct (endpoints (w_db w) !! id); cbn; [|by intros [= <-]]. destruct (subscribed _ _ _); cbn; by intros [= <-].
Qed.

Lemma private_event_insert id t y p k : private (event_insert id t y p k).
Proof.
  intros w e. unfold event_insert. cbv zeta.
  destruct (event_by_key t k (w_db w)), (events (w_db w) !! id), (tenants (w_db w) !! t); cbn; by intros [= <-].
Qed.

Lemma private_delivery_create id e ep : private (delivery_create id e ep).
Proof. intros w x. unfold delivery_create. destruct (delivery_taken _ _ _ _); cbn; by intros [= <-]. Qed.

Lemma private_ping e t p k d ep : private
  (let+ _ := event_insert e t "endpoint.ping" p k in let+ _ := delivery_create d e ep in outbox_create e (Some d)).
Proof. apply private_bind; [apply private_event_insert|]. intros _. apply private_bind; [apply private_delivery_create|done]. Qed.

Lemma private_publish_body t b key : private (publish_body t b key).
Proof.
  apply private_bind.
  { apply private_bind; [done|]. intros id. apply private_bind; [apply private_event_insert|done]. }
  intros id. apply private_bind; [done|]. intros targets. apply private_bind.
  { induction targets as [|ep targets IH]; [done|]. apply private_bind; [done|]. intros i. by apply private_bind. }
  intros ds. apply private_bind; [|done]. destruct ds as [|d ds]; [done|].
  apply private_bind; [|done]. generalize (d :: ds). intros l. induction l as [|[i ep] l IH]; [done|].
  apply private_bind; [apply private_delivery_create|by intros _].
Qed.

Lemma private_delivery_update id f : private (delivery_update id f).
Proof. intros w e. unfold delivery_update. destruct (_ !! _); cbn; by intros [= <-]. Qed.

Lemma private_apiKey_update id f : private (apiKey_update id f).
Proof. intros w e. unfold apiKey_update. destruct (_ !! _); cbn; by intros [= <-]. Qed.

Lemma private_apiKey_create t key : private (apiKey_create t key).
Proof.
  apply private_bind; [done|]. intros id w e. cbv zeta.
  destruct (key_by_hash (hashApiKey key) (w_db w)), (apiKeys (w_db w) !! id), (tenants (w_db w) !! t); cbn; by intros [= <-].
Qed.

Lemma private_tenant name plan key :
  private (let+ id := tenant_create name plan in let+ _ := apiKey_create id key in sret id).
Proof.
  apply private_bind; [|intros id; apply private_bind; [apply private_apiKey_create|done]].
  apply private_bind; [done|]. intros id w e.
  destruct (tenant_by_name name (w_db w)), (tenants (w_db w) !! id); cbn; by intros [= <-].
Qed.

End services.

#[export] Hint Resolve typed_db_read typed_local : typed.

(** ** The routes *)

Section routes.
Context `{P : Platform}.
Variable cfg : Config.
Context (legacyDate : json -> option Z) (uuid_ok : string -> bool).
Context (is_url : string -> bool) (dto_message : json -> list string).
Context (decode : string -> string) (not_found bad_json : string -> string) (reason : Z -> string).
Variable exposition : exn + string.

Notation server := (api_server cfg legacyDate uuid_ok is_url dto_message decode not_found bad_json reason exposition).
Notation anything := (typed (fun _ => True)).

(** The kind of answer a route returns. *)
Definition fits (c : Call) (a : Answer) : bool :=
  match c, a with
  | PostEndpoint _, ANewEndpoint _ _ | GetEndpoints, Endpoints_ _ | GetEndpoint _, AnEndpointWithTypes _ _
  | PatchEndpoint _ _, AnEndpoint _ | PostEvent _ _, Published _ | GetDeliveries _ _, Page _ _ | PostRotate, NewKey _ _ => true
  | PutSubscriptions id _, Types id' _ | GetEventDeliveries id, EventDeliveries id' _ _ _ | GetAttempts id, Attempts id' _ _ =>
      String.eqb id' id
  | PostPing id, Pinged _ _ id' => String.eqb id' id
  | PostRedeliver id, Redelivered id' => String.eqb id' id
  | _, _ => false
  end.

Lemma typed_uuid_param id : typed (fun x => x = id) (uuid_param uuid_ok id).
Proof. unfold uuid_param. destruct (uuid_ok id); cbn; [done|lia]. Qed.

Lemma typed_dto {A} (read : json -> option A) body : anything (dto dto_message read body).
Proof. unfold dto. destruct (read body); cbn; [done|lia]. Qed.

Lemma typed_assertDeliverableUrl url : anything (assertDeliverableUrl cfg url).
Proof.
  assert (forall r, graded (unsafe r)) as Hu by (intros r; cbn; lia).
  assert (forall ips, anything (reject_blocked ips)) as Hr.
  { intros ips. induction ips as [|ip ips IH]; cbn; [done|]. destruct (blockedIpReason ip); [apply Hu|exact IH]. }
  unfold assertDeliverableUrl. destruct (parse_url url); [|apply Hu].
  destruct (negb _); [apply Hu|]. destruct (_ || _); [apply Hu|]. destruct (HR_ALLOW_PRIVATE_DESTINATIONS cfg); [done|].
  eapply typed_bind with (phi := fun _ => True); [|by intros]. destruct (negb _); [done|].
  eapply yields_catch; [eapply yields_any|intros e _; apply Hu].
Qed.

Lemma typed_findScoped t id : anything (findScoped t id).
Proof. eapply typed_bind; [apply typed_db_read|]. intros [e|] _; cbn; [done|lia]. Qed.

Lemma typed_requireOwned t id : anything (requireOwned t id).
Proof. eapply typed_bind; [apply typed_db_read|]. intros [e|] _; cbn; [done|lia]. Qed.

Lemma typed_consume t plan : anything (consume cfg t plan).
Proof.
  unfold consume. destruct (_ || _); [done|]. apply typed_catch; [|intros [] He; exact He || done].
  eapply typed_bind with (phi := fun _ => True).
  - apply typed_call. intros w. destruct (CONSUME_LUA _ _ _ _) as [[x|] r]; done.
  - intros [used ttl] _. destruct (_ <? _); [|done]. eapply typed_bind; [apply typed_update|]. intros _ _. cbn. lia.
Qed.

Lemma typed_publish t b key : anything (publish t b key).
Proof.
  unfold publish. cbv zeta. destruct (_ <? _); [cbn; lia|].
  apply typed_catch; [apply any_transaction, private_publish_body|]. intros e He.
  destruct (is_unique_violation e); [|exact He].
  eapply typed_bind; [apply typed_db_read|]. intros [id|] _; cbn; [lia|exact He].
Qed.

Lemma typed_list t s cursor : anything (list_deliveries legacyDate uuid_ok t s cursor).
Proof.
  unfold list_deliveries. eapply typed_bind with (phi := fun _ => True).
  - destruct cursor as [[|c raw]|]; [done| |done].
    destruct (decodeCursor (String c raw)) as [e|x] eqn:E.
    + unfold decodeCursor in E. cbn. repeat case_match; simplify_eq; cbn; try done; lia.
    + destruct (query_cursor legacyDate uuid_ok x) as [e|y] eqn:E2; [|done]. unfold query_cursor in E2. repeat case_match; simplify_eq; done.
  - intros c _. eapply typed_bind; [apply typed_db_read|done].
Qed.

Lemma typed_handle t plan c :
  typed (fun a => fits c a = true) (handle cfg legacyDate uuid_ok is_url dto_message t plan c).
Proof.
  assert (forall {A} (p : prog World A) (f : A -> Answer), anything p -> (forall x, fits c (f x) = true) ->
    typed (fun a => fits c a = true) (let* x := p in Ret (f x))) as Hret.
  { intros A p f Hp Hf. eapply typed_bind; [exact Hp|]. intros x _. apply Hf. }
  destruct c as [b| |id|id b|id b|id|key b|id|status cursor|id|id|]; cbn [handle].
  - eapply typed_bind; [apply typed_dto|]. intros d _. apply Hret; [|done].
    eapply typed_bind; [apply typed_assertDeliverableUrl|]. intros _ _. eapply typed_bind; [apply typed_db_read|].
    intros [|] _; [cbn; lia|]. eapply typed_bind; [apply typed_local|]. intros secret _.
    eapply typed_bind; [apply typed_local|]. intros enc _.
    eapply typed_bind; [apply any_transaction, private_endpoint_create|done].
  - apply Hret; [apply typed_db_read|done].
  - eapply typed_bind; [apply typed_uuid_param|]. intros ? ->. apply Hret; [|done].
    eapply typed_bind; [apply typed_findScoped|]. intros e _. eapply typed_bind; [apply typed_db_read|done].
  - eapply typed_bind; [apply typed_uuid_param|]. intros ? ->. eapply typed_bind; [apply typed_dto|]. intros d _.
    apply Hret; [|done]. eapply typed_bind; [apply typed_findScoped|]. intros _ _.
    eapply typed_bind with (phi := fun _ => True); [destruct (ud_url d); [apply typed_assertDeliverableUrl|done]|]. intros _ _.
    destruct (null_refused d); [done|]. eapply typed_bind; [apply any_transaction, private_endpoint_change|done].
  - eapply typed_bind; [apply typed_uuid_param|]. intros ? ->. eapply typed_bind; [apply typed_dto|]. intros types _.
    apply Hret; [|intros l; apply String.eqb_refl]. eapply typed_bind; [apply typed_findScoped|]. intros _ _.
    eapply typed_bind; [apply any_transaction, private_subscriptions|done].
  - eapply typed_bind; [apply typed_uuid_param|]. intros ? ->. apply Hret; [|intros l; apply String.eqb_refl].
    eapply typed_bind; [apply typed_findScoped|]. intros _ _. eapply typed_bind; [apply typed_local|]. intros e _.
    eapply typed_bind; [apply typed_local|]. intros d _. eapply typed_bind; [apply any_transaction, private_ping|done].
  - eapply typed_bind; [apply typed_dto|]. intros d _. apply Hret; [|done]. unfold controller_publish.
    destruct (key_rejected key); [cbn; lia|]. eapply typed_bind; [apply typed_consume|]. intros _ _.
    eapply typed_bind; [apply typed_publish|]. intros r _. eapply typed_bind; [apply typed_update|done].
  - eapply typed_bind; [apply typed_uuid_param|]. intros ? ->. apply Hret; [|intros r; apply String.eqb_refl].
    eapply typed_bind; [apply typed_db_read|]. intros [ev|] _; [|cbn; lia]. eapply typed_bind; [apply typed_db_read|done].
  - apply Hret; [apply typed_list|done].
  - eapply typed_bind; [apply typed_uuid_param|]. intros ? ->. apply Hret; [|intros r; apply String.eqb_refl].
    eapply typed_bind; [apply typed_requireOwned|]. intros d _. eapply typed_bind; [apply typed_db_read|done].
  - eapply typed_bind; [apply typed_uuid_param|]. intros ? ->. eapply typed_bind with (phi := fun x => x = id).
    + eapply typed_bind; [apply typed_requireOwned|]. intros d _.
      eapply typed_bind; [apply any_transaction, private_bind; [apply private_delivery_update|done]|]. by cbn.
    + intros ? ->. cbn. apply String.eqb_refl.
  - apply Hret; [|done]. eapply typed_bind; [apply typed_local|]. intros key _. eapply typed_bind; [apply typed_Date_now|].
    intros now _. eapply typed_bind; [|done]. apply any_transaction, private_bind; [done|]. intros _. apply private_apiKey_create.
Qed.

Lemma typed_tenants_create body :
  typed (fun a => exists id name plan key, a = NewTenant id name plan key) (tenants_create dto_message body).
Proof.
  eapply typed_bind; [apply typed_dto|]. intros d _. eapply typed_bind with (phi := fun _ => True).
  - eapply typed_bind; [apply typed_db_read|]. intros [x|] _; [cbn; lia|]. eapply typed_bind; [apply typed_local|]. intros key _.
    eapply typed_bind; [apply any_transaction, private_tenant|done].
  - intros r _. cbn. eauto.
Qed.

Lemma typed_canActivate header : anything (canActivate header).
Proof.
  unfold canActivate. cbv zeta. destruct (negb _); [cbn; lia|]. eapply typed_bind; [apply typed_db_read|].
  intros [[[id k] t]|] _; [|cbn; lia]. destruct (bool_decide _); [cbn; lia|]. eapply typed_bind with (phi := fun _ => True).
  - unfold check_grace. destruct (ak_status k); [done| |done]. eapply typed_bind with (phi := fun _ => True).
    + destruct (ak_expiresAt k); [|done]. eapply typed_bind; [apply typed_Date_now|done].
    + intros [|] _; [|done]. eapply typed_bind; [apply any_transaction, private_apiKey_update|]. intros _ _. cbn. lia.
  - intros _ _. destruct (negb _); cbn; [lia|done].
Qed.

Lemma yields_intercept {A} (psi : exn -> Prop) (phi : A -> Prop) path method route status (p : prog World A) :
  (forall e, graded e -> psi e) -> yields psi phi p -> yields psi phi (intercept path method route status p).
Proof.
  intros Hg Hp. unfold intercept. destruct (String.eqb _ _); [done|].
  eapply yields_bind; [eapply yields_weaken; [exact Hg|apply typed_Date_now]|]. intros t _.
  apply yields_finally; [done|]. apply (yields_weaken graded); [exact Hg|]. eapply typed_bind; [apply typed_update|]. intros _ _.
  eapply typed_bind; [apply typed_Date_now|]. intros t' _. apply typed_update.
Qed.

Lemma typed_intercept {A} (phi : A -> Prop) path method route status (p : prog World A) :
  typed phi p -> typed phi (intercept path method route status p).
Proof. by apply yields_intercept. Qed.

(** An error response. *)
Definition refused (r : ErrorResponse) : Prop := exists e, graded e /\ r = GlobalExceptionFilter_catch e.

Notation answers := (yields (fun _ => False)).

Lemma answers_respond (phi : Answer -> Prop) status p :
  typed phi p ->
  answers (fun r => match r with inl e => refused e | inr (s, a) => s = status /\ phi a end) (respond status p).
Proof.
  intros Hp. apply (yields_catch graded); [eapply typed_bind; [exact Hp|done]|]. intros e He. cbn. by exists e.
Qed.

Lemma answers_tenant_route head header c :
  answers (fun r => match r with inl e => refused e | inr (s, a) => s = success_status c /\ fits c a = true end)
    (tenant_route cfg legacyDate uuid_ok is_url dto_message head header c).
Proof.
  apply answers_respond. eapply typed_bind; [apply typed_canActivate|]. intros [t plan] _. apply typed_intercept, typed_handle.
Qed.

Lemma answers_post_tenants header body :
  answers (fun r => match r with inl e => refused e
    | inr (s, a) => s = 201 /\ exists id name plan key, a = NewTenant id name plan key end)
    (post_tenants cfg dto_message header body).
Proof.
  apply answers_respond. eapply typed_bind with (phi := fun _ => True).
  - unfold admin_canActivate. destruct (_ || _); cbn; [lia|done].
  - intros _ _. apply typed_intercept, typed_tenants_create.
Qed.

(** The response of the metrics route without failures. *)
Definition metrics_response : Response :=
  match exposition with inr text => mkResponse 200 (reason 200) text | inl e => refusal reason e end.

(** The response to a request, by the route it reaches. *)
Definition proper (rq : HttpReq) (res : Response) : Prop :=
  (exists e, refused e /\ res = http_response reason (inl e)) \/
  match dispatch decode rq with
  | CallRoute c => exists a, fits c a = true /\ res = http_response reason (inr (success_status c, a))
  | TenantsRoute _ => exists id name plan key, res = http_response reason (inr (201, NewTenant id name plan key))
  | MetricsRoute => res = metrics_response
  | Preflight => res = mkResponse 204 (reason 204) EmptyString
  | NoRoute | BadJson | BodyTooLarge => False
  end.

Lemma refused_refusal e : graded e -> exists r, refused r /\ refusal reason e = http_response reason (inl r).
Proof. intros He. eexists. split; [|reflexivity]. by exists e. Qed.

Lemma answers_metrics path method :
  answers (fun res => (exists e, refused e /\ res = http_response reason (inl e)) \/ res = metrics_response)
    (get_metrics reason exposition path method).
Proof.
  unfold get_metrics, metrics_response. destruct exposition as [e|text].
  - apply (yields_catch (fun x => graded x \/ x = e)).
    + apply yields_intercept; cbn; auto.
    + intros x [Hx| ->]; [left; by apply refused_refusal|by right].
  - apply (yields_catch graded).
    + apply yields_intercept with (psi := graded); cbn; auto.
    + intros x Hx. left. by apply refused_refusal.
Qed.

Lemma answers_serve_route rq : answers (proper rq) (serve_route cfg legacyDate uuid_ok is_url dto_message decode not_found bad_json reason exposition rq).
Proof.
  unfold serve_route, proper. destruct (dispatch decode rq) as [body|c| | | | |].
  - eapply yields_bind; [apply answers_post_tenants|]. intros [e|[s a]]; cbn -[http_response].
    + intros He. left. by exists e.
    + intros [-> (id & name & plan & key & ->)]. right. eauto.
  - eapply yields_bind; [apply answers_tenant_route|]. intros [e|[s a]]; cbn -[http_response].
    + intros He. left. by exists e.
    + intros [-> Ha]. right. eauto.
  - apply answers_metrics.
  - left. apply refused_refusal. cbn. lia.
  - left. apply refused_refusal. cbn. lia.
  - left. by apply refused_refusal.
  - by right.
Qed.

(** A HEAD request gets the response without its body. *)
Definition bodied (rq : HttpReq) (res : Response) : Response := if is_head rq then without_body res else res.

Lemma answers_server rq : answers (fun res => exists r, proper rq r /\ res = bodied rq r) (server rq).
Proof. eapply yields_bind; [apply answers_serve_route|]. intros r Hr. by exists r. Qed.

Lemma refused_status e : refused e -> 400 <= er_status e <= 599.
Proof. intros (x & Hx & ->). by apply graded_status. Qed.

(** Without failures. *)
Lemma server_proper rq w : is_head rq = false -> exists res w', exec (server rq) w = (inr res, w') /\ proper rq res.
Proof.
  intros Hh. assert (service_faults (fun _ => NoFault)) as Hs by (intros n e [H|H]; discriminate H).
  pose proof (yields_run _ _ _ _ 0 w Hs (answers_server rq)) as H. rewrite (run_no_fault 0 (server rq) w) in H.
  destruct (exec (server rq) w) as [[e|res] w']; [done|]. destruct H as (r & Hr & ->). unfold bodied. rewrite Hh. by exists r, w'.
Qed.

Lemma success_status_ok c : 200 <= success_status c <= 299.
Proof. destruct c; cbn; lia. Qed.

(** A client that looks at [res.ok] only. *)
Lemma proper_ok rq res : proper rq res -> rs_ok res = true ->
  match dispatch decode rq with
  | CallRoute c => exists a, fits c a = true /\ res = http_response reason (inr (success_status c, a))
  | TenantsRoute _ => exists id name plan key, res = http_response reason (inr (201, NewTenant id name plan key))
  | MetricsRoute => res = metrics_response
  | Preflight => res = mkResponse 204 (reason 204) EmptyString
  | NoRoute | BadJson | BodyTooLarge => False
  end.
Proof.
  intros [(e & He & ->)|H] Hok; [|exact H]. apply refused_status in He. unfold rs_ok in Hok. cbn [http_response rs_status] in Hok.
  apply andb_prop in Hok as [_ H2]. apply Z.leb_le in H2. lia.
Qed.

(** What a response says: its status and its text. *)
Definition answer_typed (rq : HttpReq) (status : Z) (text : string) : Prop :=
  (400 <= status <= 599 /\ exists j code message, parse text = Some j /\
     field "code" j = Some (JStr code) /\ field "message" j = Some (message_json message)) \/
  match dispatch decode rq with
  | CallRoute c => exists a, fits c a = true /\ status = success_status c /\ parse text = Some (answer_json a)
  | TenantsRoute _ => exists id name plan key, status = 201 /\ parse text = Some (answer_json (NewTenant id name plan key))
  | MetricsRoute =>
      match exposition with
      | inr metrics => status = 200 /\ text = metrics
      | inl e => let r := GlobalExceptionFilter_catch e in status = er_status r /\ parse text = Some (error_body r)
      end
  | Preflight => status = 204 /\ text = EmptyString
  | NoRoute | BadJson | BodyTooLarge => False
  end.

Lemma proper_typed rq res : proper rq res -> answer_typed rq (rs_status res) (rs_text res).
Proof.
  intros [(e & He & ->)|H].
  - left. split; [by apply refused_status|]. exists (error_body e), (er_code e), (er_message e).
    cbn [http_response rs_text]. rewrite parse_stringify by apply error_body_integral. by destruct (error_body_fields e).
  - right. destruct (dispatch decode rq) as [body|c| | | | |]; try done.
    + destruct H as (id & name & plan & key & ->). exists id, name, plan, key. split; [done|].
      cbn [http_response rs_text]. by rewrite parse_stringify by apply answer_integral.
    + destruct H as (a & Ha & ->). exists a. split; [done|]. split; [done|].
      cbn [http_response rs_text]. by rewrite parse_stringify by apply answer_integral.
    + rewrite H. unfold metrics_response. destruct exposition as [e|text]; [|done]. cbn [refusal http_response rs_status rs_text].
      by rewrite parse_stringify by apply error_body_integral.
    + by rewrite H.
Qed.

(** ** Properties *)

(** C12.  The type of the API: whatever the request and whatever its services do, the API
    answers; either with the status of the route and, as JSON, the kind of answer this
    route returns, about the id it was asked for (the metrics route: their text, or the
    error of its rendering; an OPTIONS request: 204 and nothing); or with a status between 400 and 599 and a JSON
    object that has a code and a message, which is a text or an array of texts.  A HEAD
    request gets the status of that answer and no body. *)
Theorem api_answers_typed sched n rq w :
  service_faults sched ->
  exists res w' n' text, run sched n (server rq) w = (inr res, w', n') /\
    answer_typed rq (rs_status res) text /\ rs_text res = if is_head rq then EmptyString else text.
Proof.
  intros Hs. pose proof (yields_run _ _ _ _ n w Hs (answers_server rq)) as H.
  destruct (run sched n (server rq) w) as [[[e|res] w'] n']; [done|]. destruct H as (r & Hr & ->).
  exists (bodied rq r), w', n', (rs_text r). split; [done|]. apply proper_typed in Hr. unfold bodied. by destruct (is_head rq).
Qed.

End routes.

(** ** A list of deliveries, and the same while the database is down *)

Definition down (n : nat) : fault := match n with 0%nat => FailBefore (EPrisma "P1001") | _ => NoFault end.

Definition list_request : HttpReq :=
  mkHttpReq "GET" "/deliveries" {[ "authorization" := "Bearer sk_live_one" ]} None.

Section demo.
#[local] Instance demo_platform : Platform := always 200.

Notation demo_server := (api_server demo_cfg (fun _ => None) (fun _ => true) (fun _ => true) (fun _ => ["Bad Request"])
  (fun s => s) (fun _ => "Not Found") (fun _ => "Bad JSON") (fun _ => EmptyString) (inr EmptyString)).

(** An endpoint without its URL. *)
Definition invalid_request : HttpReq :=
  mkHttpReq "POST" "/endpoints" {[ "authorization" := "Bearer sk_live_one"; "content-type" := "application/json" ]} (Some "{}").

Lemma api_answers_typed_witness :
  (exists res w' n', run (fun _ => NoFault) 0 (demo_server list_request) api_world = (inr res, w', n') /\ rs_status res = 200) /\
  (exists res w' n', run down 0 (demo_server list_request) api_world = (inr res, w', n') /\ 400 <= rs_status res <= 599) /\
  (exists res w' n', run (fun _ => NoFault) 0 (demo_server invalid_request) api_world = (inr res, w', n') /\
    parse (rs_text res) = Some (JObj [("code", JStr "VALIDATION_FAILED"); ("message", JArr [JStr "Bad Request"])])).
Proof.
  assert (service_faults (fun _ => NoFault)) as H0 by (intros n e [H|H]; discriminate H).
  assert (service_faults down) as H1 by (intros [|n] e [H|H]; [injection H as <-; reflexivity|discriminate H..]).
  pose proof (api_answers_typed demo_cfg (fun _ => None) (fun _ => true) (fun _ => true) (fun _ => ["Bad Request"])
    (fun s => s) (fun _ => "Not Found") (fun _ => "Bad JSON") (fun _ => EmptyString) (inr EmptyString)) as T.
  split; [|split].
  - destruct (T _ 0%nat list_request api_world H0) as (res & w' & n' & text & E & H). exists res, w', n'. split; [exact E|].
    apply (f_equal (fun x => x.1.1)) in E. vm_compute in E. injection E as <-. reflexivity.
  - destruct (T _ 0%nat list_request api_world H1) as (res & w' & n' & text & E & H). exists res, w', n'. split; [exact E|].
    apply (f_equal (fun x => x.1.1)) in E. vm_compute in E. injection E as <-. split; discriminate.
  - destruct (T _ 0%nat invalid_request api_world H0) as (res & w' & n' & text & E & H). exists res, w', n'. split; [exact E|].
    apply (f_equal (fun x => x.1.1)) in E. vm_compute in E. injection E as <-. vm_compute. reflexivity.
Defined.

End demo.
