(* ===== verification/Console.v ===== *)
(** * The console's client: [frontend/src/api.ts], the session of [auth.tsx]

    What the console sends and how it reads an answer, next to what the backend's
    exception filter writes: the code and message of an error arrive as the backend
    gave them.  A program of the console runs on a state of the reader's choice; the
    network is an argument, a program that answers a request or throws.  The web
    platform's checks of header values belong to it.  The pages are in [Pages.v]. *)

From S2P Require Import Prelude Errors Effects Json IpAddress Platform Schema World Config Tenancy Wire.
Open Scope Z_scope.
Open Scope hook_scope.

(** ** [api] *)

(** A [Headers] object: names in lower case. *)
Definition Headers := gmap string string.

Definition headers_set (name value : string) (h : Headers) : Headers := <[toLowerCase name := value]> h.
Definition headers_has (name : string) (h : Headers) : bool := bool_decide (is_Some (h !! toLowerCase name)).

(** The keys come from the session, so they are any JSON values, or [undefined]. *)
Record RequestInit := mkInit {
  in_method : option string;
  in_headers : Headers;
  in_body : option string;
  in_apiKey : option json;
  in_adminKey : option json;
}.

Record FetchRequest := mkFetch {
  fr_url : string;
  fr_method : option string;
  fr_headers : Headers;
  fr_body : option string;
}.

(** An absent or empty string is falsy. *)
Definition given (s : option string) : option string :=
  match s with Some EmptyString | None => None | Some s => Some s end.

(** [String(value)] of a value or [undefined] *)
Definition show (v : option json) : string := match v with Some j => js_string j | None => "undefined" end.

Definition parse_body (res : Response) : json :=
  match rs_text res with
  | EmptyString => JNull
  | text => match parse text with Some j => j | None => JStr text end
  end.

(** [x ?? y] on a property that may be missing *)
Definition or_else (x : option json) (y : json) : json :=
  match x with None | Some JNull => y | Some j => j end.

Definition set_given (name : string) (value : option json) (prefix : string) (h : Headers) : Headers :=
  if truthy value then headers_set name (prefix +:+ show value) h else h.

Definition request_headers (init : RequestInit) : Headers :=
  let headers := in_headers init in
  let headers :=
    if negb (headers_has "Content-Type" headers) && bool_decide (is_Some (given (in_body init)))
    then headers_set "Content-Type" "application/json" headers else headers in
  let headers := set_given "Authorization" (in_apiKey init) "Bearer " headers in
  set_given "X-Admin-Key" (in_adminKey init) EmptyString headers.

(** The [ApiError] of a response that is not ok; [Error] turns the message into a
    string. *)
Definition api_error (res : Response) : exn :=
  let err := parse_body res in
  EApi (rs_status res) (or_else (field "code" err) (JStr ("HTTP_" +:+ decZ (rs_status res))))
    (js_string (or_else (field "message" err) (JStr (rs_statusText res)))).

Section api.
Context {S : Type}.
(** The network: an answer, or the exception of [fetch]. *)
Variable fetch : FetchRequest -> prog S Response.

Definition api (path : string) (init : RequestInit) : prog S json :=
  let* res := fetch (mkFetch ("/api" +:+ path) (in_method init) (request_headers init) (in_body init)) in
  if negb (rs_ok res) then Throw (api_error res) else Ret (parse_body res).

(** [receiver]: [headers] are those of the caller. *)
Definition receiver (path : string) (method : option string) (headers : Headers) (body : option string) : prog S json :=
  let* res := fetch (mkFetch ("/receiver" +:+ path) method
    (headers ∪ headers_set "Content-Type" "application/json" ∅) body) in
  Ret (parse_body res).

(** An error of the backend reaches the console's caller with the status, the code
    and the message that the exception filter wrote (an array of messages joined by
    commas, as [Error] does); in particular the codes of the registry, on which the
    console's messages are built, survive the transport. *)
Theorem backend_errors_reach_caller path init e text s s' :
  let r := GlobalExceptionFilter_catch e in
  rs_ok (mkResponse (er_status r) text (stringify (error_body r))) = false ->
  exec (fetch (mkFetch ("/api" +:+ path) (in_method init) (request_headers init) (in_body init))) s =
    (inr (mkResponse (er_status r) text (stringify (error_body r))), s') ->
  exec (api path init) s = (inl (EApi (er_status r) (JStr (er_code r)) (js_string (message_json (er_message r)))), s').
Proof.
  intros r Hok Hf. unfold api. rewrite exec_bind, Hf. rewrite Hok. cbn [negb]. cbn [exec]. unfold api_error.
  cbn [rs_status rs_statusText].
  assert (parse_body (mkResponse (er_status r) text (stringify (error_body r))) = error_body r) as ->.
  { unfold parse_body. cbn [rs_text]. pose proof (parse_stringify _ (error_body_integral r)) as Hp.
    destruct (stringify (error_body r)) eqn:E; [discriminate E|]. by rewrite Hp. }
  destruct (error_body_fields r) as [-> ->]. by destruct (er_message r).
Qed.

End api.

(** The key of the session is the one the guard looks up. *)
Theorem console_key_reaches_guard `{P : Platform} init key :
  in_apiKey init = Some (JStr key) -> key <> EmptyString ->
  bearer (request_headers init !! "authorization") = key.
Proof.
  intros Hk Hne. unfold request_headers, set_given. rewrite Hk. destruct key as [|c k]; [done|].
  cbn [truthy show js_string]. match goal with |- context [headers_set "Authorization" _ ?x] => generalize x end. intros h.
  assert (headers_set "Authorization" ("Bearer " +:+ String c k) h !! "authorization" = Some ("Bearer " +:+ String c k))
    as Ha by apply lookup_insert_eq.
  transitivity (bearer (Some ("Bearer " +:+ String c k))); [f_equal|apply bearer_header].
  destruct (truthy (in_adminKey init)); [|exact Ha]. etrans; [by apply lookup_insert_ne|exact Ha].
Qed.

(** ** The session *)

(** [Session]: after a cast, any JSON values or [undefined]; other properties are not
    kept. *)
Record Session := mkSession {
  se_adminKey : option json;
  se_apiKey : option json;
  se_apiKeyLast4 : option json;
  se_tenantName : option json;
  se_endpointSecret : option json;
}.

Definition no_text : option json := Some (JStr EmptyString).

Definition empty_session : Session := mkSession no_text no_text no_text no_text no_text.

(** [Partial<Session>]: a property may be there and [undefined]. *)
Definition Patch := list (string * option json).

(** [{ ...prev, ...patch }]: a property that is there replaces the old one. *)
Definition merge (prev : Session) (patch : Patch) : Session :=
  let get k old :=
    match list_find (fun p => p.1 = k) (rev patch) with Some (_, (_, v)) => v | None => old end in
  mkSession (get "adminKey" (se_adminKey prev)) (get "apiKey" (se_apiKey prev))
    (get "apiKeyLast4" (se_apiKeyLast4 prev)) (get "tenantName" (se_tenantName prev))
    (get "endpointSecret" (se_endpointSecret prev)).

(** What [JSON.stringify] writes: [undefined] is left out. *)
Definition session_json (s : Session) : json :=
  JObj (omap (fun p => pair p.1 <$> p.2)
    [("adminKey", se_adminKey s); ("apiKey", se_apiKey s); ("apiKeyLast4", se_apiKeyLast4 s);
     ("tenantName", se_tenantName s); ("endpointSecret", se_endpointSecret s)]).

Definition object_patch (j : json) : Patch :=
  match j with JObj l => map (fun p => (p.1, Some p.2)) l | _ => [] end.

(** The initial state; [None] is the exception of [JSON.parse]. *)
Definition load_session (stored : option string) : option Session :=
  match given stored with
  | Some raw => (fun j => merge empty_session (object_patch j)) <$> parse raw
  | None => Some empty_session
  end.

(** [setSession]: the next session and what [localStorage] holds then. *)
Definition setSession (prev : Session) (patch : Patch) : Session * option string :=
  let next := merge prev patch in (next, Some (stringify (session_json next))).

Definition clear : Session * option string := (empty_session, None).

(** [undefined] comes back as the empty string. *)
Definition reloaded (s : Session) : Session :=
  let get v := match v with None => no_text | Some _ => v end in
  mkSession (get (se_adminKey s)) (get (se_apiKey s)) (get (se_apiKeyLast4 s)) (get (se_tenantName s))
    (get (se_endpointSecret s)).

Lemma merge_reloads s : merge empty_session (object_patch (session_json s)) = reloaded s.
Proof. by destruct s as [[] [] [] [] []]. Qed.

(** A reload finds the session that was set. *)
Theorem session_survives_reload prev patch :
  let '(next, stored) := setSession prev patch in
  integral (session_json next) = true -> load_session stored = Some (reloaded next).
Proof.
  unfold setSession. generalize (merge prev patch). intros next Hi. unfold load_session.
  assert (given (Some (stringify (session_json next))) = Some (stringify (session_json next))) as -> by done.
  rewrite parse_stringify by exact Hi. cbn [fmap option_fmap option_map]. by rewrite merge_reloads.
Qed.

(** ** [statusTone] *)

Inductive Tone := Green | Red | Amber | Slate | Violet.

Definition statusTone (status : string) : Tone :=
  if bool_decide (status = "SUCCEEDED") || bool_decide (status = "ACTIVE") then Green
  else if bool_decide (status = "DEAD") || bool_decide (status = "DISABLED_AUTO") then Red
  else if bool_decide (status = "FAILED_RETRYING") || bool_decide (status = "PENDING") then Amber
  else Slate.

(** ** A refused request, as the console shows it *)

Definition refused_init : RequestInit := mkInit None ∅ None (Some (JStr "sk_live_old")) None.

Definition refusing (rq : FetchRequest) : prog unit Response :=
  let r := GlobalExceptionFilter_catch (EDomain Errors.invalidApiKey) in
  Ret (mkResponse (er_status r) "Unauthorized" (stringify (error_body r))).

Lemma backend_errors_reach_caller_witness :
  exec (api refusing "/endpoints" refused_init) tt =
    (inl (EApi 401 (JStr "INVALID_API_KEY") (dx_message Errors.invalidApiKey)), tt).
Proof.
  exact (backend_errors_reach_caller refusing "/endpoints" refused_init (EDomain Errors.invalidApiKey) "Unauthorized"
    tt tt eq_refl eq_refl).
Defined.
