(* ===== verification/Pages.v ===== *)
(** * The pages of the console: [src/frontend/src/pages], the routes of [App.tsx]

    A browser tab: the session with its copy in [localStorage], the mounted page with
    its state, and the network.  A handler is a program; what it closes over at the
    render it was created in (the key, the form's fields, [open]) is its argument, so
    a handler may act on values that are no longer those of the page.  It knows the
    mount it belongs to: the setters of a page that is no longer mounted do nothing.
    What one handler does without [await] in between is one action.  The markup is
    not modelled. *)

From S2P Require Import Prelude Errors Effects Concurrency Json IpAddress Platform Schema World Config TestPlatform HttpClient Events Wire Console.
Open Scope Z_scope.
Open Scope hook_scope.

(** ** The state of the pages

    A property of an answer may be any JSON value or [undefined]. *)

Record KeysState := mkKeys {
  ks_adminKey : json;
  ks_name : string;
  ks_freshKey : option json;
  ks_error : option string;
  ks_busy : bool;
}.

Record EndpointsState := mkEndpoints {
  es_rows : option json;
  es_url : string;
  es_types : string;
  es_error : option string;
  es_freshSecret : option json;
}.

Record DeliveriesState := mkDeliveries {
  ds_rows : option json;
  ds_open : option string;
  ds_attempts : option json;
  ds_error : option string;
}.

Record DlqState := mkDlq { dq_rows : option json; dq_error : option string }.

Record LiveState := mkLive { ls_payload : string; ls_logs : list json; ls_error : option string }.

Inductive Page :=
| KeysPage (k : KeysState)
| EndpointsPage (e : EndpointsState)
| DeliveriesPage (d : DeliveriesState)
| DlqPage (d : DlqState)
| LivePage (l : LiveState).

Record Tab := mkTab {
  tb_session : Session;
  tb_storage : option string;      (** [localStorage], under ['hr.session'] *)
  tb_mount : nat;                  (** pages mounted so far *)
  tb_page : Page;
}.

Definition nothing : option json := Some JNull.
Definition no_rows : option json := Some (JArr []).

(** [session.adminKey || 'dev-admin-key-change-me'] *)
Definition initial_admin_key (s : Session) : json :=
  match se_adminKey s with
  | Some j => if truthy (Some j) then j else JStr "dev-admin-key-change-me"
  | None => JStr "dev-admin-key-change-me"
  end.

Definition initial_keys (s : Session) : KeysState := mkKeys (initial_admin_key s) "acme" nothing None false.
Definition initial_endpoints : EndpointsState :=
  mkEndpoints no_rows "http://demo-receiver:4100/hooks" "order.created" None nothing.
Definition initial_deliveries : DeliveriesState := mkDeliveries no_rows None no_rows None.
Definition initial_dlq : DlqState := mkDlq no_rows None.
Definition initial_live : LiveState := mkLive (stringify (JObj [("hello", JStr "world")])) [] None.

(** [App.tsx]: the routes; every other path is redirected to ["/"]. *)
Definition page_of (path : string) (s : Session) : Page :=
  if String.eqb path "/" then KeysPage (initial_keys s)
  else if String.eqb path "/endpoints" then EndpointsPage initial_endpoints
  else if String.eqb path "/deliveries" then DeliveriesPage initial_deliveries
  else if String.eqb path "/dlq" then DlqPage initial_dlq
  else if String.eqb path "/live" then LivePage initial_live
  else KeysPage (initial_keys s).

Definition NAV : list string := ["/"; "/endpoints"; "/deliveries"; "/dlq"; "/live"].

(** Following a link: the page is unmounted, the next one mounted. *)
Definition navigate (path : string) (t : Tab) : Tab :=
  mkTab (tb_session t) (tb_storage t) (S (tb_mount t)) (page_of path (tb_session t)).

(** ** The browser *)

(** The network's state, what was answered so far, and the tab. *)
Record Browser (X : Type) := mkBrowser {
  br_net : X;
  br_answers : list (FetchRequest * Response);
  br_tab : Tab;
}.

Arguments mkBrowser {X} _ _ _.
Arguments br_net {X} _.
Arguments br_answers {X} _.
Arguments br_tab {X} _.

Definition with_tab {X} (f : Tab -> Tab) (b : Browser X) : Browser X :=
  mkBrowser (br_net b) (br_answers b) (f (br_tab b)).

Definition set_page (me : nat) (f : Page -> Page) (t : Tab) : Tab :=
  if (tb_mount t =? me)%nat then mkTab (tb_session t) (tb_storage t) (tb_mount t) (f (tb_page t)) else t.

Definition on_keys (f : KeysState -> KeysState) (p : Page) : Page := match p with KeysPage k => KeysPage (f k) | p => p end.
Definition on_endpoints (f : EndpointsState -> EndpointsState) (p : Page) : Page :=
  match p with EndpointsPage e => EndpointsPage (f e) | p => p end.
Definition on_deliveries (f : DeliveriesState -> DeliveriesState) (p : Page) : Page :=
  match p with DeliveriesPage d => DeliveriesPage (f d) | p => p end.
Definition on_dlq (f : DlqState -> DlqState) (p : Page) : Page := match p with DlqPage d => DlqPage (f d) | p => p end.
Definition on_live (f : LiveState -> LiveState) (p : Page) : Page := match p with LivePage l => LivePage (f l) | p => p end.

(** [setSession] of the context, which is always mounted. *)
Definition patch_session (patch : Patch) (t : Tab) : Tab :=
  let '(next, stored) := setSession (tb_session t) patch in mkTab next stored (tb_mount t) (tb_page t).

Definition clear_session (t : Tab) : Tab := mkTab clear.1 clear.2 (tb_mount t) (tb_page t).

(** [types.split(',').map((s) => s.trim()).filter(Boolean)] *)
Definition event_types (types : string) : list string :=
  List.filter (fun s => negb (String.eqb s EmptyString)) (map trim (split_on "," types)).

Section pages.
Context `{P : Platform} {X : Type}.
Variable net : FetchRequest -> X -> (exn + Response) * X.
(** The message of the [SyntaxError] of [JSON.parse]. *)
Variable json_error : string -> string.

Notation browser := (Browser X).

(** [fetch]: the exchange, and what was answered. *)
Definition fetch (rq : FetchRequest) : prog browser Response :=
  call Receiver (fun b =>
    let '(r, x) := net rq (br_net b) in
    (r, mkBrowser x (br_answers b ++ match r with inr res => [(rq, res)] | inl _ => [] end) (br_tab b))).

Definition act (f : Tab -> Tab) : prog browser unit := update Local (with_tab f).
Definition set_state (me : nat) (f : Page -> Page) : prog browser unit := act (set_page me f).

(** Reading a property: of [null] it throws. *)
Definition property (k : string) (j : json) : prog browser (option json) :=
  match j with
  | JNull => Throw (EJs "TypeError" None ("Cannot read properties of null (reading '" +:+ k +:+ "')") None)
  | _ => Ret (field k j)
  end.

(** [e instanceof ApiError ? `${e.code}: ${e.message}` : String(e)] *)
Definition show_error (e : exn) : string :=
  match e with
  | EApi _ code message => js_string code +:+ ": " +:+ message
  | e => exn_text e
  end.

Definition bare_init (key : option json) : RequestInit := mkInit None ∅ None key None.
Definition post_init (key : option json) (body : option json) : RequestInit :=
  mkInit (Some "POST") ∅ (stringify <$> body) key None.

(** *** [KeysPage] *)

Definition keys_set_error (e : option string) (k : KeysState) : KeysState :=
  mkKeys (ks_adminKey k) (ks_name k) (ks_freshKey k) e (ks_busy k).
Definition keys_set_busy (b : bool) (k : KeysState) : KeysState :=
  mkKeys (ks_adminKey k) (ks_name k) (ks_freshKey k) (ks_error k) b.
Definition keys_set_fresh (v : option json) (k : KeysState) : KeysState :=
  mkKeys (ks_adminKey k) (ks_name k) v (ks_error k) (ks_busy k).

(** [setError(null); setBusy(true); try { ... } catch { setError } finally { setBusy(false) }] *)
Definition keys_operation (me : nat) (body : prog browser unit) : prog browser unit :=
  set_state me (on_keys (fun k => keys_set_busy true (keys_set_error None k))) ;;
  finally
    (catch body (fun e => set_state me (on_keys (keys_set_error (Some (show_error e))))))
    (set_state me (on_keys (keys_set_busy false))).

Definition createTenant (me : nat) (adminKey : json) (name : string) : prog browser unit :=
  keys_operation me
    (let* res := api fetch "/tenants"
       (mkInit (Some "POST") ∅ (Some (stringify (JObj [("name", JStr name); ("plan", JStr "PRO")]))) None (Some adminKey)) in
     let* apiKey := property "apiKey" res in
     act (fun t => patch_session
       [("adminKey", Some adminKey); ("apiKey", apiKey); ("apiKeyLast4", field "apiKeyLast4" res);
        ("tenantName", field "name" res)]
       (set_page me (on_keys (keys_set_fresh apiKey)) t))).

Definition rotate (me : nat) (apiKey : option json) : prog browser unit :=
  keys_operation me
    (let* res := api fetch "/api-keys/rotate" (mkInit (Some "POST") ∅ None apiKey None) in
     let* newKey := property "apiKey" res in
     act (fun t => patch_session [("apiKey", newKey); ("apiKeyLast4", field "apiKeyLast4" res)]
       (set_page me (on_keys (keys_set_fresh newKey)) t))).

(** *** [EndpointsPage] *)

Definition endpoints_set_error (e : option string) (s : EndpointsState) : EndpointsState :=
  mkEndpoints (es_rows s) (es_url s) (es_types s) e (es_freshSecret s).
Definition endpoints_set_rows (v : option json) (s : EndpointsState) : EndpointsState :=
  mkEndpoints v (es_url s) (es_types s) (es_error s) (es_freshSecret s).
Definition endpoints_set_secret (v : option json) (s : EndpointsState) : EndpointsState :=
  mkEndpoints (es_rows s) (es_url s) (es_types s) (es_error s) v.

(** [catch (e) { setError(...) }] *)
Definition endpoints_guarded (me : nat) (p : prog browser unit) : prog browser unit :=
  catch p (fun e => set_state me (on_endpoints (endpoints_set_error (Some (show_error e))))).

Definition endpoints_load (me : nat) (key : option json) : prog browser unit :=
  if negb (truthy key) then Ret tt else
  let* list := api fetch "/endpoints" (bare_init key) in
  set_state me (on_endpoints (endpoints_set_rows (Some list))).

(** [useEffect] *)
Definition endpoints_effect (me : nat) (key : option json) : prog browser unit :=
  endpoints_guarded me (endpoints_load me key).

Definition endpoints_create (me : nat) (key : option json) (url types : string) : prog browser unit :=
  set_state me (on_endpoints (endpoints_set_error None)) ;;
  endpoints_guarded me
    (let* created := api fetch "/endpoints" (post_init key (Some (JObj [("url", JStr url)]))) in
     let* secret := property "secret" created in
     (if truthy secret then
        act (fun t => patch_session [("endpointSecret", secret)]
          (set_page me (on_endpoints (endpoints_set_secret secret)) t)) ;;
        receiver fetch "/config" (Some "POST") ∅
          (Some (stringify (JObj [("secret", default JNull secret)]))) ;; Ret tt
      else Ret tt) ;;
     api fetch ("/endpoints/" +:+ show (field "id" created) +:+ "/subscriptions")
       (mkInit (Some "PUT") ∅ (Some (stringify (JObj [("eventTypes", JArr (map JStr (event_types types)))]))) key None) ;;
     endpoints_load me key).

Definition endpoints_ping (me : nat) (key : option json) (id : string) : prog browser unit :=
  set_state me (on_endpoints (endpoints_set_error None)) ;;
  endpoints_guarded me (api fetch ("/endpoints/" +:+ id +:+ "/ping") (post_init key None) ;; Ret tt).

(** *** [DeliveriesPage] *)

Definition deliveries_set_rows (v : option json) (s : DeliveriesState) : DeliveriesState :=
  mkDeliveries v (ds_open s) (ds_attempts s) (ds_error s).
Definition deliveries_set_error (e : option string) (s : DeliveriesState) : DeliveriesState :=
  mkDeliveries (ds_rows s) (ds_open s) (ds_attempts s) e.
Definition deliveries_close (s : DeliveriesState) : DeliveriesState :=
  mkDeliveries (ds_rows s) None (ds_attempts s) (ds_error s).
Definition deliveries_show (id : string) (attempts : option json) (s : DeliveriesState) : DeliveriesState :=
  mkDeliveries (ds_rows s) (Some id) attempts (ds_error s).

(** Also the button that reloads, whose exception nobody handles. *)
Definition deliveries_load (me : nat) (key : option json) : prog browser unit :=
  let* res := api fetch "/deliveries" (bare_init key) in
  let* rows := property "deliveries" res in
  set_state me (on_deliveries (deliveries_set_rows rows)).

Definition deliveries_effect (me : nat) (key : option json) : prog browser unit :=
  if negb (truthy key) then Ret tt else
  catch (deliveries_load me key) (fun e => set_state me (on_deliveries (deliveries_set_error (Some (show_error e))))).

Definition attempts_path (id : string) : string := "/deliveries/" +:+ id +:+ "/attempts".

Definition deliveries_expand (me : nat) (key : option json) (open : option string) (id : string) : prog browser unit :=
  if bool_decide (open = Some id) then set_state me (on_deliveries deliveries_close)
  else
    let* res := api fetch (attempts_path id) (bare_init key) in
    let* attempts := property "attempts" res in
    set_state me (on_deliveries (deliveries_show id attempts)).

(** *** [DlqPage] *)

Definition dlq_set_rows (v : option json) (s : DlqState) : DlqState := mkDlq v (dq_error s).
Definition dlq_set_error (e : option string) (s : DlqState) : DlqState := mkDlq (dq_rows s) e.

Definition dlq_guarded (me : nat) (p : prog browser unit) : prog browser unit :=
  catch p (fun e => set_state me (on_dlq (dlq_set_error (Some (show_error e))))).

Definition dlq_load (me : nat) (key : option json) : prog browser unit :=
  let* res := api fetch "/deliveries?status=DEAD" (bare_init key) in
  let* rows := property "deliveries" res in
  set_state me (on_dlq (dlq_set_rows rows)).

Definition dlq_effect (me : nat) (key : option json) : prog browser unit :=
  if negb (truthy key) then Ret tt else dlq_guarded me (dlq_load me key).

Definition dlq_redeliver (me : nat) (key : option json) (id : string) : prog browser unit :=
  set_state me (on_dlq (dlq_set_error None)) ;;
  dlq_guarded me
    (api fetch ("/deliveries/" +:+ id +:+ "/redeliver") (mkInit (Some "POST") ∅ None key None) ;;
     dlq_load me key).

(** *** [LivePage] *)

Definition live_set_error (e : option string) (s : LiveState) : LiveState := mkLive (ls_payload s) (ls_logs s) e.

Definition publish_headers (uuid : string) : Headers :=
  headers_set "Idempotency-Key" uuid (headers_set "Content-Type" "application/json" ∅).

(** [uuid] is what [crypto.randomUUID()] draws. *)
Definition live_publish (me : nat) (key : option json) (payload uuid : string) : prog browser unit :=
  set_state me (on_live (live_set_error None)) ;;
  catch
    (match parse payload with
     | None => Throw (EJs "SyntaxError" None (json_error payload) None)
     | Some j =>
         api fetch "/events" (mkInit (Some "POST") (publish_headers uuid)
           (Some (stringify (JObj [("type", JStr "order.created"); ("payload", j)]))) key None) ;; Ret tt
     end)
    (fun e => set_state me (on_live (live_set_error (Some (show_error e))))).

(** [es.onmessage]: a line that does not parse is ignored. *)
Definition live_message (data : string) (s : LiveState) : LiveState :=
  match parse data with
  | Some line => mkLive (ls_payload s) (take 80 (line :: ls_logs s)) (ls_error s)
  | None => s
  end.

Definition on_message (me : nat) (data : string) : prog browser unit := set_state me (on_live (live_message data)).

(** ** What the pages show

    [answered b rq j]: the network answered [rq] with success and the body [j]; what is
    recorded as answered is what the network gave.  [heard data]: the event source of
    the live page may deliver [data].  [named id]: a delivery whose attempts are asked
    for may have this id. *)

Variable heard : string -> Prop.
Variable named : string -> Prop.

Definition answered (b : browser) (rq : FetchRequest) (j : json) : Prop :=
  exists res, (rq, res) ∈ br_answers b /\ rs_ok res = true /\ parse_body res = j.

Definition get_request (path : string) (key : option json) : FetchRequest :=
  mkFetch ("/api" +:+ path) None (request_headers (bare_init key)) None.

Definition posted (path : string) (rq : FetchRequest) : Prop :=
  fr_url rq = "/api" +:+ path /\ fr_method rq = Some "POST".

(** Where the values on a page come from: a list is the one its view asked for; the
    attempts under an open delivery are those of this delivery; a key or a secret is
    one that was issued. *)
Definition shown (b : browser) (p : Page) : Prop :=
  match p with
  | KeysPage k =>
      ks_freshKey k = nothing \/
      exists rq j, (posted "/tenants" rq \/ posted "/api-keys/rotate" rq) /\ answered b rq j /\
        ks_freshKey k = field "apiKey" j
  | EndpointsPage e =>
      (es_rows e = no_rows \/ exists key j, answered b (get_request "/endpoints" key) j /\ es_rows e = Some j) /\
      (es_freshSecret e = nothing \/
       exists rq j, posted "/endpoints" rq /\ answered b rq j /\ es_freshSecret e = field "secret" j)
  | DeliveriesPage d =>
      (ds_rows d = no_rows \/
       exists key j, answered b (get_request "/deliveries" key) j /\ ds_rows d = field "deliveries" j) /\
      forall id, ds_open d = Some id ->
        named id /\ exists key j, answered b (get_request (attempts_path id) key) j /\ ds_attempts d = field "attempts" j
  | DlqPage d =>
      dq_rows d = no_rows \/
      exists key j, answered b (get_request "/deliveries?status=DEAD" key) j /\ dq_rows d = field "deliveries" j
  | LivePage l =>
      (length (ls_logs l) <= 80)%nat /\ Forall (fun line => exists data, heard data /\ parse data = Some line) (ls_logs l)
  end.

Definition recorded (b : browser) : Prop :=
  forall rq res, (rq, res) ∈ br_answers b -> exists x x', net rq x = (inr res, x').

(** The session and its stored copy, as the tab was opened. *)
Context (stored0 : option string) (s0 : Session).

(** Where the values of the session come from: they were stored, or cleared, or issued. *)
Definition issued_by (paths : list string) (k : string) (b : browser) (v : option json) : Prop :=
  exists rq j, Exists (fun path => posted path rq) paths /\ answered b rq j /\ v = field k j.

Definition kept_value (v0 : option json) (paths : list string) (k : string) (b : browser) (v : option json) : Prop :=
  v = v0 \/ v = no_text \/ issued_by paths k b v.

Definition session_from (b : browser) (s : Session) : Prop :=
  kept_value (se_apiKey s0) ["/tenants"; "/api-keys/rotate"] "apiKey" b (se_apiKey s) /\
  kept_value (se_apiKeyLast4 s0) ["/tenants"; "/api-keys/rotate"] "apiKeyLast4" b (se_apiKeyLast4 s) /\
  kept_value (se_tenantName s0) ["/tenants"] "name" b (se_tenantName s) /\
  kept_value (se_endpointSecret s0) ["/endpoints"] "secret" b (se_endpointSecret s).

(** [localStorage] holds the session, nothing after it was cleared, or what it held. *)
Definition stored_from (t : Tab) : Prop :=
  tb_storage t = Some (stringify (session_json (tb_session t))) \/
  (tb_storage t = None /\ tb_session t = empty_session) \/ (tb_storage t = stored0 /\ tb_session t = s0).

Definition tab_ok (b : browser) (t : Tab) : Prop :=
  shown b (tb_page t) /\ session_from b (tb_session t) /\ stored_from t.

Definition console_ok (b : browser) : Prop := tab_ok b (br_tab b) /\ recorded b.

Definition answers_grow (b b' : browser) : Prop := forall x, x ∈ br_answers b -> x ∈ br_answers b'.

#[local] Instance answers_grow_preorder : PreOrder answers_grow.
Proof. split; [intros b x Hx; exact Hx|]. intros b1 b2 b3 H1 H2 x Hx. auto. Qed.

Notation cwp := (wp (Tok := nat) (fun b _ => console_ok b) answers_grow).
Notation known := (stable answers_grow).

Lemma answered_grows b b' rq j : answers_grow b b' -> answered b rq j -> answered b' rq j.
Proof. intros H (res & Hin & ? & ?). exists res. auto. Qed.

Lemma answered_known rq j : known (fun b => answered b rq j).
Proof. intros b b' H. by apply answered_grows. Qed.

Lemma and_known K K' : known K -> known K' -> known (fun b => K b /\ K' b).
Proof. intros H H' b b' Hr [? ?]. split; [by eapply H|by eapply H']. Qed.

Lemma true_known : known (fun _ => True).
Proof. done. Qed.

Lemma shown_grows b b' p : answers_grow b b' -> shown b p -> shown b' p.
Proof.
  intros Hg. pose proof (fun rq j => answered_grows b b' rq j Hg) as Ha.
  destruct p as [k|e|d|d|l]; cbn; [|intros [H1 H2]; split|intros [H1 H2]; split| |done].
  - intros [?|(rq & j & ? & ? & ?)]; [by left|right; exists rq, j; auto].
  - destruct H1 as [?|(key & j & ? & ?)]; [by left|right; exists key, j; auto].
  - destruct H2 as [?|(rq & j & ? & ? & ?)]; [by left|right; exists rq, j; auto].
  - destruct H1 as [?|(key & j & ? & ?)]; [by left|right; exists key, j; auto].
  - intros id Hid. destruct (H2 id Hid) as (Hn & key & j & ? & ?). split; [exact Hn|]. exists key, j. auto.
  - intros [?|(key & j & ? & ?)]; [by left|right; exists key, j; auto].
Qed.

Lemma kept_grows b b' v0 paths k v : answers_grow b b' -> kept_value v0 paths k b v -> kept_value v0 paths k b' v.
Proof.
  intros Hg [?|[?|(rq & j & ? & ? & ?)]]; [by left|by right; left|right; right]. exists rq, j. eauto using answered_grows.
Qed.

Lemma tab_ok_grows b b' t : answers_grow b b' -> tab_ok b t -> tab_ok b' t.
Proof.
  intros Hg (H1 & (H2 & H3 & H4 & H5) & H6). split; [by eapply shown_grows|]. split; [|exact H6].
  split_and!; by eapply kept_grows.
Qed.

(** ** The handlers keep it *)

(** A continuation that relies on what is known, and on more. *)
Definition ready {B} (K : browser -> Prop) (r : exn + B) (Q : exn + B -> (browser -> Prop) -> gset nat -> Prop) : Prop :=
  forall K', known K' -> (forall b, K' b -> K b) -> Q r K' ∅.

Lemma cwp_fetch K rq Q :
  known K -> (forall e, ready K (inl e) Q) -> (forall res, ready (fun b => K b /\ (rq, res) ∈ br_answers b) (inr res) Q) ->
  cwp K ∅ (fetch rq) Q.
Proof.
  intros HK He Hx. simpl. intros b O HO HKb Hok r b' Hout.
  destruct Hok as [Htab Hrec].
  assert (answers_grow b b' /\ br_tab b' = br_tab b /\ recorded b' /\ forall res, r = inr res -> (rq, res) ∈ br_answers b')
    as (Hg & Ht & Hrec' & Hr).
  { assert (forall y, y ∈ br_answers b -> forall l, y ∈ br_answers b ++ l) as Happ by (intros; apply elem_of_app; by left).
    assert (forall r0 x, net rq (br_net b) = (r0, x) -> recorded (mkBrowser x
      (br_answers b ++ match r0 with inr res => [(rq, res)] | inl _ => [] end) (br_tab b))) as Hnew.
    { intros r0 x En rq' res' Hin. cbn in Hin. apply elem_of_app in Hin as [Hin|Hin]; [by apply Hrec|].
      destruct r0 as [e|res]; [by apply elem_of_nil in Hin|]. apply list_elem_of_singleton in Hin as [= -> ->]. by exists (br_net b), x. }
    destruct Hout as [r1 b1 E|e _|e r1 b1 _ E]; [| |]; try (destruct (net rq (br_net b)) as [r0 x] eqn:En; injection E as <- <-).
    - split; [intros y Hy; by apply Happ|]. split; [done|]. split; [by apply Hnew|]. intros res ->. apply elem_of_app. right. by left.
    - split; [intros y Hy; exact Hy|done].
    - split; [intros y Hy; by apply Happ|]. split; [done|]. split; [by apply Hnew|done]. }
  assert (console_ok b') as Hok' by (split; [rewrite Ht; by eapply tab_ok_grows|exact Hrec']).
  split; [done|]. destruct r as [e|res].
  - exists K, ∅. split_and!; [done|by eapply HK|set_solver|done|]. by apply He.
  - exists (fun b => K b /\ (rq, res) ∈ br_answers b), ∅.
    assert (known (fun b => K b /\ (rq, res) ∈ br_answers b)) as HK' by (apply and_known; [done|]; intros b1 b2 H12 Hin; by apply H12).
    split_and!; [done|by eapply HK|by apply Hr|set_solver|done|by apply Hx].
Qed.

Lemma cwp_api K path init Q :
  known K -> (forall e, ready K (inl e) Q) ->
  (forall j, ready (fun b => K b /\
     answered b (mkFetch ("/api" +:+ path) (in_method init) (request_headers init) (in_body init)) j) (inr j) Q) ->
  cwp K ∅ (api fetch path init) Q.
Proof.
  intros HK He Hj. apply wp_bind, cwp_fetch; [done|done|]. intros res K' HK' Himp.
  destruct (rs_ok res) eqn:Hok; cbn [negb].
  - apply Hj; [done|]. intros b Hb. destruct (Himp b Hb) as [? ?]. split; [done|]. by exists res.
  - apply He; [done|]. intros b Hb. by apply Himp.
Qed.

Lemma cwp_receiver K path method headers body Q :
  known K -> (forall r, ready K r Q) -> cwp K ∅ (receiver fetch path method headers body) Q.
Proof.
  intros HK HQ. apply wp_bind, cwp_fetch; [done|intros e; apply HQ|]. intros res K' HK' Himp.
  apply HQ; [done|]. intros b Hb. by apply Himp.
Qed.

Lemma cwp_property K k j Q :
  known K -> (forall e, ready K (inl e) Q) -> ready K (inr (field k j)) Q -> cwp K ∅ (property k j) Q.
Proof. intros HK He Hx. destruct j; cbn [property wp]; by first [apply He | apply Hx]. Qed.

(** A change of the tab that keeps the page right, given what is known. *)
Lemma cwp_act K f Q :
  known K -> (forall b, K b -> tab_ok b (br_tab b) -> tab_ok b (f (br_tab b))) -> (forall r, ready K r Q) ->
  cwp K ∅ (act f) Q.
Proof.
  intros HK Hf HQ. apply wp_call; [apply _|done| |intros r; by apply HQ].
  intros b O Hb _ [Htab Hrec]. assert (answers_grow b (with_tab f b)) as Hg by (intros x Hx; exact Hx).
  split; [|exact Hg]. split; [|exact Hrec]. apply (tab_ok_grows b _ _ Hg), Hf; done.
Qed.

Lemma tab_ok_set_page b me f t : tab_ok b t -> (forall p, shown b p -> shown b (f p)) -> tab_ok b (set_page me f t).
Proof.
  intros (H1 & H2 & H3) Hf. unfold set_page. destruct (_ =? _)%nat; [|done]. split; [by apply Hf|]. by split.
Qed.

(** New values in the session, of an answer. *)
Lemma tab_ok_patch b patch t :
  tab_ok b t -> session_from b (merge (tb_session t) patch) -> tab_ok b (patch_session patch t).
Proof. intros (H1 & _ & _) Hs. split; [exact H1|]. split; [exact Hs|by left]. Qed.

Lemma cwp_set K me f Q :
  known K -> (forall b p, K b -> shown b p -> shown b (f p)) -> (forall r, ready K r Q) -> cwp K ∅ (set_state me f) Q.
Proof. intros HK Hf HQ. apply cwp_act; [done| |done]. intros b Hb Hok. apply tab_ok_set_page; auto. Qed.

(** [{ ... } catch] that shows the error. *)
Lemma cwp_catch {B} K (p : prog browser B) h Q :
  (forall Q', (forall r, ready (fun _ => True) r Q') -> cwp K ∅ p Q') ->
  (forall e K', known K' -> cwp K' ∅ (h e) Q) -> (forall x, ready (fun _ => True) (inr x) Q) -> cwp K ∅ (catch p h) Q.
Proof.
  intros Hp Hh HQ. apply wp_catch, Hp. intros [e|x] K' HK' Himp; [by apply Hh|by apply HQ].
Qed.

(** Errors and flags are not part of what is shown from answers. *)
Lemma shown_keys_error b e p : shown b p -> shown b (on_keys (keys_set_error e) p).
Proof. by destruct p. Qed.
Lemma shown_keys_busy b x p : shown b p -> shown b (on_keys (keys_set_busy x) p).
Proof. by destruct p. Qed.
Lemma shown_endpoints_error b e p : shown b p -> shown b (on_endpoints (endpoints_set_error e) p).
Proof. by destruct p. Qed.
Lemma shown_deliveries_error b e p : shown b p -> shown b (on_deliveries (deliveries_set_error e) p).
Proof. by destruct p. Qed.
Lemma shown_dlq_error b e p : shown b p -> shown b (on_dlq (dlq_set_error e) p).
Proof. by destruct p. Qed.
Lemma shown_live_error b e p : shown b p -> shown b (on_live (live_set_error e) p).
Proof. by destruct p. Qed.

#[local] Hint Resolve shown_keys_error shown_keys_busy shown_endpoints_error shown_deliveries_error shown_dlq_error
  shown_live_error true_known : shown.

Definition any (Q : exn + unit -> (browser -> Prop) -> gset nat -> Prop) : Prop := forall r, ready (fun _ => True) r Q.

Lemma any_ready (Q : exn + unit -> (browser -> Prop) -> gset nat -> Prop) K r : any Q -> ready K r Q.
Proof. intros HQ K' HK' _. by apply HQ. Qed.

Lemma set_page_session me f t : tb_session (set_page me f t) = tb_session t.
Proof. unfold set_page. by destruct (_ =? _)%nat. Qed.

(** An issued key. *)
Lemma cwp_issued K me path init patch Q :
  path = "/tenants" \/ path = "/api-keys/rotate" -> in_method init = Some "POST" ->
  (forall b rq j s, posted path rq -> answered b rq j -> session_from b s -> session_from b (merge s (patch (field "apiKey" j) j))) ->
  known K -> any Q ->
  cwp K ∅ (let* res := api fetch path init in
    let* key := property "apiKey" res in
    act (fun t => patch_session (patch key res) (set_page me (on_keys (keys_set_fresh key)) t))) Q.
Proof.
  intros Hpath Hm Hpatch HK HQ. apply wp_bind, cwp_api; [done|intros e; by apply any_ready|]. intros j K' HK' Himp.
  apply wp_bind, cwp_property; [done|intros e; by apply any_ready|]. intros K2 HK2 Himp2.
  apply cwp_act; [done| |intros r; by apply any_ready]. intros b Hb Hok.
  destruct (Himp b (Himp2 b Hb)) as [_ Ha]. apply tab_ok_patch.
  - apply tab_ok_set_page; [done|]. intros [k| | | |] Hp; try done. right. eexists _, j. split; [|by split; [exact Ha|]].
    destruct Hpath as [->| ->]; [left|right]; (split; [done|exact Hm]).
  - rewrite set_page_session. eapply Hpatch; [|exact Ha|apply Hok]. split; [done|exact Hm].
Qed.

Lemma from_answer (paths : list string) k b rq j v0 path :
  posted path rq -> path ∈ paths -> answered b rq j -> kept_value v0 paths k b (field k j).
Proof. intros Hp Hin Ha. right. right. exists rq, j. split; [|done]. apply Exists_exists. eauto. Qed.

Lemma cwp_keys_operation me body Q :
  (forall K Q, known K -> any Q -> cwp K ∅ body Q) -> any Q -> cwp (fun _ => True) ∅ (keys_operation me body) Q.
Proof.
  intros Hb HQ. apply wp_bind, cwp_set; [done|intros b p _ H; by destruct p|]. intros [e|[]] K HK _; [by apply HQ|].
  apply wp_finally, cwp_catch.
  - intros Q' HQ'. by apply Hb.
  - intros e K' HK'. apply cwp_set; [done|intros; auto with shown|]. intros r K2 HK2 _.
    apply cwp_set; [done|intros; auto with shown|]. intros [e'|[]] K3 HK3 _; by apply HQ.
  - intros x K2 HK2 _. apply cwp_set; [done|intros; auto with shown|]. intros [e'|[]] K3 HK3 _; by apply HQ.
Qed.

Lemma cwp_createTenant me adminKey name Q : any Q -> cwp (fun _ => True) ∅ (createTenant me adminKey name) Q.
Proof.
  apply cwp_keys_operation. intros K Q' HK HQ'.
  apply (cwp_issued K me "/tenants" _ (fun apiKey res => [("adminKey", Some adminKey); ("apiKey", apiKey);
    ("apiKeyLast4", field "apiKeyLast4" res); ("tenantName", field "name" res)])); auto.
  intros b rq j s Hp Ha (_ & _ & _ & Hs). split_and!; [..|exact Hs]; cbn; eapply from_answer; eauto; set_solver.
Qed.

Lemma cwp_rotate me key Q : any Q -> cwp (fun _ => True) ∅ (rotate me key) Q.
Proof.
  apply cwp_keys_operation. intros K Q' HK HQ'.
  apply (cwp_issued K me "/api-keys/rotate" _ (fun newKey res => [("apiKey", newKey); ("apiKeyLast4", field "apiKeyLast4" res)])); auto.
  intros b rq j s Hp Ha (_ & _ & Hn & Hs). split_and!; [..|exact Hn|exact Hs]; cbn; eapply from_answer; eauto; set_solver.
Qed.

Lemma cwp_endpoints_load K me key Q : known K -> any Q -> cwp K ∅ (endpoints_load me key) Q.
Proof.
  intros HK HQ. unfold endpoints_load. destruct (truthy key); cbn [negb]; [|by apply HQ].
  apply wp_bind, cwp_api; [done|intros e; by apply any_ready|]. intros j K' HK' Himp.
  apply cwp_set; [done| |intros r; by apply any_ready]. intros b [|e| | |] Hb Hp; try done. destruct Hp as [_ Hs].
  split; [right|exact Hs]. destruct (Himp b Hb) as [_ Ha]. by exists key, j.
Qed.

Lemma cwp_endpoints_guarded K me p Q :
  known K -> (forall Q, any Q -> cwp K ∅ p Q) -> any Q -> cwp K ∅ (endpoints_guarded me p) Q.
Proof.
  intros HK Hp HQ. apply cwp_catch; [exact Hp| |intros x; by apply any_ready].
  intros e K' HK'. apply cwp_set; [done|intros; auto with shown|intros r; by apply any_ready].
Qed.

Lemma cwp_endpoints_reset {B} K me (p : prog browser B) Q :
  known K -> (forall K, known K -> cwp K ∅ p Q) -> (forall e, ready K (inl e) Q) ->
  cwp K ∅ (set_state me (on_endpoints (endpoints_set_error None)) ;; p) Q.
Proof.
  intros HK Hp HQ. apply wp_bind, cwp_set; [done|intros; auto with shown|].
  intros [e|[]] K' HK' Himp; [by apply HQ|by apply Hp].
Qed.

Lemma cwp_endpoints_create me key url types Q : any Q -> cwp (fun _ => True) ∅ (endpoints_create me key url types) Q.
Proof.
  intros HQ. apply cwp_endpoints_reset; [done| |intros e; by apply any_ready]. intros K HK.
  apply cwp_endpoints_guarded; [done| |done]. clear HQ Q. intros Q HQ.
  apply wp_bind, cwp_api; [done|intros e; by apply any_ready|]. intros j K1 HK1 H1.
  apply wp_bind, cwp_property; [done|intros e; by apply any_ready|]. intros K2 HK2 H2.
  assert (forall K, known K -> cwp K ∅ (api fetch ("/endpoints/" +:+ show (field "id" j) +:+ "/subscriptions")
    (mkInit (Some "PUT") ∅ (Some (stringify (JObj [("eventTypes", JArr (map JStr (event_types types)))]))) key None) ;;
     endpoints_load me key) Q) as Hrest.
  { intros K3 HK3. apply wp_bind, cwp_api; [done|intros e; by apply any_ready|]. intros j2 K4 HK4 _.
    by apply cwp_endpoints_load. }
  apply wp_bind. destruct (truthy (field "secret" j)) eqn:Ht; [|by apply Hrest].
  apply wp_bind, cwp_act; [done| |].
  - intros b Hb Hok. destruct (H1 b (H2 b Hb)) as [_ Ha]. apply tab_ok_patch.
    + apply tab_ok_set_page; [done|]. intros [|e| | |] Hp; try done. destruct Hp as [Hr _]. split; [exact Hr|right].
      eexists _, j. split; [|by split; [exact Ha|]]. done.
    + rewrite set_page_session. destruct Hok as (_ & (S1 & S2 & S3 & _) & _). split_and!; [exact S1|exact S2|exact S3|]. cbn.
      eapply from_answer; [|by left|exact Ha]. done.
  - intros [e|[]] K3 HK3 _; [by apply HQ|]. apply wp_bind, cwp_receiver; [done|].
    intros [e|x] K4 HK4 _; [by apply HQ|]. by apply Hrest.
Qed.

Lemma cwp_endpoints_ping me key id Q : any Q -> cwp (fun _ => True) ∅ (endpoints_ping me key id) Q.
Proof.
  intros HQ. apply cwp_endpoints_reset; [done| |intros e; by apply any_ready]. intros K HK.
  apply cwp_endpoints_guarded; [done| |done]. clear HQ Q. intros Q HQ.
  apply wp_bind, cwp_api; [done|intros e; by apply any_ready|]. intros j K1 HK1 _. by apply HQ.
Qed.

Lemma cwp_deliveries_load K me key Q : known K -> any Q -> cwp K ∅ (deliveries_load me key) Q.
Proof.
  intros HK HQ. apply wp_bind, cwp_api; [done|intros e; by apply any_ready|]. intros j K' HK' Himp.
  apply wp_bind, cwp_property; [done|intros e; by apply any_ready|]. intros K2 HK2 H2.
  apply cwp_set; [done| |intros r; by apply any_ready]. intros b [| |d| |] Hb Hp; try done. destruct Hp as [_ Hs].
  split; [right|exact Hs]. destruct (Himp b (H2 b Hb)) as [_ Ha]. by exists key, j.
Qed.

Lemma cwp_deliveries_effect me key Q : any Q -> cwp (fun _ => True) ∅ (deliveries_effect me key) Q.
Proof.
  intros HQ. unfold deliveries_effect. destruct (truthy key); cbn [negb]; [|by apply HQ].
  apply cwp_catch; [intros Q' HQ'; by apply cwp_deliveries_load| |intros x; by apply any_ready].
  intros e K' HK'. apply cwp_set; [done|intros; auto with shown|intros r; by apply any_ready].
Qed.

Lemma cwp_deliveries_expand me key open id Q : named id -> any Q -> cwp (fun _ => True) ∅ (deliveries_expand me key open id) Q.
Proof.
  intros Hn HQ. unfold deliveries_expand. case_bool_decide.
  - apply cwp_set; [done| |intros r; by apply any_ready]. intros b [| |d| |] _ Hp; try done. by destruct Hp as [Hr _].
  - apply wp_bind, cwp_api; [done|intros e; by apply any_ready|]. intros j K' HK' Himp.
    apply wp_bind, cwp_property; [done|intros e; by apply any_ready|]. intros K2 HK2 H2.
    apply cwp_set; [done| |intros r; by apply any_ready]. intros b [| |d| |] Hb Hp; try done. destruct Hp as [Hr _].
    split; [exact Hr|]. intros i [= <-]. split; [exact Hn|]. destruct (Himp b (H2 b Hb)) as [_ Ha]. by exists key, j.
Qed.

Lemma cwp_dlq_load K me key Q : known K -> any Q -> cwp K ∅ (dlq_load me key) Q.
Proof.
  intros HK HQ. apply wp_bind, cwp_api; [done|intros e; by apply any_ready|]. intros j K' HK' Himp.
  apply wp_bind, cwp_property; [done|intros e; by apply any_ready|]. intros K2 HK2 H2.
  apply cwp_set; [done| |intros r; by apply any_ready]. intros b [| | |d|] Hb Hp; try done.
  right. destruct (Himp b (H2 b Hb)) as [_ Ha]. by exists key, j.
Qed.

Lemma cwp_dlq_guarded K me p Q :
  (forall Q, any Q -> cwp K ∅ p Q) -> any Q -> cwp K ∅ (dlq_guarded me p) Q.
Proof.
  intros Hp HQ. apply cwp_catch; [exact Hp| |intros x; by apply any_ready].
  intros e K' HK'. apply cwp_set; [done|intros; auto with shown|intros r; by apply any_ready].
Qed.

Lemma cwp_dlq_effect me key Q : any Q -> cwp (fun _ => True) ∅ (dlq_effect me key) Q.
Proof.
  intros HQ. unfold dlq_effect. destruct (truthy key); cbn [negb]; [|by apply HQ].
  apply cwp_dlq_guarded; [intros Q' HQ'; by apply cwp_dlq_load|done].
Qed.

Lemma cwp_dlq_redeliver me key id Q : any Q -> cwp (fun _ => True) ∅ (dlq_redeliver me key id) Q.
Proof.
  intros HQ. apply wp_bind, cwp_set; [done|intros; auto with shown|]. intros [e|[]] K HK _; [by apply HQ|].
  apply cwp_dlq_guarded; [|done]. intros Q' HQ'. apply wp_bind, cwp_api; [done|intros e; by apply any_ready|].
  intros j K1 HK1 _. by apply cwp_dlq_load.
Qed.

Lemma cwp_live_publish me key payload uuid Q : any Q -> cwp (fun _ => True) ∅ (live_publish me key payload uuid) Q.
Proof.
  intros HQ. apply wp_bind, cwp_set; [done|intros; auto with shown|]. intros [e|[]] K HK _; [by apply HQ|].
  apply cwp_catch; [| |intros x; by apply any_ready].
  - intros Q' HQ'. destruct (parse payload) as [j|]; [|by apply HQ'].
    apply wp_bind, cwp_api; [done|intros e; by apply any_ready|]. intros j2 K1 HK1 _. by apply HQ'.
  - intros e K' HK'. apply cwp_set; [done|intros; auto with shown|intros r; by apply any_ready].
Qed.

Lemma cwp_on_message me data Q : heard data -> any Q -> cwp (fun _ => True) ∅ (on_message me data) Q.
Proof.
  intros Hh HQ. apply cwp_set; [done| |intros r; by apply any_ready]. intros b [| | | |l] _ Hp; try done.
  cbn [on_live shown] in *. unfold live_message. destruct (parse data) eqn:E; [|done]. cbn [ls_logs]. rewrite length_take.
  split; [lia|]. apply Forall_take, Forall_cons. split; [by exists data|apply Hp].
Qed.

(** ** The console

    What may run: any handler, of any mount, on any closed-over values; messages are
    those the event source delivers, and opened deliveries have ids that may be asked
    for. *)
Inductive handler : prog browser unit -> Prop :=
| h_createTenant me adminKey name : handler (createTenant me adminKey name)
| h_rotate me key : handler (rotate me key)
| h_endpoints_effect me key : handler (endpoints_effect me key)
| h_endpoints_create me key url types : handler (endpoints_create me key url types)
| h_endpoints_ping me key id : handler (endpoints_ping me key id)
| h_deliveries_load me key : handler (deliveries_load me key)
| h_deliveries_effect me key : handler (deliveries_effect me key)
| h_deliveries_expand me key open id : named id -> handler (deliveries_expand me key open id)
| h_dlq_effect me key : handler (dlq_effect me key)
| h_dlq_redeliver me key id : handler (dlq_redeliver me key id)
| h_live_publish me key payload uuid : handler (live_publish me key payload uuid)
| h_on_message me data : heard data -> handler (on_message me data).

(** What happens besides: the rest of the world moves, the user follows a link, types
    into a form, or clears the session. *)
Inductive beside : browser -> browser -> Prop :=
| beside_net b x : beside b (mkBrowser x (br_answers b) (br_tab b))
| beside_navigate b path : beside b (with_tab (navigate path) b)
| beside_keys b adminKey name :
    beside b (with_tab (set_page (tb_mount (br_tab b))
      (on_keys (fun k => mkKeys adminKey name (ks_freshKey k) (ks_error k) (ks_busy k)))) b)
| beside_endpoints b url types :
    beside b (with_tab (set_page (tb_mount (br_tab b))
      (on_endpoints (fun e => mkEndpoints (es_rows e) url types (es_error e) (es_freshSecret e)))) b)
| beside_payload b payload :
    beside b (with_tab (set_page (tb_mount (br_tab b)) (on_live (fun l => mkLive payload (ls_logs l) (ls_error l)))) b)
| beside_clear b : beside b (with_tab clear_session b).

Lemma page_of_shown b path s : shown b (page_of path s).
Proof.
  assert (shown b (LivePage initial_live)) as Hl by (split; [cbn; lia|constructor]).
  assert (shown b (KeysPage (initial_keys s))) as Hk by by left.
  unfold page_of. repeat (case_match; [first [exact Hk|exact Hl|by left|split; [by left|done || by left]]|]). exact Hk.
Qed.

Lemma beside_ok b b' : console_ok b -> beside b b' -> console_ok b' /\ answers_grow b b'.
Proof.
  intros [Htab Hrec] Hs. assert (br_answers b' = br_answers b) as Ha by (by destruct Hs).
  assert (answers_grow b b') as Hg by (intros y Hy; by rewrite Ha).
  split; [|exact Hg]. split; [|intros rq res; rewrite Ha; apply Hrec]. apply (tab_ok_grows b _ _ Hg). clear Hg Ha Hrec.
  destruct Hs as [b x|b path|b a n|b u ts|b p|b]; cbn; [exact Htab|..].
  - split; [apply page_of_shown|apply Htab].
  - apply tab_ok_set_page; [exact Htab|]. by intros [].
  - apply tab_ok_set_page; [exact Htab|]. by intros [].
  - apply tab_ok_set_page; [exact Htab|]. by intros [].
  - split; [apply Htab|]. split; [|by right; left]. split_and!; by right; left.
Qed.

Lemma handler_ok p : handler p -> cwp (fun _ => True) ∅ p any_post.
Proof.
  assert (any any_post) as Ha by done.
  intros [].
  - by apply cwp_createTenant.
  - by apply cwp_rotate.
  - apply cwp_endpoints_guarded; [done|intros Q HQ; by apply cwp_endpoints_load|done].
  - by apply cwp_endpoints_create.
  - by apply cwp_endpoints_ping.
  - by apply cwp_deliveries_load.
  - by apply cwp_deliveries_effect.
  - by apply cwp_deliveries_expand.
  - by apply cwp_dlq_effect.
  - by apply cwp_dlq_redeliver.
  - by apply cwp_live_publish.
  - by apply cwp_on_message.
Qed.

(** ** One handler alone, whatever fails *)

Lemma run_fetch sched n rq b :
  let '(r, b', _) := run sched n (fetch rq) b in
  br_tab b' = br_tab b /\ match r with inr res => (rq, res) ∈ br_answers b' | inl _ => True end.
Proof.
  unfold fetch, call. cbn [run attempt].
  destruct (sched n) as [|e1|e1]; cbn; destruct (net rq (br_net b)) as [[e|res] x]; cbn; (split; [done|]); try done.
  apply elem_of_app. right. by left.
Qed.

Lemma run_api sched n path init b :
  let '(r, b', _) := run sched n (api fetch path init) b in
  br_tab b' = br_tab b /\
  match r with
  | inr j => answered b' (mkFetch ("/api" +:+ path) (in_method init) (request_headers init) (in_body init)) j
  | inl _ => True
  end.
Proof.
  unfold api. rewrite run_bind. pose proof (run_fetch sched n (mkFetch ("/api" +:+ path) (in_method init) (request_headers init) (in_body init)) b) as H.
  destruct (run sched n (fetch _) b) as [[[e|res] b'] n']; [done|]. destruct H as [Ht Hin].
  destruct (rs_ok res) eqn:Hok; cbn; (split; [exact Ht|]); [by exists res|done].
Qed.

(** What an operation on the keys page leaves: the button is enabled again, and either
    the error is shown and session and key are as before, or the issued key is shown
    and stored. *)
Definition settled_keys (path : string) (init : RequestInit) (patch : option json -> json -> Patch)
    (b : browser) (k : KeysState) (b' : browser) : Prop :=
  exists k', tb_page (br_tab b') = KeysPage k' /\ ks_busy k' = false /\
    (tb_session (br_tab b') = tb_session (br_tab b) /\ tb_storage (br_tab b') = tb_storage (br_tab b) /\
     ks_freshKey k' = ks_freshKey k /\ is_Some (ks_error k') \/
     exists j, answered b' (mkFetch ("/api" +:+ path) (in_method init) (request_headers init) (in_body init)) j /\ j <> JNull /\
       ks_error k' = None /\ ks_freshKey k' = field "apiKey" j /\
       tb_session (br_tab b') = merge (tb_session (br_tab b)) (patch (field "apiKey" j) j) /\
       tb_storage (br_tab b') = Some (stringify (session_json (tb_session (br_tab b'))))).

Lemma set_page_at me f s st p : set_page me f (mkTab s st me p) = mkTab s st me (f p).
Proof. unfold set_page. cbn. by rewrite Nat.eqb_refl. Qed.

Lemma tab_eta t me p : tb_mount t = me -> tb_page t = p -> t = mkTab (tb_session t) (tb_storage t) me p.
Proof. by destruct t; cbn; intros -> ->. Qed.

Lemma run_act sched n f b : run sched n (act f) b = (inr tt, with_tab f b, S n).
Proof. done. Qed.

Lemma run_set_at sched n f b s st me p :
  br_tab b = mkTab s st me p ->
  run sched n (set_state me f) b = (inr tt, mkBrowser (br_net b) (br_answers b) (mkTab s st me (f p)), S n).
Proof. intros Ht. unfold set_state. rewrite run_act. unfold with_tab. by rewrite Ht, set_page_at. Qed.

Lemma run_keys_operation me path init patch sched n b k :
  tb_mount (br_tab b) = me -> tb_page (br_tab b) = KeysPage k ->
  let '(r, b', _) := run sched n (keys_operation me
    (let* res := api fetch path init in
     let* key := property "apiKey" res in
     act (fun t => patch_session (patch key res) (set_page me (on_keys (keys_set_fresh key)) t)))) b in
  r = inr tt /\ settled_keys path init patch b k b'.
Proof.
  intros Hm Hk. pose proof (tab_eta _ _ _ Hm Hk) as Ht. unfold keys_operation.
  rewrite run_bind, (run_set_at _ _ _ _ _ _ _ _ Ht). set (b1 := mkBrowser _ _ _).
  rewrite run_finally, run_catch, run_bind. pose proof (run_api sched (S n) path init b1) as H.
  destruct (run sched (S n) (api fetch path init) b1) as [[r b2] n2]. destruct H as [Ht2 Ha]. cbn [b1 br_tab] in Ht2.
  assert (forall e n3, let '(r, b', _) := (let '(r, s', n') := run sched n3
      (set_state me (on_keys (keys_set_error (Some (show_error e))))) b2 in
      match run sched n' (set_state me (on_keys (keys_set_busy false))) s' with
      | (inl e, s'', n'') => (inl e, s'', n'') | (inr _, s'', n'') => (r, s'', n'') end) in
    r = inr tt /\ settled_keys path init patch b k b') as Hfail.
  { intros e n3. rewrite (run_set_at _ _ _ _ _ _ _ _ Ht2). erewrite run_set_at by reflexivity.
    split; [done|]. eexists. split; [reflexivity|]. split; [done|]. left. cbn. eauto. }
  destruct r as [e|j]; [apply Hfail|]. rewrite run_bind.
  destruct j as [| | | | | |]; cbn [property run]; [apply Hfail|..].
  all: rewrite run_act; unfold with_tab, patch_session; rewrite Ht2, set_page_at; cbn [setSession tb_session tb_mount tb_page].
  all: erewrite run_set_at by reflexivity; split; [done|]; eexists; split; [reflexivity|]; split; [done|]; right.
  all: eexists; split; [exact Ha|]; split; [done|]; cbn; split_and!; done.
Qed.

(** C39.  Creating a tenant and rotating a key on the console's first page, whatever the
    network does: the handler always returns, the buttons are enabled again, and either
    an error is shown and the session, its stored copy and the shown key are as they
    were, or the request was answered, and the issued key is shown, is the key of the
    session from now on, and is stored with it. *)
Theorem key_operations_settle me adminKey name key sched n b k :
  tb_mount (br_tab b) = me -> tb_page (br_tab b) = KeysPage k ->
  (let '(r, b', _) := run sched n (createTenant me adminKey name) b in
   r = inr tt /\ settled_keys "/tenants"
     (mkInit (Some "POST") ∅ (Some (stringify (JObj [("name", JStr name); ("plan", JStr "PRO")]))) None (Some adminKey))
     (fun apiKey res => [("adminKey", Some adminKey); ("apiKey", apiKey); ("apiKeyLast4", field "apiKeyLast4" res);
                         ("tenantName", field "name" res)]) b k b') /\
  (let '(r, b', _) := run sched n (rotate me key) b in
   r = inr tt /\ settled_keys "/api-keys/rotate" (mkInit (Some "POST") ∅ None key None)
     (fun newKey res => [("apiKey", newKey); ("apiKeyLast4", field "apiKeyLast4" res)]) b k b').
Proof.
  intros Hm Hk. split.
  - by apply (run_keys_operation me "/tenants" _ (fun apiKey res => [("adminKey", Some adminKey); ("apiKey", apiKey);
      ("apiKeyLast4", field "apiKeyLast4" res); ("tenantName", field "name" res)])).
  - by apply (run_keys_operation me "/api-keys/rotate" _ (fun newKey res => [("apiKey", newKey); ("apiKeyLast4", field "apiKeyLast4" res)])).
Qed.

(** The handlers whose rejection nobody handles: the button that reloads the history,
    and the one that opens a delivery's attempts. *)
Definition unguarded (p : prog browser unit) : Prop :=
  (exists me key, p = deliveries_load me key) \/ (exists me key open id, p = deliveries_expand me key open id).

Lemma never_throws_set me f : never_throws (set_state me f).
Proof. apply never_throws_update. Qed.

(** Every other handler shows its errors: it never rejects. *)
Theorem handlers_handle_errors p : handler p -> never_throws p \/ unguarded p.
Proof.
  assert (forall me f (q : prog browser unit), never_throws q -> never_throws (set_state me f ;; q)) as Hset.
  { intros me f q Hq. apply never_throws_bind; [apply never_throws_set|done]. }
  assert (forall me body, never_throws (keys_operation me body)) as Hkeys.
  { intros me body. apply Hset. intros sched n b. rewrite run_finally, run_catch.
    destruct (run sched n body b) as [[[e|x] b1] n1]; cbn; by eexists _, _, _. }
  intros [me a name|me key|me key|me key url ts|me key id|me key|me key|me key o id|me key|me key id|me key p' u|me data].
  - left. apply Hkeys.
  - left. apply Hkeys.
  - left. apply never_throws_catch. intros e. apply never_throws_set.
  - left. apply Hset, never_throws_catch. intros e. apply never_throws_set.
  - left. apply Hset, never_throws_catch. intros e. apply never_throws_set.
  - right. left. by eexists _, _.
  - left. unfold deliveries_effect. destruct (negb _); [apply never_throws_ret|].
    apply never_throws_catch. intros e. apply never_throws_set.
  - right. right. by eexists _, _, _, _.
  - left. unfold dlq_effect. destruct (negb _); [apply never_throws_ret|].
    apply never_throws_catch. intros e. apply never_throws_set.
  - left. apply Hset, never_throws_catch. intros e. apply never_throws_set.
  - left. apply Hset, never_throws_catch. intros e. apply never_throws_set.
  - left. apply never_throws_set.
Qed.

(** One of them: when opening a delivery fails, the promise is rejected and the page is
    as it was, with no error on it. *)
Lemma expand_error_unseen me key open id b e x :
  open <> Some id -> net (get_request (attempts_path id) key) (br_net b) = (inl e, x) ->
  exec (deliveries_expand me key open id) b = (inl e, mkBrowser x (br_answers b ++ []) (br_tab b)).
Proof.
  intros Ho Hn. unfold deliveries_expand. rewrite bool_decide_eq_false_2 by done.
  unfold api, fetch. cbn [call bind exec]. unfold get_request in Hn. cbn [bare_init in_method in_body] in *. by rewrite Hn.
Qed.

(** An invalid payload is not sent. *)
Theorem invalid_payload_not_sent me key payload uuid sched n b l :
  parse payload = None -> tb_mount (br_tab b) = me -> tb_page (br_tab b) = LivePage l ->
  let '(r, b', _) := run sched n (live_publish me key payload uuid) b in
  r = inr tt /\ br_answers b' = br_answers b /\ br_net b' = br_net b /\
  tb_page (br_tab b') =
    LivePage (live_set_error (Some (show_error (EJs "SyntaxError" None (json_error payload) None))) l).
Proof.
  intros Hp Hm Hl. pose proof (tab_eta _ _ _ Hm Hl) as Ht. unfold live_publish. rewrite Hp, run_bind, (run_set_at _ _ _ _ _ _ _ _ Ht).
  rewrite run_catch. cbn [run]. erewrite run_set_at by reflexivity. done.
Qed.

(** The console as the page is opened: the session is what was stored. *)
Definition opened (x : X) (path : string) (b : browser) : Prop :=
  load_session stored0 = Some s0 /\ b = mkBrowser x [] (mkTab s0 stored0 1 (page_of path s0)).

Lemma opened_ok x path b pool b0 :
  opened x path b0 -> rtc (pstep beside handler) (b0, []) (b, pool) -> console_ok b.
Proof.
  intros (_ & ->) Hr.
  destruct (pool_sound beside handler (fun b (_ : gset nat) => console_ok b) answers_grow _)
    with (s0 := mkBrowser x ([] : list (FetchRequest * Response)) (mkTab s0 stored0 1 (page_of path s0))) (c := (b, pool)) as [_ H].
  - intros b1 b2 _ H1 H2. by apply beside_ok.
  - apply handler_ok.
  - split; [|intros rq res Hin; by apply elem_of_nil in Hin]. split; [apply page_of_shown|]. split; [|by right; right].
    split_and!; by left.
  - exact Hr.
  - exact H.
Qed.

(** C16.  The console shows what belongs to the view: however clicks, answers (in any
    order, or lost), messages, navigation and typing interleave,
    the rows on a page are those of a successful answer to this page's own request;
    the attempts under an open delivery are the attempts of exactly this delivery, one
    that was asked for; a
    key or an endpoint's secret on the page is one that was issued to a request of
    this page's kind; the live log holds at most 80 lines, each of which was heard.
    The session's key, tenant and secret are those it was opened with, or none, or
    issued ones, and the browser's storage holds this session, so that a reload
    continues with it. *)
Theorem console_shows_answers x path b0 b pool :
  opened x path b0 -> rtc (pstep beside handler) (b0, []) (b, pool) ->
  shown b (tb_page (br_tab b)) /\ session_from b (tb_session (br_tab b)) /\ stored_from (br_tab b).
Proof. intros Ho Hr. apply (opened_ok x path b pool b0 Ho Hr). Qed.

End pages.

(** ** A delivery is opened; a key is issued *)

Definition demo_net (answer : json) (rq : FetchRequest) (x : nat) : (exn + Response) * nat :=
  (inr (mkResponse 200 "OK" (stringify answer)), S x).

Definition opening : Browser nat := mkBrowser 0%nat [] (mkTab empty_session None 1 (DeliveriesPage initial_deliveries)).

Definition some_attempts : json := JObj [("attempts", JArr [JObj [("attemptNo", JNum 1)]])].

Lemma console_shows_answers_witness (P0 := always 200) :
  exists b, exec (deliveries_expand (demo_net some_attempts) 1 None None "d1") opening = (inr tt, b) /\
    (exists d, tb_page (br_tab b) = DeliveriesPage d /\ ds_open d = Some "d1" /\
       ds_attempts d = Some (JArr [JObj [("attemptNo", JNum 1)]])) /\
    shown (fun _ => True) (fun id => id = "d1") b (tb_page (br_tab b)).
Proof.
  assert (opened None empty_session 0%nat "/deliveries" opening) as Ho by (split; reflexivity).
  assert (handler (demo_net some_attempts) (fun _ => EmptyString) (fun _ => True) (fun id => id = "d1")
    (deliveries_expand (demo_net some_attempts) 1 None None "d1")) as Hh by by apply h_deliveries_expand.
  destruct (exec (deliveries_expand (demo_net some_attempts) 1 None None "d1") opening) as [r b] eqn:E.
  destruct (rtc_alone beside (handler (demo_net some_attempts) (fun _ => EmptyString) (fun _ => True) (fun id => id = "d1")) _ opening [] Hh) as [pool Hr].
  rewrite E in Hr.
  pose proof (console_shows_answers (demo_net some_attempts) (fun _ => EmptyString) (fun _ => True) (fun id => id = "d1") None empty_session 0%nat
    "/deliveries" opening b pool Ho Hr) as [H _].
  vm_compute in E. injection E as <- <-. eexists. split; [reflexivity|]. split; [|exact H].
  eexists. split; [reflexivity|]. split; reflexivity.
Defined.

Definition issued : json := JObj [("apiKey", JStr "sk_live_new"); ("apiKeyLast4", JStr "_new"); ("name", JStr "acme")].

Definition first_page : Browser nat := mkBrowser 0%nat [] (mkTab empty_session None 1 (KeysPage (initial_keys empty_session))).

Lemma key_operations_settle_witness (P0 := always 200) :
  let '(r, b, _) := run (fun _ => NoFault) 0 (createTenant (demo_net issued) 1 (JStr "admin") "acme") first_page in
  r = inr tt /\ se_apiKey (tb_session (br_tab b)) = Some (JStr "sk_live_new") /\
  exists k, tb_page (br_tab b) = KeysPage k /\ ks_busy k = false.
Proof.
  pose proof (key_operations_settle (demo_net issued) 1 (JStr "admin") "acme" None (fun _ => NoFault) 0 first_page
    (initial_keys empty_session) eq_refl eq_refl) as [H _].
  destruct (run _ _ _ _) as [[r b] n] eqn:E. destruct H as [Hr (k & Hk & Hb & _)].
  split; [exact Hr|]. split; [vm_compute in E; injection E as _ <- _; reflexivity|]. exists k. exact (conj Hk Hb).
Defined.
