(* ===== verification/Onboarding.v ===== *)
(** * The console in front of the platform: from a new tenant to a first endpoint

    The pages of the console ([Pages.v]) over the network of the deployment: requests
    under [/api] go to the API ([Wire.v], [Api.v]) and those under [/receiver] to the
    demo receiver ([Receiver.v]), as [nginx.conf] and [vite.config.ts] route them.
    The theorems follow an operator who creates a tenant and registers the receiver's
    endpoint, one request at a time: what the console then holds and shows is what the
    platform and the receiver have stored. *)

From S2P Require Import Receiver.
From S2P Require Import Prelude Errors Effects Base64 Json IpAddress Platform Schema Registry World Config TestPlatform.
From S2P Require Import SecretCipher Processor RateLimit Events Ssrf Endpoints Tenancy Dtos Api Wire Console Pages.

Open Scope Z_scope.
Open Scope hook_scope.

(** ** The size of the bodies *)

(** Bodies of a few texts are within the limit of the parser. *)
Lemma string_member_small k s :
  (String.length k + String.length s <= 1000)%nat -> Z.of_nat (String.length (stringify (JObj [(k, JStr s)]))) <= BODY_LIMIT.
Proof.
  intros Hl. change (stringify (JObj [(k, JStr s)])) with ("{" +:+ (quoted k +:+ ":" +:+ quoted s) +:+ "}").
  rewrite !str_length_app. change (String.length "{") with 1%nat. change (String.length ":") with 1%nat.
  change (String.length "}") with 1%nat. pose proof (quoted_length k). pose proof (quoted_length s). unfold BODY_LIMIT. lia.
Qed.

(** The body of the second request of the form. *)
Definition subscriptions_body (types : list string) : json := JObj [("eventTypes", JArr (map JStr types))].

Lemma subscriptions_body_small types :
  (length types <= 100)%nat -> forallb fits types = true ->
  Z.of_nat (String.length (stringify (subscriptions_body types))) <= BODY_LIMIT.
Proof.
  intros Hl Hf. change (stringify (subscriptions_body types)) with
    ("{" +:+ (quoted "eventTypes" +:+ ":" +:+ ("[" +:+ concat_sep "," (map stringify (map JStr types)) +:+ "]")) +:+ "}").
  rewrite !str_length_app. rewrite map_map.
  assert (String.length (concat_sep "," (map (fun x => stringify (JStr x)) types)) <= 603 * length types)%nat as Hc.
  { rewrite <- (length_map (fun x => stringify (JStr x)) types). apply (concat_sep_bound 602). intros s (y & -> & Hy)%list_elem_of_fmap.
    rewrite forallb_forall in Hf. apply list_elem_of_In, Hf in Hy. unfold fits in Hy. apply Z.leb_le in Hy.
    pose proof (quoted_length y). cbn [stringify]. lia. }
  change (String.length (quoted "eventTypes")) with 12%nat. cbn [String.length]. unfold BODY_LIMIT. lia.
Qed.

Section onboarding.
Context `{P : Platform}.
Variable cfg : Config.
Context (legacyDate : json -> option Z) (uuid_ok : string -> bool).
Context (is_url : string -> bool) (dto_message : json -> list string).
Context (decode not_found bad_json : string -> string) (reason : Z -> string).
Variable exposition : exn + string.
Context (elsewhere : FetchRequest -> World * Receiver.Receiver -> (exn + Response) * (World * Receiver.Receiver)).

Notation server := (api_server cfg legacyDate uuid_ok is_url dto_message decode not_found bad_json reason exposition).

(** ** The deployment *)

Definition to_http (path : string) (rq : FetchRequest) : HttpReq :=
  mkHttpReq (default "GET" (fr_method rq)) path (fr_headers rq) (fr_body rq).

(** [POST /config] of the receiver, behind [express.json()], whose errors Express
    answers itself: [secrets] is a set. *)
Definition post_config (rq : HttpReq) (s : Receiver.Receiver) : Response * Receiver.Receiver :=
  match json_body rq with
  | Read body =>
      let s' := Receiver.config (field "secret" body) s in
      (mkResponse 200 (reason 200)
         (stringify (JObj [("ok", JBool true); ("secrets", JNum (Z.of_nat (length (Receiver.rv_secrets s'))))])), s')
  | Malformed => (mkResponse 400 (reason 400) (bad_json (default EmptyString (hq_body rq))), s)
  | TooLarge => (mkResponse 413 (reason 413) "request entity too large", s)
  end.

(** What is neither the API nor this route is [elsewhere]. *)
Definition deployment (rq : FetchRequest) (x : World * Receiver.Receiver)
    : (exn + Response) * (World * Receiver.Receiver) :=
  match after_prefix "/api" (fr_url rq) with
  | Some path => let '(r, w) := exec (server (to_http path rq)) x.1 in (r, (w, x.2))
  | None =>
      if String.eqb (fr_url rq) "/receiver/config" && String.eqb (default "GET" (fr_method rq)) "POST" then
        let '(r, s) := post_config (to_http "/config" rq) x.2 in (inr r, (x.1, s))
      else elsewhere rq x
  end.

(** ** One request of the API *)

(** Another trace, nothing else. *)
Definition traced (tr : list obs) (w : World) : World :=
  mkWorld (w_db w) (w_redis w) (w_queue w) (w_now w) (w_draws w) (w_caches w) tr.

Lemma exec_intercept {A} path method route status (p : prog World A) w r w1 :
  exec p w = (r, w1) -> exists tr, exec (intercept path method route status p) w = (r, traced tr w1).
Proof.
  intros Hp. unfold intercept. destruct (String.eqb _ _); [exists (w_trace w1); rewrite Hp; by destruct w1|].
  rewrite exec_bind, exec_Date_now, exec_finally, Hp, exec_bind, exec_inc, exec_bind, exec_Date_now, exec_observe_seconds.
  by eexists.
Qed.

Lemma exec_post_tenants body a w w1 :
  exec (tenants_create dto_message body) w = (inr a, w1) ->
  exists tr, exec (post_tenants cfg dto_message (Some (HR_ADMIN_KEY cfg)) body) w = (inr (inr (201, a)), traced tr w1).
Proof.
  intros Hp. unfold post_tenants, respond. rewrite exec_catch, !exec_bind. unfold admin_canActivate.
  cbn [default from_option]. unfold Datatypes.id. rewrite Nat.eqb_refl, String.eqb_refl. cbn [negb orb exec].
  destruct (exec_intercept "/tenants" "POST" "/tenants" 201 _ _ _ _ Hp) as [tr ->]. by exists tr.
Qed.

(** A key in force lets the request through and changes nothing. *)
Lemma exec_guard header w t plan :
  guard_result header w = inr (t, plan) -> exec (canActivate header) w = (inr (t, plan), w).
Proof.
  intros Hg. pose proof (run_no_fault 0 (canActivate header) w) as Hn.
  destruct (run (fun _ => NoFault) 0 (canActivate header) w) as [[r w'] n'] eqn:E. apply run_canActivate in E as [_ Hr].
  destruct (exec_canActivate header w) as (w2 & E2 & _). rewrite E2, Hg in Hn |- *. cbn in Hn. injection Hn as Hn1 Hn2.
  subst. by destruct (Hr (t, plan) eq_refl) as [_ ->].
Qed.

Lemma endpoint_by_url_new t url id e d :
  ep_tenantId e = t /\ ep_url e = url -> is_Some (endpoint_by_url t url (set_endpoints (insert id e) d)).
Proof.
  intros [Ht Hu]. unfold endpoint_by_url. destruct (list_find _ _) as [[i p]|] eqn:E; [by eexists|].
  apply list_find_None in E. rewrite Forall_forall in E. destruct (E (id, e)); [|exact (conj Ht Hu)].
  apply elem_of_map_to_list. apply lookup_insert_eq.
Qed.

(** What a handler's result becomes. *)
Definition responded (c : Call) (r : exn + Answer) : ErrorResponse + Z * Answer :=
  match r with inl e => inl (GlobalExceptionFilter_catch e) | inr a => inr (success_status c, a) end.

Lemma exec_tenant_route head header c t plan r w w1 :
  guard_result header w = inr (t, plan) ->
  exec (handle cfg legacyDate uuid_ok is_url dto_message t plan c) w = (r, w1) ->
  exists tr, exec (tenant_route cfg legacyDate uuid_ok is_url dto_message head header c) w =
    (inr (responded c r), traced tr w1).
Proof.
  intros Hg Hp. unfold tenant_route, respond. rewrite exec_catch, !exec_bind, (exec_guard _ _ _ _ Hg).
  cbn [fst snd]. destruct (exec_intercept (call_path c) (method_label head c) (call_route c) (success_status c) _ _ _ _ Hp) as [tr ->].
  destruct r; by exists tr.
Qed.

Lemma guard_result_bearer h1 h2 w : bearer h1 = bearer h2 -> guard_result h1 w = guard_result h2 w.
Proof. intros H. unfold guard_result. by rewrite H. Qed.

Lemma exec_server_tenants rq body a w w1 :
  dispatch decode rq = TenantsRoute body -> is_head rq = false -> hq_headers rq !! "x-admin-key" = Some (HR_ADMIN_KEY cfg) ->
  exec (tenants_create dto_message body) w = (inr a, w1) ->
  exists tr, exec (server rq) w = (inr (http_response reason (inr (201, a))), traced tr w1).
Proof.
  intros Hd Hh Hk Hp. unfold api_server, serve_route. rewrite Hd, Hk, Hh, !exec_bind. destruct (exec_post_tenants _ _ _ _ Hp) as [tr ->].
  by exists tr.
Qed.

Lemma exec_server_call rq c t plan r w w1 :
  dispatch decode rq = CallRoute c -> is_head rq = false -> guard_result (hq_headers rq !! "authorization") w = inr (t, plan) ->
  exec (handle cfg legacyDate uuid_ok is_url dto_message t plan c) w = (r, w1) ->
  exists tr, exec (server rq) w = (inr (http_response reason (responded c r)), traced tr w1).
Proof.
  intros Hd Hh Hg Hp. unfold api_server, serve_route. rewrite Hd, Hh, !exec_bind. destruct (exec_tenant_route false _ _ _ _ _ _ _ Hg Hp) as [tr ->].
  by exists tr.
Qed.

(** ** One request of the console *)

Notation net := deployment.
Notation browser := (Browser (World * Receiver.Receiver)).

Definition console_request (path : string) (init : RequestInit) : FetchRequest :=
  mkFetch ("/api" +:+ path) (in_method init) (request_headers init) (in_body init).

Lemma set_given_other name v p h k : toLowerCase name <> k -> set_given name v p h !! k = h !! k.
Proof. intros Hk. unfold set_given. destruct (truthy v); [by apply lookup_insert_ne|done]. Qed.

Lemma stringify_object_given l : given (Some (stringify (JObj l))) = Some (stringify (JObj l)).
Proof. destruct (stringify (JObj l)) eqn:E; [discriminate E|done]. Qed.

(** A body the console sends is read back. *)
Lemma console_body path init l :
  in_headers init = ∅ -> in_body init = Some (stringify (JObj l)) -> integral (JObj l) = true ->
  Z.of_nat (String.length (stringify (JObj l))) <= BODY_LIMIT ->
  json_body (to_http path (console_request path init)) = Read (JObj l).
Proof.
  intros Hh Hb Hi Hl. unfold to_http, console_request. cbn [fr_headers fr_body fr_method]. rewrite Hb.
  apply json_body_object; [done| |done]. unfold request_headers. rewrite !set_given_other by done.
  rewrite Hh, Hb, stringify_object_given. by rewrite bool_decide_eq_true_2 by done.
Qed.

Lemma console_no_body path init : in_body init = None ->
  json_body (to_http path (console_request path init)) = Read (JObj []).
Proof. intros Hb. unfold to_http, console_request. cbn [fr_headers fr_body]. by rewrite Hb. Qed.

(** A successful answer of the API, as the page gets it. *)
Lemma exec_console path init w rcv an tab status a w1 :
  exec (server (to_http path (console_request path init))) w = (inr (http_response reason (inr (status, a))), w1) ->
  200 <= status <= 299 ->
  exists an', exec (api (fetch net) path init) (mkBrowser (w, rcv) an tab) = (inr (answer_json a), mkBrowser (w1, rcv) an' tab).
Proof.
  intros Hs Hst. unfold api, fetch. rewrite exec_bind, exec_call. cbn [br_net br_answers br_tab].
  fold (console_request path init). unfold deployment at 1.
  change (after_prefix "/api" (fr_url (console_request path init))) with (Some path). cbn [fst snd]. rewrite Hs.
  cbn [http_response]. unfold rs_ok. cbn [rs_status].
  rewrite (proj2 (Z.leb_le _ _)), (proj2 (Z.leb_le _ _)) by lia. cbn [andb negb exec]. eexists. f_equal. f_equal.
  unfold parse_body. cbn [rs_text]. pose proof (parse_stringify _ (answer_integral a)) as Hp.
  assert (stringify (answer_json a) <> EmptyString) as Hne by (by destruct a).
  destruct (stringify (answer_json a)); [done|]. by rewrite Hp.
Qed.

(** A key of the session, on the next requests. *)
Definition admits (key : string) (t : string) (plan : TenantPlan) (w : World) : Prop :=
  key <> EmptyString /\ guard_result (Some ("Bearer " +:+ key)) w = inr (t, plan).

Lemma admitted_request key t plan w path init :
  admits key t plan w -> in_apiKey init = Some (JStr key) ->
  guard_result (hq_headers (to_http path (console_request path init)) !! "authorization") w = inr (t, plan).
Proof.
  intros [Hne Hg] Hk. rewrite <- Hg. apply guard_result_bearer. rewrite bearer_header.
  by apply console_key_reaches_guard.
Qed.

Lemma startsWith_not_empty p key : p <> EmptyString -> startsWith p key = true -> key <> EmptyString.
Proof. intros Hp Hs ->. unfold startsWith in Hs. apply bool_decide_eq_true in Hs as [r Hr]. by destruct p. Qed.

Lemma guard_admits key t plan w : guard_result (Some ("Bearer " +:+ key)) w = inr (t, plan) -> admits key t plan w.
Proof.
  intros Hg. split; [|exact Hg]. unfold guard_result in Hg. rewrite bearer_header in Hg.
  destruct (startsWith "sk_live_" key) eqn:E; [|done]. by eapply startsWith_not_empty, E.
Qed.

(** What the handler of the keys page does when its request is answered. *)
Lemma exec_keys_operation me path init patch x an s st k j b' :
  exec (api (fetch net) path init) (mkBrowser x an (mkTab s st me (KeysPage (keys_set_busy true (keys_set_error None k))))) =
    (inr (JObj j), b') ->
  br_tab b' = mkTab s st me (KeysPage (keys_set_busy true (keys_set_error None k))) ->
  exec (keys_operation me
    (let* res := api (fetch net) path init in
     let* key := property "apiKey" res in
     act (fun t => patch_session (patch key res) (set_page me (on_keys (keys_set_fresh key)) t))))
    (mkBrowser x an (mkTab s st me (KeysPage k))) =
  (inr tt, mkBrowser (br_net b') (br_answers b')
    (mkTab (merge s (patch (field "apiKey" (JObj j)) (JObj j)))
      (Some (stringify (session_json (merge s (patch (field "apiKey" (JObj j)) (JObj j)))))) me
      (KeysPage (mkKeys (ks_adminKey k) (ks_name k) (field "apiKey" (JObj j)) None false)))).
Proof.
  intros Ha Ht. unfold keys_operation, set_state, act. rewrite exec_bind, exec_update. unfold with_tab. cbn [br_net br_answers br_tab].
  rewrite set_page_at. cbn [on_keys]. rewrite exec_finally, exec_catch, exec_bind, Ha. cbn [property bind].
  rewrite exec_update. unfold with_tab. rewrite Ht. unfold patch_session. rewrite set_page_at.
  cbn [setSession tb_session tb_mount tb_page on_keys]. rewrite exec_update. cbn [br_tab br_net br_answers]. by rewrite set_page_at.
Qed.

Lemma admin_header path init admin :
  admin <> EmptyString -> in_adminKey init = Some (JStr admin) ->
  hq_headers (to_http path (console_request path init)) !! "x-admin-key" = Some admin.
Proof.
  intros Ha Hi. unfold to_http, console_request, request_headers. cbn [hq_headers fr_headers]. rewrite Hi.
  destruct admin as [|c a]; [done|]. apply lookup_insert_eq.
Qed.

(** ** A new tenant *)


(** ** The requests of the endpoints page *)

Lemma guard_tenant header w t plan : guard_result header w = inr (t, plan) -> is_Some (tenants (w_db w) !! t).
Proof.
  unfold guard_result, find_key. destruct (negb _); [done|]. destruct (key_by_hash _ _) as [[i k]|]; [|done]. cbn.
  destruct (tenants (w_db w) !! ak_tenantId k) eqn:E; [|done]. cbn. repeat case_match; try done. intros [= <- _]. by rewrite E.
Qed.

Section requests.
Context (key t : string) (plan : TenantPlan).

(** One tenant request of the console, from [api] to the handler and back. *)
Lemma exec_console_call path init c w rcv an tab a w1 :
  admits key t plan w -> in_apiKey init = Some (JStr key) -> is_head (to_http path (console_request path init)) = false ->
  dispatch decode (to_http path (console_request path init)) = CallRoute c ->
  exec (handle cfg legacyDate uuid_ok is_url dto_message t plan c) w = (inr a, w1) ->
  exists an' tr, exec (api (fetch net) path init) (mkBrowser (w, rcv) an tab) =
    (inr (answer_json a), mkBrowser (traced tr w1, rcv) an' tab).
Proof.
  intros Hk Hi Hh Hd Hp. destruct (exec_server_call _ _ _ _ _ _ _ Hd Hh (admitted_request _ _ _ _ path _ Hk Hi) Hp) as [tr Hs].
  destruct (exec_console path init w rcv an tab _ _ _ Hs) as [an' Hx]; [by destruct c|]. by exists an', tr.
Qed.

(** A refused one. *)
Lemma exec_console_refused path init c w rcv an tab e w1 :
  admits key t plan w -> in_apiKey init = Some (JStr key) -> is_head (to_http path (console_request path init)) = false ->
  dispatch decode (to_http path (console_request path init)) = CallRoute c ->
  exec (handle cfg legacyDate uuid_ok is_url dto_message t plan c) w = (inl e, w1) ->
  let r := GlobalExceptionFilter_catch e in er_status r = 400 ->
  exists an' tr, exec (api (fetch net) path init) (mkBrowser (w, rcv) an tab) =
    (inl (EApi 400 (JStr (er_code r)) (js_string (message_json (er_message r)))), mkBrowser (traced tr w1, rcv) an' tab).
Proof.
  intros Hk Hi Hh Hd Hp r Hst. destruct (exec_server_call _ _ _ _ _ _ _ Hd Hh (admitted_request _ _ _ _ path _ Hk Hi) Hp) as [tr Hs].
  eexists _, tr. rewrite <- Hst. apply (backend_errors_reach_caller (fetch net) path init e (reason 400)).
  - fold r. by rewrite Hst.
  - fold r. unfold fetch. rewrite exec_call. cbn [br_net br_answers br_tab]. fold (console_request path init).
    unfold deployment at 1. change (after_prefix "/api" (fr_url (console_request path init))) with (Some path).
    cbn [fst snd]. rewrite Hs. cbn [responded http_response]. fold r. by rewrite Hst.
Qed.

Lemma post_endpoint_dispatch url :
  Length 1 500 url = true ->
  let init := post_init (Some (JStr key)) (Some (JObj [("url", JStr url)])) in
  dispatch decode (to_http "/endpoints" (console_request "/endpoints" init)) = CallRoute (PostEndpoint (JObj [("url", JStr url)])).
Proof.
  intros Hl init. unfold dispatch. rewrite (console_body "/endpoints" init [("url", JStr url)]); [done|done..|].
  apply string_member_small. unfold Length in Hl. apply andb_prop in Hl as [_ Hl]. apply Z.leb_le in Hl.
  change (String.length "url") with 3%nat. lia.
Qed.

Lemma put_subscriptions_dispatch id types :
  plain id = true -> decode id = id -> id <> EmptyString ->
  Z.of_nat (String.length (stringify (subscriptions_body types))) <= BODY_LIMIT ->
  let path := "/endpoints/" +:+ id +:+ "/subscriptions" in
  let init := mkInit (Some "PUT") ∅ (Some (stringify (subscriptions_body types))) (Some (JStr key)) None in
  dispatch decode (to_http path (console_request path init)) = CallRoute (PutSubscriptions id (subscriptions_body types)).
Proof.
  intros Hp Hd Hne Hl path init. unfold dispatch.
  rewrite (console_body path init [("eventTypes", JArr (map JStr types))]); [|done|done| |done].
  2:{ cbn. rewrite andb_true_r. by apply forallb_map_all. }
  change (hq_url (to_http path (console_request path init))) with ("/endpoints/" +:+ id +:+ "/subscriptions").
  rewrite (with_id_url (fun _ => id) (fun _ => Hp) "/endpoints/" id "/subscriptions") by done.
  change (split_on "/" ("/endpoints/" +:+ id +:+ "/subscriptions"))
    with (split_on "/" (String "/" ("endpoints" +:+ String "/" (id +:+ String "/" "subscriptions")))).
  rewrite (proj2 (split_path "endpoints" id "subscriptions" eq_refl Hp eq_refl)).
  change (drop_slash ["endpoints"; id; "subscriptions"]) with ["endpoints"; id; "subscriptions"].
  unfold route_of. assert (existsb (String.eqb EmptyString) ["endpoints"; id; "subscriptions"] = false) as -> by (by destruct id).
  cbn. by rewrite Hd.
Qed.

Lemma get_endpoints_dispatch :
  let init := bare_init (Some (JStr key)) in
  dispatch decode (to_http "/endpoints" (console_request "/endpoints" init)) = CallRoute GetEndpoints.
Proof. intros init. unfold dispatch. by rewrite console_no_body. Qed.

Lemma read_subscriptions types :
  forallb EVENT_TYPE_PATTERN types = true -> (length types <= 100)%nat ->
  read_SetSubscriptionsDto (subscriptions_body types) = Some types.
Proof.
  intros Ht Hl. change (read_SetSubscriptionsDto (subscriptions_body types)) with
    (if true && (length (map JStr types) <=? 100)%nat then mapM check_event_type (map JStr types) else None).
  rewrite length_map, (proj2 (Nat.leb_le _ _) Hl). cbn [andb]. clear Hl.
  induction types as [|y types IH]; [done|]. cbn in Ht |- *. apply andb_true_iff in Ht as [Hy Ht].
  rewrite Hy. cbn. by rewrite IH.
Qed.

Lemma read_subscriptions_none types :
  forallb EVENT_TYPE_PATTERN types = false -> read_SetSubscriptionsDto (subscriptions_body types) = None.
Proof.
  intros Ht. change (read_SetSubscriptionsDto (subscriptions_body types)) with
    (if true && (length (map JStr types) <=? 100)%nat then mapM check_event_type (map JStr types) else None).
  case_match; [|done]. clear H. induction types as [|y types IH]; [done|]. cbn in Ht |- *.
  destruct (EVENT_TYPE_PATTERN y); [|done]. cbn. by rewrite IH.
Qed.

(** The receiver learns the secret. *)
Lemma exec_receiver_config secret w rcv an tab :
  (String.length secret <= 100)%nat ->
  exists j an', exec (receiver (fetch net) "/config" (Some "POST") ∅ (Some (stringify (JObj [("secret", JStr secret)]))))
      (mkBrowser (w, rcv) an tab) =
    (inr j, mkBrowser (w, Receiver.config (Some (JStr secret)) rcv) an' tab).
Proof.
  intros Hl. unfold receiver, fetch. rewrite exec_bind, exec_call. cbn [br_net br_answers br_tab].
  unfold deployment at 1. cbn [fr_url fr_method fr_headers fr_body].
  change (after_prefix "/api" ("/receiver" +:+ "/config")) with (@None string). cbn [String.eqb Ascii.eqb Bool.eqb append andb default from_option].
  unfold post_config, to_http. cbn [fr_method fr_headers fr_body]. rewrite json_body_object;
    [|done..|apply string_member_small; change (String.length "secret") with 6%nat; lia].
  cbn [fst snd exec]. by eexists _, _.
Qed.

Lemma config_learns secret rcv : secret <> EmptyString -> secret ∈ Receiver.rv_secrets (Receiver.config (Some (JStr secret)) rcv).
Proof.
  intros Hs. unfold Receiver.config. destruct secret as [|c s]; [done|]. case_bool_decide; [done|].
  cbn. apply elem_of_app. right. by left.
Qed.

End requests.

(** ** A first endpoint *)

(** The world in which the form is sent: there may be endpoints already, of this tenant,
    too; only the identifiers still to be drawn are unused. *)
Record registrable (t url : string) (w : World) : Prop := {
  rg_url : is_url url = true /\ Length 1 500 url = true /\ deliverable cfg (w_draws w) url = true;
  rg_free : endpoint_by_url t url (w_db w) = None;
  rg_subs : subs_wf (w_db w);
  rg_fresh : endpoint_ids_free w;
  rg_uuid : forall i, (w_draws w <= i)%nat ->
    uuid_ok (randomUUID i) = true /\ plain (randomUUID i) = true /\ decode (randomUUID i) = randomUUID i /\
    randomUUID i <> EmptyString;
}.

(** The types that the DTO and the column admit. *)
Definition valid_types (types : list string) : Prop :=
  forallb EVENT_TYPE_PATTERN types = true /\ (length types <= 100)%nat /\ forallb fits types = true.

Lemma post_endpoint_handled `{!GcmLaws P} t plan url w :
  is_Some (tenants (w_db w) !! t) -> registrable t url w ->
  exists i e secret n,
    exec (handle cfg legacyDate uuid_ok is_url dto_message t plan (PostEndpoint (JObj [("url", JStr url)]))) w =
      (inr (ANewEndpoint (endpoint_view (randomUUID i) e) secret),
       mkWorld (set_endpoints (insert (randomUUID i) e) (w_db w)) (w_redis w) (w_queue w) (w_now w) n (w_caches w) (w_trace w)) /\ (w_draws w <= i < n)%nat /\
    e = mkEndpoint t url (ep_secretEnc e) ACTIVE None 0 (w_now w) (w_now w) /\
    decrypt cfg (ep_secretEnc e) = inr secret /\ secret <> EmptyString /\ (String.length secret <= 100)%nat.
Proof.
  intros Ht []. destruct rg_url0 as (Hu & Hl & Hd).
  destruct (exec_create_ok cfg t (mkCreateEndpointDto url None) w rg_fresh0 Hd rg_free0 Ht) as (i & e & secret & n & Hc & Hr).
  exists i, e, secret, n. split; [|exact Hr]. cbn [handle]. unfold Api.endpoints_create, dto.
  change (read_CreateEndpointDto is_url (JObj [("url", JStr url)])) with
    (url ← (if is_url url && Length 1 500 url then Some url else None); Some (mkCreateEndpointDto url None)).
  rewrite Hu, Hl. cbn [andb mbind option_bind bind]. by rewrite exec_bind, Hc.
Qed.

Lemma put_subscriptions_handled t plan id types w :
  is_Some (find_scoped t id (w_db w)) -> subs_wf (w_db w) -> uuid_ok id = true ->
  forallb EVENT_TYPE_PATTERN types = true -> (length types <= 100)%nat -> forallb fits types = true ->
  exists l w', exec (handle cfg legacyDate uuid_ok is_url dto_message t plan (PutSubscriptions id (subscriptions_body types))) w =
      (inr (Types id l), w') /\ subs_only w w' /\
    forall ep y, subscribed (w_db w') ep y = true <-> if decide (ep = id) then y ∈ types else subscribed (w_db w) ep y = true.
Proof.
  intros Hf Hwf Hu Hp Hl Hfit. destruct (exec_setSubscriptions t id types w Hf Hwf) as (w' & He & Hw).
  rewrite Hfit in He, Hw. eexists _, w'. split; [|exact Hw]. cbn [handle]. unfold endpoints_setSubscriptions, uuid_param, dto.
  rewrite Hu, (read_subscriptions types Hp Hl). cbn [bind]. rewrite exec_bind, He. reflexivity.
Qed.

(** The page announces the secret and keeps it. *)
Lemma exec_announce me secret w rcv an s st es :
  secret <> EmptyString -> (String.length secret <= 100)%nat ->
  exists an', exec
    (if truthy (Some (JStr secret)) then
       act (fun t => patch_session [("endpointSecret", Some (JStr secret))]
         (set_page me (on_endpoints (endpoints_set_secret (Some (JStr secret)))) t)) ;;
       receiver (fetch net) "/config" (Some "POST") ∅
         (Some (stringify (JObj [("secret", default JNull (Some (JStr secret)))]))) ;; Ret tt
     else Ret tt) (mkBrowser (w, rcv) an (mkTab s st me (EndpointsPage es))) =
    (inr tt, mkBrowser (w, Receiver.config (Some (JStr secret)) rcv) an'
      (mkTab (merge s [("endpointSecret", Some (JStr secret))])
        (Some (stringify (session_json (merge s [("endpointSecret", Some (JStr secret))])))) me
        (EndpointsPage (endpoints_set_secret (Some (JStr secret)) es)))).
Proof.
  intros Hne Hl. assert (truthy (Some (JStr secret)) = true) as -> by (by destruct secret).
  unfold act. rewrite exec_bind, exec_update. unfold with_tab. cbn [br_net br_answers br_tab]. rewrite set_page_at.
  unfold patch_session. cbn [setSession tb_session tb_mount tb_page on_endpoints default from_option Datatypes.id].
  rewrite exec_bind. match goal with |- context [mkBrowser _ an ?tab] => set (tab1 := tab) end.
  destruct (exec_receiver_config secret w rcv an tab1 Hl) as (j & an2 & ->). by exists an2.
Qed.

(** Reloading the list. *)
Lemma exec_endpoints_load key t plan me w rcv an s st es :
  admits key t plan w ->
  exists an' tr, exec (endpoints_load net me (Some (JStr key))) (mkBrowser (w, rcv) an (mkTab s st me (EndpointsPage es))) =
    (inr tt, mkBrowser (traced tr w, rcv) an'
      (mkTab s st me (EndpointsPage (endpoints_set_rows (Some (answer_json (Endpoints_ (endpoint_list t (w_db w))))) es)))).
Proof.
  intros Hk. unfold endpoints_load. assert (truthy (Some (JStr key)) = true) as -> by (destruct Hk as [Hk _]; by destruct key).
  cbn [negb]. rewrite exec_bind.
  destruct (exec_console_call key t plan "/endpoints" (bare_init (Some (JStr key))) GetEndpoints w rcv an
    (mkTab s st me (EndpointsPage es)) (Endpoints_ (endpoint_list t (w_db w))) w) as (an' & tr & ->);
    [exact Hk|done|done|apply get_endpoints_dispatch|done|].
  unfold set_state, act. rewrite exec_update. unfold with_tab. cbn [br_net br_answers br_tab]. rewrite set_page_at.
  by exists an', tr.
Qed.

(** What the form's requests leave in the platform. *)
Record connected (t : string) (types : list string) (w : World) (id : string) (e : Endpoint) (secret : string) (w' : World) : Prop := {
  co_endpoints : endpoints (w_db w') = <[id := e]> (endpoints (w_db w));
  co_secret : decrypt cfg (ep_secretEnc e) = inr secret /\ secret <> EmptyString;
  co_types : forall y, subscribed (w_db w') id y = true <-> y ∈ types;
}.

(** The page after the secret has been shown. *)
Definition showing (me : nat) (secret : string) (s : Session) (es : EndpointsState) : Tab :=
  let s' := merge s [("endpointSecret", Some (JStr secret))] in
  mkTab s' (Some (stringify (session_json s'))) me
    (EndpointsPage (endpoints_set_secret (Some (JStr secret)) (endpoints_set_error None es))).

Definition put_path (id : string) : string := "/endpoints/" +:+ id +:+ "/subscriptions".
Definition put_init (key : string) (types : list string) : RequestInit :=
  mkInit (Some "PUT") ∅ (Some (stringify (subscriptions_body types))) (Some (JStr key)) None.

(** The form up to the answer that carries the secret: what is left of it. *)
Lemma exec_endpoint_posted `{!GcmLaws P} me key t plan url types w rcv an s st es :
  admits key t plan w -> registrable t url w ->
  exists i e secret n tr an',
    let w1 := traced tr (mkWorld (set_endpoints (insert (randomUUID i) e) (w_db w)) (w_redis w) (w_queue w) (w_now w) n
      (w_caches w) (w_trace w)) in
    exec (Pages.endpoints_create net me (Some (JStr key)) url types) (mkBrowser (w, rcv) an (mkTab s st me (EndpointsPage es))) =
      exec (endpoints_guarded me
        (api (fetch net) (put_path (randomUUID i)) (put_init key (event_types types)) ;; endpoints_load net me (Some (JStr key))))
        (mkBrowser (w1, Receiver.config (Some (JStr secret)) rcv) an' (showing me secret s es)) /\
    (w_draws w <= i)%nat /\ e = mkEndpoint t url (ep_secretEnc e) ACTIVE None 0 (w_now w) (w_now w) /\
    decrypt cfg (ep_secretEnc e) = inr secret /\ secret <> EmptyString.
Proof.
  intros Hk Hr. destruct (post_endpoint_handled t plan url w (guard_tenant _ _ _ _ (proj2 Hk)) Hr)
    as (i & e & secret & n & Hp & [Hi _] & He & Hdec & Hne & Hlen).
  pose proof (proj1 (proj2 (rg_url _ _ _ Hr))) as Hurl. unfold Pages.endpoints_create, endpoints_guarded, set_state, act at 1. rewrite exec_bind, exec_update. unfold with_tab at 1.
  cbn [br_net br_answers br_tab]. rewrite set_page_at. cbn [on_endpoints]. rewrite exec_catch, exec_bind.
  destruct (exec_console_call key t plan "/endpoints" (post_init (Some (JStr key)) (Some (JObj [("url", JStr url)]))) _ w rcv an
    (mkTab s st me (EndpointsPage (endpoints_set_error None es))) _ _ Hk eq_refl eq_refl (post_endpoint_dispatch key url Hurl) Hp) as (an1 & tr1 & ->).
  set (w1 := traced tr1 _). match goal with |- context [property "secret" ?j] =>
    change (property "secret" j) with (Ret (S := browser) (Some (JStr secret))) end.
  rewrite exec_bind. cbn [exec]. match goal with |- context [show ?x] => change (show x) with (randomUUID i) end. rewrite exec_bind.
  destruct (exec_announce me secret w1 rcv an1 s st (endpoints_set_error None es) Hne Hlen) as [an2 ->].
  exists i, e, secret, n, tr1, an2. split; [by rewrite exec_catch|done].
Qed.

Lemma find_scoped_new t id e d : ep_tenantId e = t -> find_scoped t id (set_endpoints (insert id e) d) = Some e.
Proof. intros He. unfold find_scoped. cbn. rewrite lookup_insert_eq. cbn. by rewrite bool_decide_eq_true_2. Qed.

Lemma exec_endpoints_create `{!GcmLaws P} me key t plan url types w rcv an s st es :
  admits key t plan w -> registrable t url w -> valid_types (event_types types) ->
  exists id e secret w' an',
    exec (Pages.endpoints_create net me (Some (JStr key)) url types) (mkBrowser (w, rcv) an (mkTab s st me (EndpointsPage es))) =
    (inr tt, mkBrowser (w', Receiver.config (Some (JStr secret)) rcv) an'
      (mkTab (merge s [("endpointSecret", Some (JStr secret))])
        (Some (stringify (session_json (merge s [("endpointSecret", Some (JStr secret))])))) me
        (EndpointsPage (mkEndpoints (Some (answer_json (Endpoints_ (endpoint_list t (w_db w')))))
          (es_url es) (es_types es) None (Some (JStr secret)))))) /\
    e = mkEndpoint t url (ep_secretEnc e) ACTIVE None 0 (w_now w) (w_now w) /\
    connected t (event_types types) w id e secret w'.
Proof.
  intros Hk Hr (Ht1 & Ht2 & Ht3).
  destruct (exec_endpoint_posted me key t plan url types w rcv an s st es Hk Hr) as (i & e & secret & n & tr1 & an2 & -> & Hi & He & Hdec & Hne).
  destruct Hr as [_ _ Hwf _ Huu]. destruct (Huu i Hi) as (Hu1 & Hu2 & Hu3 & Hu4). set (id := randomUUID i) in *. set (w1 := traced tr1 _).
  destruct (put_subscriptions_handled t plan id (event_types types) w1) as (l & w2 & Hp2 & (f & m & ->) & Hsub); try done.
  { unfold w1. cbn. rewrite find_scoped_new; [done|by rewrite He]. }
  unfold endpoints_guarded. rewrite exec_catch, exec_bind.
  destruct (exec_console_call key t plan (put_path id) (put_init key (event_types types)) _ w1 (Receiver.config (Some (JStr secret)) rcv) an2
    (showing me secret s es) _ _ Hk eq_refl eq_refl
    (put_subscriptions_dispatch key id (event_types types) Hu2 Hu3 Hu4 (subscriptions_body_small _ Ht2 Ht3)) Hp2) as (an3 & tr3 & ->).
  set (w2 := traced tr3 _). unfold showing. cbv zeta.
  match goal with |- context [mkBrowser _ an3 (mkTab ?s' ?st' me (EndpointsPage ?es'))] =>
    destruct (exec_endpoints_load key t plan me w2 (Receiver.config (Some (JStr secret)) rcv) an3 s' st' es') as (an4 & tr4 & ->) end;
    [exact Hk|].
  exists id, e, secret, (traced tr4 w2), an4. split; [done|]. split; [exact He|]. split; [done|done|].
  intros y. pose proof (Hsub id y) as H. rewrite decide_True in H by done. exact H.
Qed.

(** C8.  From the console to the receiver: a tenant's operator who registers a URL with
    the event types of the form gets one new ACTIVE endpoint of this tenant; its stored
    secret decrypts to the one the page shows and the session keeps; the endpoint is
    subscribed to exactly the types of the form; and the receiver was told the secret,
    so that it accepts from then on every delivery which the worker signs with it. *)
Theorem console_connects_receiver `{!GcmLaws P} me key t plan url types b es :
  tb_mount (br_tab b) = me -> tb_page (br_tab b) = EndpointsPage es ->
  let w := fst (br_net b) in
  admits key t plan w -> registrable t url w -> valid_types (event_types types) ->
  exists id e secret b',
    exec (Pages.endpoints_create net me (Some (JStr key)) url types) b = (inr tt, b') /\
    let '(w', rcv') := br_net b' in
    endpoints (w_db w') = <[id := e]> (endpoints (w_db w)) /\
    ep_tenantId e = t /\ ep_url e = url /\ ep_status e = ACTIVE /\ decrypt cfg (ep_secretEnc e) = inr secret /\
    se_endpointSecret (tb_session (br_tab b')) = Some (JStr secret) /\
    (exists es', tb_page (br_tab b') = EndpointsPage es' /\ es_freshSecret es' = Some (JStr secret) /\ es_error es' = None /\
       es_rows es' = Some (answer_json (Endpoints_ (endpoint_list t (w_db w'))))) /\
    (forall y, subscribed (w_db w') id y = true <-> y ∈ event_types types) /\
    forall arrivedAt D eventId ev sentAt,
      D <> EmptyString -> integral (ev_payload ev) = true -> Receiver.fresh_enough arrivedAt sentAt ->
      Receiver.verify arrivedAt (Receiver.rv_secrets rcv') (Receiver.delivered D eventId ev secret sentAt) =
        Receiver.Accepted D (Receiver.delivery_json eventId ev).
Proof.
  destruct b as [[w rcv] an [s st mt pg]]. cbn [br_net br_tab tb_mount tb_page fst snd].
  intros -> -> Hk Hr Hv. destruct (exec_endpoints_create me key t plan url types w rcv an s st es Hk Hr Hv)
    as (id & e & secret & w' & an' & -> & He & [Hin [Hdec Hne] Hty]).
  exists id, e, secret. eexists. split; [reflexivity|]. cbn [br_net br_tab tb_page tb_session].
  split; [exact Hin|]. rewrite He. cbn [ep_tenantId ep_url ep_status ep_secretEnc]. split_and!; try done; [by eexists|].
  intros arrivedAt D eventId ev sentAt HD Hev Hf. apply Receiver.verify_delivered; try done; [|by apply Receiver.fresh_in_tolerance].
  by apply config_learns.
Qed.

(** Half a form: when a type of the form is not valid, the endpoint is registered all the
    same, but no subscription is added and the list is not reloaded; the page shows the
    error of the second request, and the URL is taken, so that sending the corrected
    form answers 409 (its own check, [endpoint_by_url], finds the row). *)
Theorem endpoint_left_without_subscriptions `{!GcmLaws P} me key t plan url types b es :
  tb_mount (br_tab b) = me -> tb_page (br_tab b) = EndpointsPage es ->
  let w := fst (br_net b) in
  admits key t plan w -> registrable t url w -> forallb EVENT_TYPE_PATTERN (event_types types) = false ->
  Z.of_nat (String.length (stringify (subscriptions_body (event_types types)))) <= BODY_LIMIT ->
  exists id e b',
    exec (Pages.endpoints_create net me (Some (JStr key)) url types) b = (inr tt, b') /\
    w_db (fst (br_net b')) = set_endpoints (insert id e) (w_db w) /\
    is_Some (endpoint_by_url t url (w_db (fst (br_net b')))) /\
    exists es', tb_page (br_tab b') = EndpointsPage es' /\ es_rows es' = es_rows es /\ is_Some (es_error es').
Proof.
  destruct b as [[w rcv] an [s st mt pg]]. cbn [br_net br_tab tb_mount tb_page fst snd].
  intros -> -> Hk Hr Hv Hb.
  destruct (exec_endpoint_posted me key t plan url types w rcv an s st es Hk Hr) as (i & e & secret & n & tr1 & an2 & -> & Hi & He & _).
  destruct Hr as [_ _ _ _ Huu]. destruct (Huu i Hi) as (Hu1 & Hu2 & Hu3 & Hu4). set (id := randomUUID i) in *. set (w1 := traced tr1 _).
  assert (exec (handle cfg legacyDate uuid_ok is_url dto_message t plan (PutSubscriptions id (subscriptions_body (event_types types)))) w1 =
    (inl (EHttpException 400 (MTexts (dto_message (subscriptions_body (event_types types))))), w1)) as Hp.
  { cbn [handle]. unfold endpoints_setSubscriptions, uuid_param, dto. by rewrite Hu1, read_subscriptions_none. }
  unfold endpoints_guarded. rewrite exec_catch, exec_bind.
  destruct (exec_console_refused key t plan (put_path id) (put_init key (event_types types)) _ w1 (Receiver.config (Some (JStr secret)) rcv) an2
    (showing me secret s es) _ _ Hk eq_refl eq_refl
    (put_subscriptions_dispatch key id (event_types types) Hu2 Hu3 Hu4 Hb) Hp eq_refl) as (an3 & tr3 & ->).
  unfold set_state, act. rewrite exec_update. unfold with_tab, showing. cbv zeta. cbn [br_net br_answers br_tab].
  rewrite set_page_at. exists id, e. eexists. split; [reflexivity|]. split; [done|].
  split; [by apply endpoint_by_url_new; rewrite He|]. eexists. split; [reflexivity|]. by split.
Qed.

End onboarding.

(** ** A tenant, then the demo receiver's endpoint *)

Definition demo_receiver : Receiver.Receiver := Receiver.mkReceiver ["whsec_demo"] ∅.

Definition demo_deployment := deployment (P := always 200) demo_cfg (fun _ => None) (fun _ => true) (fun _ => true)
  (fun _ => ["Bad Request"]) (fun s => s) (fun _ => "Not Found") (fun _ => "Bad JSON") (fun _ => EmptyString) (inr EmptyString)
  (fun _ x => (inl (EJs "TypeError" None "Failed to fetch" None), x)).

Definition operator_at (w : World) (p : Page) : Browser (World (P := always 200) * Receiver.Receiver) :=
  mkBrowser (w, demo_receiver) [] (mkTab empty_session None 1 p).


(** The tenant of [tenancy_world] with a first endpoint, which the platform has made. *)
Definition first_endpoint_world : World (P := always 200) :=
  world_of (exec (create demo_cfg "uuid-1" (mkCreateEndpointDto "https://first.example/hooks" None)) tenancy_world).

Lemma uuid_plain i : plain (randomUUID (Platform := always 200) i) = true.
Proof.
  change (plain ("uuid-" +:+ dec (N.of_nat i)) = true). unfold plain. rewrite str_forall_app. cbn [str_forall andb].
  eapply str_forall_impl; [|apply dec_digits].
  intros c Hc. destruct c as [[] [] [] [] [] [] [] []]; try done; vm_compute in Hc; done.
Qed.

Lemma first_endpoint_registrable (P0 := always 200) :
  registrable demo_cfg (fun _ => true) (fun _ => true) (fun s => s) "uuid-1" "https://new.example/hooks" first_endpoint_world.
Proof.
  split; [split_and!; vm_compute; reflexivity|vm_compute; reflexivity|..].
  - intros i s Hi. assert (subscriptions (w_db first_endpoint_world) = ∅) as He by (vm_compute; reflexivity).
    rewrite He in Hi. destruct (lookup_empty_Some _ _ Hi).
  - assert (w_draws first_endpoint_world = 9)%nat as Hd by (vm_compute; reflexivity). unfold endpoint_ids_free. rewrite Hd.
    apply (ids_drawn_free 200). vm_compute. reflexivity.
  - intros i _. split; [reflexivity|]. split; [apply uuid_plain|]. split; [reflexivity|].
    intros H. by apply (f_equal (String.get 0)) in H.
Qed.

(** A second endpoint of the tenant. *)
Lemma console_connects_receiver_witness (P0 := always 200) :
  exists b secret, exec (Pages.endpoints_create demo_deployment 1 (Some (JStr tenancy_key))
      "https://new.example/hooks" "order.created, order.paid")
      (operator_at first_endpoint_world (EndpointsPage initial_endpoints)) = (inr tt, b) /\
    se_endpointSecret (tb_session (br_tab b)) = Some (JStr secret) /\
    exists id, subscribed (w_db (fst (br_net b))) id "order.paid" = true.
Proof.
  destruct (console_connects_receiver (P := P0) demo_cfg (fun _ => None) (fun _ => true) (fun _ => true)
    (fun _ => ["Bad Request"]) (fun s => s) (fun _ => "Not Found") (fun _ => "Bad JSON") (fun _ => EmptyString) (inr EmptyString)
    (fun _ x => (inl (EJs "TypeError" None "Failed to fetch" None), x)) (GcmLaws0 := always_gcm_laws 200) 1 tenancy_key "uuid-1" PRO
    "https://new.example/hooks" "order.created, order.paid"
    (operator_at first_endpoint_world (EndpointsPage initial_endpoints)) initial_endpoints eq_refl eq_refl)
    as (id & e & secret & b & Hx & H).
  - split; [vm_compute; discriminate|]. vm_compute. reflexivity.
  - exact first_endpoint_registrable.
  - split_and!; vm_compute; [reflexivity|lia|reflexivity].
  - exists b, secret. split; [exact Hx|]. destruct b as [[w' rcv'] an tab]. destruct H as (_ & _ & _ & _ & _ & Hs & _ & Hsub & _).
    split; [exact Hs|]. exists id. apply (proj2 (Hsub "order.paid")).
    vm_compute. right. left.
Defined.
