(* ===== verification/Views.v ===== *)
(** * The views of the console: [ui.tsx], the markup of [pages/] and [App.tsx]

    What a page renders, as a tree of elements with their handlers, from the state of
    the tab.  Rendering is partial ([None]): the answers of the network are cast to
    the interfaces of the pages without a check, so a value of another shape makes a
    component throw, and without an error boundary the console goes blank.  The interfaces
    are predicates on JSON here; the theorems show that every answer of the API has
    the interface it is cast to, that therefore no reachable page throws, and which
    handlers a page offers. *)

From S2P Require Import Receiver.
From S2P Require Import Prelude Errors Effects Concurrency Json IpAddress DateTime Platform Schema World Config TestPlatform.
From S2P Require Import Processor Events Deliveries Endpoints Tenancy Api Wire Answers Console Pages Onboarding.
Open Scope Z_scope.
Open Scope hook_scope.

(** ** The interfaces the pages cast answers to *)

Definition string_member (k : string) (j : json) : bool := match field k j with Some (JStr _) => true | _ => false end.

Definition is_number (j : json) : bool := match j with JNum _ | JFrac _ => true | _ => false end.
Definition is_string (j : json) : bool := match j with JStr _ => true | _ => false end.

Definition number_member (k : string) (j : json) : bool := match field k j with Some x => is_number x | None => false end.

(** [k?: T] and [k: T | null] *)
Definition optional_member (f : json -> bool) (k : string) (j : json) : bool :=
  match field k j with Some x => f x | None => true end.
Definition nullable_member (f : json -> bool) (k : string) (j : json) : bool :=
  match field k j with Some JNull => true | Some x => f x | None => false end.

Definition array_of (f : json -> bool) (j : json) : bool := match j with JArr l => forallb f l | _ => false end.

Definition IssuedTenant (j : json) : bool := string_member "apiKey" j && string_member "apiKeyLast4" j && string_member "name" j.
Definition IssuedKey (j : json) : bool := string_member "apiKey" j && string_member "apiKeyLast4" j.

Definition EndpointRow (j : json) : bool :=
  string_member "id" j && string_member "url" j && string_member "status" j &&
  optional_member (array_of is_string) "eventTypes" j && optional_member is_number "consecutiveFailures" j &&
  optional_member is_string "secret" j.

Definition DeliveryRow (j : json) : bool :=
  string_member "deliveryId" j && string_member "endpointUrl" j && string_member "eventType" j && string_member "status" j &&
  number_member "attemptCount" j && string_member "createdAt" j.

Definition AttemptRow (j : json) : bool :=
  number_member "attemptNo" j && nullable_member is_number "responseStatus" j && nullable_member is_string "errorClass" j &&
  nullable_member is_number "durationMs" j && string_member "attemptedAt" j && nullable_member is_string "responseBodyHead" j.

Definition DlqRow (j : json) : bool :=
  string_member "deliveryId" j && string_member "endpointUrl" j && string_member "eventType" j && string_member "status" j &&
  number_member "attemptCount" j.

Definition LogLine (j : json) : bool :=
  string_member "kind" j && optional_member is_string "deliveryId" j && optional_member is_string "eventId" j &&
  optional_member is_string "type" j && optional_member is_string "at" j.

(** ** Elements *)

Section views.
Context {X : Type}.
Notation browser := (Browser X).

(** What an element does: a click, the submission of a form, text typed into a field, a
    link; and what it shows: a field's value, whether a button is disabled. *)
Inductive attr :=
| OnClick (p : prog browser unit)
| OnSubmit (p : prog browser unit)
| OnChange (f : string -> Tab -> Tab)
| To (path : string)
| Value (v : string)
| Disabled (b : bool)
| Type_ (t : string).

(** An element with its class, or a text. *)
Inductive node :=
| Text (s : string)
| El (tag className : string) (attrs : list attr) (children : list node).

(** [{value}] in markup: [undefined], [null] and booleans show nothing; an object throws. *)
Fixpoint react_child (j : json) : option (list node) :=
  match j with
  | JNull | JBool _ => Some []
  | JNum z => Some [Text (decZ z)]
  | JFrac t => Some [Text t]
  | JStr s => Some [Text s]
  | JArr l => @concat node <$> mapM react_child l
  | JObj _ => None
  end.

Definition child (v : option json) : option (list node) := match v with Some j => react_child j | None => Some [] end.

(** [{v && <element>}] *)
Definition and_child (v : option json) (element : option (list node)) : option (list node) :=
  if truthy v then element else child v.

(** [x.k] *)
Definition member (k : string) (j : json) : option (option json) := match j with JNull => None | _ => Some (field k j) end.

(** [rows.map(f)]: there is no [map] but on arrays. *)
Definition map_rows (rows : option json) (f : json -> option (list node)) : option (list node) :=
  match rows with Some (JArr l) => @concat node <$> mapM f l | _ => None end.

(** [a ?? b] on children *)
Definition or_value (a b : option json) : option json := match a with None | Some JNull => b | _ => a end.

(** *** [ui.tsx] *)

Definition Card (title : option string) (actions : option (list node)) (children : list node) : node :=
  let title := given title in
  El "section" "rounded-xl border border-slate-200 bg-white shadow-sm" []
    (match title, actions with
     | None, None => []
     | _, _ =>
         [El "header" "flex items-center justify-between border-b border-slate-100 px-5 py-3" []
            (match title with Some t => [El "h2" "text-sm font-semibold text-slate-700" [] [Text t]] | None => [] end ++
             default [] actions)]
     end ++ [El "div" "p-5" [] children]).

Inductive Variant := Primary | Ghost | Danger.

Definition button_styles (v : Variant) : string :=
  match v with
  | Primary => "bg-slate-900 text-white hover:bg-slate-700"
  | Ghost => "border border-slate-300 text-slate-700 hover:bg-slate-50"
  | Danger => "bg-rose-600 text-white hover:bg-rose-500"
  end.

Definition Button (variant : Variant) (type : string) (disabled : bool) (onClick : option (prog browser unit))
    (children : list node) : node :=
  El "button" ("rounded-lg px-3 py-1.5 text-sm font-medium disabled:opacity-50 " +:+ button_styles variant)
    ([Type_ type] ++ match onClick with Some p => [OnClick p] | None => [] end ++ [Disabled disabled]) children.

Definition Field (label : string) (children : list node) : node :=
  El "label" "block text-sm" [] (El "span" "mb-1 block text-slate-500" [] [Text label] :: children).

Definition Input (value : string) (onChange : string -> Tab -> Tab) : node :=
  El "input" "w-full rounded-lg border border-slate-300 px-3 py-2 text-sm outline-none focus:border-slate-900 "
    [Value value; OnChange onChange] [].

Definition ErrorText (error : option string) : list node :=
  match given error with None => [] | Some e => [El "p" "mt-2 text-sm text-rose-600" [] [Text e]] end.

Definition badge_class (tone : Tone) : string :=
  match tone with
  | Green => "bg-emerald-50 text-emerald-700 ring-emerald-200"
  | Red => "bg-rose-50 text-rose-700 ring-rose-200"
  | Amber => "bg-amber-50 text-amber-700 ring-amber-200"
  | Slate => "bg-slate-50 text-slate-600 ring-slate-200"
  | Violet => "bg-violet-50 text-violet-700 ring-violet-200"
  end.

Definition Badge (tone : Tone) (children : list node) : node :=
  El "span" ("inline-flex rounded-full px-2 py-0.5 text-xs font-medium ring-1 " +:+ badge_class tone) [] children.

(** [onSubmit(fn)]: the form's own submission is prevented, [fn] runs. *)
Definition onSubmit (fn : prog browser unit) : attr := OnSubmit fn.

(** [statusTone(d.status)], with a value that need not be a string *)
Definition tone_of (v : option json) : Tone := match v with Some (JStr s) => statusTone s | _ => Slate end.

(** ** The pages *)

Context `{P : Platform}.
Variable net : FetchRequest -> X -> (exn + Response) * X.
Variable json_error : string -> string.
(** What [crypto.randomUUID()] draws at the next click. *)
Variable uuid : string.

Definition no_key_hint : node := El "p" "text-sm text-slate-500" [] [Text "먼저 키 화면에서 테넌트를 만드세요."].

Definition type_keys (f : string -> KeysState -> KeysState) (s : string) (t : Tab) : Tab :=
  set_page (tb_mount t) (on_keys (f s)) t.

Definition KeysView (me : nat) (s : Session) (k : KeysState) : option (list node) :=
  let form :=
    El "form" "grid gap-3 sm:grid-cols-2" [onSubmit (createTenant net me (ks_adminKey k) (ks_name k))]
      [Field "Admin 키" [Input (js_string (ks_adminKey k))
         (type_keys (fun v k => mkKeys (JStr v) (ks_name k) (ks_freshKey k) (ks_error k) (ks_busy k)))];
       Field "테넌트 이름" [Input (ks_name k)
         (type_keys (fun v k => mkKeys (ks_adminKey k) v (ks_freshKey k) (ks_error k) (ks_busy k)))];
       El "div" "sm:col-span-2" [] [Button Primary "submit" (ks_busy k) None [Text "테넌트 만들기"]]] in
  fresh ← and_child (ks_freshKey k)
    (shown ← child (ks_freshKey k);
     Some [El "p" "mt-4 break-all rounded-lg bg-amber-50 p-3 font-mono text-sm text-amber-900" []
       (shown ++ [El "span" "mt-1 block font-sans text-xs text-amber-700" []
          [Text "다시 볼 수 없습니다. 저장하세요. 회전 시 구 키는 24시간 유예됩니다."]])]);
  rotation ← and_child (se_apiKey s)
    (last4 ← child (se_apiKeyLast4 s);
     name ← (if truthy (se_tenantName s) then child (se_tenantName s) else Some [Text "—"]);
     Some [Card (Some "키 회전")
       (Some [Button Primary "button" (ks_busy k) (Some (rotate net me (se_apiKey s))) [Text "회전"]])
       [El "p" "text-sm text-slate-600" []
          ([Text "사용 중: "; El "span" "font-mono" [] (Text "sk_live_…" :: last4); Text " · 테넌트 "] ++ name)]]);
  Some [El "div" "space-y-4" []
    (Card (Some "테넌트 생성 — API 키는 이 화면에서만 원문이 보입니다") None ([form] ++ ErrorText (ks_error k) ++ fresh) :: rotation)].

(** [(e.eventTypes ?? []).join(', ') || '구독 없음'] *)
Definition joined_types (v : option json) : option string :=
  match or_value v (Some (JArr [])) with
  | Some (JArr l) =>
      let text := concat_sep ", " (map (fun x => match x with JNull => EmptyString | _ => js_string x end) l) in
      Some (default "구독 없음" (given (Some text)))
  | _ => None
  end.

(** The id a row's handler closes over. *)
Definition row_id (k : string) (j : json) : string := show (field k j).

Definition endpoint_row (me : nat) (key : option json) (e : json) : option (list node) :=
  url ← member "url" e; url ← child url;
  types ← joined_types (field "eventTypes" e);
  status ← child (field "status" e);
  Some [El "li" "flex items-center justify-between gap-3 py-3" []
    [El "div" EmptyString []
       [El "p" "font-mono text-xs text-slate-700" [] url; El "p" "mt-1 text-xs text-slate-400" [] [Text types]];
     El "div" "flex items-center gap-2" []
       [Badge (tone_of (field "status" e)) status;
        Button Ghost "button" false (Some (endpoints_ping net me key (row_id "id" e))) [Text "ping"]]]].

Definition type_endpoints (f : string -> EndpointsState -> EndpointsState) (s : string) (t : Tab) : Tab :=
  set_page (tb_mount t) (on_endpoints (f s)) t.

Definition EndpointsView (me : nat) (s : Session) (e : EndpointsState) : option (list node) :=
  let key := se_apiKey s in
  if negb (truthy key) then Some [no_key_hint] else
  let form :=
    El "form" "grid gap-3 sm:grid-cols-2" [onSubmit (Pages.endpoints_create net me key (es_url e) (es_types e))]
      [Field "수신 URL" [Input (es_url e)
         (type_endpoints (fun v e => mkEndpoints (es_rows e) v (es_types e) (es_error e) (es_freshSecret e)))];
       Field "구독 타입 (콤마)" [Input (es_types e)
         (type_endpoints (fun v e => mkEndpoints (es_rows e) (es_url e) v (es_error e) (es_freshSecret e)))];
       El "div" "sm:col-span-2" [] [Button Primary "submit" false None [Text "등록"]]] in
  fresh ← and_child (es_freshSecret e)
    (shown ← child (es_freshSecret e);
     Some [El "p" "mt-3 break-all rounded-lg bg-amber-50 p-3 font-mono text-xs text-amber-900" []
       (Text "HMAC secret (1회): " :: shown)]);
  rows ← map_rows (es_rows e) (endpoint_row me key);
  Some [El "div" "space-y-4" []
    [Card (Some "Endpoint 등록 — 사설 IP/메타데이터 URL은 SSRF로 거절됩니다") None ([form] ++ ErrorText (es_error e) ++ fresh);
     Card (Some "등록된 endpoint") None [El "ul" "divide-y divide-slate-100 text-sm" [] rows]]].

Definition delivery_row (me : nat) (key : option json) (open : option string) (d : json) : option (list node) :=
  id ← member "deliveryId" d;
  status ← child (field "status" d); type ← child (field "eventType" d); count ← child (field "attemptCount" d);
  url ← child (field "endpointUrl" d);
  Some [El "tr" EmptyString []
    [El "td" "py-2" [] [Badge (tone_of (field "status" d)) status]; El "td" "font-mono text-xs" [] type; El "td" EmptyString [] count;
     El "td" "max-w-xs truncate font-mono text-xs text-slate-500" [] url;
     El "td" EmptyString []
       [Button Ghost "button" false (Some (deliveries_expand net me key open (row_id "deliveryId" d))) [Text "시도"]]]].

(** [a.responseBodyHead.slice(0, 80)]; of a string or an array *)
Definition slice80 (j : json) : option (list node) :=
  match j with
  | JStr s => Some [Text (String.substring 0 80 s)]
  | JArr l => react_child (JArr (take 80 l))
  | _ => None
  end.

Definition attempt_row (a : json) : option (list node) :=
  no ← member "attemptNo" a; no ← child no;
  outcome ← child (or_value (field "errorClass" a) (field "responseStatus" a));
  ms ← child (or_value (field "durationMs" a) (Some (JNum 0)));
  at_ ← child (field "attemptedAt" a);
  head ← and_child (field "responseBodyHead" a)
    (text ← slice80 (default JNull (field "responseBodyHead" a)); Some [El "span" "ml-2 text-slate-400" [] text]);
  Some [El "li" EmptyString []
    ([Text "#"] ++ no ++ [Text " "] ++ outcome ++ [Text " · "] ++ ms ++ [Text "ms · "] ++ at_ ++ head)].

Definition DeliveriesView (me : nat) (s : Session) (d : DeliveriesState) : option (list node) :=
  let key := se_apiKey s in
  if negb (truthy key) then Some [no_key_hint] else
  rows ← map_rows (ds_rows d) (delivery_row me key (ds_open d));
  attempts ← and_child (JStr <$> ds_open d)
    (l ← map_rows (ds_attempts d) attempt_row;
     Some [El "ol" "mt-4 space-y-2 rounded-lg bg-slate-50 p-3 text-xs" [] l]);
  Some [Card (Some "배달 이력")
    (Some [Button Ghost "button" false (Some (deliveries_load net me key)) [Text "새로고침"]])
    (ErrorText (ds_error d) ++
     [El "table" "w-full text-sm" []
        [El "thead" EmptyString []
           [El "tr" "border-b border-slate-200 text-left text-xs uppercase text-slate-400" []
              [El "th" "py-2" [] [Text "상태"]; El "th" EmptyString [] [Text "타입"]; El "th" EmptyString [] [Text "시도"];
               El "th" EmptyString [] [Text "URL"]; El "th" EmptyString [] []]];
         El "tbody" "divide-y divide-slate-100" [] rows]] ++ attempts)].

Definition dlq_row (me : nat) (key : option json) (d : json) : option (list node) :=
  id ← member "deliveryId" d; id ← child id;
  status ← child (field "status" d); type ← child (field "eventType" d);
  Some [El "li" "flex items-center justify-between py-3" []
    [El "div" EmptyString []
       [Badge (tone_of (field "status" d)) status; El "span" "ml-2 font-mono text-xs" [] type;
        El "p" "mt-1 font-mono text-xs text-slate-400" [] id];
     Button Primary "button" false (Some (dlq_redeliver net me key (row_id "deliveryId" d))) [Text "재배달"]]].

(** [rows.length === 0 && ...] *)
Definition is_empty_rows (rows : option json) : bool := match rows with Some (JArr []) => true | _ => false end.

Definition DlqView (me : nat) (s : Session) (d : DlqState) : option (list node) :=
  let key := se_apiKey s in
  if negb (truthy key) then Some [no_key_hint] else
  rows ← map_rows (dq_rows d) (dlq_row me key);
  Some [Card (Some "DLQ — DEAD 배달을 같은 X-Delivery-Id로 다시 보냅니다") None
    (ErrorText (dq_error d) ++
     [El "ul" "divide-y divide-slate-100 text-sm" []
        ((if is_empty_rows (dq_rows d) then [El "li" "py-6 text-slate-400" [] [Text "비어 있습니다."]] else []) ++ rows)])].

Definition log_row (l : json) : option (list node) :=
  kind ← member "kind" l; kind ← child kind;
  type ← child (field "type" l); id ← child (field "deliveryId" l); at_ ← child (field "at" l);
  Some [El "div" "border-b border-slate-100 py-2" []
    ([El "span" "text-violet-600" [] kind; Text " "] ++ type ++ [Text " "] ++ id ++ [El "div" "text-slate-400" [] at_])].

Definition LiveView (me : nat) (s : Session) (l : LiveState) : option (list node) :=
  let key := se_apiKey s in
  if negb (truthy key) then Some [no_key_hint] else
  logs ← map_rows (Some (JArr (ls_logs l))) log_row;
  Some [El "div" "grid gap-4 lg:grid-cols-2" []
    [Card (Some "이벤트 발행") None
       ([Field "payload JSON"
           [El "textarea" "w-full rounded-lg border border-slate-300 p-3 font-mono text-xs"
              [Value (ls_payload l);
               OnChange (fun v t => set_page (tb_mount t) (on_live (fun l => mkLive v (ls_logs l) (ls_error l))) t)] []];
         El "div" "mt-3" [] [Button Primary "button" false (Some (live_publish net json_error me key (ls_payload l) uuid)) [Text "발행 (202)"]]]
        ++ ErrorText (ls_error l) ++
        [El "p" "mt-3 text-xs text-slate-400" []
           [Text "왼쪽에서 발행하면 Relay가 큐에 올리고 워커가 HMAC 서명과 함께 demo-receiver로 POST합니다. 오른쪽은 SSE입니다."]]);
     Card (Some "demo-receiver 수신 로그") None
       [El "div" "h-[28rem] overflow-auto font-mono text-xs" []
          (match ls_logs l with
           | [] => [El "p" "text-slate-400" [] [Text "대기 중 — endpoint를 demo-receiver /hooks 로 등록하세요."]]
           | _ => [] end ++ logs)]]].

(** *** [App.tsx] *)

Definition PageView (me : nat) (s : Session) (p : Pages.Page) : option (list node) :=
  match p with
  | KeysPage k => KeysView me s k
  | EndpointsPage e => EndpointsView me s e
  | DeliveriesPage d => DeliveriesView me s d
  | DlqPage d => DlqView me s d
  | LivePage l => LiveView me s l
  end.

Definition path_of (p : Pages.Page) : string :=
  match p with
  | KeysPage _ => "/" | EndpointsPage _ => "/endpoints" | DeliveriesPage _ => "/deliveries" | DlqPage _ => "/dlq" | LivePage _ => "/live"
  end.

Definition nav_label (to : string) : string :=
  if String.eqb to "/" then "키" else if String.eqb to "/endpoints" then "Endpoints"
  else if String.eqb to "/deliveries" then "배달 이력" else if String.eqb to "/dlq" then "DLQ" else "라이브 데모".

Definition NavLink (current to : string) : node :=
  El "a" ("rounded-lg px-3 py-1.5 text-sm font-medium transition " +:+
          (if String.eqb to current then "bg-slate-900 text-white" else "text-slate-600 hover:bg-slate-100"))
    [To to] [Text (nav_label to)].

(** [clear] of the context *)
Definition clear_click : prog browser unit := act clear_session.

Definition AppView (t : Tab) : option node :=
  let s := tb_session t in
  last4 ← and_child (se_apiKeyLast4 s) (v ← child (se_apiKeyLast4 s); Some [El "span" EmptyString [] (Text "sk_live_…" :: v)]);
  clear ← and_child (se_apiKey s)
    (Some [El "button" "text-slate-400 underline-offset-2 hover:underline" [OnClick clear_click] [Text "세션 지우기"]]);
  page ← PageView (tb_mount t) s (tb_page t);
  Some (El "div" "min-h-screen" []
    [El "header" "border-b border-slate-200 bg-white" []
       [El "div" "mx-auto flex max-w-6xl items-center justify-between px-6 py-3" []
          [El "div" "flex items-center gap-8" []
             [El "h1" "text-lg font-bold tracking-tight" []
                [Text "Hook"; El "span" "text-violet-600" [] [Text "Relay"];
                 El "span" "ml-2 text-xs font-medium text-slate-400" [] [Text "CONSOLE"]];
              El "nav" "flex gap-1" [] (map (NavLink (path_of (tb_page t))) NAV)];
           El "div" "flex items-center gap-3 text-sm text-slate-500" [] (last4 ++ clear)]];
     El "main" "mx-auto max-w-6xl px-6 py-6" [] page]).

End views.

Arguments Text {X} s.
Arguments El {X} tag className attrs children.

(** ** What can be clicked

    A button that is not disabled, and a form with such a submit button. *)

Section clicks.
Context {X : Type}.
Notation browser := (Browser X).

Definition enabled (attrs : list (attr (X := X))) : bool :=
  forallb (fun a => match a with Disabled true => false | _ => true end) attrs.

Definition submits (attrs : list (attr (X := X))) : bool :=
  existsb (fun a => match a with Type_ t => String.eqb t "submit" | _ => false end) attrs.

Fixpoint has_submit (n : node) : bool :=
  match n with
  | Text _ => false
  | El _ _ attrs children => (submits attrs && enabled attrs) || existsb has_submit children
  end.

Definition own_clicks (attrs : list (attr (X := X))) (submit : bool) : list (prog browser unit) :=
  (if enabled attrs then omap (fun a => match a with OnClick p => Some p | _ => None end) attrs else []) ++
  (if submit then omap (fun a => match a with OnSubmit p => Some p | _ => None end) attrs else []).

Fixpoint clicks (n : node) : list (prog browser unit) :=
  match n with
  | Text _ => []
  | El _ _ attrs children => own_clicks attrs (existsb has_submit children) ++ flat_map clicks children
  end.

(** Text offers nothing. *)
Definition inert (l : list node) : Prop := flat_map clicks l = [] /\ existsb has_submit l = false.

Lemma inert_app l l' : inert l -> inert l' -> inert (l ++ l').
Proof. intros [H1 H2] [H3 H4]. split; [by rewrite flat_map_app, H1, H3|by rewrite existsb_app, H2, H4]. Qed.

Lemma inert_nil : inert [].
Proof. done. Qed.

Lemma inert_text s : inert [Text s].
Proof. done. Qed.

Lemma inert_el tag cls l : inert l -> inert [El tag cls [] l].
Proof. intros [H1 H2]. split; cbn; [by rewrite H1, H2|by rewrite H2]. Qed.

Lemma inert_cons n l : inert [n] -> inert l -> inert (n :: l).
Proof. apply (inert_app [n]). Qed.

Lemma mapM_some {A B} (f : A -> option B) l k : mapM f l = Some k -> Forall2 (fun x y => f x = Some y) l k.
Proof. intros H. by apply mapM_Some in H. Qed.

Lemma mapM_total {A B} (f : A -> option B) l : Forall (fun x => is_Some (f x)) l -> is_Some (mapM f l).
Proof. apply mapM_is_Some. Qed.

Lemma inert_concat ls : Forall inert ls -> inert (concat ls).
Proof. induction 1; [done|]. cbn. by apply inert_app. Qed.

Lemma child_inert v l : child v = Some l -> inert l.
Proof.
  destruct v as [j|]; cbn; [|by intros [= <-]]. revert l. induction j as [| b|z|t|s|js IH|ms IH] using json_strong_ind; cbn;
    intros l Hl; try (injection Hl as <-; done); [|done].
  destruct (mapM react_child js) as [ls|] eqn:E; [|done]. injection Hl as <-. apply inert_concat.
  apply mapM_some in E. revert ls E. induction IH as [|j js Hj _ IHl]; intros ls E; inversion E; subst; constructor; auto.
Qed.

Lemma error_inert e : inert (ErrorText e).
Proof. unfold ErrorText. by destruct (given e). Qed.

(** Rows with one button each. *)
Lemma map_rows_clicks rows f g l :
  (forall x n, f x = Some n -> flat_map clicks n = [g x] /\ existsb has_submit n = false) -> map_rows rows f = Some l ->
  exists js, rows = Some (JArr js) /\ flat_map clicks l = map g js /\ existsb has_submit l = false.
Proof.
  intros Hf. unfold map_rows. destruct rows as [[| | | | |js|]|]; try done.
  destruct (mapM f js) as [ls|] eqn:E; [|done]. intros [= <-]. exists js. split; [done|]. apply mapM_some in E.
  induction E as [|j n js ls Hj _ [IH1 IH2]]; [done|]. cbn. destruct (Hf j n Hj) as [H1 H2].
  by rewrite flat_map_app, existsb_app, H1, H2, IH1, IH2.
Qed.

Lemma map_rows_inert rows f l : (forall x n, f x = Some n -> inert n) -> map_rows rows f = Some l -> inert l.
Proof.
  intros Hf. unfold map_rows. destruct rows as [[| | | | |js|]|]; try done.
  destruct (mapM f js) as [ls|] eqn:E; [|done]. intros [= <-]. apply inert_concat. apply mapM_some in E.
  induction E; constructor; eauto.
Qed.

Lemma and_child_cases v (e : option (list (node (X := X)))) l :
  and_child v e = Some l -> (truthy v = true /\ e = Some l) \/ (truthy v = false /\ inert l).
Proof. unfold and_child. destruct (truthy v); [by left|]. intros H. right. split; [done|by eapply child_inert]. Qed.

Lemma clicks_el tag cls l : clicks (El tag cls [] l) = flat_map clicks l.
Proof. cbn. unfold own_clicks. by destruct (existsb has_submit l). Qed.

Lemma clicks_card title actions l :
  clicks (Card title actions l) = match actions with Some a => flat_map clicks a | None => [] end ++ flat_map clicks l.
Proof.
  unfold Card. rewrite clicks_el. destruct (given title) as [t|], actions as [a|]; cbn [flat_map app default from_option];
    unfold Datatypes.id; rewrite ?clicks_el; cbn [flat_map app]; rewrite ?clicks_el, ?app_nil_r; try done; cbn [flat_map app];
    rewrite ?clicks_el; done.
Qed.

Lemma clicks_button variant type disabled p s :
  clicks (Button variant type disabled (Some p) [Text s]) = if disabled then [] else [p].
Proof. by destruct disabled. Qed.

(** A form of fields around its submit button. *)
Lemma clicks_form cls p fields c d variant busy s :
  flat_map clicks fields = [] ->  existsb has_submit fields = false ->
  clicks (El "form" cls [onSubmit p] (fields ++ [El "div" c [] [Button variant "submit" busy d [Text s]]])) =
    if busy then [] else p :: match d with Some q => [q] | None => [] end.
Proof.
  intros H1 H2. cbn [clicks]. rewrite existsb_app, flat_map_app, H1, H2. by destruct busy, d.
Qed.

End clicks.

Create HintDb views.
#[export] Hint Resolve inert_app inert_nil inert_text inert_el inert_cons child_inert error_inert : views.

(** ** What the pages offer *)

Section offers.
Context {X : Type} `{P : Platform}.
Variable net : FetchRequest -> X -> (exn + Response) * X.
Variable json_error : string -> string.
Variable uuid : string.

Definition rows_of (rows : option json) : list json := match rows with Some (JArr l) => l | _ => [] end.

(** The handlers a page offers: each with the session's key, each row its own. *)
Definition page_offers (me : nat) (key : option json) (p : Pages.Page) : list (prog (Browser X) unit) :=
  match p with
  | KeysPage k =>
      if ks_busy k then []
      else createTenant net me (ks_adminKey k) (ks_name k) :: (if truthy key then [rotate net me key] else [])
  | EndpointsPage e =>
      if truthy key then
        Pages.endpoints_create net me key (es_url e) (es_types e) ::
        map (fun r => endpoints_ping net me key (row_id "id" r)) (rows_of (es_rows e))
      else []
  | DeliveriesPage d =>
      if truthy key then
        deliveries_load net me key ::
        map (fun r => deliveries_expand net me key (ds_open d) (row_id "deliveryId" r)) (rows_of (ds_rows d))
      else []
  | DlqPage d =>
      if truthy key then map (fun r => dlq_redeliver net me key (row_id "deliveryId" r)) (rows_of (dq_rows d)) else []
  | LivePage l => if truthy key then [live_publish net json_error me key (ls_payload l) uuid] else []
  end.

Definition offers (t : Tab) : list (prog (Browser X) unit) :=
  (if truthy (se_apiKey (tb_session t)) then [clear_click] else []) ++
  page_offers (tb_mount t) (se_apiKey (tb_session t)) (tb_page t).

End offers.

Section offered.
Context {X : Type} `{P : Platform}.
Variable net : FetchRequest -> X -> (exn + Response) * X.
Variable json_error : string -> string.
Variable uuid : string.

Lemma keys_offers me s k l :
  KeysView net me s k = Some l -> flat_map clicks l = page_offers net json_error uuid me (se_apiKey s) (KeysPage k).
Proof.
  unfold KeysView. cbv zeta. intros (fresh & Hf & (rot & Hr & [= <-])%bind_Some)%bind_Some.
  cbn [flat_map]. rewrite clicks_el, app_nil_r. cbn [flat_map]. rewrite clicks_card. cbn [app flat_map].
  rewrite flat_map_app. rewrite (proj1 (error_inert _)).
  assert (flat_map clicks fresh = []) as ->.
  { apply and_child_cases in Hf as [[_ (v & Hv & [= <-])%bind_Some]|[_ [Hi _]]]; [|exact Hi].
    cbn [flat_map]. rewrite clicks_el, flat_map_app, (proj1 (child_inert _ _ Hv)). done. }
  match goal with |- context [clicks (El "form" ?c [?o] [?a; ?b; El "div" ?d [] [?e]])] =>
    change (El "form" c [o] [a; b; El "div" d [] [e]]) with (El "form" c [o] ([a; b] ++ [El "div" d [] [e]])) end.
  rewrite clicks_form by done. cbn [page_offers].
  apply and_child_cases in Hr as [[Ht (v & Hv & (n & Hn & [= <-])%bind_Some)%bind_Some]|[Ht [Hi _]]].
  - cbn [flat_map]. rewrite clicks_card. cbn [flat_map]. rewrite clicks_button, clicks_el.
    assert (inert n) as [Hn' _] by (destruct (truthy (se_tenantName s)); [by eapply child_inert|by injection Hn as <-]).
    cbn [flat_map]. rewrite clicks_el. cbn [flat_map clicks]. rewrite (proj1 (child_inert _ _ Hv)), Hn', Ht.
    by destruct (ks_busy k).
  - rewrite Hi, Ht. by destruct (ks_busy k).
Qed.

Lemma endpoint_row_clicks me key e n :
  endpoint_row net me key e = Some n ->
  flat_map clicks n = [endpoints_ping net me key (row_id "id" e)] /\ existsb has_submit n = false.
Proof.
  unfold endpoint_row.
  intros (? & _ & (url & Hu%child_inert & (types & _ & (st & Hs%child_inert & [= <-])%bind_Some)%bind_Some)%bind_Some)%bind_Some.
  destruct Hu as [Hu1 Hu2], Hs as [Hs1 Hs2]. split.
  - cbn [flat_map]. rewrite !clicks_el. cbn [flat_map]. rewrite !clicks_el. cbn [flat_map]. rewrite !clicks_el, clicks_button, Hu1.
    cbn [flat_map clicks]. unfold Badge. rewrite clicks_el, Hs1. done.
  - cbn. by rewrite Hu2, Hs2.
Qed.

Lemma delivery_row_clicks me key open d n :
  delivery_row net me key open d = Some n ->
  flat_map clicks n = [deliveries_expand net me key open (row_id "deliveryId" d)] /\ existsb has_submit n = false.
Proof.
  unfold delivery_row.
  intros (? & _ & (st & Hs%child_inert & (ty & Hty%child_inert & (ct & Hc%child_inert & (u & Hu%child_inert & [= <-])
    %bind_Some)%bind_Some)%bind_Some)%bind_Some)%bind_Some.
  destruct Hu as [Hu1 Hu2], Hs as [Hs1 Hs2], Hty as [Ht1 Ht2], Hc as [Hc1 Hc2]. split.
  - cbn [flat_map]. rewrite !clicks_el. cbn [flat_map]. rewrite !clicks_el, Ht1, Hc1, Hu1. cbn [flat_map].
    rewrite clicks_button. unfold Badge. rewrite clicks_el, Hs1. done.
  - cbn. by rewrite Hu2, Hs2, Ht2, Hc2.
Qed.

Lemma dlq_row_clicks me key d n :
  dlq_row net me key d = Some n ->
  flat_map clicks n = [dlq_redeliver net me key (row_id "deliveryId" d)] /\ existsb has_submit n = false.
Proof.
  unfold dlq_row.
  intros (? & _ & (id & Hi%child_inert & (st & Hs%child_inert & (ty & Hty%child_inert & [= <-])
    %bind_Some)%bind_Some)%bind_Some)%bind_Some.
  destruct Hi as [Hi1 Hi2], Hs as [Hs1 Hs2], Hty as [Ht1 Ht2]. split.
  - cbn [flat_map]. rewrite !clicks_el. cbn [flat_map]. rewrite !clicks_el. cbn [flat_map].
    rewrite !clicks_el, clicks_button, Ht1, Hi1. unfold Badge. rewrite clicks_el, Hs1. done.
  - cbn. by rewrite Hi2, Hs2, Ht2.
Qed.

Lemma attempt_row_inert a n : attempt_row (X := X) a = Some n -> inert n.
Proof.
  unfold attempt_row.
  intros (no0 & _ & (no & Hn%child_inert & (o & Ho%child_inert & (ms & Hm%child_inert & (t & Ht%child_inert & (h & Hh & [= <-])
    %bind_Some)%bind_Some)%bind_Some)%bind_Some)%bind_Some)%bind_Some.
  assert (inert h) as Hi.
  { apply and_child_cases in Hh as [[_ (w & Hw & [= <-])%bind_Some]|[_ Hi]]; [|exact Hi]. apply inert_el.
    unfold slice80 in Hw. destruct (default JNull _) as [| | | |s|l|]; try done; [by injection Hw as <-|].
    by apply (child_inert (Some (JArr (take 80 l)))). }
  apply inert_el. auto 20 with views.
Qed.

Lemma log_row_inert l n : log_row (X := X) l = Some n -> inert n.
Proof.
  unfold log_row.
  intros (? & _ & (kd & Hk%child_inert & (ty & Hty%child_inert & (id & Hi%child_inert & (t & Ht%child_inert & [= <-])
    %bind_Some)%bind_Some)%bind_Some)%bind_Some)%bind_Some.
  apply inert_el. auto 20 with views.
Qed.

Lemma flat_clicks_error e (l : list (node (X := X))) : flat_map clicks (ErrorText e ++ l) = flat_map clicks l.
Proof. rewrite flat_map_app, (proj1 (error_inert _)). done. Qed.

Lemma no_key_offers : flat_map clicks [no_key_hint (X := X)] = [].
Proof. done. Qed.

Lemma endpoints_offers me s e l :
  EndpointsView net me s e = Some l -> flat_map clicks l = page_offers net json_error uuid me (se_apiKey s) (EndpointsPage e).
Proof.
  unfold EndpointsView. cbn [page_offers]. cbv zeta. destruct (truthy (se_apiKey s)); cbn [negb]; [|by intros [= <-]].
  intros (fresh & Hf & (rows & Hr & [= <-])%bind_Some)%bind_Some.
  apply (map_rows_clicks _ _ _ _ (endpoint_row_clicks me (se_apiKey s))) in Hr as (js & -> & Hr & _).
  cbn [flat_map]. rewrite clicks_el, app_nil_r. cbn [flat_map]. rewrite !clicks_card. cbn [app flat_map].
  rewrite flat_clicks_error, clicks_el, Hr.
  assert (flat_map clicks fresh = []) as ->.
  { apply and_child_cases in Hf as [[_ (v & Hv & [= <-])%bind_Some]|[_ [Hi _]]]; [|exact Hi].
    cbn [flat_map]. rewrite clicks_el. cbn [flat_map clicks]. by rewrite (proj1 (child_inert _ _ Hv)). }
  match goal with |- context [clicks (El "form" ?c [?o] [?a; ?b; El "div" ?d [] [?e]])] =>
    change (El "form" c [o] [a; b; El "div" d [] [e]]) with (El "form" c [o] ([a; b] ++ [El "div" d [] [e]])) end.
  rewrite clicks_form by done. cbn [rows_of app]. by rewrite !app_nil_r.
Qed.

Lemma deliveries_offers me s d l :
  DeliveriesView net me s d = Some l -> flat_map clicks l = page_offers net json_error uuid me (se_apiKey s) (DeliveriesPage d).
Proof.
  unfold DeliveriesView. cbn [page_offers]. cbv zeta. destruct (truthy (se_apiKey s)); cbn [negb]; [|by intros [= <-]].
  intros (rows & Hr & (att & Ha & [= <-])%bind_Some)%bind_Some.
  apply (map_rows_clicks _ _ _ _ (delivery_row_clicks me (se_apiKey s) (ds_open d))) in Hr as (js & -> & Hr & _).
  assert (flat_map clicks att = []) as Hatt.
  { apply and_child_cases in Ha as [[_ (v & Hv & [= <-])%bind_Some]|[_ [Hi _]]]; [|exact Hi].
    cbn [flat_map]. rewrite clicks_el. by rewrite (proj1 (map_rows_inert _ _ _ attempt_row_inert Hv)). }
  cbn [flat_map]. rewrite clicks_card, app_nil_r. cbn [flat_map]. rewrite clicks_button, flat_clicks_error. cbn [flat_map app].
  rewrite Hatt, clicks_el. cbn [flat_map]. rewrite !clicks_el, Hr. cbn [flat_map]. rewrite !clicks_el. cbn [flat_map].
  rewrite !clicks_el. cbn [flat_map clicks app rows_of]. by rewrite !app_nil_r.
Qed.

Lemma dlq_offers me s d l :
  DlqView net me s d = Some l -> flat_map clicks l = page_offers net json_error uuid me (se_apiKey s) (DlqPage d).
Proof.
  unfold DlqView. cbn [page_offers]. cbv zeta. destruct (truthy (se_apiKey s)); cbn [negb]; [|by intros [= <-]].
  intros (rows & Hr & [= <-])%bind_Some.
  apply (map_rows_clicks _ _ _ _ (dlq_row_clicks me (se_apiKey s))) in Hr as (js & -> & Hr & _).
  cbn [flat_map]. rewrite clicks_card, app_nil_r, flat_clicks_error. cbn [flat_map app]. rewrite clicks_el, flat_map_app, Hr.
  cbn [is_empty_rows rows_of]. rewrite app_nil_r. by destruct js.
Qed.

Lemma live_offers me s l n :
  LiveView net json_error uuid me s l = Some n -> flat_map clicks n = page_offers net json_error uuid me (se_apiKey s) (LivePage l).
Proof.
  unfold LiveView. cbn [page_offers]. cbv zeta. destruct (truthy (se_apiKey s)); cbn [negb]; [|by intros [= <-]].
  intros (rows & Hr & [= <-])%bind_Some. apply (map_rows_inert _ _ _ log_row_inert) in Hr as [Hr _].
  cbn [flat_map]. rewrite clicks_el, app_nil_r. cbn [flat_map]. rewrite !clicks_card. cbn [app flat_map].
  rewrite flat_clicks_error, !clicks_el, flat_map_app, Hr. cbn [flat_map]. rewrite clicks_button.
  by destruct (ls_logs l).
Qed.

(** The elements of a rendered page offer exactly these handlers. *)
Theorem view_offers t v : AppView net json_error uuid t = Some v -> clicks v = offers net json_error uuid t.
Proof.
  unfold AppView, offers. cbv zeta. intros (l4 & H4 & (cl & Hc & (pg & Hp & [= <-])%bind_Some)%bind_Some)%bind_Some.
  assert (flat_map clicks pg = page_offers net json_error uuid (tb_mount t) (se_apiKey (tb_session t)) (tb_page t)) as Hpg.
  { destruct (tb_page t) as [k|e|d|d|l]; cbn [PageView] in Hp.
    - by apply keys_offers. - by apply endpoints_offers. - by apply deliveries_offers. - by apply dlq_offers. - by apply live_offers. }
  assert (flat_map clicks l4 = []) as H4'.
  { apply and_child_cases in H4 as [[_ (w & Hw & [= <-])%bind_Some]|[_ [Hi _]]]; [|exact Hi].
    cbn [flat_map]. rewrite clicks_el. cbn [flat_map clicks]. by rewrite (proj1 (child_inert _ _ Hw)). }
  assert (flat_map clicks cl = if truthy (se_apiKey (tb_session t)) then [clear_click] else []) as Hcl.
  { apply and_child_cases in Hc as [[-> [= <-]]|[-> [Hi _]]]; [done|exact Hi]. }
  rewrite clicks_el. cbn [flat_map]. rewrite !clicks_el, Hpg. cbn [flat_map]. rewrite !clicks_el. cbn [flat_map].
  rewrite !clicks_el, flat_map_app, H4', Hcl. cbn [flat_map]. rewrite !app_nil_r.
  reflexivity.
Qed.

End offered.

(** ** Rendering does not throw on the interfaces *)

Section rendering.
Context {X : Type} `{P : Platform}.
Variable net : FetchRequest -> X -> (exn + Response) * X.
Variable json_error : string -> string.
Variable uuid : string.

(** A string, or nothing. *)
Definition plain_value (v : option json) : bool := match v with None | Some JNull | Some (JStr _) => true | _ => false end.

Definition rows_are (f : json -> bool) (rows : option json) : bool :=
  match rows with Some j => array_of f j | None => false end.

Definition page_fits (p : Pages.Page) : bool :=
  match p with
  | KeysPage k => plain_value (ks_freshKey k)
  | EndpointsPage e => plain_value (es_freshSecret e) && rows_are EndpointRow (es_rows e)
  | DeliveriesPage d =>
      rows_are DeliveryRow (ds_rows d) && match ds_open d with Some _ => rows_are AttemptRow (ds_attempts d) | None => true end
  | DlqPage d => rows_are DlqRow (dq_rows d)
  | LivePage l => forallb LogLine (ls_logs l)
  end.

Definition tab_fits (t : Tab) : bool :=
  plain_value (se_apiKey (tb_session t)) && plain_value (se_apiKeyLast4 (tb_session t)) &&
  plain_value (se_tenantName (tb_session t)) && page_fits (tb_page t).

Lemma plain_child v : plain_value v = true -> exists l, child (X := X) v = Some l.
Proof. destruct v as [[]|]; try done; cbn; eauto. Qed.

Lemma plain_and_child v (e : option (list (node (X := X)))) :
  plain_value v = true -> is_Some e -> is_Some (and_child v e).
Proof. intros Hv He. unfold and_child. destruct (truthy v); [done|]. by destruct (plain_child v Hv) as [l ->]. Qed.

Lemma string_child k j : string_member k j = true -> exists s, field k j = Some (JStr s).
Proof. unfold string_member. destruct (field k j) as [[]|]; try done. eauto. Qed.

Lemma number_child k j : number_member k j = true -> exists x l, field k j = Some x /\ react_child (X := X) x = Some l.
Proof. unfold number_member. destruct (field k j) as [[]|]; try done; cbn; eauto. Qed.

Lemma nullable_string k j : nullable_member is_string k j = true -> field k j = Some JNull \/ exists s, field k j = Some (JStr s).
Proof. unfold nullable_member. destruct (field k j) as [[]|]; try done; eauto. Qed.

Lemma nullable_number k j :
  nullable_member is_number k j = true ->
  field k j = Some JNull \/ exists x l, field k j = Some x /\ x <> JNull /\ react_child (X := X) x = Some l.
Proof.
  unfold nullable_member. destruct (field k j) as [[]|]; try done; intros _; [by left|right..];
    eexists _, _; (split; [reflexivity|]); by split.
Qed.

Lemma optional_string k j : optional_member is_string k j = true -> exists l, child (X := X) (field k j) = Some l.
Proof. unfold optional_member. destruct (field k j) as [[]|]; try done; cbn; eauto. Qed.

Lemma map_rows_total f rows (g : json -> option (list (node (X := X)))) :
  rows_are f rows = true -> (forall j, f j = true -> is_Some (g j)) -> is_Some (map_rows rows g).
Proof.
  unfold rows_are, map_rows. destruct rows as [[| | | | |l|]|]; try done. cbn. intros Hl Hg.
  destruct (mapM_total g l) as [k ->]; [|by eexists].
  apply Forall_forall. intros j Hj. apply Hg. rewrite forallb_forall in Hl. by apply Hl, list_elem_of_In.
Qed.

Lemma field_not_null k j v : field k j = Some v -> exists m, member k j = Some m /\ m = Some v.
Proof. intros H. exists (Some v). split; [|done]. destruct j; try exact (f_equal Some H). discriminate H. Qed.

Lemma endpoint_row_total me key e : EndpointRow e = true -> is_Some (endpoint_row net me key e).
Proof.
  unfold EndpointRow. rewrite !andb_true_iff. intros (((((Hi & Hu) & Hs) & Ht) & _) & _). unfold endpoint_row.
  apply string_child in Hu as [u Hu], Hs as [st Hs]. destruct (field_not_null _ _ _ Hu) as (m & -> & ->). cbn.
  assert (is_Some (joined_types (field "eventTypes" e))) as [ty ->].
  { unfold joined_types, optional_member in *. destruct (field "eventTypes" e) as [[]|]; try done; cbn; eauto. }
  rewrite Hs. cbn. eauto.
Qed.

Lemma delivery_row_total me key open d : DeliveryRow d = true -> is_Some (delivery_row net me key open d).
Proof.
  unfold DeliveryRow. rewrite !andb_true_iff. intros (((((Hi & Hu) & Ht) & Hs) & Hc) & _). unfold delivery_row.
  apply string_child in Hi as [i Hi], Hu as [u Hu], Hs as [st Hs], Ht as [ty Ht]. apply number_child in Hc as (x & l & Hc & Hl).
  destruct (field_not_null _ _ _ Hi) as (m & -> & ->). rewrite Hs, Ht, Hc, Hu. cbn. rewrite Hl. cbn. eauto.
Qed.

Lemma dlq_row_total me key d : DlqRow d = true -> is_Some (dlq_row net me key d).
Proof.
  unfold DlqRow. rewrite !andb_true_iff. intros ((((Hi & _) & Ht) & Hs) & _). unfold dlq_row.
  apply string_child in Hi as [i Hi], Hs as [st Hs], Ht as [ty Ht].
  destruct (field_not_null _ _ _ Hi) as (m & -> & ->). rewrite Hs, Ht. cbn. eauto.
Qed.

Lemma attempt_row_total a : AttemptRow a = true -> is_Some (attempt_row (X := X) a).
Proof.
  unfold AttemptRow. rewrite !andb_true_iff. intros (((((Hn & Hr) & He) & Hd) & Ht) & Hh). unfold attempt_row.
  apply number_child in Hn as (x & l & Hn & Hl). apply string_child in Ht as [t Ht].
  destruct (field_not_null _ _ _ Hn) as (m & -> & ->). cbn. rewrite Hl. cbn.
  assert (is_Some (child (X := X) (or_value (field "errorClass" a) (field "responseStatus" a)))) as [o ->].
  { apply nullable_string in He as [->|[s ->]]; cbn; [|eauto].
    apply nullable_number in Hr as [->|(y & ly & -> & _ & Hy)]; cbn; [eauto|]. rewrite Hy. eauto. }
  cbn. assert (is_Some (child (X := X) (or_value (field "durationMs" a) (Some (JNum 0))))) as [ms ->].
  { apply nullable_number in Hd as [->|(y & ly & -> & Hy0 & Hy)]; cbn; [eauto|]. destruct y; cbn in *; try done; eauto. }
  cbn. rewrite Ht. cbn.
  assert (is_Some (and_child (X := X) (field "responseBodyHead" a) (text ← slice80 (default JNull (field "responseBodyHead" a));
     Some [El "span" "ml-2 text-slate-400" [] text]))) as [h ->]; [|cbn; eauto].
  apply nullable_string in Hh as [->|[s ->]]; [by eexists|]. apply plain_and_child; [done|]. cbn. eauto.
Qed.

Lemma log_row_total l : LogLine l = true -> is_Some (log_row (X := X) l).
Proof.
  unfold LogLine. rewrite !andb_true_iff. intros ((((Hk & Hi) & _) & Ht) & Ha). unfold log_row.
  apply string_child in Hk as [k Hk]. destruct (field_not_null _ _ _ Hk) as (m & -> & ->). cbn.
  apply optional_string in Hi as [i ->], Ht as [t ->], Ha as [a ->]. cbn. eauto.
Qed.

(** A step of rendering that does not throw. *)
Lemma bind_total {A B} (x : option A) (f : A -> option B) : is_Some x -> (forall y, is_Some (f y)) -> is_Some (x ≫= f).
Proof. intros [y ->] Hf. apply Hf. Qed.

Lemma child_total v : plain_value v = true -> is_Some (child (X := X) v).
Proof. intros Hv. destruct (plain_child v Hv) as [l ->]. eauto. Qed.

Lemma some_total {A} (x : A) : is_Some (Some x).
Proof. eauto. Qed.

#[local] Hint Resolve bind_total child_total some_total plain_and_child : views.

(** [{v && <p>... {v} ...</p>}] *)
Lemma shown_total v (f : list (node (X := X)) -> list node) :
  plain_value v = true -> is_Some (and_child (X := X) v (shown ← child v; Some (f shown))).
Proof. auto with views. Qed.

Lemma keys_total me s k :
  plain_value (se_apiKey s) = true -> plain_value (se_apiKeyLast4 s) = true -> plain_value (se_tenantName s) = true ->
  plain_value (ks_freshKey k) = true -> is_Some (KeysView net me s k).
Proof.
  intros H1 H2 H3 H4. unfold KeysView. cbv zeta. apply bind_total; [by apply shown_total|]. intros f.
  apply bind_total; [|eauto]. apply plain_and_child; [done|]. apply bind_total; [auto with views|]. intros l.
  apply bind_total; [|eauto]. destruct (truthy (se_tenantName s)); auto with views.
Qed.

Lemma page_total me s p :
  plain_value (se_apiKey s) = true -> plain_value (se_apiKeyLast4 s) = true -> plain_value (se_tenantName s) = true ->
  page_fits p = true -> is_Some (PageView net json_error uuid me s p).
Proof.
  intros H1 H2 H3 Hp. destruct p as [k|e|d|d|l]; cbn [PageView page_fits] in *.
  - by apply keys_total.
  - apply andb_prop in Hp as [Hf Hr]. unfold EndpointsView. cbv zeta. destruct (negb _); [eauto|].
    apply bind_total; [by apply shown_total|]. intros f. apply bind_total; [|eauto].
    apply (map_rows_total _ _ _ Hr (endpoint_row_total me (se_apiKey s))).
  - apply andb_prop in Hp as [Hr Ho]. unfold DeliveriesView. cbv zeta. destruct (negb _); [eauto|].
    apply bind_total; [apply (map_rows_total _ _ _ Hr (delivery_row_total me (se_apiKey s) (ds_open d)))|]. intros rows.
    apply bind_total; [|eauto]. destruct (ds_open d) as [o|]; [|by eexists]. apply plain_and_child; [done|].
    apply bind_total; [apply (map_rows_total _ _ _ Ho attempt_row_total)|eauto].
  - unfold DlqView. cbv zeta. destruct (negb _); [eauto|].
    apply bind_total; [apply (map_rows_total _ _ _ Hp (dlq_row_total me (se_apiKey s)))|eauto].
  - unfold LiveView. cbv zeta. destruct (negb _); [eauto|].
    apply bind_total; [apply (map_rows_total LogLine (Some (JArr (ls_logs l))) _ Hp log_row_total)|eauto].
Qed.

Lemma view_total t : tab_fits t = true -> is_Some (AppView net json_error uuid t).
Proof.
  unfold tab_fits. rewrite !andb_true_iff. intros (((Hk & H4) & Hn) & Hp). unfold AppView. cbv zeta.
  apply bind_total; [by apply shown_total|]. intros l4. apply bind_total; [auto with views|]. intros c.
  apply bind_total; [by apply page_total|eauto].
Qed.

End rendering.

(** ** The receiver's lines *)

Definition body_member (k : string) (body : json) : list (string * json) :=
  match field k body with Some v => [(k, v)] | None => [] end.

(** What is written to the event streams with a notice, of [/hooks/slow] or of the other
    two routes: [JSON.stringify] leaves out what the body does not have. *)
Definition notice_line (slow : bool) (n : Receiver.notice) (body : json) (now : Z) : json :=
  let line kind D members := JObj ([("kind", JStr kind); ("deliveryId", JStr D)] ++ members ++ [("at", JStr (toISOString now))]) in
  match n with
  | Receiver.Received D =>
      line "received" D (body_member "eventId" body ++ body_member "type" body ++ body_member "payload" body)
  | Receiver.Duplicate D =>
      line "duplicate" D (body_member "eventId" body ++ if slow then [] else body_member "type" body)
  | Receiver.FailNotice D => line "fail" D []
  | Receiver.Slow D => line "slow" D (body_member "eventId" body)
  end.

(** The receiver got deliveries of this platform: their body is [Receiver.delivery_json]. *)
Definition broadcasted (data : string) : Prop :=
  exists slow n eventId ev now, integral (ev_payload ev) = true /\
    data = stringify (notice_line slow n (Receiver.delivery_json eventId ev) now).

Lemma broadcasted_line data line : broadcasted data -> parse data = Some line -> LogLine line = true.
Proof.
  intros (slow & n & eventId & ev & now & Hi & ->). unfold notice_line. generalize (toISOString now). intros t.
  change (body_member "eventId" (Receiver.delivery_json eventId ev)) with [("eventId", JStr eventId)].
  change (body_member "type" (Receiver.delivery_json eventId ev)) with [("type", JStr (ev_type ev))].
  change (body_member "payload" (Receiver.delivery_json eventId ev)) with [("payload", ev_payload ev)].
  rewrite parse_stringify; [intros [= <-]|]; destruct n as [D|D|D|D], slow; try reflexivity; cbn; by rewrite Hi.
Qed.

(** ** In front of the API *)

Section console.
Context `{P : Platform}.
Variable cfg : Config.
Context (legacyDate : json -> option Z) (uuid_ok : string -> bool).
Context (is_url : string -> bool) (dto_message : json -> list string).
Context (decode not_found bad_json : string -> string) (reason : Z -> string).
Variable exposition : exn + string.
Context (elsewhere : FetchRequest -> World * Receiver.Receiver -> (exn + Response) * (World * Receiver.Receiver)).
Context (json_error : string -> string) (uuid : string).

Notation net := (deployment cfg legacyDate uuid_ok is_url dto_message decode not_found bad_json reason exposition elsewhere).
Notation dispatched path rq := (dispatch decode (to_http path rq)).

Lemma parse_body_answer status a : parse_body (http_response reason (inr (status, a))) = answer_json a.
Proof.
  unfold parse_body. cbn [http_response rs_text]. pose proof (parse_stringify _ (answer_integral a)) as Hp.
  assert (stringify (answer_json a) <> EmptyString) as Hne by (by destruct a).
  destruct (stringify (answer_json a)); [done|]. by rewrite Hp.
Qed.

(** An id that is one segment of a URL, as UUIDs are. *)
Definition segment_id (id : string) : Prop :=
  plain id = true /\ str_forall (fun c => negb (c =? "#")%char) id = true /\ id ∉ [EmptyString; "."; ".."].

(** A successful answer under [/api] is of its route. *)
Lemma api_ok rq path x res x' :
  is_head (to_http path rq) = false -> fr_url rq = "/api" +:+ path -> net rq x = (inr res, x') -> rs_ok res = true ->
  match dispatched path rq with
  | CallRoute c => exists a, fits c a = true /\ parse_body res = answer_json a
  | TenantsRoute _ => exists id name plan key, parse_body res = answer_json (NewTenant id name plan key)
  | MetricsRoute | Preflight => True
  | NoRoute | BadJson | BodyTooLarge => False
  end.
Proof.
  intros Hh Hu Hn Hok. unfold deployment in Hn. rewrite Hu in Hn.
  change (after_prefix "/api" ("/api" +:+ path)) with (Some path) in Hn. cbn iota in Hn.
  destruct (server_proper cfg legacyDate uuid_ok is_url dto_message decode not_found bad_json reason exposition (to_http path rq) x.1 Hh)
    as (r & w & Hr & Hp). rewrite Hr in Hn. injection Hn as -> _. apply proper_ok in Hp; [|exact Hok].
  destruct (dispatched path rq) as [body|c| | | | |]; try done.
  - destruct Hp as (id & name & plan & key & ->). exists id, name, plan, key. apply parse_body_answer.
  - destruct Hp as (a & Ha & ->). exists a. split; [exact Ha|]. apply parse_body_answer.
Qed.

Lemma posted_not_head path rq : posted path rq -> is_head (to_http path rq) = false.
Proof. intros [_ Hm]. unfold is_head, to_http. cbn [hq_method]. by rewrite Hm. Qed.

Lemma dispatched_post path rq : posted path rq ->
  (dispatched path rq = BadJson \/ dispatched path rq = BodyTooLarge) \/ exists body, dispatched path rq =
    match split_on "/" (split_url path).1 with
    | EmptyString :: segments =>
        route_of decode "POST" (drop_slash segments) (split_url path).2 (fr_headers rq !! "idempotency-key") body
    | _ => NoRoute
    end.
Proof.
  intros [_ Hm]. unfold dispatch, to_http, is_head. cbn [hq_url hq_method hq_headers]. rewrite Hm.
  cbn [default from_option Datatypes.id String.eqb Ascii.eqb Bool.eqb].
  destruct (json_body _) as [body| |]; [|by left; left|by left; right].
  right. exists body. by destruct (split_url path).
Qed.

Lemma dispatched_tenants rq : posted "/tenants" rq ->
  (dispatched "/tenants" rq = BadJson \/ dispatched "/tenants" rq = BodyTooLarge) \/ exists body, dispatched "/tenants" rq = TenantsRoute body.
Proof. intros [?|(body & ->)]%dispatched_post; [by left|right; by exists body]. Qed.

Lemma dispatched_rotate rq : posted "/api-keys/rotate" rq ->
  (dispatched "/api-keys/rotate" rq = BadJson \/ dispatched "/api-keys/rotate" rq = BodyTooLarge) \/ dispatched "/api-keys/rotate" rq = CallRoute PostRotate.
Proof. intros [?|(body & ->)]%dispatched_post; [by left|by right]. Qed.

Lemma dispatched_endpoints rq : posted "/endpoints" rq ->
  (dispatched "/endpoints" rq = BadJson \/ dispatched "/endpoints" rq = BodyTooLarge) \/ exists body, dispatched "/endpoints" rq = CallRoute (PostEndpoint body).
Proof. intros [?|(body & ->)]%dispatched_post; [by left|right; by exists body]. Qed.

(** Only the attempts of that delivery can be meant. *)
Lemma dispatched_attempts id key : segment_id id ->
  dispatched (attempts_path id) (get_request (attempts_path id) key) = CallRoute (GetAttempts (decode id)).
Proof.
  intros (Hp & _ & Hne). unfold dispatch. change (json_body _) with (Read (JObj [])).
  change (hq_url _) with ("/deliveries/" +:+ id +:+ "/attempts").
  change (String.eqb (hq_method _) "OPTIONS") with false. cbn iota.
  rewrite (with_id_url (fun _ => id) (fun _ => Hp) "/deliveries/" id "/attempts") by done.
  change (split_on "/" ("/deliveries/" +:+ id +:+ "/attempts"))
    with (split_on "/" (String "/" ("deliveries" +:+ String "/" (id +:+ String "/" "attempts")))).
  rewrite (proj2 (split_path "deliveries" id "attempts" eq_refl Hp eq_refl)).
  change (drop_slash ["deliveries"; id; "attempts"]) with ["deliveries"; id; "attempts"].
  unfold route_of. assert (existsb (String.eqb EmptyString) ["deliveries"; id; "attempts"] = false) as ->; [|done].
  destruct id; [|done]. destruct Hne. left.
Qed.

(** *** The answers have the interfaces they are cast to *)

Lemma forallb_map_true {A B} (f : B -> bool) (g : A -> B) l : (forall x, f (g x) = true) -> forallb f (map g l) = true.
Proof. apply forallb_map_all. Qed.

Lemma endpoint_rows l : array_of EndpointRow (answer_json (Endpoints_ l)) = true.
Proof.
  apply forallb_map_true. intros [e ts].
  transitivity (true && true && true && array_of is_string (JArr (map JStr ts)) && true && true); [reflexivity|].
  cbn [andb array_of]. rewrite !andb_true_r. by apply forallb_map_true.
Qed.

Lemma new_endpoint_row e secret : EndpointRow (answer_json (ANewEndpoint e secret)) = true.
Proof. reflexivity. Qed.

Lemma delivery_rows l : forallb DeliveryRow (map delivery_json l) = true /\ forallb DlqRow (map delivery_json l) = true.
Proof. split; by apply forallb_map_true. Qed.

Lemma attempt_rows l : forallb AttemptRow (map attempt_json l) = true.
Proof.
  apply forallb_map_true. intros a. unfold attempt_json.
  destruct (at_responseStatus a), (at_responseBodyHead a), (at_errorClass a), (at_durationMs a); reflexivity.
Qed.

(** [j] is what a request of the console was answered. *)
Record casts (rq : FetchRequest) (j : json) : Prop := {
  ca_tenant : posted "/tenants" rq -> IssuedTenant j = true;
  ca_rotate : posted "/api-keys/rotate" rq -> IssuedKey j = true;
  ca_endpoint : posted "/endpoints" rq -> EndpointRow j = true /\ string_member "secret" j = true;
  ca_endpoints key : rq = get_request "/endpoints" key -> array_of EndpointRow j = true;
  ca_deliveries key : rq = get_request "/deliveries" key -> rows_are DeliveryRow (field "deliveries" j) = true;
  ca_dlq key : rq = get_request "/deliveries?status=DEAD" key -> rows_are DlqRow (field "deliveries" j) = true;
  ca_attempts key id : segment_id id -> rq = get_request (attempts_path id) key -> rows_are AttemptRow (field "attempts" j) = true;
}.

Lemma casts_of_answer rq x res x' : net rq x = (inr res, x') -> rs_ok res = true -> casts rq (parse_body res).
Proof.
  intros Hn Hok. split.
  - intros Hp. pose proof (api_ok rq "/tenants" x res x' (posted_not_head _ _ Hp) (proj1 Hp) Hn Hok) as H.
    destruct (dispatched_tenants rq Hp) as [[E|E]|[b E]]; rewrite E in H; [done..|]. destruct H as (i & n & pl & k & ->). reflexivity.
  - intros Hp. pose proof (api_ok rq "/api-keys/rotate" x res x' (posted_not_head _ _ Hp) (proj1 Hp) Hn Hok) as H.
    destruct (dispatched_rotate rq Hp) as [[E|E]|E]; rewrite E in H; [done..|]. destruct H as ([] & Ha & ->); try done.
  - intros Hp. pose proof (api_ok rq "/endpoints" x res x' (posted_not_head _ _ Hp) (proj1 Hp) Hn Hok) as H.
    destruct (dispatched_endpoints rq Hp) as [[E|E]|[b E]]; rewrite E in H; [done..|]. destruct H as ([] & Ha & ->); try done.
  - intros key ->. pose proof (api_ok (get_request "/endpoints" key) "/endpoints" x res x' eq_refl eq_refl Hn Hok) as H. cbn iota beta in H.
    change (dispatched "/endpoints" (get_request "/endpoints" key)) with (CallRoute GetEndpoints) in H. cbn iota in H.
    destruct H as ([] & Ha & ->); try discriminate Ha. apply endpoint_rows.
  - intros key ->. pose proof (api_ok (get_request "/deliveries" key) "/deliveries" x res x' eq_refl eq_refl Hn Hok) as H.
    change (dispatched "/deliveries" (get_request "/deliveries" key)) with (CallRoute (GetDeliveries None None)) in H. cbn iota in H.
    destruct H as ([] & Ha & ->); try discriminate Ha. apply delivery_rows.
  - intros key ->. pose proof (api_ok (get_request "/deliveries?status=DEAD" key) "/deliveries?status=DEAD" x res x' eq_refl eq_refl Hn Hok) as H.
    change (dispatched "/deliveries?status=DEAD" (get_request "/deliveries?status=DEAD" key))
      with (CallRoute (GetDeliveries (Some (decode "DEAD")) None)) in H. cbn iota in H.
    destruct H as ([] & Ha & ->); try discriminate Ha. apply delivery_rows.
  - intros key id Hid ->. pose proof (api_ok (get_request (attempts_path id) key) (attempts_path id) x res x' eq_refl eq_refl Hn Hok) as H.
    rewrite (dispatched_attempts id key Hid) in H.
    destruct H as ([] & Ha & ->); try discriminate Ha. apply attempt_rows.
Qed.

(** *** Reachable tabs *)

Lemma answered_casts b rq j : recorded net b -> answered b rq j -> casts rq j.
Proof. intros Hr (res & Hin & Hok & <-). destruct (Hr _ _ Hin) as (x & x' & Hn). by eapply casts_of_answer. Qed.

Lemma string_plain k j : string_member k j = true -> plain_value (field k j) = true.
Proof. intros [s ->]%string_child. done. Qed.

(** A session of texts. *)
Definition session_plain (s : Session) : bool :=
  plain_value (se_apiKey s) && plain_value (se_apiKeyLast4 s) && plain_value (se_tenantName s).

Lemma kept_plain b v0 paths k v :
  recorded net b -> plain_value v0 = true ->
  (forall rq j, Exists (fun path => posted path rq) paths -> casts rq j -> string_member k j = true) ->
  kept_value v0 paths k b v -> plain_value v = true.
Proof.
  intros Hr H0 Hc [->|[->|(rq & j & Hp & Ha & ->)]]; [done..|]. apply string_plain. eapply Hc; [exact Hp|by eapply answered_casts].
Qed.

Lemma issued_key rq j :
  Exists (fun path => posted path rq) ["/tenants"; "/api-keys/rotate"] -> casts rq j ->
  string_member "apiKey" j = true /\ string_member "apiKeyLast4" j = true.
Proof.
  intros Hp Hc. assert (IssuedKey j = true) as H.
  { inversion Hp as [? ? H|? ? H]; subst.
    - apply (ca_tenant _ _ Hc) in H. unfold IssuedTenant in H. by apply andb_prop in H as [H _].
    - inversion H as [? ? H'|? ? H']; subst; [by apply (ca_rotate _ _ Hc)|inversion H']. }
  by apply andb_prop in H.
Qed.

Lemma session_stays_plain b s0 s :
  recorded net b -> session_plain s0 = true -> session_from s0 b s -> session_plain s = true.
Proof.
  intros Hr [[H1 H2]%andb_prop H3]%andb_prop (Hk & H4 & Hn & _). unfold session_plain. rewrite !andb_true_iff. split_and!.
  - eapply kept_plain; [done|exact H1| |exact Hk]. intros rq j Hp Hc. by apply (issued_key rq j Hp Hc).
  - eapply kept_plain; [done|exact H2| |exact H4]. intros rq j Hp Hc. by apply (issued_key rq j Hp Hc).
  - eapply kept_plain; [done|exact H3| |exact Hn]. intros rq j Hp Hc.
    inversion Hp as [? ? H|? ? H]; subst; [|inversion H]. apply (ca_tenant _ _ Hc) in H. unfold IssuedTenant in H.
    by apply andb_prop in H as [_ H].
Qed.

Lemma shown_fits b p : recorded net b -> shown broadcasted segment_id b p -> page_fits p = true.
Proof.
  intros Hr. pose proof (fun rq j => answered_casts b rq j Hr) as Hc. destruct p as [k|e|d|d|l]; cbn [shown page_fits].
  - intros [->|(rq & j & Hp & Ha & ->)]; [done|]. apply string_plain. apply (issued_key rq j); [|by apply Hc].
    destruct Hp as [Hp|Hp]; [by left|by right; left].
  - intros [Hrow Hsec]. apply andb_true_intro. split.
    + destruct Hsec as [->|(rq & j & Hp & Ha & ->)]; [done|]. apply string_plain. by apply (ca_endpoint _ _ (Hc _ _ Ha)).
    + destruct Hrow as [->|(key & j & Ha & ->)]; [done|]. cbn. by apply (ca_endpoints _ _ (Hc _ _ Ha) key).
  - intros [Hrow Hop]. apply andb_true_intro. split.
    + destruct Hrow as [->|(key & j & Ha & ->)]; [done|]. by apply (ca_deliveries _ _ (Hc _ _ Ha) key).
    + destruct (ds_open d) as [id|]; [|done]. destruct (Hop id eq_refl) as (Hid & key & j & Ha & ->).
      by apply (ca_attempts _ _ (Hc _ _ Ha) key id Hid).
  - intros [->|(key & j & Ha & ->)]; [done|]. by apply (ca_dlq _ _ (Hc _ _ Ha) key).
  - intros [_ Hl]. apply forallb_forall. intros line Hin%list_elem_of_In. rewrite Forall_forall in Hl.
    destruct (Hl line Hin) as (data & Hd & Hp). by eapply broadcasted_line.
Qed.

(** What a page offers are handlers of the pages. *)
Lemma offers_handlers t p : p ∈ offers net json_error uuid t -> p = clear_click \/ handler net json_error broadcasted (fun _ => True) p.
Proof.
  unfold offers. rewrite elem_of_app. intros [H|H]; [left; destruct (truthy _); [by apply list_elem_of_singleton in H|by apply elem_of_nil in H]|].
  right. unfold page_offers in H. destruct (tb_page t) as [k|e|d|d|l]; repeat (case_match; try (by apply elem_of_nil in H)).
  all: repeat match type of H with
    | _ ∈ _ :: _ => apply elem_of_cons in H as [->|H]
    | _ ∈ map _ _ => apply list_elem_of_fmap in H as (r & -> & _)
    | _ ∈ [] => by apply elem_of_nil in H
    end; by constructor.
Qed.

(** ** Properties *)

(** C18.  The casts of the console are sound: every successful answer of the API to a
    request of the pages has the interface it is cast to without a check: an issued key
    for a new tenant and a rotation, an endpoint with its secret for a registration,
    arrays of rows with the declared members for the lists, and of attempts for an
    opened delivery, if its id is one segment of a URL, as every UUID is (one that begins
    with a question mark makes the request for the list). *)
Theorem answers_have_interfaces rq x res x' :
  net rq x = (inr res, x') -> rs_ok res = true ->
  let j := parse_body res in
  (posted "/tenants" rq -> IssuedTenant j = true) /\
  (posted "/api-keys/rotate" rq -> IssuedKey j = true) /\
  (posted "/endpoints" rq -> EndpointRow j = true /\ string_member "secret" j = true) /\
  (forall key, rq = get_request "/endpoints" key -> array_of EndpointRow j = true) /\
  (forall key, rq = get_request "/deliveries" key -> exists l, field "deliveries" j = Some l /\ array_of DeliveryRow l = true) /\
  (forall key, rq = get_request "/deliveries?status=DEAD" key -> exists l, field "deliveries" j = Some l /\ array_of DlqRow l = true) /\
  (forall key id, segment_id id -> rq = get_request (attempts_path id) key -> exists l, field "attempts" j = Some l /\ array_of AttemptRow l = true).
Proof.
  intros Hn Hok j. destruct (casts_of_answer rq x res x' Hn Hok) as [H1 H2 H3 H4 H5 H6 H7].
  assert (forall f v, rows_are f v = true -> exists l, v = Some l /\ array_of f l = true) as Hrows
    by (intros f [l|]; [by exists l|done]).
  split_and!; eauto.
Qed.

(** C17.  The console never goes blank in front of the API: however clicks, answers,
    messages, navigation and typing interleave (the messages being the receiver's lines
    about the platform's deliveries, the opened deliveries having ids that are one
    segment of a URL, as UUIDs are), the tab it reaches from a session of texts is
    rendered, so no component throws; and the enabled buttons and forms of what
    is rendered are exactly the handlers of the page with the session's key, one per
    row with this row's id, and the button that clears the session. *)
Theorem console_renders stored s0 x path b0 b pool :
  session_plain s0 = true -> opened stored s0 x path b0 ->
  rtc (pstep beside (handler net json_error broadcasted segment_id)) (b0, []) (b, pool) ->
  exists v, AppView net json_error uuid (br_tab b) = Some v /\
    clicks v = offers net json_error uuid (br_tab b) /\
    forall p, p ∈ clicks v -> p = clear_click \/ handler net json_error broadcasted (fun _ => True) p.
Proof.
  intros H0 Ho Hr. destruct (opened_ok net json_error broadcasted segment_id stored s0 x path b pool b0 Ho Hr) as [(Hp & Hs & _) Hrec].
  destruct (view_total net json_error uuid (br_tab b)) as [v Hv].
  { unfold tab_fits. rewrite (shown_fits b _ Hrec Hp), andb_true_r. exact (session_stays_plain b s0 _ Hrec H0 Hs). }
  exists v. pose proof (view_offers net json_error uuid _ _ Hv) as Hc. split; [exact Hv|]. split; [exact Hc|].
  rewrite Hc. apply offers_handlers.
Qed.

End console.

(** ** The endpoints of a tenant, on the page *)

Definition kept_session : Session :=
  mkSession no_text (Some (JStr tenancy_key)) (Some (JStr (last4 tenancy_key))) (Some (JStr "acme")) no_text.

Definition kept_storage : option string := Some (stringify (session_json kept_session)).

Definition list_endpoints_request : FetchRequest := get_request "/endpoints" (Some (JStr tenancy_key)).

Lemma answers_have_interfaces_witness (P0 := always 200) :
  exists res x', demo_deployment list_endpoints_request (first_endpoint_world, demo_receiver) = (inr res, x') /\
    rs_ok res = true /\ array_of EndpointRow (parse_body res) = true.
Proof.
  destruct (demo_deployment list_endpoints_request (first_endpoint_world, demo_receiver)) as [[e|res] x'] eqn:E;
    apply (f_equal fst) in E as E1; vm_compute in E1; [discriminate E1|].
  exists res, x'. split; [reflexivity|].
  assert (rs_ok res = true) as Hok by (injection E1 as <-; vm_compute; reflexivity). split; [exact Hok|].
  exact (proj1 (proj2 (proj2 (proj2 (answers_have_interfaces (P := P0) demo_cfg (fun _ => None) (fun _ => true) (fun _ => true)
    (fun _ => ["Bad Request"]) (fun s => s) (fun _ => "Not Found") (fun _ => "Bad JSON") (fun _ => EmptyString) (inr EmptyString)
    (fun _ x => (inl (EJs "TypeError" None "Failed to fetch" None), x)) list_endpoints_request (first_endpoint_world, demo_receiver)
    res x' E Hok)))) (Some (JStr tenancy_key)) eq_refl).
Defined.

Definition opened_endpoints : Browser (World (P := always 200) * Receiver.Receiver) :=
  mkBrowser (first_endpoint_world, demo_receiver) [] (mkTab kept_session kept_storage 1 (EndpointsPage initial_endpoints)).

Definition loaded_endpoints : Browser (World (P := always 200) * Receiver.Receiver) :=
  snd (exec (endpoints_effect (P := always 200) demo_deployment 1 (Some (JStr tenancy_key))) opened_endpoints).

Lemma console_renders_witness (P0 := always 200) :
  exists v, AppView demo_deployment (fun _ => EmptyString) "uuid" (br_tab loaded_endpoints) = Some v /\ length (clicks v) = 3%nat.
Proof.
  assert (handler demo_deployment (fun _ => EmptyString) broadcasted segment_id
    (endpoints_effect (P := always 200) demo_deployment 1 (Some (JStr tenancy_key)))) as Hh by constructor.
  destruct (rtc_alone beside (handler demo_deployment (fun _ => EmptyString) broadcasted segment_id) _ opened_endpoints [] Hh) as [pool Hr].
  assert (opened kept_storage kept_session (first_endpoint_world, demo_receiver) "/endpoints" opened_endpoints) as Ho
    by (split; [vm_compute; reflexivity|reflexivity]).
  destruct (console_renders (P := P0) demo_cfg (fun _ => None) (fun _ => true) (fun _ => true)
    (fun _ => ["Bad Request"]) (fun s => s) (fun _ => "Not Found") (fun _ => "Bad JSON") (fun _ => EmptyString) (inr EmptyString)
    (fun _ x => (inl (EJs "TypeError" None "Failed to fetch" None), x)) (fun _ => EmptyString) "uuid" kept_storage kept_session
    (first_endpoint_world, demo_receiver) "/endpoints" opened_endpoints loaded_endpoints pool eq_refl Ho Hr) as (v & Hv & Hc & _).
  exists v. split; [exact Hv|]. refine (eq_trans (f_equal (length (A := _)) Hc) _). vm_compute. reflexivity.
Defined.

(** An answer of another shape, here of a proxy that answers for the API: the console
    goes blank. *)
Example blank_page (P0 := always 200) :
  let t := mkTab kept_session kept_storage 1 (EndpointsPage (mkEndpoints (Some (JStr "<html>")) "" "" None nothing)) in
  AppView demo_deployment (fun _ => EmptyString) "uuid" t = None.
Proof. vm_compute. reflexivity. Qed.
