(* ===== verification/Purge.v ===== *)
(** * The purge of old attempts: [jobs/purge-attempts.ts]

    The maintenance job that deletes the rows of [delivery_attempts] older than a
    number of days taken from the environment.  It reads the raw variable, not the
    validated configuration.  Fractions of a day are taken exactly, where the code
    rounds to doubles on the way to the millisecond. *)

From S2P Require Import Prelude Errors Effects Json Platform Schema World Config TestPlatform ToNumber.
Open Scope Z_scope.
Open Scope hook_scope.

(** [Number(process.env.HR_ATTEMPTS_RETENTION_DAYS ?? 90)] *)
Definition DAYS (env : option string) : number :=
  match env with Some s => Number s | None => Decimal 90 0 end.

Definition DAY_MS : Z := 24 * 60 * 60 * 1000.

(** The range of a [Date]; outside, and for NaN, it is invalid. *)
Definition time_clip (t : Z) : option Z := if Z.abs t <=? 8640000000000000 then Some t else None.

(** [new Date(Date.now() - DAYS * 24 * 60 * 60 * 1000)] *)
Definition cutoff (now : Z) (days : number) : option Z :=
  match days with
  | NotANumber | Infinite => None
  | Decimal m e =>
      time_clip (if 0 <=? e then now - m * 10 ^ e * DAY_MS
                 else Z.quot (now * 10 ^ (- e) - m * DAY_MS) (10 ^ (- e)))
  end.

(** [attemptedAt: { lt: cutoff }] *)
Definition expired (c : Z) (p : Z * DeliveryAttempt) : Prop := at_attemptedAt p.2 < c.

#[export] Instance expired_dec c p : Decision (expired c p).
Proof. unfold expired. apply _. Defined.

Definition purged (c : Z) (d : Db) : Db := set_attempts (filter (fun p => ~ expired c p)) (attempt_seq d) d.

Definition invalid_date : exn := EJs "PrismaClientValidationError" None "Invalid value for argument `lt`: Provided Date object is invalid" None.

Section purge.
Context `{P : Platform}.

(** [deliveryAttempt.deleteMany]: the number of rows deleted. *)
Definition attempt_deleteMany (c : Z) : stm nat := fun w =>
  (inr (size (filter (expired c) (attempts (w_db w)))), with_db (purged c) w).

(** [main], up to the line it prints. *)
Definition purge (env : option string) : prog World nat :=
  let* now := Date_now in
  match cutoff now (DAYS env) with
  | None => Throw invalid_date
  | Some c => transaction (attempt_deleteMany c)
  end.

Lemma purged_lookup c d i a :
  attempts (purged c d) !! i = Some a <-> attempts d !! i = Some a /\ c <= at_attemptedAt a.
Proof.
  cbn. rewrite map_lookup_filter_Some. unfold expired. cbn. split; intros [? ?]; (split; [done|lia]).
Qed.

(** Whatever fails, the job deletes all attempts from before the cutoff or none,
    and touches no other table; with a retention that is no number it deletes none. *)
Theorem purge_deletes_expired sched n env w :
  let '(r, w', _) := run sched n (purge env) w in
  (w_queue w' = w_queue w /\ w_redis w' = w_redis w /\ w_trace w' = w_trace w) /\
  match cutoff (w_now w) (DAYS env) with
  | None => r = inl invalid_date /\ w_db w' = w_db w
  | Some c =>
      (w_db w' = w_db w \/ w_db w' = purged c (w_db w)) /\
      forall count, r = inr count ->
        w_db w' = purged c (w_db w) /\ (count + size (attempts (w_db w')) = size (attempts (w_db w)))%nat
  end.
Proof.
  unfold purge. rewrite run_bind. unfold Date_now, query, call. cbn [run]. unfold Effects.attempt. cbv beta iota zeta. cbn [run].
  destruct (cutoff (w_now w) (DAYS env)) as [c|]; [|done].
  assert (size (filter (expired c) (attempts (w_db w))) + size (attempts (purged c (w_db w))) = size (attempts (w_db w)))%nat as Hs.
  { rewrite <- map_size_disj_union by apply map_disjoint_filter_complement. cbn. by rewrite map_filter_union_complement. }
  unfold transaction, call. cbn [run]. unfold Effects.attempt, attempt_deleteMany.
  destruct (sched (S n)) as [|e|e]; cbn [run].
  - split; [done|]. split; [by right|]. intros count [= <-]. split; [done|]. exact Hs.
  - split; [done|]. split; [by left|done].
  - split; [done|]. split; [by right|done].
Qed.

(** A variable that is set but empty (or blank) is 0 days: everything before this
    moment is deleted. *)
Theorem blank_retention_purges_all w :
  0 <= w_now w <= 8640000000000000 ->
  exec (purge (Some "")) w =
    (inr (size (filter (expired (w_now w)) (attempts (w_db w)))), with_db (purged (w_now w)) w).
Proof.
  intros Hn. unfold purge. rewrite exec_bind, exec_Date_now. cbn [exec].
  assert (cutoff (w_now w) (DAYS (Some "")) = Some (w_now w)) as ->.
  { change (DAYS (Some "")) with (Decimal 0 0). unfold cutoff, time_clip. cbn [Z.leb Z.compare].
    replace (w_now w - 0 * 10 ^ 0 * DAY_MS) with (w_now w) by lia. by rewrite (proj2 (Z.leb_le _ _)) by lia. }
  by rewrite exec_transaction.
Qed.

End purge.

Lemma blank_retention_purges_all_witness :
  let w := world_at 1000000 (set_attempts (insert 1 (mkAttempt "d" 1 "g" (Some 200) None None (Some 20) 999999)) 2 empty_db) 200 in
  (exec (purge (Some "")) w).1 = inr 1%nat /\ attempts (w_db (exec (purge (Some "")) w).2) !! 1 = None.
Proof.
  intros w. pose proof (blank_retention_purges_all w ltac:(cbn; lia)) as ->. by vm_compute.
Defined.

Example default_retention : cutoff 10000000000 (DAYS None) = Some 2224000000.
Proof. reflexivity. Qed.
