(* ===== verification/DeliveryPool.v ===== *)
(** * At-least-once, bounded: all processes together

    Any number of API, relay and worker processes run concurrently over one
    database, queue and Redis, interleaved at every statement and command, with
    failures, lost answers, crashes and jobs delivered any number of times.  The
    unique attempt row a worker must insert before it sends is what bounds the
    requests.  The proof is a rely-guarantee argument ([Concurrency.v]) over the
    ledger of [Ledger.v]. *)

From S2P Require Import Prelude JsNumber Backoff Errors Effects Concurrency Json Platform Schema World Config TestPlatform Signature.
From S2P Require Import CircuitStore TenantLimiter SecretCipher EndpointCache HttpClient Processor Worker Relay RateLimit.
From S2P Require Import Events Deliveries Ssrf Endpoints Tenancy Footprint Ledger.
From stdpp Require Import relations.
Open Scope Z_scope.
Open Scope hook_scope.

Section pool.
Context `{P : Platform}.
Variable cfg : Config.

(** Attempts a delivery gets without being redelivered. *)
Definition quota : Z := Z.max 1 (HR_MAX_ATTEMPTS cfg).

(** A worker that has claimed attempt row [i] owns two tokens: [(i, true)] is the
    right to send its request, [(i, false)] the right to record its verdict. *)
Notation tokens := (gset (Z * bool)).

Definition spent (D : string) (X : tokens) (w : World) : gmap Z (string * Z) :=
  filter (fun p : Z * (string * Z) => p.2.1 = D /\ (p.1, true) ∉ X) (claims w).

(** The global invariant while the running programs own the tokens [X]. *)
Record pool_ok (w : World) (X : tokens) : Prop := {
  po_seqs : seqs_ok w;
  po_fk : forall i D n, claims w !! i = Some (D, n) -> is_Some (progress w !! D);
  po_unique : forall i j c, claims w !! i = Some c -> claims w !! j = Some c -> i = j;
  po_rows : forall D c b, progress w !! D = Some (c, b) ->
    0 <= c /\ exists k, c <= k <= c + 1 /\ k <= quota + Z.of_nat (granted D w) /\
      forall n, (exists i, claims w !! i = Some (D, n)) <-> 1 <= n <= k;
  po_todo : forall D c, progress w !! D = Some (c, false) -> c < quota + Z.of_nat (granted D w);
  po_open : forall i, (i, false) ∈ X ->
    exists D c b, claims w !! i = Some (D, c + 1) /\ progress w !! D = Some (c, b);
  po_owned : forall i b, (i, b) ∈ X -> is_Some (claims w !! i);
  po_sent : forall D, (sent D w <= size (spent D X w))%nat;
}.

(** What every step leaves in place: a delivery's count never falls, a delivery
    that is not done stays so until its count moves, and a claim is for ever. *)
Definition pool_rel (w w' : World) : Prop :=
  (forall D c b, progress w !! D = Some (c, b) ->
     exists c' b', progress w' !! D = Some (c', b') /\ c <= c' /\ (c' = c -> b = false -> b' = false)) /\
  (forall i cl, claims w !! i = Some cl -> claims w' !! i = Some cl).

#[export] Instance pool_rel_preorder : PreOrder pool_rel.
Proof.
  split.
  - intros w. split; [|done]. intros D c b H. exists c, b. split_and!; [done|lia|done].
  - intros w1 w2 w3 [P1 C1] [P2 C2]. split; [|auto]. intros D c b H.
    destruct (P1 D c b H) as (c1 & b1 & H1 & Hc1 & Hb1). destruct (P2 D c1 b1 H1) as (c2 & b2 & H2 & Hc2 & Hb2).
    exists c2, b2. split_and!; [done|lia|]. intros -> Hb. apply Hb2; [lia|]. apply Hb1; [lia|done].
Qed.

Lemma spent_subset D X X' w : X' ⊆ X -> spent D X w ⊆ spent D X' w.
Proof.
  intros HX. apply map_subseteq_spec. intros i c. unfold spent. rewrite !map_lookup_filter_Some.
  intros (? & ? & ?). split_and!; try done. set_solver.
Qed.

(** Tokens may be dropped. *)
Lemma pool_ok_drop w X X' : X' ⊆ X -> pool_ok w X -> pool_ok w X'.
Proof.
  intros HX [H1 H2 H3 H4 H5 H6 H7 H8]. split; try done; [by eauto|by eauto|].
  intros D. etrans; [apply H8|]. apply map_subseteq_size, spent_subset, HX.
Qed.

(** *** Steps that keep the ledger *)

Lemma pool_ok_ledger w w' X : keeps_ledger w w' -> pool_ok w X -> pool_ok w' X /\ pool_rel w w'.
Proof.
  intros Hk [H1 H2 H3 H4 H5 H6 H7 H8]. destruct (Hk H1) as [Hs [Lc Lq Ls Lg Lo Ln]].
  assert (forall D c b, progress w' !! D = Some (c, b) ->
    (exists b0, progress w !! D = Some (c, b0) /\ (b = b0 \/ b = false /\ (granted D w < granted D w')%nat)) \/
    progress w !! D = None /\ c = 0 /\ b = false) as Hback.
  { intros D c b Hb. destruct (progress w !! D) as [[c0 b0]|] eqn:E; [left|right].
    - destruct (Lo D c0 b0 E) as (b' & Hb' & Hor). rewrite Hb in Hb'. injection Hb' as -> ->. eauto.
    - by destruct (Ln D c b Hb E). }
  split; [|split].
  - split; rewrite ?Lc; try done.
    + intros i D n Hi. apply H2 in Hi as [[c b] Hi]. destruct (Lo D c b Hi) as (b' & ? & _). by eexists.
    + intros D c b Hb. specialize (Lg D). destruct (Hback D c b Hb) as [(b0 & H0 & _)|(H0 & -> & _)].
      * destruct (H4 D c b0 H0) as [? (k & ? & ? & ?)]. split; [done|]. exists k. split_and!; try done; lia.
      * split; [done|]. exists 0. split_and!; [lia|lia|unfold quota; lia|]. intros n.
        split; [|lia]. intros [i Hi]. apply H2 in Hi as [? Hi]. congruence.
    + intros D c Hb. specialize (Lg D). destruct (Hback D c false Hb) as [(b0 & H0 & Hor)|(H0 & -> & _)].
      * destruct Hor as [<-|[_ Hg]]; [specialize (H5 D c H0); lia|].
        destruct (H4 D c b0 H0) as [? (k & ? & ? & ?)]. lia.
      * unfold quota. lia.
    + intros i Hi. destruct (H6 i Hi) as (D & c & b & Hc & Hp). destruct (Lo D c b Hp) as (b' & ? & _).
      by exists D, c, b'.
    + intros D. rewrite Ls. unfold spent. rewrite Lc. apply H8.
  - intros D c b Hb. destruct (Lo D c b Hb) as (b' & ? & Hor). exists c, b'. split_and!; [done|lia|].
    intros _ ->. by destruct Hor as [|[? _]].
  - intros i cl Hi. by rewrite Lc.
Qed.

(** *** Claiming an attempt *)

(** The step of a claim: row [i] for attempt [n] of [D]. *)
Record claims_row (i : Z) (D : string) (n : Z) (w w' : World) : Prop := {
  cr_id : i = attempt_seq (w_db w);
  cr_seq : attempt_seq (w_db w') = i + 1;
  cr_claims : claims w' = <[i := (D, n)]> (claims w);
  cr_progress : progress w' = progress w;
  cr_outbox : outbox (w_db w') = outbox (w_db w) /\ outbox_seq (w_db w') = outbox_seq (w_db w);
  cr_dom : forall j, is_Some (attempts (w_db w') !! j) -> j = i \/ is_Some (attempts (w_db w) !! j);
  cr_requests : requests w' = requests w;
}.

Definition pair_of (i : Z) : tokens := {[ (i, true); (i, false) ]}.

Lemma claims_fresh w : seqs_ok w -> claims w !! attempt_seq (w_db w) = None.
Proof.
  intros [H _]. unfold claims. rewrite lookup_fmap.
  destruct (attempts (w_db w) !! attempt_seq (w_db w)) eqn:E; [|done].
  specialize (H _ (mk_is_Some _ _ E)). lia.
Qed.

Lemma rows_of_claim i D n w w' D' m :
  claims_row i D n w w' -> claims w !! i = None ->
  (exists j, claims w' !! j = Some (D', m)) <-> (D' = D /\ m = n) \/ exists j, claims w !! j = Some (D', m).
Proof.
  intros H Hfr. rewrite (cr_claims _ _ _ _ _ H). split.
  - intros [j [[_ [= -> ->]]|[_ Hj]]%lookup_insert_Some]; [by left|right; eauto].
  - intros [[-> ->]|[j Hj]]; [exists i; apply lookup_insert_eq|].
    exists j. rewrite lookup_insert_ne; [done|]. intros ->. congruence.
Qed.

Lemma seqs_claim i D n w w' : claims_row i D n w w' -> seqs_ok w -> seqs_ok w'.
Proof.
  intros H [H1 H2]. split.
  - intros j [->|Hj]%(cr_dom _ _ _ _ _ H); rewrite (cr_seq _ _ _ _ _ H); [lia|].
    apply H1 in Hj. rewrite (cr_id _ _ _ _ _ H). lia.
  - destruct (cr_outbox _ _ _ _ _ H) as [-> ->]. done.
Qed.

Lemma spent_claim i D n w w' X D' :
  claims_row i D n w w' -> claims w !! i = None -> spent D' (pair_of i ∪ X) w' = spent D' X w.
Proof.
  intros H Hfr. unfold spent. rewrite (cr_claims _ _ _ _ _ H). unfold pair_of.
  rewrite map_filter_insert_False by (cbn; set_solver). rewrite delete_id by done.
  apply map_filter_ext. intros j [D0 m] Hj. cbn. assert (j <> i) by (intros ->; congruence). set_solver.
Qed.

Lemma pool_ok_claim i D c w w' X :
  claims_row i D (c + 1) w w' -> progress w !! D = Some (c, false) ->
  (forall j, claims w !! j <> Some (D, c + 1)) ->
  pool_ok w X -> pool_ok w' (pair_of i ∪ X) /\ pool_rel w w' /\ pair_of i ## X.
Proof.
  intros H HD Hfree [H1 H2 H3 H4 H5 H6 H7 H8].
  assert (claims w !! i = None) as Hfr by (rewrite (cr_id _ _ _ _ _ H); by apply claims_fresh).
  assert (forall D', granted D' w' = granted D' w) as Hg
    by (intros D'; unfold granted; by rewrite (proj1 (cr_outbox _ _ _ _ _ H))).
  assert (forall j b, (j, b) ∈ X -> j <> i) as Hne by (intros j b [? ?]%H7 ->; congruence).
  pose proof (rows_of_claim i D (c + 1) w w') as Hrows.
  split; [|split; [split|]].
  - split; rewrite ?(cr_progress _ _ _ _ _ H).
    + by eapply seqs_claim.
    + intros j D' n Hj. rewrite (cr_claims _ _ _ _ _ H) in Hj.
      apply lookup_insert_Some in Hj as [[_ [= <- <-]]|[_ Hj]]; [by rewrite HD|eauto].
    + intros j1 j2 cl. rewrite (cr_claims _ _ _ _ _ H), !lookup_insert_Some.
      intros [[<- <-]|[? E1]] [[<- E]|[? E2]]; try done; [by apply Hfree in E2|subst; by apply Hfree in E1|eauto].
    + intros D' c' b' Hp. destruct (H4 D' c' b' Hp) as [? (k & Hk & Hb & Hn)]. split; [done|].
      destruct (decide (D' = D)) as [->|HneD].
      * rewrite HD in Hp. injection Hp as <- <-. exists (c + 1). rewrite Hg. specialize (H5 D c HD).
        assert (k = c) as -> by (destruct (decide (k = c + 1)) as [->|]; [|lia];
          destruct (proj2 (Hn (c + 1)) ltac:(lia)) as [j Hj]; by apply Hfree in Hj).
        split_and!; [lia|lia|lia|]. intros n. rewrite Hrows by done. rewrite Hn. split; [intros [[_ ->]|]; lia|].
        intros ?. destruct (decide (n = c + 1)); [by left|right; lia].
      * exists k. rewrite Hg. split_and!; try done; [lia|lia|]. intros n. rewrite Hrows by done. rewrite Hn. naive_solver.
    + intros D' c' Hp. rewrite Hg. eauto.
    + intros j Hj. unfold pair_of in Hj. rewrite (cr_claims _ _ _ _ _ H).
      destruct (decide (j = i)) as [->|Hji].
      * exists D, c, false. by rewrite lookup_insert_eq.
      * destruct (H6 j) as (D' & c' & b' & ? & ?); [set_solver|]. exists D', c', b'. by rewrite lookup_insert_ne.
    + intros j b Hj. rewrite (cr_claims _ _ _ _ _ H). apply lookup_insert_is_Some'.
      unfold pair_of in Hj. destruct (decide (i = j)); [by left|right]. apply (H7 j b). set_solver.
    + intros D'. rewrite (spent_claim i D (c + 1) w w' X D') by done. unfold sent.
      rewrite (cr_requests _ _ _ _ _ H). apply H8.
  - intros D' c' b' Hp. rewrite (cr_progress _ _ _ _ _ H). exists c', b'. split_and!; [done|lia|done].
  - intros j cl Hj. rewrite (cr_claims _ _ _ _ _ H), lookup_insert_ne; [done|]. intros ->. congruence.
  - unfold pair_of. intros [j b] Hj Hx. specialize (Hne j b Hx). set_solver.
Qed.

(** *** Sending the request of a claimed attempt *)

Record sends_one (D : string) (w w' : World) : Prop := {
  so_db : w_db w' = w_db w;
  so_requests : exists rq, requests w' = requests w ++ [ObsHttp rq] /\ request_delivery rq = Some D;
}.

Lemma sent_one D w w' D' :
  sends_one D w w' -> sent D' w' = (sent D' w + if decide (D = D') then 1 else 0)%nat.
Proof.
  intros [_ (rq & Hr & Hd)]. unfold sent. rewrite Hr, List.filter_app, length_app. f_equal. cbn.
  rewrite Hd. destruct (decide (D = D')) as [->|Hne]; [by rewrite bool_decide_true|].
  rewrite bool_decide_false; [done|]. congruence.
Qed.

Lemma spent_more D i n X w :
  claims w !! i = Some (D, n) -> (i, true) ∈ X ->
  (size (spent D (X ∖ {[(i, true)]}) w) = size (spent D X w) + 1)%nat.
Proof.
  intros Hi HX. assert (spent D (X ∖ {[(i, true)]}) w = <[i := (D, n)]> (spent D X w)) as ->.
  { apply map_eq. intros j. unfold spent. destruct (decide (j = i)) as [->|Hne].
    - rewrite lookup_insert_eq. apply map_lookup_filter_Some. split; [done|]. cbn. set_solver.
    - rewrite lookup_insert_ne by done. apply option_eq. intros c. rewrite !map_lookup_filter_Some. cbn.
      split; intros (? & ? & ?); split_and!; try done; set_solver. }
  rewrite map_size_insert_None; [lia|]. apply map_lookup_filter_None. right. cbn. intros c _ [_ ?]. done.
Qed.

Lemma pool_ok_send D i n w w' X :
  sends_one D w w' -> claims w !! i = Some (D, n) -> (i, true) ∈ X ->
  pool_ok w X -> pool_ok w' (X ∖ {[(i, true)]}) /\ pool_rel w w'.
Proof.
  intros H Hi HX [H1 H2 H3 H4 H5 H6 H7 H8]. pose proof (so_db _ _ _ H) as Hdb.
  assert (claims w' = claims w) as Hc by (unfold claims; by rewrite Hdb).
  assert (progress w' = progress w) as Hp by (unfold progress; by rewrite Hdb).
  assert (forall D', granted D' w' = granted D' w) as Hg by (intros D'; unfold granted; by rewrite Hdb).
  split.
  - split; rewrite ?Hc, ?Hp; try done.
    + unfold seqs_ok. by rewrite Hdb.
    + intros D' c b Hb. rewrite Hg. by eapply H4.
    + intros D' c Hb. rewrite Hg. by apply H5.
    + intros j Hj. apply H6. set_solver.
    + intros j b Hj. apply (H7 j b). set_solver.
    + intros D'. rewrite (sent_one D w w' D' H). unfold spent. rewrite Hc.
      fold (spent D' (X ∖ {[(i, true)]}) w). specialize (H8 D'). destruct (decide (D = D')) as [->|].
      * rewrite (spent_more D' i n) by done. lia.
      * rewrite Nat.add_0_r. etrans; [exact H8|]. apply map_subseteq_size, spent_subset. set_solver.
  - split; [|by rewrite Hc]. rewrite Hp. intros D' c b Hb. exists c, b. split_and!; [done|lia|done].
Qed.

(** *** Recording the verdict of a claimed attempt *)

Record records_verdict (D : string) (n : Z) (b : bool) (w w' : World) : Prop := {
  rv_claims : claims w' = claims w;
  rv_seqs : seqs_ok w -> seqs_ok w';
  rv_outbox : outbox (w_db w') = outbox (w_db w);
  rv_progress : progress w' = <[D := (n, b)]> (progress w);
  rv_requests : requests w' = requests w;
  rv_todo : b = false -> n < HR_MAX_ATTEMPTS cfg;
}.

Lemma pool_ok_verdict i D n b w w' X :
  records_verdict D n b w w' -> claims w !! i = Some (D, n) -> (i, false) ∈ X ->
  pool_ok w X -> pool_ok w' (X ∖ {[(i, false)]}) /\ pool_rel w w'.
Proof.
  intros [Hc Hs Ho Hp Hr Ht] Hi HX [H1 H2 H3 H4 H5 H6 H7 H8].
  destruct (H6 i HX) as (D0 & c & b0 & Hi0 & HD). rewrite Hi in Hi0. injection Hi0 as <- ->.
  assert (forall D', granted D' w' = granted D' w) as Hg by (intros D'; unfold granted; by rewrite Ho).
  split.
  - split; rewrite ?Hc, ?Hp; try done; [by apply Hs|..].
    + intros j D' n Hj. apply lookup_insert_is_Some'. right. eauto.
    + intros D' c' b' [[<- [= <- <-]]|[_ Hb]]%lookup_insert_Some; rewrite Hg; [|by eapply H4].
      destruct (H4 D c b0 HD) as [? (k & Hk & ? & Hn)]. split; [lia|]. exists k.
      assert (1 <= c + 1 <= k) by (apply Hn; eauto). split_and!; try done; lia.
    + intros D' c' [[<- [= <- ->]]|[_ Hb]]%lookup_insert_Some; rewrite Hg; [|by apply H5].
      specialize (Ht eq_refl). unfold quota. lia.
    + intros j Hj. destruct (H6 j) as (D' & c' & b' & Hj' & Hp'); [set_solver|].
      destruct (decide (D' = D)) as [->|Hne].
      * rewrite HD in Hp'. injection Hp' as <- <-. assert (j = i) as -> by (by eapply H3). set_solver.
      * exists D', c', b'. by rewrite lookup_insert_ne.
    + intros j b' Hj. apply (H7 j b'). set_solver.
    + intros D'. unfold sent. rewrite Hr. unfold spent. rewrite Hc. etrans; [apply H8|].
      apply map_subseteq_size, spent_subset. set_solver.
  - split; [|by rewrite Hc]. intros D' c' b' Hb. rewrite Hp. destruct (decide (D' = D)) as [->|Hne].
    + rewrite HD in Hb. injection Hb as <- <-. exists (c + 1), b. rewrite lookup_insert_eq.
      split_and!; [done|lia|lia].
    + exists c', b'. rewrite lookup_insert_ne by done. split_and!; [done|lia|done].
Qed.

(** ** The job handler *)

Notation pwp := (wp pool_ok pool_rel).

Lemma wp_ledger {B} K T (p : prog World B) Q :
  acts keeps_ledger p -> stable pool_rel K -> (forall r, Q r K T) -> pwp K T p Q.
Proof. apply wp_acts; [apply _|]. intros. by apply pool_ok_ledger. Qed.

(** What a worker knows of a delivery it read with [c] attempts and not done. *)
Definition known (D : string) (c : Z) (w : World) : Prop :=
  exists c' b, progress w !! D = Some (c', b) /\ 0 <= c <= c' /\ (c' = c -> b = false).

Definition holds (i : Z) (D : string) (n : Z) (w : World) : Prop := claims w !! i = Some (D, n).

Lemma known_stable D c : stable pool_rel (known D c).
Proof.
  intros w w' [Hp _] (c1 & b1 & H1 & Hc & Hb). destruct (Hp D c1 b1 H1) as (c2 & b2 & H2 & Hc2 & Hb2).
  exists c2, b2. split_and!; [done|lia|lia|]. intros ->. apply Hb2; [lia|]. apply Hb. lia.
Qed.

Lemma holds_stable i D n : stable pool_rel (holds i D n).
Proof. intros w w' [_ Hc]. apply Hc. Qed.

Lemma True_stable : stable pool_rel (fun _ : World => True).
Proof. done. Qed.

Lemma claim_step D n digest w r w' :
  (let '(r, w') := attempt_create D n digest w in
   match r with inl e => (inl e, with_db (fun _ => w_db w) w') | inr x => (inr x, w') end) = (r, w') ->
  (exists e, r = inl e /\ keeps_ledger w w') \/
  (exists i, r = inr i /\ claims_row i D n w w' /\ forall j, claims w !! j <> Some (D, n)).
Proof.
  unfold attempt_create. destruct (attempt_taken D n (w_db w)) eqn:Ht.
  { intros [= <- <-]. left. eexists. split; [done|]. by apply ledger_same_db. }
  destruct (deliveries (w_db w) !! D) as [d|].
  2:{ intros [= <- <-]. left. eexists. split; [done|]. by apply ledger_same_db. }
  intros [= <- <-]. right. exists (attempt_seq (w_db w)). split; [done|]. split.
  - split; try done.
    + unfold claims. cbn. by rewrite fmap_insert.
    + cbn. intros j [->|?]%lookup_insert_is_Some'; [by left|by right].
  - intros j Hj. unfold claims in Hj. rewrite lookup_fmap in Hj. apply fmap_Some in Hj as (a & Ha & [= -> ->]).
    rewrite attempt_taken_false in Ht. by apply (Ht j a Ha).
Qed.

Lemma known_at_claim D c w X :
  known D c w -> pool_ok w X -> (forall j, claims w !! j <> Some (D, c + 1)) -> progress w !! D = Some (c, false).
Proof.
  intros (c' & b & Hp & Hc & Hb) HI Hfree. destruct (po_rows _ _ HI D c' b Hp) as [? (k & Hk & _ & Hn)].
  assert (c' = c) as ->.
  { destruct (decide (c' = c)); [done|]. destruct (proj2 (Hn (c + 1)) ltac:(lia)) as [j Hj]. by apply Hfree in Hj. }
  by rewrite Hb in Hp.
Qed.

Lemma wp_claim (K : World -> Prop) D c digest Q :
  (forall w, K w -> known D c w) ->
  (forall r, (forall i, r <> inr (Some i)) -> Q r (known D c) ∅) ->
  (forall i, Q (inr (Some i)) (holds i D (c + 1)) (pair_of i)) ->
  pwp K ∅ (claim D (c + 1) digest) Q.
Proof.
  intros HKn Hno Hyes. unfold claim. apply wp_catch, wp_bind. simpl. intros w O _ HK%HKn HI r w' Hout.
  assert (forall e, Q (inl e) (known D c) ∅) as He by (intros e; by apply Hno).
  assert (forall e w', pool_ok w' (∅ ∪ O) /\ pool_rel w w' ->
    pool_rel w w' /\ exists K' T', stable pool_rel K' /\ K' w' /\ O ## T' /\ pool_ok w' (T' ∪ O) /\
      pwp K' T' (match (inl e : exn + Z) with inl e => Throw e | inr x => Ret x end) (fun r K T =>
        match r with
        | inl e => pwp K T (if is_P2002 e then Ret None else Throw e) Q
        | inr b => Q (inr (Some b)) K T end)) as Hfail.
  { intros e w1 [Hok Hrel]. split; [done|]. exists (known D c), ∅.
    split_and!; [apply known_stable|by eapply known_stable|set_solver|done|]. cbn.
    destruct (is_P2002 e); [by apply Hno|apply He]. }
  destruct Hout as [r w1 Hf|e _|e r w1 _ Hf].
  - destruct (claim_step _ _ _ _ _ _ Hf) as [(e & -> & Hk)|(i & -> & Hrow & Hfree)].
    + apply Hfail. by apply pool_ok_ledger.
    + destruct (pool_ok_claim i D c w w1 (∅ ∪ O) Hrow) as (Hok & Hrel & Hdisj); try done.
      { by eapply known_at_claim. }
      split; [done|]. exists (holds i D (c + 1)), (pair_of i). rewrite union_empty_l_L in *.
      split_and!; [apply holds_stable| |done|done|apply Hyes].
      unfold holds. rewrite (cr_claims _ _ _ _ _ Hrow). apply lookup_insert_eq.
  - apply Hfail. split; [done|reflexivity].
  - apply Hfail. destruct (claim_step _ _ _ _ _ _ Hf) as [(e' & -> & Hk)|(i & -> & Hrow & Hfree)].
    + by apply pool_ok_ledger.
    + destruct (pool_ok_claim i D c w w1 (∅ ∪ O) Hrow) as (Hok & Hrel & Hdisj); try done.
      { by eapply known_at_claim. }
      split; [|done]. eapply pool_ok_drop; [|exact Hok]. set_solver.
Qed.

Lemma wp_find D Q :
  (forall r, (forall d ev, r <> inr (Some (d, ev))) -> Q r (fun _ => True) ∅) ->
  (forall d ev, Q (inr (Some (d, ev))) (fun w => is_done d = false -> known D (dl_attemptCount d) w) ∅) ->
  pwp (fun _ => True) ∅ (db_read (find_delivery D)) Q.
Proof.
  intros Hno Hyes. apply wp_read with (K' := fun x => match x with
    | Some (d, _) => fun w => is_done d = false -> known D (dl_attemptCount d) w | None => fun _ => True end).
  - apply _.
  - done.
  - intros [[d ev]|]; [|done]. intros w1 w2 H12 H Hd. eapply known_stable; eauto.
  - intros w X _ HI. destruct (find_delivery D (w_db w)) as [[d ev]|] eqn:E; [|done]. intros Hd.
    apply find_delivery_Some in E as [E _].
    assert (progress w !! D = Some (dl_attemptCount d, false)) as Hp.
    { unfold progress. rewrite lookup_fmap, E. cbn. unfold progress_of. by rewrite Hd. }
    exists (dl_attemptCount d), false. destruct (po_rows _ _ HI _ _ _ Hp) as [? _]. by split_and!.
  - intros e. by apply Hno.
  - intros [[d ev]|]; [apply Hyes|by apply Hno].
Qed.

(** *** Sending *)

Lemma exchange_step rq timeoutMs w r w' :
  (let w' := observe (ObsHttp rq) (drawn w) in
   let '(r, lat) := match http_reply (w_draws w) rq with
     | Responds status text lat => (inr (status, text), lat)
     | Fails e lat => (inl e, lat) end in
   if timeoutMs <? lat then (inl TimeoutError, elapse timeoutMs w') else (r, elapse lat w')) = (r, w') ->
  w_db w' = w_db w /\ requests w' = requests w ++ [ObsHttp rq].
Proof.
  assert (forall d, requests (elapse d (observe (ObsHttp rq) (drawn w))) = requests w ++ [ObsHttp rq]) as H.
  { intros d. unfold requests. cbn. by rewrite List.filter_app. }
  destruct (http_reply (w_draws w) rq) as [st text lat|e lat]; cbv beta iota zeta;
    destruct (timeoutMs <? lat); intros [= <- <-]; by rewrite H.
Qed.

Lemma wp_exchange D i n T rq timeoutMs Q :
  request_delivery rq = Some D -> (i, true) ∈ T -> (i, false) ∈ T ->
  (forall r T', (i, false) ∈ T' -> Q r (holds i D n) T') ->
  pwp (holds i D n) T (http_exchange rq timeoutMs) Q.
Proof.
  intros Hrq Ht Hf HQ. unfold http_exchange, call. cbn [wp]. intros w O HO HK HI r w' Hout.
  assert (pool_rel w w' /\ exists T', O ## T' /\ (i, false) ∈ T' /\ pool_ok w' (T' ∪ O)) as (Hrel & T' & HO' & Hf' & Hok).
  { assert (forall w', w_db w' = w_db w -> requests w' = requests w ++ [ObsHttp rq] ->
      pool_rel w w' /\ exists T', O ## T' /\ (i, false) ∈ T' /\ pool_ok w' (T' ∪ O)) as Hsend.
    { intros w1 Hdb Hr. destruct (pool_ok_send D i n w w1 (T ∪ O)) as [Hok Hrel]; try done; [by split; eauto|set_solver|].
      split; [done|]. exists (T ∖ {[(i, true)]}). split_and!; [set_solver|set_solver|].
      eapply pool_ok_drop; [|exact Hok]. set_solver. }
    destruct Hout as [r w1 E|e _|e r w1 _ E].
    - destruct (exchange_step _ _ _ _ _ E). by apply Hsend.
    - split; [reflexivity|]. by exists T.
    - destruct (exchange_step _ _ _ _ _ E). by apply Hsend. }
  split; [done|]. exists (holds i D n), T'. split_and!; try done; [apply holds_stable|by eapply holds_stable|].
  destruct r; by apply HQ.
Qed.

Lemma wp_send D i n T url headers body timeoutMs Q :
  request_delivery (mkRequest url headers body) = Some D -> (i, true) ∈ T -> (i, false) ∈ T ->
  (forall r T', (i, false) ∈ T' -> Q r (holds i D n) T') ->
  pwp (holds i D n) T (send cfg url headers body timeoutMs) Q.
Proof.
  intros Hrq Ht Hf HQ. pose proof (holds_stable i D n) as HK.
  unfold send. apply wp_bind, wp_ledger; [apply (fp_now keeps_ledger)|done|]. intros [e|startedAt]; [by apply HQ|].
  apply wp_catch. match goal with |- wp _ _ _ _ _ ?q => set (Q1 := q) end.
  assert (forall e T', (i, false) ∈ T' -> Q1 (inl e) (holds i D n) T') as He.
  { intros e T' HT'. apply wp_bind, wp_ledger; [apply (fp_now keeps_ledger)|done|]. intros [|now]; by apply HQ. }
  assert (forall x T', (i, false) ∈ T' -> Q1 (inr x) (holds i D n) T') as Hx by (intros x T' ?; by apply HQ).
  clearbody Q1. apply wp_bind, wp_ledger; [apply (check_literal_footprint keeps_ledger)|done|]. intros [e|_]; [by apply He|].
  apply wp_bind. match goal with |- wp _ _ _ _ _ ?q => set (Q2 := q) end.
  assert (forall r T', (i, false) ∈ T' -> Q2 r (holds i D n) T') as H2.
  { intros [e|[st text]] T' HT'; [by apply He|]. apply wp_bind, wp_ledger; [apply (fp_now keeps_ledger)|done|].
    intros [|now]; [by apply He|]. by destruct (_ && _); apply Hx. }
  clearbody Q2. unfold request. apply wp_bind, wp_ledger; [by apply acts_query, _|done|].
  intros [e|[]]; [by apply H2|by eapply wp_exchange|]. cbn [rq_url].
  destruct (parse_url url) as [u|]; [|by apply H2]. destruct (negb _).
  - apply wp_bind, wp_ledger; [apply (connect_footprint keeps_ledger)|done|]. intros [e|_]; [by apply H2|by eapply wp_exchange].
  - apply wp_bind, wp_ledger; [apply (fp_dns keeps_ledger)|done|]. intros [e|addrs]; [by apply H2|].
    destruct (lookup_hook cfg addrs); [by apply H2|].
    apply wp_bind, wp_ledger; [apply (connect_footprint keeps_ledger)|done|]. intros [e|_]; [by apply H2|by eapply wp_exchange].
Qed.

(** *** Recording the outcome *)

Lemma stm_attempt_update id f :
  (forall a, claim_of (f a) = claim_of a) -> stm_ledger (attempt_update id f).
Proof.
  intros Hf. split; [apply db_only_attempt_update|]. intros w. unfold attempt_update.
  destruct (attempts (w_db w) !! id) as [a|] eqn:Ha; [|done]. destruct (text_ok _); [|done].
  intros [H1 H2]. split.
  - split; [|exact H2]. cbn. intros j [<-|Hj]%lookup_insert_is_Some'; [by eapply H1|by apply H1].
  - split; try done; [|intros D c b Hb; exists b; split; [exact Hb|by left]|].
    + unfold claims. cbn. rewrite fmap_insert, Hf. apply insert_id. by rewrite lookup_fmap, Ha.
    + intros D c b Hb Hn. unfold progress in *. cbn in Hb. congruence.
Qed.

Lemma stm_delivery_update id f :
  (forall d now, progress_of (touch_delivery now (f d)) = progress_of d) -> stm_ledger (delivery_update id f).
Proof.
  intros Hf. split; [apply db_only_delivery_update|]. intros w. unfold delivery_update.
  destruct (deliveries (w_db w) !! id) as [d|] eqn:Hd; [|done]. intros Hs. split; [exact Hs|].
  assert (progress (with_db (set_deliveries (insert id (touch_delivery (w_now w) (f d)))) w) = progress w) as Hp.
  { unfold progress. cbn. rewrite fmap_insert, Hf. apply insert_id. by rewrite lookup_fmap, Hd. }
  split; try done; intros D c b Hb; cbn [snd] in *; rewrite ?Hp in *; [|congruence].
  exists b. by split; [|left].
Qed.

Lemma verdict_step D n b f w r w' :
  (forall d now, progress_of (touch_delivery now (f d)) = (n, b)) -> (b = false -> n < HR_MAX_ATTEMPTS cfg) ->
  (let '(r, w') := delivery_update D f w in
   match r with inl e => (inl e, with_db (fun _ => w_db w) w') | inr x => (inr x, w') end) = (r, w') ->
  keeps_ledger w w' \/ records_verdict D n b w w'.
Proof.
  intros Hf Hb. unfold delivery_update. destruct (deliveries (w_db w) !! D) as [d|] eqn:Hd.
  - intros [= <- <-]. right. split; try done. unfold progress. cbn. by rewrite fmap_insert, Hf.
  - intros [= <- <-]. left. by apply ledger_same_db.
Qed.

Lemma wp_verdict D i n b T f Q :
  (forall d now, progress_of (touch_delivery now (f d)) = (n, b)) -> (b = false -> n < HR_MAX_ATTEMPTS cfg) ->
  (i, false) ∈ T -> (forall r K T', stable pool_rel K -> Q r K T') ->
  pwp (holds i D n) T (transaction (delivery_update D f)) Q.
Proof.
  intros Hf Hb HT HQ. unfold transaction, call. cbn [wp]. intros w O HO HK HI r w' Hout.
  assert (pool_rel w w' /\ exists T', O ## T' /\ pool_ok w' (T' ∪ O)) as (Hrel & T' & HO' & Hok).
  { assert (forall r w', (let '(r, w') := delivery_update D f w in
      match r with inl e => (inl e, with_db (fun _ => w_db w) w') | inr x => (inr x, w') end) = (r, w') ->
      pool_rel w w' /\ exists T', O ## T' /\ pool_ok w' (T' ∪ O)) as Hstep.
    { intros r1 w1 E. destruct (verdict_step D n b f w r1 w1 Hf Hb E) as [Hk|Hv].
      - destruct (pool_ok_ledger _ _ _ Hk HI). split; [done|]. by exists T.
      - destruct (pool_ok_verdict i D n b w w1 (T ∪ O) Hv HK) as [Hok Hrel]; [set_solver|done|].
        split; [done|]. exists (T ∖ {[(i, false)]}). split; [set_solver|]. eapply pool_ok_drop; [|exact Hok]. set_solver. }
    destruct Hout as [r1 w1 E|e _|e r1 w1 _ E]; [by eapply Hstep| |by eapply Hstep].
    split; [reflexivity|]. by exists T. }
  split; [done|]. exists (holds i D n), T'. split_and!; try done; [apply holds_stable|by eapply holds_stable|].
  destruct r; apply HQ, holds_stable.
Qed.

Lemma wp_settle_success D ep i n T Q :
  (i, false) ∈ T -> (forall r K T', stable pool_rel K -> Q r K T') ->
  pwp (holds i D n) T (settle_success D ep n) Q.
Proof.
  intros HT HQ. pose proof (holds_stable i D n) as HK. unfold settle_success.
  apply wp_bind, wp_ledger; [apply (fp_circuit keeps_ledger), success_acts|done|].
  intros [e|_]; [by apply HQ|]. apply wp_bind, wp_ledger; [apply acts_ledger, stm_elsewhere, elsewhere_endpoint_update|done|].
  intros [e|_]; [by apply HQ|]. apply wp_bind. apply (wp_verdict D i n true); [done|done|done|].
  intros [e|_] K T' HK'; [by apply HQ|]. apply wp_bind, wp_ledger; [fp_count|done|].
  intros [e|_]; by apply HQ.
Qed.

Lemma failed_progress n d now :
  progress_of (touch_delivery now (set_failed (HR_MAX_ATTEMPTS cfg <=? n) n d)) = (n, HR_MAX_ATTEMPTS cfg <=? n).
Proof. unfold progress_of. by destruct (HR_MAX_ATTEMPTS cfg <=? n). Qed.

Lemma wp_settle_failure wid D ep i n c T Q :
  (i, false) ∈ T -> (forall r K T', stable pool_rel K -> Q r K T') ->
  pwp (holds i D n) T (settle_failure cfg wid D ep n c) Q.
Proof.
  intros HT HQ. pose proof (holds_stable i D n) as HK. unfold settle_failure.
  apply wp_bind, wp_ledger; [fp_count|done|]. intros [e|_]; [by apply HQ|].
  apply wp_bind, wp_ledger; [apply (fp_circuit keeps_ledger), failure_acts|done|].
  intros [e|[disable k]]; [by apply HQ|]. cbn [fst].
  apply wp_bind, wp_ledger; [apply acts_ledger, stm_elsewhere, elsewhere_endpoint_update|done|]. intros [e|_]; [by apply HQ|].
  apply wp_bind, wp_ledger; [|done|].
  { destruct disable; [|done]. apply invalidate_acts. intros w f. by apply ledger_same_db. }
  intros [e|_]; [by apply HQ|]. apply wp_bind. unfold maxAttempts.
  apply (wp_verdict D i n (HR_MAX_ATTEMPTS cfg <=? n)); [intros; apply failed_progress|lia|done|].
  intros [e|_] K T' HK'; [by apply HQ|]. apply wp_bind, wp_ledger; [fp_count|done|].
  intros [e|_]; by apply HQ.
Qed.

Lemma wp_finishFailure D i n c b t T Q :
  (i, false) ∈ T -> (forall r K T', stable pool_rel K -> Q r K T') ->
  pwp (holds i D n) T (finishFailure cfg D i n c b t) Q.
Proof.
  intros HT HQ. pose proof (holds_stable i D n) as HK. unfold finishFailure.
  apply wp_bind, wp_ledger; [by apply acts_ledger, stm_attempt_update|done|]. intros [e|_]; [by apply HQ|].
  apply wp_bind. unfold maxAttempts.
  apply (wp_verdict D i n (HR_MAX_ATTEMPTS cfg <=? n)); [intros; apply failed_progress|lia|done|].
  intros [e|_] K T' HK'; by apply HQ.
Qed.

Lemma request_of_headers url D ev secret body now :
  request_delivery (mkRequest url (delivery_headers D ev secret body now) body) = Some D.
Proof. done. Qed.

Lemma wp_run_attempt wid D d ep ev secret body now i n Q :
  (forall r K T', stable pool_rel K -> Q r K T') ->
  pwp (holds i D n) (pair_of i) (run_attempt cfg wid D d ep (delivery_headers D ev secret body now) body n i) Q.
Proof.
  intros HQ. pose proof (holds_stable i D n) as HK. unfold run_attempt.
  assert ((i, true) ∈ pair_of i /\ (i, false) ∈ pair_of i) as [Ht Hf] by (unfold pair_of; set_solver).
  apply wp_bind, wp_ledger; [apply (fp_circuit keeps_ledger), allow_acts|done|]. intros [e|[]]; [by apply HQ| |]; cbn [negb].
  - apply wp_bind. apply (wp_send D i n); [by apply request_of_headers|done|done|].
    intros [e|outcome] T HT; [by apply HQ|].
    apply wp_bind, wp_ledger; [fp_count|done|]. intros [e|_]; [by apply HQ|].
    apply wp_bind, wp_ledger; [by apply acts_ledger, stm_attempt_update|done|]. intros [e|_]; [by apply HQ|].
    destruct outcome; [by apply wp_settle_success|by apply wp_settle_failure].
  - do 3 (apply wp_bind, wp_ledger; [fp_count|done|]; intros [e|_]; [by apply HQ|]).
    by apply wp_finishFailure.
Qed.

Lemma wp_process wid D Q :
  (forall r K T', stable pool_rel K -> Q r K T') -> pwp (fun _ => True) ∅ (process cfg wid D) Q.
Proof.
  intros HQ. unfold process. apply wp_bind, wp_find.
  - intros [e|[[d ev]|]] Hr; [by apply HQ|by destruct (Hr d ev)|]. apply wp_ledger; [apply (skip_footprint keeps_ledger)|done|intros r; by apply HQ].
  - intros d ev. set (K0 := fun w : World => is_done d = false -> known D (dl_attemptCount d) w).
    assert (stable pool_rel K0) as HK0 by (intros w1 w2 H12 H Hd; eapply known_stable; eauto).
    fold (is_done d). destruct (is_done d) eqn:Hdone; [apply wp_ledger; [apply (skip_footprint keeps_ledger)|done|intros r; by apply HQ]|].
    apply wp_bind, wp_ledger; [apply get_acts; [apply _|intros; by apply ledger_same_db]|done|].
    intros [e|[ep|]]; [by apply HQ| |apply wp_ledger; [apply (skip_footprint keeps_ledger)|done|intros r; by apply HQ]].
    destruct (negb _); [apply wp_ledger; [apply (skip_footprint keeps_ledger)|done|intros r; by apply HQ]|].
    apply wp_bind, wp_ledger; [apply (fp_now keeps_ledger)|done|]. intros [e|now]; [by apply HQ|].
    apply wp_bind, wp_claim.
    + intros w H. by apply H.
    + intros [e|[i|]] Hr; [apply HQ, known_stable|by destruct (Hr i)|].
      apply wp_ledger; [apply (skip_footprint keeps_ledger)|apply known_stable|]. intros r. apply HQ, known_stable.
    + intros i. by apply wp_run_attempt.
Qed.

Lemma wp_process_and_retry wid D Q :
  (forall r K T', stable pool_rel K -> Q r K T') -> pwp (fun _ => True) ∅ (process_and_retry cfg wid D) Q.
Proof.
  intros HQ. unfold process_and_retry. apply wp_bind, wp_process. intros [e|res] K T' HK; [by apply HQ|].
  case_bool_decide; [|by apply HQ]. apply wp_ledger; [apply (schedule_retry_footprint keeps_ledger); intros; by apply acts_ledger, stm_delivery_update|done|]. intros r. by apply HQ.
Qed.

Lemma wp_handle_job wid job Q :
  (forall r K T', stable pool_rel K -> Q r K T') -> pwp (fun _ => True) ∅ (handle_job cfg wid job) Q.
Proof.
  intros HQ. pose proof True_stable as HK. unfold handle_job. apply wp_bind, wp_ledger; [|done|].
  { destruct (jd_tenantId (job_data job)); [done|apply (fp_read keeps_ledger)]. }
  intros [e|[[|ch t]|]]; [by apply HQ|by apply wp_process| |by apply wp_process].
  apply wp_bind, wp_ledger; [apply (fp_redis keeps_ledger), acquire_acts|done|]. intros [e|[]]; [by apply HQ| |]; cbn [negb].
  - apply wp_finally, wp_process_and_retry. intros r K T' HK'.
    apply wp_ledger; [apply (fp_redis keeps_ledger), release_acts|done|]. intros [e|_]; by apply HQ.
  - apply wp_bind, wp_ledger; [fp_count|done|]. intros [e|_]; [by apply HQ|].
    apply wp_bind, wp_ledger; [apply (fp_now keeps_ledger)|done|]. intros [e|now]; [by apply HQ|].
    apply wp_bind, wp_ledger; [apply (moveToDelayed_footprint keeps_ledger)|done|]. intros [e|_]; by apply HQ.
Qed.

(** ** The system *)

Definition discard {B} (p : prog World B) : prog World unit := bind p (fun _ => Ret tt).

(** What may be started at any time: the job handler of any worker on any job
    (delivered again or not), a pass of a relay, any request of the API. *)
Inductive routine : prog World unit -> Prop :=
| start_job wid job : routine (discard (handle_job cfg wid job))
| start_tick k : routine (discard (tick cfg k))
| start_publish t plan dto key : routine (discard (controller_publish cfg t plan dto key))
| start_event_deliveries t ev : routine (discard (getDeliveries t ev))
| start_list legacyDate uuid_ok t s c : routine (discard (list_deliveries legacyDate uuid_ok t s c))
| start_attempts t D : routine (discard (get_attempts t D))
| start_redeliver t D : routine (discard (redeliver t D))
| start_list_endpoints t : routine (discard (list_endpoints t))
| start_get_endpoint t e : routine (discard (get_endpoint t e))
| start_subscriptions t e types : routine (discard (setSubscriptions t e types))
| start_ping t e : routine (discard (ping t e))
| start_guard header : routine (discard (canActivate header))
| start_rotate t : routine (discard (Tenancy.rotate t))
| start_tenant name plan : routine (discard (create_tenant name plan))
| start_sample f : routine (discard (sampleQueue (query QueueService f))).

Inductive startable : prog World unit -> Prop :=
| start_create t dto : startable (discard (create cfg t dto))
| start_update t e dto : startable (discard (update_endpoint cfg t e dto))
| start_routine p : routine p -> startable p.

(** Around them time passes, Redis may lose or gain keys, the queue may forget or
    repeat jobs, and a worker process may lose its cache. *)
Inductive outside : World -> World -> Prop :=
| outside_step w r q t n c :
    outside w (mkWorld (w_db w) r q t n c (w_trace w)).

Lemma outside_ledger w w' : outside w w' -> keeps_ledger w w'.
Proof. intros []. by apply ledger_same_db. Qed.

Lemma start_ok p : startable p -> pwp (fun _ => True) ∅ p any_post.
Proof.
  assert (forall B (q : prog World B), acts keeps_ledger q -> pwp (fun _ => True) ∅ (discard q) any_post) as Hled.
  { intros B q Hq. apply wp_bind, wp_ledger; [done|done|]. by intros [|]. }
  intros [t dto|t e dto|p' []]; [apply Hled|apply Hled|apply wp_bind, wp_handle_job; by intros [|]|apply Hled..].
  - apply (create_footprint keeps_ledger cfg).
  - apply (update_endpoint_footprint keeps_ledger cfg).
  - apply tick_ledger.
  - apply (controller_publish_footprint keeps_ledger).
  - apply (getDeliveries_footprint keeps_ledger).
  - apply (list_deliveries_footprint keeps_ledger).
  - apply (get_attempts_footprint keeps_ledger).
  - apply redeliver_ledger.
  - apply (fp_read keeps_ledger).
  - apply (get_endpoint_footprint keeps_ledger).
  - apply (setSubscriptions_footprint keeps_ledger).
  - apply (ping_footprint keeps_ledger).
  - apply (canActivate_footprint keeps_ledger).
  - apply (rotate_footprint keeps_ledger).
  - apply (create_tenant_footprint keeps_ledger).
  - apply (sampleQueue_footprint keeps_ledger), (sample_footprint keeps_ledger).
Qed.

Definition fresh_start (w : World) : Prop := w_db w = empty_db /\ w_trace w = [].

Lemma fresh_ok w : fresh_start w -> pool_ok w ∅.
Proof.
  intros [Hd Ht].
  assert (claims w = ∅) as Hc by (unfold claims; rewrite Hd; apply fmap_empty).
  assert (progress w = ∅) as Hp by (unfold progress; rewrite Hd; apply fmap_empty).
  split; rewrite ?Hc, ?Hp; try done.
  - unfold seqs_ok. rewrite Hd. split; intros i [? Hi]; cbn in Hi; by rewrite lookup_empty in Hi.
  - intros D. unfold sent, requests. rewrite Ht. cbn. lia.
Qed.

(** Every state the system reaches satisfies the invariant. *)
Lemma system_ok w0 c :
  fresh_start w0 -> rtc (pstep outside startable) (w0, []) c -> exists X, pool_ok c.1 X.
Proof.
  intros H0 Hc. eapply (pool_sound outside startable pool_ok pool_rel); [apply _| |apply start_ok|by apply fresh_ok|exact Hc].
  intros w w' X HI Ho. apply pool_ok_ledger; [by apply outside_ledger|done].
Qed.

(** *** From rows to numbers *)

Definition rows_of (D : string) (w : World) : gmap Z (string * Z) :=
  filter (fun p : Z * (string * Z) => p.2.1 = D) (claims w).

Lemma rows_size D k w X :
  pool_ok w X -> (forall n, (exists i, claims w !! i = Some (D, n)) <-> 1 <= n <= k) ->
  (size (rows_of D w) <= Z.to_nat k)%nat.
Proof.
  intros HI Hn. rewrite <- length_map_to_list. rewrite <- (length_fmap (fun p : Z * (string * Z) => p.2.2)).
  rewrite <- (length_seqZ 1 k). apply submseteq_length, NoDup_submseteq.
  - apply NoDup_fmap_2_strong; [|apply NoDup_map_to_list].
    intros [i [Di ni]] [j [Dj nj]] Hi Hj. cbn. intros ->.
    apply elem_of_map_to_list, map_lookup_filter_Some in Hi as [Hi ?].
    apply elem_of_map_to_list, map_lookup_filter_Some in Hj as [Hj ?]. cbn in *. subst.
    by rewrite (po_unique _ _ HI i j (D, nj)).
  - intros n ([i [Di ni]] & -> & Hi)%list_elem_of_fmap.
    apply elem_of_map_to_list, map_lookup_filter_Some in Hi as [Hi ?]. cbn in *. subst.
    apply elem_of_seqZ. assert (1 <= ni <= k) by (apply Hn; eauto). lia.
Qed.

Lemma spent_rows D X w : (size (spent D X w) <= size (rows_of D w))%nat.
Proof.
  apply map_subseteq_size, map_subseteq_spec. intros i c. unfold spent, rows_of.
  rewrite !map_lookup_filter_Some. naive_solver.
Qed.

(** ** Properties *)

(** C2.  However the API, relay and worker processes interleave, fail, crash, lose
    answers and receive jobs again, in every state the system reaches from an
    empty database: the attempt rows of a delivery are numbered 1, 2, ..., k, each
    number once; k is the recorded attempt count or one more (the attempt in
    flight, or stranded by a crash); the requests ever sent for the delivery are
    no more than its attempt rows; and there are no more of these than
    [HR_MAX_ATTEMPTS] (at least one) plus the outbox rows that name the delivery,
    one for each redelivery and one for a ping. *)
Theorem requests_bounded w0 w pool :
  fresh_start w0 -> rtc (pstep outside startable) (w0, []) (w, pool) ->
  forall D d, deliveries (w_db w) !! D = Some d ->
  exists k, dl_attemptCount d <= k <= dl_attemptCount d + 1 /\
    Z.of_nat (sent D w) <= k <= quota + Z.of_nat (granted D w) /\
    (forall n, 1 <= n <= k <->
       exists i a, attempts (w_db w) !! i = Some a /\ at_deliveryId a = D /\ at_attemptNo a = n) /\
    (forall i j a b, attempts (w_db w) !! i = Some a -> attempts (w_db w) !! j = Some b ->
       at_deliveryId a = D -> at_deliveryId b = D -> at_attemptNo a = at_attemptNo b -> i = j).
Proof.
  intros H0 Hc D d Hd. destruct (system_ok w0 (w, pool) H0 Hc) as [X HI]. cbn in HI.
  assert (progress w !! D = Some (dl_attemptCount d, is_done d)) as Hp by (unfold progress; by rewrite lookup_fmap, Hd).
  assert (forall i a, attempts (w_db w) !! i = Some a -> claims w !! i = Some (claim_of a)) as Hcl
    by (intros i a Ha; unfold claims; by rewrite lookup_fmap, Ha).
  destruct (po_rows _ _ HI D _ _ Hp) as [Hpos (k & Hk & Hb & Hn)]. exists k. split_and!; try lia.
  - pose proof (po_sent _ _ HI D) as H1. pose proof (spent_rows D X w) as H2.
    pose proof (rows_size D k w X HI Hn) as H3. lia.
  - intros n. rewrite <- Hn. split.
    + intros [i Hi]. unfold claims in Hi. rewrite lookup_fmap in Hi. apply fmap_Some in Hi as (a & Ha & [= -> ->]).
      by exists i, a.
    + intros (i & a & Ha & <- & <-). exists i. by apply Hcl.
  - intros i j a b Ha Hb' <- HD Hno. apply (po_unique _ _ HI i j (claim_of a)); [by apply Hcl|].
    rewrite (Hcl j b Hb'). unfold claim_of. by rewrite HD, Hno.
Qed.

End pool.

(** ** A day in the life *)

(** A tenant is created, registers and subscribes an endpoint and publishes an
    event; the relay enqueues its delivery and a worker delivers it. *)
Definition life (P := always 200) : list (prog World unit) :=
  [ discard (create_tenant "acme" PRO);
    discard (create demo_cfg "uuid-1" (mkCreateEndpointDto "https://a.example/hook" None));
    discard (setSubscriptions "uuid-1" "uuid-6" ["order.created"]);
    discard (controller_publish demo_cfg "uuid-1" PRO
      (mkPublishEventDto "order.created" (JObj [("n", JNum 1)])) (Some "key-1"));
    discard (tick demo_cfg 10);
    discard (handle_job demo_cfg 0 (mkJob "deliver" (mkJobData "uuid-8" (Some "uuid-1")) "dlv-uuid-8" 8)) ].

Definition after_life : World (P := always 200) :=
  fold_left (fun w p => (exec p w).2) life (world_at 1000 empty_db 200).

Lemma life_startable : Forall (startable (P := always 200) demo_cfg) life.
Proof. unfold life. repeat constructor. Qed.

Lemma requests_bounded_witness :
  sent (P := always 200) "uuid-8" after_life = 1%nat /\
  exists k, 1 <= k <= 8 /\
    exists i a, attempts (w_db after_life) !! i = Some a /\ at_deliveryId a = "uuid-8" /\ at_attemptNo a = k.
Proof.
  assert (sent (P := always 200) "uuid-8" after_life = 1%nat) as Hs by (vm_compute; reflexivity).
  assert (granted (P := always 200) "uuid-8" after_life = 0%nat) as Hg by (vm_compute; reflexivity).
  split; [exact Hs|].
  assert (bool_decide (is_Some (deliveries (w_db after_life) !! "uuid-8")) = true) as Hd by (vm_compute; reflexivity).
  apply bool_decide_eq_true in Hd as [d Hd].
  destruct (rtc_story (outside (P := always 200)) (startable (P := always 200) demo_cfg) life
    (world_at 1000 empty_db 200) [] life_startable) as [pool Hr].
  destruct (requests_bounded (P := always 200) demo_cfg (world_at 1000 empty_db 200) after_life pool
    (conj eq_refl eq_refl) Hr "uuid-8" d Hd) as (k & _ & Hk & Hn & _).
  rewrite Hs, Hg in Hk. change (quota demo_cfg) with 8 in Hk. exists k. split; [lia|]. apply Hn. lia.
Defined.
