(* ===== verification/OutboxPool.v ===== *)
(** * No delivery is lost: the transactional outbox under concurrency

    The promise of the outbox for the whole system: whatever interleaves, fails or
    crashes, every delivery in the database either has an outbox row that is still
    pending, so that the next pass of a relay enqueues it, or has been handed to
    the queue.  A rely-guarantee argument ([Concurrency.v]): all transactions but
    the relay's marking keep it by themselves; the marking is safe because of what
    the relay has enqueued before. *)

From S2P Require Import Prelude JsNumber Backoff Errors Effects Concurrency Json Platform Schema World Config TestPlatform.
From S2P Require Import Signature CircuitStore TenantLimiter SecretCipher EndpointCache HttpClient Processor Worker.
From S2P Require Import Relay RateLimit Events Deliveries Ssrf Endpoints Tenancy Footprint Ledger DeliveryPool.
From stdpp Require Import relations.
Open Scope Z_scope.
Open Scope hook_scope.

Section outbox.
Context `{P : Platform}.
Variable cfg : Config.

Lemma event_deliveries_spec ev d x :
  x ∈ event_deliveries ev d <-> exists dl, deliveries d !! x = Some dl /\ dl_eventId dl = ev.
Proof.
  unfold event_deliveries. rewrite list_elem_of_fmap. split.
  - intros ([y dl] & -> & [H1 H2%elem_of_map_to_list]%list_elem_of_filter). by exists dl.
  - intros (dl & H1 & H2). exists (x, dl). split; [done|]. apply list_elem_of_filter.
    split; [done|]. by apply elem_of_map_to_list.
Qed.

(** The invariant. *)
Record outbox_ok (w : World) : Prop := {
  ok_seq : forall id, is_Some (outbox (w_db w) !! id) -> id < outbox_seq (w_db w);
  ok_rows : outbox_fk (w_db w);
  ok_deliveries : deliveries_fk (w_db w);
  (** a published row has been enqueued for all its targets *)
  ok_published : forall id row x, outbox (w_db w) !! id = Some row -> ob_status row = OUTBOX_PUBLISHED ->
    x ∈ row_targets (w_db w) row -> has_job w x;
  (** every delivery is the target of a row *)
  ok_covered : forall D dl, deliveries (w_db w) !! D = Some dl ->
    exists id row, outbox (w_db w) !! id = Some row /\ D ∈ row_targets (w_db w) row;
}.

(** What every step leaves in place. *)
Record outbox_rel (w w' : World) : Prop := {
  rl_events : forall ev, is_Some (events (w_db w) !! ev) -> is_Some (events (w_db w') !! ev);
  rl_deliveries : forall ev x, is_Some (events (w_db w) !! ev) ->
    x ∈ event_deliveries ev (w_db w') <-> x ∈ event_deliveries ev (w_db w);
  rl_rows : forall id row, outbox (w_db w) !! id = Some row ->
    exists row', outbox (w_db w') !! id = Some row' /\ ob_eventId row' = ob_eventId row /\
      ob_deliveryId row' = ob_deliveryId row;
  rl_jobs : forall j, j ∈ enqueued w -> j ∈ enqueued w';
}.

#[export] Instance outbox_rel_preorder : PreOrder outbox_rel.
Proof.
  split; [split; eauto|]. intros w1 w2 w3 [E1 D1 R1 J1] [E2 D2 R2 J2]. split; [auto| |..].
  - intros ev x Hev. rewrite D2 by auto. by apply D1.
  - intros id row Hr. destruct (R1 id row Hr) as (r1 & Hr1 & <- & <-). destruct (R2 id r1 Hr1) as (r2 & ? & ? & ?). eauto.
  - auto.
Qed.

Definition keeps_outbox (w w' : World) : Prop := outbox_ok w -> outbox_ok w' /\ outbox_rel w w'.

#[export] Instance keeps_outbox_preorder : PreOrder keeps_outbox.
Proof.
  split; [by intros w ?|]. intros w1 w2 w3 H1 H2 H. destruct (H1 H) as [H' ?]. destruct (H2 H') as [? ?].
  split; [done|]. by etrans.
Qed.

Lemma targets_rel w w' row :
  outbox_rel w w' -> is_Some (events (w_db w) !! ob_eventId row) ->
  forall x, x ∈ row_targets (w_db w') row <-> x ∈ row_targets (w_db w) row.
Proof.
  intros H Hev x. unfold row_targets. destruct (ob_deliveryId row) as [[|c s]|]; try done;
    by apply (rl_deliveries _ _ H).
Qed.

Lemma has_job_rel w w' x : outbox_rel w w' -> has_job w x -> has_job w' x.
Proof. intros H (j & Hj & Hx). exists j. split; [by apply (rl_jobs _ _ H)|done]. Qed.

(** *** Steps that add no delivery and no row *)

Lemma enqueued_observe o w j : j ∈ enqueued w -> j ∈ enqueued (observe o w).
Proof. intros Hj. rewrite (enqueued_app w _ [o]) by done. set_solver. Qed.

Lemma outbox_same w w' :
  (forall ev, is_Some (events (w_db w) !! ev) -> is_Some (events (w_db w') !! ev)) ->
  (forall D, dl_eventId <$> deliveries (w_db w') !! D = dl_eventId <$> deliveries (w_db w) !! D) ->
  outbox (w_db w') = outbox (w_db w) -> outbox_seq (w_db w') = outbox_seq (w_db w) ->
  (forall j, j ∈ enqueued w -> j ∈ enqueued w') -> keeps_outbox w w'.
Proof.
  intros He Hd Ho Hs Hj H. pose proof H as [H1 H2 H3 H4 H5].
  assert (forall D dl', deliveries (w_db w') !! D = Some dl' ->
    exists dl, deliveries (w_db w) !! D = Some dl /\ dl_eventId dl = dl_eventId dl') as Hback.
  { intros D dl' H'. specialize (Hd D). rewrite H' in Hd. symmetry in Hd. apply fmap_Some in Hd as (dl & ? & ?). eauto. }
  assert (forall ev x, x ∈ event_deliveries ev (w_db w') <-> x ∈ event_deliveries ev (w_db w)) as Hev.
  { intros ev x. rewrite !event_deliveries_spec. split; intros (dl & Hdl & <-).
    - destruct (Hback x dl Hdl) as (dl0 & ? & ?). eauto.
    - specialize (Hd x). rewrite Hdl in Hd. apply fmap_Some in Hd as (dl' & ? & ?). eauto. }
  assert (outbox_rel w w') as Hrel.
  { split; [done|by intros|intros id row Hr; rewrite Ho; eauto|done]. }
  split; [|done]. split; rewrite ?Ho, ?Hs; try done.
  - intros id row Hr. rewrite Ho in Hr. apply He. by eapply H2.
  - intros D dl Hdl. destruct (Hback D dl Hdl) as (dl0 & H0 & <-). apply He. by eapply H3.
  - intros id row x Hr Hst Hx. apply (has_job_rel w); [done|]. apply (H4 id row); [done..|].
    by apply (targets_rel w w' row Hrel (H2 id row Hr)).
  - intros D dl Hdl. destruct (Hback D dl Hdl) as (dl0 & H0 & _). destruct (H5 D dl0 H0) as (id & row & Hr & HD).
    exists id, row. split; [done|]. by apply (targets_rel w w' row Hrel (H2 id row Hr)).
Qed.

(** A new row for existing deliveries of an existing event. *)
Lemma outbox_add ev D w :
  is_Some (events (w_db w) !! ev) -> keeps_outbox w (outbox_create ev D w).2.
Proof.
  intros Hev [H1 H2 H3 H4 H5]. set (row := mkOutbox ev D OUTBOX_PENDING None (w_now w)).
  set (id := outbox_seq (w_db w)).
  assert (outbox (w_db w) !! id = None) as Hfr.
  { destruct (outbox (w_db w) !! id) eqn:E; [|done]. specialize (H1 id (mk_is_Some _ _ E)). lia. }
  assert (forall i r, outbox (w_db w) !! i = Some r -> <[id := row]> (outbox (w_db w)) !! i = Some r) as Hold.
  { intros i r Hi. rewrite lookup_insert_ne; [done|]. intros <-. congruence. }
  split; [split|split]; cbn.
  - intros i [<-|Hi]%lookup_insert_is_Some'; [lia|]. apply H1 in Hi. lia.
  - intros i r Hr. cbn in Hr. apply lookup_insert_Some in Hr as [[_ <-]|[_ Hr]]; [done|by eapply H2].
  - exact H3.
  - intros i r x [[_ <-]|[_ Hr]]%lookup_insert_Some Hst Hx; [done|]. by eapply H4.
  - intros D' dl Hdl. destruct (H5 D' dl Hdl) as (i & r & Hr & HD'). exists i, r. split; [by apply Hold|done].
  - done.
  - done.
  - intros i r Hr. exists r. split_and!; [by apply Hold|done|done].
  - done.
Qed.

(** ** The transactions *)

Lemma enqueued_trace w w' : w_trace w' = w_trace w -> forall j, j ∈ enqueued w -> j ∈ enqueued w'.
Proof. intros Ht j. unfold enqueued. by rewrite Ht. Qed.

(** A transaction of statements on other tables, or that keep every delivery's
    event. *)
Definition stm_outbox {R} (s : stm R) : Prop :=
  db_only s /\ forall w,
    let d := w_db w in let d' := w_db (s w).2 in
    (forall ev, is_Some (events d !! ev) -> is_Some (events d' !! ev)) /\
    (forall D, dl_eventId <$> deliveries d' !! D = dl_eventId <$> deliveries d !! D) /\
    outbox d' = outbox d /\ outbox_seq d' = outbox_seq d.

Lemma stm_outbox_bind {R R'} (s : stm R) (k : R -> stm R') :
  stm_outbox s -> (forall x, stm_outbox (k x)) -> stm_outbox (sbind s k).
Proof.
  intros [Hd Hs] Hk. split; [apply db_only_bind; [done|intros x; apply Hk]|].
  intros w. unfold sbind. specialize (Hs w). destruct (s w) as [[e|x] w1]; [done|]. cbn in Hs |- *.
  destruct Hs as (H1 & H2 & H3 & H4). destruct (proj2 (Hk x) w1) as (K1 & K2 & K3 & K4). cbn in *.
  split_and!; [auto|intros D; by rewrite K2|congruence|congruence].
Qed.

Lemma acts_outbox {R} (s : stm R) : stm_outbox s -> acts keeps_outbox (transaction s).
Proof.
  intros [Hd Hs]. apply acts_call. intros w. specialize (Hd w). specialize (Hs w). cbn in Hs.
  destruct Hd as (_ & _ & _ & _ & Ht). destruct (s w) as [[e|x] w']; cbn in *.
  - apply outbox_same; try done. by apply enqueued_trace.
  - destruct Hs as (? & ? & ? & ?). apply outbox_same; try done. by apply enqueued_trace.
Qed.

(** A new event with its deliveries and the row that covers them. *)
Record extends (ev : string) (row : OutboxMessage) (d d' : Db) : Prop := {
  ex_fresh : events d !! ev = None;
  ex_events : forall e, is_Some (events d' !! e) <-> e = ev \/ is_Some (events d !! e);
  ex_old : forall D dl, deliveries d !! D = Some dl -> deliveries d' !! D = Some dl;
  ex_new : forall D dl, deliveries d' !! D = Some dl -> deliveries d !! D = Some dl \/
    dl_eventId dl = ev /\ D ∈ row_targets d' row;
  ex_row : ob_eventId row = ev /\ ob_status row = OUTBOX_PENDING;
  ex_outbox : outbox d' = <[outbox_seq d := row]> (outbox d) /\ outbox_seq d' = outbox_seq d + 1;
}.

Lemma extends_keeps ev row w w' :
  extends ev row (w_db w) (w_db w') -> (forall j, j ∈ enqueued w -> j ∈ enqueued w') -> keeps_outbox w w'.
Proof.
  intros [Hf He Hold Hnew [Hr1 Hr2] [Ho Hs]] Hj H. pose proof H as [H1 H2 H3 H4 H5].
  set (id := outbox_seq (w_db w)) in *.
  assert (outbox (w_db w) !! id = None) as Hfr.
  { destruct (outbox (w_db w) !! id) eqn:E; [|done]. specialize (H1 id (mk_is_Some _ _ E)). lia. }
  assert (forall i r, outbox (w_db w) !! i = Some r -> outbox (w_db w') !! i = Some r) as Hkeep.
  { intros i r Hi. rewrite Ho, lookup_insert_ne; [done|]. intros <-. congruence. }
  assert (forall i r, outbox (w_db w') !! i = Some r -> r = row \/ outbox (w_db w) !! i = Some r) as Hrows.
  { intros i r Hi. rewrite Ho in Hi. apply lookup_insert_Some in Hi as [[_ <-]|[_ Hi]]; auto. }
  assert (outbox_rel w w') as Hrel.
  { split; [intros e Hev; apply He; by right| |eauto|done]. intros e x Hev. rewrite !event_deliveries_spec.
    split; intros (dl & Hdl & <-); [|eauto]. destruct (Hnew x dl Hdl) as [?|[E _]]; [eauto|].
    exfalso. rewrite E in Hev. destruct Hev as [? Hev]. congruence. }
  split; [|done]. split.
  - intros i. rewrite Ho, Hs. intros [<-|Hi]%lookup_insert_is_Some'; [lia|]. apply H1 in Hi. lia.
  - intros i r Hr. apply He. destruct (Hrows i r Hr) as [->|Hr']; [by left|right; by eapply H2].
  - intros D dl Hdl. apply He. destruct (Hnew D dl Hdl) as [Hd|[-> _]]; [right; by eapply H3|by left].
  - intros i r x Hr Hst Hx. destruct (Hrows i r Hr) as [->|Hr']; [congruence|].
    apply (has_job_rel w); [done|]. apply (H4 i r); [done..|]. by apply (targets_rel w w' r Hrel (H2 i r Hr')).
  - intros D dl Hdl. destruct (Hnew D dl Hdl) as [Hd|[_ HD]].
    + destruct (H5 D dl Hd) as (i & r & Hr & HD). exists i, r. split; [by apply Hkeep|].
      by apply (targets_rel w w' r Hrel (H2 i r Hr)).
    + exists id, row. split; [rewrite Ho; apply lookup_insert_eq|done].
Qed.

Lemma publication_keeps t dto key res now w w' :
  committed t dto key res now (w_db w) (w_db w') -> w_trace w' = w_trace w -> keeps_outbox w w'.
Proof.
  intros (_ & Hev & _ & _ & _ & Hfr & Hdb) Ht. destruct (pr_deliveries res) as [|p ds] eqn:Eds.
  - apply outbox_same; try (rewrite Hdb; cbn); [|done..|by apply enqueued_trace].
    intros e He. apply lookup_insert_is_Some'. by right.
  - eapply (extends_keeps (pr_eventId res) (mkOutbox (pr_eventId res) None OUTBOX_PENDING None now));
      [|by apply enqueued_trace]. rewrite Hdb. rewrite <- Eds in *.
    assert (forall dd, deliveries (published_db (pr_eventId res) dd (pr_deliveries res) now (w_db w)) =
      insert_deliveries (pr_eventId res) now (pr_deliveries res) (deliveries (w_db w))) as Hdl
      by (intros dd; unfold published_db; by destruct (pr_deliveries res)).
    assert (forall D dl, insert_deliveries (pr_eventId res) now (pr_deliveries res) (deliveries (w_db w)) !! D = Some dl ->
      deliveries (w_db w) !! D = Some dl \/ dl_eventId dl = pr_eventId res) as Hnew
      by (intros D dl [?|[? _]]%insert_deliveries_new; auto).
    split; [done| | | |done|].
    + intros e. unfold published_db. rewrite Eds. cbn. rewrite lookup_insert_is_Some'. naive_solver.
    + intros D dl HD. rewrite Hdl, insert_deliveries_old; [done|]. intros Hin. apply Hfr in Hin. congruence.
    + intros D dl. rewrite Hdl. intros HD. destruct (Hnew D dl HD) as [?|He]; [by left|right]. split; [done|].
      unfold row_targets. cbn. apply event_deliveries_spec. rewrite Hdl. eauto.
    + unfold published_db. rewrite Eds. done.
Qed.

Lemma ping_keeps t ep ids now w w' :
  pinged t ep ids now (w_db w) (w_db w') -> w_trace w' = w_trace w -> keeps_outbox w w'.
Proof.
  destruct ids as [ev dl]. intros (_ & Hev & Hdl & Hdb) Ht.
  eapply (extends_keeps ev (mkOutbox ev (Some dl) OUTBOX_PENDING None now)); [|by apply enqueued_trace].
  rewrite Hdb. split; [done| | | |done|done]; cbn.
  - intros e. rewrite lookup_insert_is_Some'. naive_solver.
  - intros D d HD. rewrite lookup_insert_ne; [done|]. intros <-. congruence.
  - intros D d [[<- <-]|[_ HD]]%lookup_insert_Some; [right|by left]. split; [done|].
    unfold row_targets. cbn. destruct dl as [|c s]; [|by left].
    apply event_deliveries_spec. cbn. rewrite lookup_insert_eq. eauto.
Qed.

Lemma ping_body_keeps e t p k d ep : acts keeps_outbox (transaction
  (let+ _ := event_insert e t "endpoint.ping" p k in let+ _ := delivery_create d e ep in outbox_create e (Some d))).
Proof.
  apply acts_call. intros w. unfold sbind, event_insert, delivery_create. cbv beta zeta.
  destruct (event_by_key t k (w_db w)) eqn:Hk;
    [destruct (events (w_db w) !! e), (tenants (w_db w) !! t); by apply outbox_same|].
  destruct (events (w_db w) !! e) eqn:He; [destruct (tenants (w_db w) !! t); by apply outbox_same|].
  destruct (tenants (w_db w) !! t); [|by apply outbox_same].
  cbn [w_db with_db]. destruct (delivery_taken d e ep _) eqn:Ht; [by apply outbox_same|].
  eapply (extends_keeps e (mkOutbox e (Some d) OUTBOX_PENDING None (w_now w))); [|done].
  assert (deliveries (w_db w) !! d = None) as Hd
    by (unfold delivery_taken in Ht; cbn in Ht; by destruct (deliveries (w_db w) !! d)).
  split; [done| | | |done|done]; cbn.
  - intros e'. rewrite lookup_insert_is_Some'. naive_solver.
  - intros D dl HD. rewrite lookup_insert_ne; [done|]. intros <-. congruence.
  - intros D dl [[<- <-]|[_ HD]]%lookup_insert_Some; [right|by left]. split; [done|].
    unfold row_targets. cbn. destruct d as [|c s]; [|by left].
    apply event_deliveries_spec. cbn. rewrite lookup_insert_eq. eauto.
Qed.

Lemma stm_outbox_elsewhere {R} (s : stm R) : elsewhere s -> stm_outbox s.
Proof.
  intros [Hd H]. split; [done|]. intros w. destruct (H w) as (He & Hdl & _ & _ & Ho & Hs).
  cbn. rewrite He, Hdl. done.
Qed.

#[export] Instance outbox_footprint : Footprint keeps_outbox.
Proof.
  apply footprint_elsewhere.
  - apply _.
  - intros w w' Hd _ Ht. apply outbox_same; rewrite ?Hd; try done. by apply enqueued_trace.
  - intros o w _ _. apply outbox_same; try done. apply enqueued_observe.
  - intros R s Hs. by apply acts_outbox, stm_outbox_elsewhere.
  - intros t dto key. apply acts_call. intros w. pose proof (db_only_publish_body t dto key w) as (_ & _ & _ & _ & Ht).
    destruct (publish_body t dto key w) as [[e|res] w'] eqn:E; cbn in *.
    + apply outbox_same; try done. by apply enqueued_trace.
    + eapply publication_keeps; [by eapply publish_body_inv|done].
Qed.

#[export] Instance outbox_endpoint_footprint : EndpointFootprint keeps_outbox.
Proof.
  apply endpoint_footprint_elsewhere.
  - intros R s Hs. by apply acts_outbox, stm_outbox_elsewhere.
  - intros. apply ping_body_keeps.
Qed.

(** *** The worker's transactions *)

Lemma stm_outbox_delivery D f : (forall d, dl_eventId (f d) = dl_eventId d) -> stm_outbox (delivery_update D f).
Proof.
  intros Hf. split; [apply db_only_delivery_update|]. intros w. unfold delivery_update.
  destruct (deliveries (w_db w) !! D) as [d|] eqn:Hd; [|done]. cbn. split_and!; try done.
  intros D'. destruct (decide (D' = D)) as [->|Hne]; [|by rewrite lookup_insert_ne].
  rewrite lookup_insert_eq, Hd. cbn. by rewrite Hf.
Qed.

Lemma process_outbox wid D : acts keeps_outbox (process cfg wid D).
Proof.
  apply process_acts; try apply _.
  - intros D' n g. apply acts_outbox. split; [apply db_only_attempt_create|]. intros w. unfold attempt_create.
    destruct (attempt_taken D' n (w_db w)); [done|]. by destruct (deliveries (w_db w) !! D').
  - intros i f _. apply acts_outbox. split; [apply db_only_attempt_update|]. intros w. unfold attempt_update.
    destruct (attempts (w_db w) !! i); [|done]. by destruct (text_ok _).
  - intros i f _. apply acts_outbox, stm_outbox_elsewhere, elsewhere_endpoint_update.
  - intros D' f Hf. apply acts_outbox, stm_outbox_delivery. intros d. apply Hf.
  - intros w w' [-> _]. by apply outbox_same.
  - intros w w' (Hd & _ & _ & _ & _ & l & Ht & _). apply outbox_same; rewrite ?Hd; try done.
    intros j Hj. rewrite (enqueued_app w w' l Ht). set_solver.
  - intros w f. by apply outbox_same.
  - intros w op m labels v _. apply outbox_same; try done. apply enqueued_observe.
Qed.

Lemma handle_job_outbox wid job : acts keeps_outbox (handle_job cfg wid job).
Proof.
  apply (handle_job_footprint keeps_outbox); [apply process_outbox|].
  intros D t. by apply acts_outbox, stm_outbox_delivery.
Qed.

(** ** Programs that rely on what they read *)

Notation owp := (wp (Tok := Z) (fun w _ => outbox_ok w) outbox_rel).

Lemma owp_acts {B} K T (p : prog World B) Q :
  acts keeps_outbox p -> stable outbox_rel K -> (forall r, Q r K T) -> owp K T p Q.
Proof. apply wp_acts; [apply _|]. intros w w' _ Hk HI. by apply Hk. Qed.

Lemma redeliver_step ev D w :
  is_Some (events (w_db w) !! ev) ->
  keeps_outbox w ((fun w => let '(r, w') := (let+ _ := delivery_update D set_pending in outbox_create ev (Some D)) w in
    match r with inl e => (inl e, with_db (fun _ => w_db w) w') | inr x => (inr x : exn + Z, w') end) w).2.
Proof.
  intros Hev. unfold sbind. pose proof (proj2 (stm_outbox_delivery D set_pending ltac:(done)) w) as H.
  pose proof (db_only_delivery_update D set_pending w) as (_ & _ & _ & _ & Ht).
  destruct (delivery_update D set_pending w) as [[e|x] w1]; cbn in *.
  { apply outbox_same; try done. by apply enqueued_trace. }
  destruct H as (H1 & H2 & H3 & H4). transitivity w1.
  - apply outbox_same; try done. by apply enqueued_trace.
  - apply (outbox_add ev (Some D) w1). by apply H1.
Qed.

Lemma owp_redeliver t D : owp (fun _ => True) ∅ (discard (redeliver t D)) any_post.
Proof.
  apply wp_bind. unfold redeliver, requireOwned. apply wp_bind, wp_bind.
  eapply wp_read with (K' := fun x => match x with
    | Some d => fun w => is_Some (events (w_db w) !! dl_eventId d) | None => fun _ => True end).
  - apply _.
  - done.
  - intros [d|]; [|done]. intros w w' H. apply (rl_events _ _ H).
  - intros w X _ _. destruct (find_owned t D (w_db w)) as [d|] eqn:E; [|done].
    apply find_owned_Some in E as [_ E]. unfold event_tenant in E. apply fmap_Some in E as (ev & E & _). eauto.
  - done.
  - intros [d|]; [|done]. apply wp_bind, wp_call.
    + apply _.
    + intros w w' H. apply (rl_events _ _ H).
    + intros w X Hev _ HI. by apply (redeliver_step (dl_eventId d) D w Hev).
    + by intros [e|x].
Qed.

(** *** A pass of the relay *)

(** A message read from the outbox describes its row for good. *)
Definition message_ok (m : Message) (w : World) : Prop :=
  exists row, outbox (w_db w) !! ms_id m = Some row /\ is_Some (events (w_db w) !! ob_eventId row) /\
    forall x, x ∈ row_targets (w_db w) row -> x ∈ targetsOf m.

Lemma message_ok_stable m : stable outbox_rel (message_ok m).
Proof.
  intros w w' H (row & Hr & Hev & Ht). destruct (rl_rows _ _ H _ _ Hr) as (row' & Hr' & He & Hd).
  exists row'. split; [done|]. rewrite He. split; [by apply (rl_events _ _ H)|]. intros x Hx. apply Ht.
  apply (targets_rel w w' row H Hev). unfold row_targets in *. by rewrite He, Hd in Hx.
Qed.

Lemma find_batch_ok k w m : outbox_ok w -> m ∈ find_batch k (w_db w) -> message_ok m w.
Proof.
  intros H Hm. apply find_batch_spec in Hm as (row & ev & Hr & _ & Hev & Hmsg). exists row.
  split_and!; [done|by eexists|]. intros x Hx. apply bind_Some in Hmsg as (ev' & _ & [= Hmsg]).
  rewrite <- Hmsg. unfold targetsOf, row_targets in *. cbn. destruct (ob_deliveryId row) as [[|c s]|]; done.
Qed.

(** The targets of a message have their jobs. *)
Definition enqueued_all (m : Message) (w : World) : Prop := forall x, x ∈ targetsOf m -> has_job w x.

Lemma enqueued_all_stable m : stable outbox_rel (enqueued_all m).
Proof. intros w w' H Hm x Hx. apply (has_job_rel w); [done|]. by apply Hm. Qed.

Lemma jobs_of_enqueued m w :
  enqueued_all m (observe (ObsEnqueue (jobs_of cfg m)) w).
Proof.
  intros x Hx. assert (exists j, j ∈ jobs_of cfg m /\ jd_deliveryId (job_data j) = x) as (j & Hj & Hjx)
    by (eexists; split; [by apply list_elem_of_fmap_2|done]).
  exists j. split; [|done]. rewrite (enqueued_app w _ [ObsEnqueue (jobs_of cfg m)]) by done.
  apply elem_of_app. right. cbn. by rewrite app_nil_r.
Qed.

(** What the relay knows of the rows it is about to mark. *)
Definition markable (ids : list Z) (w : World) : Prop :=
  forall id, id ∈ ids -> exists m, ms_id m = id /\ message_ok m w /\ enqueued_all m w.

Lemma markable_stable ids : stable outbox_rel (markable ids).
Proof.
  intros w w' H Hm id Hid. destruct (Hm id Hid) as (m & E & H1 & H2). exists m.
  split_and!; [done|by eapply message_ok_stable|by eapply enqueued_all_stable].
Qed.

Lemma owp_enqueue_one (K : World -> Prop) m (Q : exn + unit -> (World -> Prop) -> gset Z -> Prop) :
  stable outbox_rel K -> (forall e, Q (inl e) K ∅) ->
  Q (inr tt) (fun w => K w /\ enqueued_all m w) ∅ -> owp K ∅ (queue_addBulk (jobs_of cfg m)) Q.
Proof.
  intros HK He Hx. unfold queue_addBulk, update, call. cbn [wp]. intros w O HO HKw HI r w' Hout.
  assert (keeps_outbox w (observe (ObsEnqueue (jobs_of cfg m)) (with_queue (q_add_bulk (jobs_of cfg m)) w))) as Hk.
  { apply outbox_same; try done. intros j Hj. by apply (enqueued_observe _ (with_queue _ w)). }
  destruct (Hk HI) as [HI' Hrel]. pose proof (jobs_of_enqueued m (with_queue (q_add_bulk (jobs_of cfg m)) w)) as Hj.
  inversion Hout as [? ? E|e|e ? ? _ E]; subst; [injection E as <- <-| |injection E as _ <-].
  - split; [done|]. exists (fun w => K w /\ enqueued_all m w), ∅. split_and!; try done; [|by eapply HK].
    intros w1 w2 H12 [? ?]. split; [by eapply HK|by eapply enqueued_all_stable].
  - split; [reflexivity|]. exists K, ∅. split_and!; try done. apply He.
  - split; [done|]. exists K, ∅. split_and!; try done; [by eapply HK|apply He].
Qed.

Lemma owp_enqueue_batch batch (K : World -> Prop) (Q : exn + list Z -> (World -> Prop) -> gset Z -> Prop) :
  stable outbox_rel K -> (forall w, K w -> forall m, m ∈ batch -> message_ok m w) ->
  (forall ids K', stable outbox_rel K' -> (forall w, K' w -> K w /\ markable ids w) -> Q (inr ids) K' ∅) ->
  owp K ∅ (enqueue_batch cfg batch) Q.
Proof.
  revert K Q. induction batch as [|m batch IH]; intros K Q HK Hm HQ; cbn [enqueue_batch].
  { apply HQ; [done|]. intros w Hw. split; [done|]. intros id Hid. by apply elem_of_nil in Hid. }
  assert (Q (inr []) K ∅) as Hnil.
  { apply HQ; [done|]. intros w Hw. split; [done|]. intros id Hid. by apply elem_of_nil in Hid. }
  apply wp_bind, wp_catch, wp_bind, owp_enqueue_one; [done|intros e; exact Hnil|].
  set (K1 := fun w => K w /\ enqueued_all m w).
  assert (stable outbox_rel K1) as HK1
    by (intros w w' H [? ?]; split; [by eapply HK|by eapply enqueued_all_stable]).
  apply wp_bind, (IH K1); [done|intros w [Hw _] m' Hm'; apply Hm; [done|by right]|].
  intros ids K' HK' Hids. apply HQ; [done|]. intros w Hw. destruct (Hids w Hw) as [[HKw Hen] Hmark].
  split; [done|]. intros id [->|Hid]%elem_of_cons; [|by apply Hmark].
  exists m. split_and!; [done|apply Hm; [done|by left]|done].
Qed.

(** Marking the rows. *)
Lemma mark_step ids now w : markable ids w -> keeps_outbox w (with_db (mark_published ids now) w).
Proof.
  intros Hm H. pose proof H as [H1 H2 H3 H4 H5].
  set (w' := with_db (mark_published ids now) w).
  assert (forall id row', outbox (w_db w') !! id = Some row' -> exists row, outbox (w_db w) !! id = Some row /\
    ob_eventId row' = ob_eventId row /\ ob_deliveryId row' = ob_deliveryId row /\ (id ∈ ids \/ row' = row)) as Hback.
  { intros id row'. cbn [w_db with_db w']. unfold w'. cbn [w_db with_db]. rewrite mark_published_lookup.
    intros Hr. apply bind_Some in Hr as (row & Hr & Heq). injection Heq as <-. exists row.
    case_bool_decide as Hb; [|by auto]. destruct Hb. by auto. }
  assert (forall row row', ob_eventId row' = ob_eventId row -> ob_deliveryId row' = ob_deliveryId row ->
    row_targets (w_db w') row' = row_targets (w_db w) row) as Htg
    by (intros row row' E1 E2; unfold row_targets; by rewrite E1, E2).
  assert (outbox_rel w w') as Hrel.
  { split; [done|done| |done]. intros id row Hr. unfold w'. cbn [w_db with_db]. rewrite mark_published_lookup, Hr.
    cbn. eexists. split; [done|]. by case_bool_decide. }
  split; [|done]. split; try done.
  - intros id [row' Hr]. destruct (Hback id row' Hr) as (row & ? & _). apply H1. by eexists.
  - intros id row' Hr. destruct (Hback id row' Hr) as (row & Hr0 & -> & _). by eapply H2.
  - intros id row' x Hr Hst Hx. destruct (Hback id row' Hr) as (row & Hr0 & E1 & E2 & Hor).
    rewrite (Htg row row' E1 E2) in Hx. apply (has_job_rel w); [done|]. destruct Hor as [Hid| ->]; [|by eapply H4].
    destruct (Hm id Hid) as (m & <- & (row0 & Hr1 & _ & Ht) & Hen). simplify_eq. apply Hen, Ht, Hx.
  - intros D dl Hdl. destruct (H5 D dl Hdl) as (id & row & Hr & HD).
    destruct (rl_rows _ _ Hrel id row Hr) as (row' & Hr' & E1 & E2). exists id, row'. split; [done|].
    by rewrite (Htg row row' E1 E2).
Qed.

Lemma owp_tick k : owp (fun _ => True) ∅ (discard (tick cfg k)) any_post.
Proof.
  apply wp_bind. unfold tick. apply wp_bind.
  eapply wp_read with (K' := fun batch w => forall m, m ∈ batch -> message_ok m w).
  - apply _.
  - done.
  - intros batch w w' H Hb m Hm. eapply message_ok_stable; eauto.
  - intros w X _ HI m Hm. by eapply find_batch_ok.
  - done.
  - intros batch. destruct batch as [|m0 b0]; [done|]. set (batch := m0 :: b0).
    apply wp_bind, owp_enqueue_batch; [intros w w' H Hb m Hm; eapply message_ok_stable; eauto|done|].
    intros ids K HK Hids. destruct ids as [|i0 is0]; [done|]. set (ids := i0 :: is0) in *.
    apply wp_bind, owp_acts; [apply (fp_now keeps_outbox)|done|]. intros [e|now]; [done|].
    apply wp_bind, wp_call; [apply _|done| |].
    + intros w X Hw _ HI. by apply (mark_step ids now w (proj2 (Hids w Hw))).
    + intros [e|x]; [done|]. apply owp_acts; [unfold after_marking; fp|done|]. by intros [|].
Qed.

(** ** The system *)

Lemma outbox_start_ok p : startable cfg p -> owp (fun _ => True) ∅ p any_post.
Proof.
  assert (forall B (q : prog World B), acts keeps_outbox q -> owp (fun _ => True) ∅ (discard q) any_post) as Hq.
  { intros B q Hq. apply wp_bind, owp_acts; [done|done|]. by intros [|]. }
  intros [t dto|t e dto|p' []]; try (apply owp_tick || apply owp_redeliver); apply Hq.
  - apply (create_footprint keeps_outbox cfg).
  - apply (update_endpoint_footprint keeps_outbox cfg).
  - apply handle_job_outbox.
  - apply (controller_publish_footprint keeps_outbox).
  - apply (getDeliveries_footprint keeps_outbox).
  - apply (list_deliveries_footprint keeps_outbox).
  - apply (get_attempts_footprint keeps_outbox).
  - apply (fp_read keeps_outbox).
  - apply (get_endpoint_footprint keeps_outbox).
  - apply (setSubscriptions_footprint keeps_outbox).
  - apply (ping_footprint keeps_outbox).
  - apply (canActivate_footprint keeps_outbox).
  - apply (rotate_footprint keeps_outbox).
  - apply (create_tenant_footprint keeps_outbox).
  - apply (sampleQueue_footprint keeps_outbox), (sample_footprint keeps_outbox).
Qed.

Lemma fresh_outbox_ok w : fresh_start w -> outbox_ok w.
Proof.
  intros [Hd _]. split; rewrite Hd; try done. intros id [? Hi]. cbn in Hi. by rewrite lookup_empty in Hi.
Qed.

Lemma outside_outbox w w' : outside w w' -> keeps_outbox w w'.
Proof. intros []. by apply outbox_same. Qed.

Lemma outbox_reachable w0 c :
  fresh_start w0 -> rtc (pstep outside (startable cfg)) (w0, []) c -> outbox_ok c.1.
Proof.
  intros H0 Hc. destruct (pool_sound outside (startable cfg) (fun w (_ : gset Z) => outbox_ok w) outbox_rel _)
    with (s0 := w0) (c := c) as [_ HI]; [| |by apply fresh_outbox_ok|done|done].
  - intros w w' X HI Ho. by apply (outside_outbox w w' Ho).
  - apply outbox_start_ok.
Qed.

Lemma covered_or_pending w D dl :
  outbox_ok w -> deliveries (w_db w) !! D = Some dl ->
  has_job w D \/ exists id row, outbox (w_db w) !! id = Some row /\ ob_status row = OUTBOX_PENDING /\
    D ∈ row_targets (w_db w) row.
Proof.
  intros HI Hdl. destruct (ok_covered w HI D dl Hdl) as (id & row & Hr & HD).
  destruct (ob_status row) eqn:Hst; [right; eauto|left]. by eapply (ok_published w HI).
Qed.

Lemma none_pending d id row :
  count_pending d = 0%nat -> outbox d !! id = Some row -> ob_status row = OUTBOX_PENDING -> False.
Proof.
  intros Hp Hr Hs. assert ((id, row) ∈ pending_rows d) as Hin by (by apply pending_rows_spec).
  unfold count_pending in Hp. apply nil_length_inv in Hp. rewrite Hp in Hin. by apply elem_of_nil in Hin.
Qed.

(** Passes extend a run of the system. *)
Lemma polls_reachable w0 w pool m k :
  rtc (pstep outside (startable cfg)) (w0, []) (w, pool) ->
  exists pool', rtc (pstep outside (startable cfg)) (w0, []) (polls cfg m k w, pool').
Proof.
  revert w pool. induction m as [|m IH]; intros w pool Hc; [by exists pool|].
  destruct (rtc_alone outside (startable cfg) (discard (tick cfg k)) w pool
    (start_routine cfg _ (start_tick cfg k))) as [pool' H1].
  apply (IH _ pool'). etrans; [exact Hc|]. unfold discard in H1. rewrite exec_bind in H1.
  change (exec (tick cfg k) w).2 with (snd (exec (tick cfg k) w)). by destruct (exec (tick cfg k) w) as [[e|x] w'].
Qed.

(** Undisturbed passes from a reachable state. *)
Lemma polled_has_job w0 w pool m k :
  fresh_start w0 -> rtc (pstep outside (startable cfg)) (w0, []) (w, pool) ->
  (0 < k)%nat -> (count_pending (w_db w) <= m * k)%nat ->
  forall D dl, deliveries (w_db (polls cfg m k w)) !! D = Some dl -> has_job (polls cfg m k w) D.
Proof.
  intros H0 Hc Hk Hm D dl Hdl. pose proof (outbox_reachable w0 _ H0 Hc) as HI.
  destruct (polls_reachable w0 w pool m k Hc) as [pool' Hc']. pose proof (outbox_reachable w0 _ H0 Hc') as HI'.
  destruct (covered_or_pending _ D dl HI' Hdl) as [|(id & row & Hr & Hst & _)]; [done|].
  destruct (none_pending _ id row (polls_drain cfg m k w (ok_rows _ HI) Hk Hm) Hr Hst).
Qed.

(** ** Properties *)

(** C3.  No delivery is lost: however the processes interleave, fail, crash and
    lose answers, in every state the system reaches from an empty database each
    delivery is a target of an outbox row, and either that row is still pending or
    a job for the delivery has been handed to the queue; likewise every published
    row has had all its targets handed over. *)
Theorem no_delivery_lost w0 w pool :
  fresh_start w0 -> rtc (pstep outside (startable cfg)) (w0, []) (w, pool) ->
  (forall D dl, deliveries (w_db w) !! D = Some dl ->
     has_job w D \/
     exists id row, outbox (w_db w) !! id = Some row /\ ob_status row = OUTBOX_PENDING /\
       D ∈ row_targets (w_db w) row) /\
  (forall id row x, outbox (w_db w) !! id = Some row -> ob_status row = OUTBOX_PUBLISHED ->
     x ∈ row_targets (w_db w) row -> has_job w x).
Proof.
  intros H0 Hc. pose proof (outbox_reachable w0 _ H0 Hc) as HI.
  cbn in HI. split; [|apply (ok_published w HI)]. intros D dl Hdl. by eapply covered_or_pending.
Qed.

(** C4.  Every delivery reaches the queue: from any state the system can be in,
    after any failures and crashes, if a relay then polls undisturbed for as many
    passes as the backlog needs, every delivery in the database has been handed to
    the queue. *)
Theorem every_delivery_reaches_queue w0 w pool m k :
  fresh_start w0 -> rtc (pstep outside (startable cfg)) (w0, []) (w, pool) ->
  (0 < k)%nat -> (count_pending (w_db w) <= m * k)%nat ->
  forall D dl, deliveries (w_db (polls cfg m k w)) !! D = Some dl -> has_job (polls cfg m k w) D.
Proof. apply polled_has_job. Qed.

End outbox.

Definition life_reachable : exists pool, rtc (pstep (outside (P := always 200)) (startable (P := always 200) demo_cfg))
    (world_at 1000 empty_db 200, []) (after_life, pool) :=
  rtc_story (outside (P := always 200)) (startable (P := always 200) demo_cfg) life
    (world_at 1000 empty_db 200) [] life_startable.

Lemma no_delivery_lost_witness : has_job (P := always 200) after_life "uuid-8".
Proof.
  assert (bool_decide (is_Some (deliveries (w_db after_life) !! "uuid-8")) = true) as Hd by (vm_compute; reflexivity).
  apply bool_decide_eq_true in Hd as [d Hd].
  assert (count_pending (w_db after_life) = 0%nat) as Hp by (vm_compute; reflexivity).
  destruct life_reachable as [pool Hr].
  destruct (no_delivery_lost (P := always 200) demo_cfg (world_at 1000 empty_db 200) after_life pool
    (conj eq_refl eq_refl) Hr) as [H _].
  destruct (H "uuid-8" d Hd) as [Hj|(id & row & Hrow & Hst & _)]; [exact Hj|].
  destruct (none_pending (w_db after_life) id row Hp Hrow Hst).
Defined.

(** The same life, ended before the relay's pass. *)
Definition before_relay : World (P := always 200) :=
  fold_left (fun w p => (exec p w).2) (take 4 life) (world_at 1000 empty_db 200).

Lemma every_delivery_reaches_queue_witness :
  count_pending (w_db before_relay) = 1%nat /\ has_job (P := always 200) (polls demo_cfg 1 10 before_relay) "uuid-8".
Proof.
  assert (count_pending (w_db before_relay) = 1%nat) as Hp by (vm_compute; reflexivity).
  assert (bool_decide (is_Some (deliveries (w_db (polls demo_cfg 1 10 before_relay)) !! "uuid-8")) = true) as Hd
    by (vm_compute; reflexivity).
  apply bool_decide_eq_true in Hd as [d Hd]. split; [exact Hp|].
  destruct (rtc_story (outside (P := always 200)) (startable (P := always 200) demo_cfg) (take 4 life)
    (world_at 1000 empty_db 200) [] (Forall_take _ 4 _ life_startable)) as [pool Hr].
  apply (every_delivery_reaches_queue (P := always 200) demo_cfg (world_at 1000 empty_db 200) before_relay pool 1 10
    (conj eq_refl eq_refl) Hr ltac:(lia) ltac:(rewrite Hp; lia) "uuid-8" d Hd).
Defined.
