(* ===== verification/RelayLoop.v ===== *)
(** * The relay's polling loop: [RelayService.start], [onApplicationShutdown]

    The timer that starts a pass every [HR_OUTBOX_POLL_MS], unless the last one is
    still running, as a step relation around [tick] ([Relay.v]) on the shared
    state, with any failure of a service at each action of the pass.  Passes of one
    relay never overlap, none starts after shutdown, and every run of the loop is a
    run of the pool of processes that [DeliveryPool.v] and its clients speak of. *)

From S2P Require Import Prelude JsNumber Errors Effects Concurrency Json Platform Schema World Config TestPlatform.
From S2P Require Import Relay Footprint Ledger DeliveryPool.
From stdpp Require Import relations.
Open Scope Z_scope.
Open Scope hook_scope.

(** [this.timer] (whether it is set), [this.ticking], and the passes under way. *)
Record Loop `{P : Platform} := mkLoop {
  lp_timer : bool;
  lp_ticking : bool;
  lp_passes : list (prog World unit);
}.

Arguments mkLoop {P} _ _ _.

Section loop.
Context `{P : Platform}.
Variable cfg : Config.

(** [batchSize = 100] *)
Definition pass : prog World unit := discard (tick cfg 100).

(** [start] sets the timer; the callback of the interval returns if a pass is under
    way; [finally] clears the flag when a pass has returned or thrown ([catch] only
    logs); [onApplicationShutdown] clears the timer. *)
Definition start (l : Loop) : Loop := mkLoop true (lp_ticking l) (lp_passes l).

Definition on_interval (l : Loop) : Loop :=
  if lp_ticking l then l else mkLoop (lp_timer l) true (lp_passes l ++ [pass]).

Definition on_settled (i : nat) (l : Loop) : Loop :=
  mkLoop (lp_timer l) false (base.delete i (lp_passes l)).

Definition onApplicationShutdown (l : Loop) : Loop := mkLoop false (lp_ticking l) (lp_passes l).

(** A step of the loop, or of the processes around it ([others], other relays
    included). *)
Inductive loop_step : World * Loop * list (prog World unit) -> World * Loop * list (prog World unit) -> Prop :=
| loop_start w l others : loop_step (w, l, others) (w, start l, others)
| loop_interval w l others : lp_timer l = true -> loop_step (w, l, others) (w, on_interval l, others)
| loop_act i w l others svc R (f : World -> (exn + R) * World) k r w' :
    lp_passes l !! i = Some (Act svc f k) -> act_out svc f w r w' ->
    loop_step (w, l, others) (w', mkLoop (lp_timer l) (lp_ticking l) (<[i := k r]> (lp_passes l)), others)
| loop_settled i w l others p : lp_passes l !! i = Some p -> settled p = true ->
    loop_step (w, l, others) (w, on_settled i l, others)
| loop_shutdown w l others : loop_step (w, l, others) (w, onApplicationShutdown l, others)
| loop_others w l others w' others' : pstep outside (startable cfg) (w, others) (w', others') ->
    loop_step (w, l, others) (w', l, others').

Definition idle : Loop := mkLoop false false [].

(** ** Passes do not overlap *)

Definition one_pass (l : Loop) : Prop := length (lp_passes l) = if lp_ticking l then 1%nat else 0%nat.

Lemma one_pass_step s s' : loop_step s s' -> one_pass s.1.2 -> one_pass s'.1.2.
Proof.
  unfold one_pass. intros [w l o|w l o H|i w l o svc R f k r w' Hi H|i w l o p Hi H|w l o|w l o w' o' H]; cbn; try done.
  - unfold on_interval. destruct (lp_ticking l) eqn:E; [by rewrite E|]. cbn. rewrite length_app. cbn. lia.
  - by rewrite length_insert.
  - intros Hl. rewrite (length_delete _ i) by by eexists. rewrite Hl. by destruct (lp_ticking l).
Qed.

(** ** The loop's passes are processes of the pool *)

Definition embedded (l : Loop) (others pool : list (prog World unit)) : Prop :=
  exists finished, pool ≡ₚ lp_passes l ++ others ++ finished.

Lemma embedded_step s s' pool : loop_step s s' -> embedded s.1.2 s.2 pool ->
  exists pool', rtc (pstep outside (startable cfg)) (s.1.1, pool) (s'.1.1, pool') /\ embedded s'.1.2 s'.2 pool'.
Proof.
  intros [w l o|w l o H|i w l o svc R f k r w' Hi H|i w l o p Hi H|w l o|w l o w' o' H] [fin Hp]; cbn in *.
  - exists pool. split; [done|]. by exists fin.
  - unfold on_interval. destruct (lp_ticking l); [exists pool; split; [done|by exists fin]|].
    exists (pool ++ [pass]). split; [apply rtc_once, step_start, start_routine, start_tick|]. exists fin. cbn.
    rewrite Hp. solve_Permutation.
  - destruct (pstep_embed outside (startable cfg) w w' (lp_passes l) (<[i := k r]> (lp_passes l)) (o ++ fin) pool)
      as (pool' & H1 & H2); [by eapply step_act|done|]. exists pool'. split; [done|]. by exists fin.
  - exists pool. split; [done|]. exists (p :: fin). cbn. rewrite (delete_Permutation _ _ _ Hi) in Hp.
    rewrite Hp. solve_Permutation.
  - exists pool. split; [done|]. by exists fin.
  - destruct (pstep_embed outside (startable cfg) w w' o o' (lp_passes l ++ fin) pool H) as (pool' & H1 & H2).
    + rewrite Hp. solve_Permutation.
    + exists pool'. split; [done|]. exists fin. rewrite H2. solve_Permutation.
Qed.

(** After shutdown the passes are those that were under way. *)
Lemma no_start_after_shutdown w l o s' :
  lp_timer l = false -> loop_step (w, l, o) s' -> lp_timer s'.1.2 = true \/
    lp_timer s'.1.2 = false /\ (length (lp_passes s'.1.2) <= length (lp_passes l))%nat.
Proof.
  intros Ht H. inversion H; subst; cbn; try (right; split; [done|lia]); [by left|congruence|..].
  - right. rewrite length_insert. split; [done|lia].
  - right. split; [done|]. rewrite length_delete by by eexists. lia.
Qed.

(** ** Properties *)

(** C25.  The polling loop: however its timer, its passes and the other processes
    interleave, fail and crash, at most one pass of this relay is under way, and
    exactly while [ticking] is set; and the whole run is a run of the pool of
    processes, so what holds of the pool (no delivery lost, requests bounded,
    authentic requests) holds of the system with the loop in it. *)
Theorem loop_refines_pool w0 w l others :
  rtc loop_step (w0, idle, []) (w, l, others) ->
  length (lp_passes l) = (if lp_ticking l then 1%nat else 0%nat) /\
  exists pool, rtc (pstep outside (startable cfg)) (w0, []) (w, pool) /\ forall p, p ∈ lp_passes l -> p ∈ pool.
Proof.
  intros H.
  assert (forall s s', rtc loop_step s s' -> one_pass s.1.2 -> forall pool, embedded s.1.2 s.2 pool ->
    one_pass s'.1.2 /\ exists pool', rtc (pstep outside (startable cfg)) (s.1.1, pool) (s'.1.1, pool') /\
      embedded s'.1.2 s'.2 pool') as Hgen.
  { intros s s'. induction 1 as [s|s1 s2 s3 Hs _ IH]; intros H1 pool Hp; [split; [done|by exists pool]|].
    destruct (embedded_step _ _ _ Hs Hp) as (p2 & Hr & Hp2). apply (one_pass_step _ _ Hs) in H1.
    destruct (IH H1 p2 Hp2) as (H3 & p3 & Hr3 & Hp3). split; [done|]. exists p3. split; [by etrans|done]. }
  destruct (Hgen _ _ H eq_refl []) as (H1 & pool & Hr & fin & Hp); [exists []; reflexivity|]. split; [exact H1|].
  exists pool. split; [exact Hr|]. intros p Hin. rewrite Hp. apply elem_of_app. by left.
Qed.

End loop.

(** ** A pass that fails at once: the next interval starts another *)

Lemma loop_refines_pool_witness :
  let w0 := world_at 1000 empty_db 200 in
  let l := mkLoop (P := always 200) true true [pass demo_cfg] in
  rtc (loop_step demo_cfg) (w0, idle, []) (w0, l, []) /\ length (lp_passes l) = 1%nat.
Proof.
  intros w0 l.
  assert (rtc (loop_step demo_cfg) (w0, idle, []) (w0, l, [])) as Hr.
  { eapply rtc_l; [apply loop_start|]. eapply rtc_l; [by apply loop_interval|].
    eapply rtc_l; [by apply loop_interval|].
    eapply rtc_l; [eapply (loop_act demo_cfg 0); [reflexivity|by apply (out_before Postgres _ _ TimeoutError)]|].
    eapply rtc_l; [by eapply (loop_settled demo_cfg 0)|].
    eapply rtc_l; [by apply loop_interval|]. apply rtc_refl. }
  split; [exact Hr|]. exact (proj1 (loop_refines_pool demo_cfg w0 w0 l [] Hr)).
Defined.
