(* ===== verification/Metrics.v ===== *)
(** * The metrics of all processes

    The scrape server of the worker and the relay ([metrics/metrics.server.ts]), whose
    answer depends on the path alone; the text that prom-client renders, or its
    exception, is an argument.  Then the rule of the registry for the
    whole system: every call of a metric that any process makes, in any interleaving,
    is one the registry accepts, with labels from the closed sets; so the number of
    time series is bounded, however many tenants, endpoints and events there are. *)

From S2P Require Import Prelude Errors Effects Concurrency Json Platform Schema Registry World Config TestPlatform.
From S2P Require Import CircuitStore HttpClient Processor Worker Relay Events Deliveries Endpoints Tenancy Footprint.
From S2P Require Import IpAddress DeliveryPool Api Purge Wire.
Open Scope Z_scope.
Open Scope hook_scope.

(** The body is empty, the registry's text or the error's. *)
Inductive Scrape := NotFound | Scraped (body : string) | ScrapeFailed (error : exn).

Definition metrics_server (metrics : exn + string) (url : string) : Scrape :=
  if negb (String.eqb url "/metrics") && negb (String.eqb url "/metrics/") then NotFound
  else match metrics with inl e => ScrapeFailed e | inr body => Scraped body end.

Definition scrape_status (s : Scrape) : Z :=
  match s with NotFound => 404 | Scraped _ => 200 | ScrapeFailed _ => 500 end.

(** [HR_METRICS_PORT = 0] starts no server. *)
Definition metrics_enabled (port : Z) : bool := 0 <? port.

Section metrics.
Context `{P : Platform}.

(** ** What a process adds to the observations *)

Definition metered (w w' : World) : Prop :=
  exists l, w_trace w' = w_trace w ++ l /\ Forall (fun o => obs_ok o = true) l.

#[export] Instance metered_preorder : PreOrder metered.
Proof.
  split.
  - intros w. exists []. by rewrite app_nil_r.
  - intros w1 w2 w3 (l1 & E1 & H1) (l2 & E2 & H2). exists (l1 ++ l2). rewrite E2, E1, app_assoc.
    split; [done|by apply Forall_app].
Qed.

Lemma metered_trace w w' : w_trace w' = w_trace w -> metered w w'.
Proof. intros E. exists []. by rewrite app_nil_r. Qed.

Lemma metered_observe o w : obs_ok o = true -> metered w (observe o w).
Proof. intros Ho. exists [o]. split; [done|by constructor]. Qed.

Lemma metered_db w w' : db_step w w' -> metered w w'.
Proof. intros (_ & _ & _ & _ & Ht). by apply metered_trace. Qed.

Lemma metered_tx {R} (s : stm R) : db_only s -> acts metered (transaction s).
Proof. intros Hs. apply acts_transaction; [done|apply metered_db]. Qed.

#[export] Instance metered_footprint : Footprint metered.
Proof.
  apply footprint_elsewhere.
  - apply _.
  - intros w w' _ _ Ht. by apply metered_trace.
  - intros o w _ Ho. by apply metered_observe.
  - intros R s [Hs _]. by apply metered_tx.
  - intros t dto key. apply metered_tx, db_only_publish_body.
Qed.

#[export] Instance metered_endpoint_footprint : EndpointFootprint metered.
Proof.
  apply endpoint_footprint_elsewhere; [intros R s [Hs _]; by apply metered_tx|].
  intros. apply metered_tx. apply db_only_bind; [apply db_only_event_insert|]. intros _.
  apply db_only_bind; [apply db_only_delivery_create|done].
Qed.

Section programs.
Variable cfg : Config.

Lemma metered_process wid D : acts metered (process cfg wid D).
Proof.
  apply process_acts; try apply _; try (intros; apply metered_tx; auto with hook; fail).
  - intros w w' [-> _]. by apply metered_trace.
  - intros w w' (_ & _ & _ & _ & _ & l & Ht & _ & Hl). by exists l.
  - intros w f. by apply metered_trace.
  - intros w op m labels v Ho. by apply metered_observe.
Qed.

Lemma metered_handle_job wid job : acts metered (handle_job cfg wid job).
Proof.
  apply (handle_job_footprint metered); [apply metered_process|]. intros. apply metered_tx. auto with hook.
Qed.

Lemma metered_tick k : acts metered (tick cfg k).
Proof. apply (tick_footprint metered). intros. apply metered_tx. auto with hook. Qed.

Lemma metered_purge env : acts metered (purge env).
Proof.
  unfold purge. apply acts_bind; [apply (fp_now metered)|]. intros now. destruct (cutoff _ _); [|done]. by apply metered_tx.
Qed.

Lemma metered_redeliver t D : acts metered (redeliver t D).
Proof.
  unfold redeliver, requireOwned. apply acts_bind; [fp|]. intros d. apply acts_bind; [|done].
  apply metered_tx. auto with hook.
Qed.

Context (legacyDate : json -> option Z) (uuid_ok : string -> bool).
Context (is_url : string -> bool) (dto_message : json -> list string).

Lemma metered_dto {A} (read : json -> option A) body : acts metered (dto dto_message read body).
Proof. unfold dto. by destruct (read body). Qed.

Lemma metered_uuid id : acts metered (uuid_param uuid_ok id).
Proof. unfold uuid_param. by destruct (uuid_ok id). Qed.

(** The service calls of the routes. *)
Ltac service :=
  first
    [ apply metered_dto | apply metered_uuid | apply metered_redeliver
    | apply (create_footprint metered cfg) | apply (update_endpoint_footprint metered cfg)
    | apply (fp_read metered) | apply (get_endpoint_footprint metered) | apply (setSubscriptions_footprint metered)
    | apply (ping_footprint metered) | apply (controller_publish_footprint metered)
    | apply (getDeliveries_footprint metered) | apply (list_deliveries_footprint metered)
    | apply (get_attempts_footprint metered) | apply (rotate_footprint metered) ].

Lemma metered_handle t plan c : acts metered (handle cfg legacyDate uuid_ok is_url dto_message t plan c).
Proof.
  destruct c; cbn [handle]; unfold endpoints_create, endpoints_list, endpoints_get, endpoints_update,
    endpoints_setSubscriptions, endpoints_ping, events_publish, events_deliveries, deliveries_list,
    deliveries_attempts, deliveries_redeliver, apiKeys_rotate, list_endpoints, controller_list;
    repeat (first [service | apply acts_bind; [service|intros ?] | done | case_match]).
Qed.

Lemma metered_intercept {A} path method route status (p : prog World A) :
  method ∈ http_methods -> route ∈ http_routes -> status = 200 \/ status = 201 \/ status = 202 ->
  acts metered p -> acts metered (intercept path method route status p).
Proof.
  intros Hm Hr Hs Hp. unfold intercept. destruct (String.eqb _ _); [done|].
  assert (label_ok ("method", method) = true /\ label_ok ("route", route) = true) as [Hm' Hr']
    by (by split; apply bool_decide_eq_true_2).
  apply acts_bind; [apply (fp_now metered)|]. intros started. apply acts_finally; [done|].
  apply acts_bind; [apply (fp_metric metered)|intros _; apply acts_bind; [apply (fp_now metered)|]; intros ended;
    apply (fp_metric metered)].
  - unfold call_ok. cbn [forallb request_labels route_labels app]. rewrite Hm', Hr'. by destruct Hs as [->|[->| ->]].
  - unfold call_ok. cbn [forallb route_labels]. by rewrite Hm', Hr'.
Qed.

Lemma metered_respond status route : acts metered route -> acts metered (respond status route).
Proof. intros H. apply acts_catch; [by apply acts_bind|done]. Qed.

Lemma metered_tenant_route head authorization c :
  acts metered (tenant_route cfg legacyDate uuid_ok is_url dto_message head authorization c).
Proof.
  apply metered_respond, acts_bind; [apply (canActivate_footprint metered)|]. intros [t plan].
  apply metered_intercept; [| | |apply metered_handle].
  - apply (bool_decide_unpack _). by destruct head, c.
  - apply (bool_decide_unpack _). by destruct c.
  - destruct c; cbn; auto.
Qed.

Lemma metered_post_tenants adminKey body : acts metered (post_tenants cfg dto_message adminKey body).
Proof.
  apply metered_respond, acts_bind; [unfold admin_canActivate; by case_match|]. intros _.
  apply metered_intercept; [by apply (bool_decide_unpack _)..|auto|].
  apply acts_bind; [apply metered_dto|]. intros d. apply acts_bind; [apply (create_tenant_footprint metered)|done].
Qed.

Context (decode : string -> string) (not_found bad_json : string -> string) (reason : Z -> string).
Variable exposition : exn + string.

Notation server := (api_server cfg legacyDate uuid_ok is_url dto_message decode not_found bad_json reason exposition).

Lemma metered_server rq : acts metered (server rq).
Proof.
  apply acts_bind; [|done]. unfold serve_route. destruct (dispatch decode rq) as [body|c| | | | |]; try done.
  - apply acts_bind; [apply metered_post_tenants|done].
  - apply acts_bind; [apply metered_tenant_route|done].
  - unfold get_metrics. apply acts_catch; [|done].
    apply metered_intercept; [|by apply (bool_decide_unpack _)|auto|by destruct exposition].
    apply (bool_decide_unpack _). by destruct (is_head rq).
Qed.

(** ** The deployed system

    Whole requests of the API, of any method and path, the worker's jobs and its sampling
    of the queue (a read of the queue, which may fail), passes of the relay, and the
    purge. *)
Inductive deployed : prog World unit -> Prop :=
| deployed_request rq : deployed (discard (server rq))
| deployed_job wid job : deployed (discard (handle_job cfg wid job))
| deployed_sample f : deployed (discard (sampleQueue (query QueueService f)))
| deployed_tick k : deployed (discard (tick cfg k))
| deployed_purge env : deployed (discard (purge env)).

Lemma metered_deployed p : deployed p -> acts metered p.
Proof.
  assert (forall B (q : prog World B), acts metered q -> acts metered (discard q)) as Hd by (intros; by apply acts_bind).
  intros [rq|wid job|f|k|env]; apply Hd.
  - apply metered_server.
  - apply metered_handle_job.
  - apply (sampleQueue_footprint metered), (sample_footprint metered).
  - apply metered_tick.
  - apply metered_purge.
Qed.

(** The time series that exist: those prom-client starts with, and those of every label
    set that has been observed. *)
Definition series_of (o : obs) : list series :=
  match o with ObsMetric _ m labels _ => series_at m labels | _ => [] end.

Definition time_series (w : World) : list series := remove_dups (initial_series ++ (w_trace w ≫= series_of)).

Lemma series_registered w s :
  (forall o, o ∈ w_trace w -> obs_ok o = true) -> s ∈ time_series w -> s ∈ all_series.
Proof.
  intros Hok. unfold time_series. rewrite elem_of_remove_dups, elem_of_app, list_elem_of_bind.
  intros [Hs|(o & Hs & Ho)]; [by apply initial_series_ok|]. specialize (Hok _ Ho).
  destruct o as [| | | |op m labels v]; cbn [series_of] in Hs; try (by apply not_elem_of_nil in Hs).
  exact (call_ok_series op m labels v s Hok Hs).
Qed.

Lemma series_number w : (forall o, o ∈ w_trace w -> obs_ok o = true) -> (length (time_series w) <= 937)%nat.
Proof.
  intros Hok. apply (Nat.le_trans _ (length all_series)); [|apply Nat.eq_le_incl, all_series_number].
  apply submseteq_length, NoDup_submseteq; [apply NoDup_remove_dups|]. intros s. by apply series_registered.
Qed.


End programs.
End metrics.

(** ** A request, a pass of the relay, a sampling *)

Section demo.
#[local] Instance demo_platform : Platform := always 200.

Notation demo_server := (api_server demo_cfg (fun _ => None) (fun _ => true) (fun _ => true) (fun _ => ["Bad Request"])
  (fun s => s) (fun _ => "Not Found") (fun _ => "Bad JSON") (fun _ => EmptyString) (inr EmptyString)).
Notation demo_deployed := (deployed demo_cfg (fun _ => None) (fun _ => true) (fun _ => true) (fun _ => ["Bad Request"])
  (fun s => s) (fun _ => "Not Found") (fun _ => "Bad JSON") (fun _ => EmptyString) (inr EmptyString)).

(** A publication, a HEAD request and a scrape under another spelling of the path. *)
Definition metered_day : list (prog World unit) :=
  [ discard (demo_server (mkHttpReq "POST" "/events"
      {[ "authorization" := "Bearer sk_live_one"; "content-type" := "application/json"; "idempotency-key" := "key-1" ]}
      (Some (stringify (JObj [("type", JStr "order.created"); ("payload", JObj [("n", JNum 1)])])))));
    discard (demo_server (mkHttpReq "HEAD" "/Endpoints/" {[ "authorization" := "Bearer sk_live_one" ]} None));
    discard (demo_server (mkHttpReq "GET" "/metrics/" ∅ None));
    discard (demo_server (mkHttpReq "GET" "/metrics" ∅ None));
    discard (tick demo_cfg 10);
    discard (sampleQueue (query QueueService (fun _ => mkJobCounts (Some 1) None None None))) ].

Definition after_metered_day : World := fold_left (fun w p => (exec p w).2) metered_day api_world.

Lemma metered_day_deployed : Forall demo_deployed metered_day.
Proof. unfold metered_day. repeat constructor. Qed.


End demo.
