(* ===== verification/WorkerLoop.v ===== *)
(** * The worker process: [WorkerService.start], [onApplicationShutdown]

    The BullMQ worker with the jobs it is handling, the timer of the queue gauge, the
    scrape server and the sequence of the shutdown, as a step relation around
    [handle_job] and [sampleQueue] ([Worker.v]) on the shared state, with any failure
    of a service at each action.  Of BullMQ it relies on what its documentation says:
    no more jobs are handled at a time than [concurrency], and [close] takes no new
    job and resolves when the handlers of the current ones have settled. *)

From S2P Require Import Prelude JsNumber Errors Effects Concurrency Json Platform Schema Registry World Config TestPlatform.
From S2P Require Import Worker Metrics Footprint Ledger DeliveryPool.
From stdpp Require Import relations.
Open Scope Z_scope.
Open Scope hook_scope.

(** Where [onApplicationShutdown] is: not called, or waiting for the scrape server,
    for the worker, for the queue, or done ([redis.disconnect()]). *)
Inductive Stage := Up | ClosingMetrics | ClosingWorker | ClosingQueue | Disconnected.

#[export] Instance Stage_eq_dec : EqDecision Stage.
Proof. solve_decision. Defined.

(** [this.metricsServer], [this.queueSampleTimer] (whether they are set),
    [this.worker] (its concurrency), the handlers and samplings under way, the
    registry of the process, the shutdown, and what the ['failed'] listener logged. *)
Record Service `{P : Platform} := mkService {
  sv_metricsServer : bool;
  sv_timer : bool;
  sv_worker : option Z;
  sv_jobs : list (prog World unit);
  sv_samples : list (prog World unit);
  sv_registry : Registry;
  sv_stage : Stage;
  sv_logged : list exn;
}.

Arguments mkService {P} _ _ _ _ _ _ _ _.

Section service.
Context `{P : Platform}.
Variable cfg : Config.
Variable getJobCounts : World -> JobCounts.

Definition boot : Service := mkService false false None [] [] registry Up [].

Definition with_jobs (jobs : list (prog World unit)) (s : Service) : Service :=
  mkService (sv_metricsServer s) (sv_timer s) (sv_worker s) jobs (sv_samples s) (sv_registry s) (sv_stage s) (sv_logged s).
Definition with_samples (samples : list (prog World unit)) (s : Service) : Service :=
  mkService (sv_metricsServer s) (sv_timer s) (sv_worker s) (sv_jobs s) samples (sv_registry s) (sv_stage s) (sv_logged s).
Definition with_stage (stage : Stage) (s : Service) : Service :=
  mkService (sv_metricsServer s) (sv_timer s) (sv_worker s) (sv_jobs s) (sv_samples s) (sv_registry s) stage (sv_logged s).
Definition logging (e : exn) (s : Service) : Service :=
  mkService (sv_metricsServer s) (sv_timer s) (sv_worker s) (sv_jobs s) (sv_samples s) (sv_registry s) (sv_stage s)
    (sv_logged s ++ [e]).

(** [start]; the scrape server registers the default metrics ([startMetricsServer]). *)
Definition start (s : Service) : Service :=
  let metricsPort := HR_METRICS_PORT cfg in
  mkService (metrics_enabled metricsPort) true (Some (HR_WORKER_CONCURRENCY cfg)) (sv_jobs s) (sv_samples s)
    (if metrics_enabled metricsPort then ensureDefaultMetrics (labelComponent worker_component (sv_registry s))
     else sv_registry s)
    (sv_stage s) (sv_logged s).

(** The ['failed'] listener: expected signals are not logged. *)
Definition on_failed (error : exn) (s : Service) : Service :=
  match error with ERetrySignal _ | EDelayed => s | _ => logging error s end.

Definition job_settled (p : prog World unit) (s : Service) : Service :=
  match p with Throw e => on_failed e s | _ => s end.

Definition sample : prog World unit := discard (sampleQueue (query QueueService getJobCounts)).

(** [onApplicationShutdown] up to the first [await]. *)
Definition onApplicationShutdown (s : Service) : Service :=
  mkService (sv_metricsServer s) false (sv_worker s) (sv_jobs s) (sv_samples s) (sv_registry s) ClosingMetrics (sv_logged s).

(** The worker takes jobs until [worker.close()] is called. *)
Definition consuming (s : Service) : bool :=
  match sv_stage s with Up | ClosingMetrics => true | _ => false end.

Inductive serve : World * Service * list (prog World unit) -> World * Service * list (prog World unit) -> Prop :=
| serve_start w s others : sv_stage s = Up -> sv_worker s = None -> serve (w, s, others) (w, start s, others)
| serve_take wid job w s others concurrency :
    sv_worker s = Some concurrency -> consuming s = true -> Z.of_nat (length (sv_jobs s)) < concurrency ->
    serve (w, s, others) (w, with_jobs (sv_jobs s ++ [discard (handle_job cfg wid job)]) s, others)
| serve_act i w s others svc R (f : World -> (exn + R) * World) k r w' :
    sv_jobs s !! i = Some (Act svc f k) -> act_out svc f w r w' ->
    serve (w, s, others) (w', with_jobs (<[i := k r]> (sv_jobs s)) s, others)
| serve_settled i w s others p : sv_jobs s !! i = Some p -> settled p = true ->
    serve (w, s, others) (w, job_settled p (with_jobs (base.delete i (sv_jobs s)) s), others)
| serve_interval w s others : sv_timer s = true ->
    serve (w, s, others) (w, with_samples (sv_samples s ++ [sample]) s, others)
| serve_sample i w s others svc R (f : World -> (exn + R) * World) k r w' :
    sv_samples s !! i = Some (Act svc f k) -> act_out svc f w r w' ->
    serve (w, s, others) (w', with_samples (<[i := k r]> (sv_samples s)) s, others)
| serve_sampled i w s others p : sv_samples s !! i = Some p -> settled p = true ->
    serve (w, s, others) (w, with_samples (base.delete i (sv_samples s)) s, others)
| serve_shutdown w s others : sv_stage s = Up -> serve (w, s, others) (w, onApplicationShutdown s, others)
| serve_metrics_closed w s others : sv_stage s = ClosingMetrics ->
    serve (w, s, others) (w, with_stage ClosingWorker s, others)
| serve_worker_closed w s others : sv_stage s = ClosingWorker -> sv_jobs s = [] ->
    serve (w, s, others) (w, with_stage ClosingQueue s, others)
| serve_queue_closed w s others : sv_stage s = ClosingQueue ->
    serve (w, s, others) (w, with_stage Disconnected s, others)
| serve_others w s others w' others' : pstep outside (startable cfg) (w, others) (w', others') ->
    serve (w, s, others) (w', s, others').

(** ** The invariant of the process *)

Definition expected (e : exn) : bool := match e with ERetrySignal _ | EDelayed => true | _ => false end.

Record service_ok (s : Service) : Prop := {
  so_before : sv_worker s = None -> sv_jobs s = [] /\ sv_registry s = registry;
  so_bound : forall c, sv_worker s = Some c -> Z.of_nat (length (sv_jobs s)) <= Z.max 0 c;
  so_timer : sv_stage s <> Up -> sv_timer s = false;
  so_drained : sv_stage s = ClosingQueue \/ sv_stage s = Disconnected -> sv_jobs s = [];
  so_logged : Forall (fun e => expected e = false) (sv_logged s);
  so_registry : sv_registry s = registry \/ sv_registry s = mkRegistry true 1 (Some worker_component);
}.

Lemma boot_ok : service_ok boot.
Proof. split; cbn; try done. by left. Qed.

Lemma job_settled_fields p s :
  sv_worker (job_settled p s) = sv_worker s /\ sv_jobs (job_settled p s) = sv_jobs s /\
  sv_samples (job_settled p s) = sv_samples s /\
  sv_timer (job_settled p s) = sv_timer s /\ sv_stage (job_settled p s) = sv_stage s /\
  sv_registry (job_settled p s) = sv_registry s.
Proof. by destruct p as [|[]|]. Qed.

Lemma job_settled_logged p s :
  Forall (fun e => expected e = false) (sv_logged s) -> Forall (fun e => expected e = false) (sv_logged (job_settled p s)).
Proof. intros H. destruct p as [|[]|]; cbn; try done; apply Forall_app; (split; [done|by constructor]). Qed.

Lemma serve_ok x y : serve x y -> service_ok x.1.2 -> service_ok y.1.2.
Proof.
  intros Hs [Hbf Hb Ht Hd Hl Hr].
  destruct Hs as [w s o Hst Hw|wid job w s o c Hw Hc Hn|i w s o svc R f k r w' Hi Hout|i w s o p Hi Hp|w s o H
    |i w s o svc R f k r w' Hi Hout|i w s o p Hi Hp|w s o H|w s o H|w s o H Hj|w s o H|w s o w' o' H]; cbn in *;
    try (split; cbn; auto; try congruence; fail).
  - destruct (Hbf Hw) as [Hj Hreg]. split; cbn; try done.
    + intros c [= <-]. rewrite Hj. cbn. lia.
    + rewrite Hreg. destruct (metrics_enabled _); [by right|by left].
  - split; cbn; try done; [congruence| |].
    + intros c' Hw'. simplify_eq. rewrite length_app. cbn. lia.
    + unfold consuming in Hc. intros [E|E]; by rewrite E in Hc.
  - split; cbn; try done.
    + intros Hw. destruct (Hbf Hw) as [E _]. by rewrite E in Hi.
    + intros c Hw. rewrite length_insert. by apply Hb.
    + intros E. rewrite (Hd E) in Hi. done.
  - destruct (job_settled_fields p (with_jobs (base.delete i (sv_jobs s)) s)) as (E1 & E2 & _ & E4 & E5 & E6).
    split; rewrite ?E1, ?E2, ?E4, ?E5, ?E6; cbn; try done.
    + intros Hw. destruct (Hbf Hw) as [E _]. by rewrite E in Hi.
    + intros c Hw. specialize (Hb c Hw). rewrite length_delete by by eexists. lia.
    + intros E. rewrite (Hd E) in Hi. done.
    + by apply job_settled_logged.
  - split; cbn; try done. by intros [|].
  - split; cbn; try done; [|by intros [|]]. intros _. apply Ht. by rewrite H.
  - split; cbn; try done. intros _. apply Ht. by rewrite H.
  - split; cbn; try done; [|intros _; apply Hd; by left]. intros _. apply Ht. by rewrite H.
Qed.

(** ** The shutdown ends

    What the process does by itself once [worker.close()] has been called, whatever the
    services answer to its actions. *)
Inductive closing (s : Service) : Service -> Prop :=
| closing_act i p q : sv_jobs s !! i = Some p -> continues p q -> closing s (with_jobs (<[i := q]> (sv_jobs s)) s)
| closing_settled i p : sv_jobs s !! i = Some p -> settled p = true ->
    closing s (job_settled p (with_jobs (base.delete i (sv_jobs s)) s))
| closing_sample i p q : sv_samples s !! i = Some p -> continues p q ->
    closing s (with_samples (<[i := q]> (sv_samples s)) s)
| closing_sampled i p : sv_samples s !! i = Some p -> settled p = true ->
    closing s (with_samples (base.delete i (sv_samples s)) s)
| closing_worker : sv_stage s = ClosingWorker -> sv_jobs s = [] -> closing s (with_stage ClosingQueue s)
| closing_queue : sv_stage s = ClosingQueue -> closing s (with_stage Disconnected s).

Definition stages_left (stage : Stage) : nat :=
  match stage with Up => 4 | ClosingMetrics => 3 | ClosingWorker => 2 | ClosingQueue => 1 | Disconnected => 0 end.

Lemma closing_acc n jobs samples s :
  stages_left (sv_stage s) = n -> sv_jobs s = jobs -> sv_samples s = samples -> Acc (flip closing) s.
Proof.
  revert jobs samples s. induction n as [n IHn] using lt_wf_ind. intros jobs.
  induction (progress_ends jobs) as [jobs _ IHj]. intros samples.
  induction (progress_ends samples) as [samples _ IHs]. intros s Hn <- <-. constructor. intros s' Hs.
  destruct Hs as [i p q Hi Hq|i p Hi Hp|i p q Hi Hq|i p Hi Hp|Hst Hj|Hst].
  - eapply IHj; [by eapply progress_act|done..].
  - destruct (job_settled_fields p (with_jobs (base.delete i (sv_jobs s)) s)) as (_ & E2 & E3 & _ & E5 & _).
    eapply IHj; [by eapply progress_leave, lookup_lt_Some|rewrite E5; exact Hn|exact E2|reflexivity].
  - eapply IHs; [by eapply progress_act|done..].
  - eapply IHs; [by eapply progress_leave, lookup_lt_Some|done..].
  - eapply (IHn 1%nat); [rewrite Hst in Hn; cbn in Hn; lia|done..].
  - eapply (IHn 0%nat); [rewrite Hst in Hn; cbn in Hn; lia|done..].
Qed.

Definition draining (s : Service) : Prop := (stages_left (sv_stage s) <= 2)%nat /\ sv_timer s = false.

Lemma serve_closing x y :
  serve x y -> draining x.1.2 -> draining y.1.2 /\ (y.1.2 = x.1.2 \/ closing x.1.2 y.1.2).
Proof.
  intros Hs [Hst Ht].
  destruct Hs as [w s o H Hw|wid job w s o c Hw Hc Hn|i w s o svc R f k r w' Hi Hout|i w s o p Hi Hp|w s o H
    |i w s o svc R f k r w' Hi Hout|i w s o p Hi Hp|w s o H|w s o H|w s o H Hj|w s o H|w s o w' o' H]; cbn in *.
  - rewrite H in Hst. cbn in Hst. lia.
  - unfold consuming in Hc. destruct (sv_stage s); cbn in *; try done; lia.
  - split; [done|right]. eapply closing_act; [exact Hi|by exists r].
  - destruct (job_settled_fields p (with_jobs (base.delete i (sv_jobs s)) s)) as (_ & _ & _ & E4 & E5 & _).
    split; [split; [by rewrite E5|by rewrite E4]|right; by eapply closing_settled].
  - by rewrite Ht in H.
  - split; [done|right]. eapply closing_sample; [exact Hi|by exists r].
  - split; [done|right]. by eapply closing_sampled.
  - rewrite H in Hst. cbn in Hst. lia.
  - rewrite H in Hst. cbn in Hst. lia.
  - split; [split; [cbn; lia|done]|right; by apply closing_worker].
  - split; [split; [cbn; lia|done]|right; by apply closing_queue].
  - split; [done|by left].
Qed.

(** Until it is disconnected the process can go on. *)
Lemma draining_goes_on w s others : draining s -> sv_stage s <> Disconnected ->
  exists w' s', serve (w, s, others) (w', s', others) /\ closing s s'.
Proof.
  intros [Hst _] Hne. destruct (sv_stage s) eqn:E; cbn in Hst; [lia|lia| | |done].
  2:{ exists w, (with_stage Disconnected s). split; [by apply serve_queue_closed|by apply closing_queue]. }
  destruct (sv_jobs s) as [|p jobs] eqn:Hj.
  { exists w, (with_stage ClosingQueue s). split; [by apply serve_worker_closed|by apply closing_worker]. }
  assert (sv_jobs s !! 0%nat = Some p) as Hi by by rewrite Hj.
  destruct (settled p) eqn:Hp.
  { eexists w, _. split; [by eapply serve_settled|by eapply closing_settled]. }
  destruct p as [| |svc R f k]; [done..|]. destruct (f w) as [r w'] eqn:Hf.
  exists w'. eexists. split; [eapply serve_act; [exact Hi|by apply out_ok]|].
  eapply closing_act; [exact Hi|by exists r].
Qed.

(** ** The process is part of the pool *)

Definition embedded (s : Service) (others pool : list (prog World unit)) : Prop :=
  exists finished, pool ≡ₚ sv_jobs s ++ sv_samples s ++ others ++ finished.

Notation steps := (rtc (pstep outside (startable cfg))).

Lemma serve_embedded x y pool : serve x y -> embedded x.1.2 x.2 pool ->
  exists pool', steps (x.1.1, pool) (y.1.1, pool') /\ embedded y.1.2 y.2 pool'.
Proof.
  intros Hs [fin Hp].
  destruct Hs as [w s o H Hw|wid job w s o c Hw Hc Hn|i w s o svc R f k r w' Hi Hout|i w s o p Hi Hset|w s o H
    |i w s o svc R f k r w' Hi Hout|i w s o p Hi Hset|w s o H|w s o H|w s o H Hj|w s o H|w s o w' o' H]; cbn in *;
    try (exists pool; split; [done|by exists fin]).
  - exists (pool ++ [discard (handle_job cfg wid job)]).
    split; [apply rtc_once, step_start, start_routine, start_job|]. exists fin. cbn. rewrite Hp. solve_Permutation.
  - destruct (pstep_embed outside (startable cfg) w w' (sv_jobs s) (<[i := k r]> (sv_jobs s)) (sv_samples s ++ o ++ fin) pool)
      as (pool' & H1 & H2); [by eapply step_act|done|]. exists pool'. split; [done|by exists fin].
  - destruct (job_settled_fields p (with_jobs (base.delete i (sv_jobs s)) s)) as (_ & E2 & E3 & _).
    exists pool. split; [done|]. exists (p :: fin). unfold embedded. rewrite E2, E3. cbn. rewrite (delete_Permutation _ _ _ Hi) in Hp.
    rewrite Hp. solve_Permutation.
  - exists (pool ++ [sample]). split; [apply rtc_once, step_start, start_routine, start_sample|]. exists fin. cbn.
    rewrite Hp. solve_Permutation.
  - destruct (pstep_embed outside (startable cfg) w w' (sv_samples s) (<[i := k r]> (sv_samples s)) (sv_jobs s ++ o ++ fin) pool)
      as (pool' & H1 & H2); [by eapply step_act|rewrite Hp; solve_Permutation|]. exists pool'. split; [done|].
    exists fin. cbn. rewrite H2. solve_Permutation.
  - exists pool. split; [done|]. exists (p :: fin). cbn. rewrite (delete_Permutation _ _ _ Hi) in Hp.
    rewrite Hp. solve_Permutation.
  - destruct (pstep_embed outside (startable cfg) w w' o o' (sv_jobs s ++ sv_samples s ++ fin) pool H) as (pool' & H1 & H2).
    + rewrite Hp. solve_Permutation.
    + exists pool'. split; [done|]. exists fin. cbn. rewrite H2. solve_Permutation.
Qed.

Lemma serve_run x y pool : rtc serve x y -> service_ok x.1.2 -> embedded x.1.2 x.2 pool ->
  service_ok y.1.2 /\ exists pool', steps (x.1.1, pool) (y.1.1, pool') /\ embedded y.1.2 y.2 pool'.
Proof.
  intros Hr. revert pool. induction Hr as [x|x1 x2 x3 Hs _ IH]; intros pool Hok Hp; [split; [done|by exists pool]|].
  destruct (serve_embedded _ _ _ Hs Hp) as (p2 & Hr2 & Hp2). destruct (IH p2 (serve_ok _ _ Hs Hok) Hp2) as (H3 & p3 & Hr3 & Hp3).
  split; [done|]. exists p3. split; [by etrans|done].
Qed.

(** ** Properties *)



End service.

(** ** A worker that is shut down while a job fails *)

Definition some_job : Job := mkJob "deliver" (mkJobData "d1" (Some "t1")) "dlv-d1" 8.

Definition no_counts `{P : Platform} (w : World) : JobCounts := mkJobCounts None None None None.

Definition handling (P := always 200) : Service :=
  with_jobs [discard (handle_job demo_cfg 0 some_job)] (start demo_cfg boot).

Definition closing_down (P := always 200) : Service := with_stage ClosingWorker (onApplicationShutdown handling).

Lemma closing_down_reached (P := always 200) w0 :
  rtc (serve demo_cfg no_counts) (w0, boot, []) (w0, closing_down, []).
Proof.
  eapply rtc_l; [by apply serve_start|].
  eapply rtc_l; [by eapply (serve_take demo_cfg no_counts 0 some_job); [reflexivity|reflexivity|]|].
  eapply rtc_l; [by apply serve_shutdown|].
  apply rtc_once. by apply serve_metrics_closed.
Qed.


