(* ===== verification/Integrity.v ===== *)
(** * The schema's constraints hold in every state the system reaches

    Foreign keys, unique keys and autoincrement keys of [schema.prisma], as an
    invariant of the database ([db_ok]).  The statements of the model check what
    PostgreSQL would check where a violation is possible; the others are shown
    here to respect the constraints because of what their programs have read or
    written before.  The statements are verified in a small Hoare logic
    ([triple]), the processes by rely and guarantee, and the invariant discharges
    the assumptions that theorems about single operations make of the database
    they start from. *)

From S2P Require Import Prelude JsNumber Backoff Errors Effects Concurrency Json Platform Schema World Config TestPlatform.
From S2P Require Import Signature CircuitStore TenantLimiter SecretCipher EndpointCache HttpClient Processor Worker.
From S2P Require Import Relay RateLimit Events Deliveries Ssrf Endpoints Tenancy Footprint Purge Ledger DeliveryPool.
From stdpp Require Import relations.
Open Scope Z_scope.
Open Scope hook_scope.

(** ** Unique columns and references *)

Section tables.
Context {K A B : Type} `{Countable K}.

Definition unique_by (f : A -> B) (m : gmap K A) : Prop :=
  forall i j x y, m !! i = Some x -> m !! j = Some y -> f x = f y -> i = j.

Lemma unique_by_insert f m i x :
  unique_by f m -> (forall j y, m !! j = Some y -> j <> i -> f y <> f x) -> unique_by f (<[i := x]> m).
Proof.
  intros Hm Hx j k y z [[<- <-]|[Hj Hy]]%lookup_insert_Some [[<- <-]|[Hk Hz]]%lookup_insert_Some E; try done.
  - by destruct (Hx k z Hz).
  - by destruct (Hx j y Hy).
  - by apply (Hm j k y z).
Qed.

Lemma unique_by_update f m i x0 x :
  unique_by f m -> m !! i = Some x0 -> f x = f x0 -> unique_by f (<[i := x]> m).
Proof. intros Hm Hi Hx. apply unique_by_insert; [done|]. intros j y Hj Hne E. apply Hne, (Hm j i y x0); congruence. Qed.

Lemma unique_by_sub f (m m' : gmap K A) :
  unique_by f m -> (forall i x, m' !! i = Some x -> exists x0, m !! i = Some x0 /\ f x0 = f x) -> unique_by f m'.
Proof.
  intros Hm Hs i j x y (x0 & Hx & Ex)%Hs (y0 & Hy & Ey)%Hs E. apply (Hm i j x0 y0); congruence.
Qed.

Definition refers {P C} `{Countable P} (f : A -> P) (m : gmap K A) (parents : gmap P C) : Prop :=
  forall i x, m !! i = Some x -> is_Some (parents !! f x).

Lemma refers_insert {P C} `{Countable P} (f : A -> P) m (parents : gmap P C) i x :
  refers f m parents -> is_Some (parents !! f x) -> refers f (<[i := x]> m) parents.
Proof. intros Hm Hx j y [[_ <-]|[_ Hy]]%lookup_insert_Some; [done|by eapply Hm]. Qed.

Lemma refers_sub {P C} `{Countable P} (f : A -> P) (m m' : gmap K A) (parents : gmap P C) :
  refers f m parents -> (forall i x, m' !! i = Some x -> exists x0, m !! i = Some x0 /\ f x0 = f x) -> refers f m' parents.
Proof. intros Hm Hs i x (x0 & Hx & <-)%Hs. by eapply Hm. Qed.

Lemma refers_parents {P C C'} `{Countable P} (f : A -> P) (m : gmap K A) (parents : gmap P C) (parents' : gmap P C') :
  refers f m parents -> (forall p, is_Some (parents !! p) -> is_Some (parents' !! p)) -> refers f m parents'.
Proof. intros Hm Hp i x Hx. eapply Hp, Hm, Hx. Qed.

End tables.

Definition ahead {A} (m : gmap Z A) (seq : Z) : Prop := forall i, is_Some (m !! i) -> i < seq.

Lemma ahead_insert {A} (m : gmap Z A) seq x : ahead m seq -> ahead (<[seq := x]> m) (seq + 1).
Proof. intros Hm i [<-|Hi%Hm]%lookup_insert_is_Some'; lia. Qed.

Lemma ahead_fresh {A} (m : gmap Z A) seq : ahead m seq -> m !! seq = None.
Proof. intros Hm. destruct (m !! seq) eqn:E; [|done]. specialize (Hm seq (mk_is_Some _ _ E)). lia. Qed.

Lemma ahead_sub {A} (m m' : gmap Z A) seq :
  ahead m seq -> (forall i, is_Some (m' !! i) -> is_Some (m !! i)) -> ahead m' seq.
Proof. intros Hm Hs i Hi. by apply Hm, Hs. Qed.

(** ** The invariant *)

Definition url_key (e : Endpoint) : string * string := (ep_tenantId e, ep_url e).
Definition idempotency (ev : Event) : string * string := (ev_tenantId ev, ev_idempotencyKey ev).
Definition pair_key (dl : Delivery) : string * string := (dl_eventId dl, dl_endpointId dl).
Definition type_key (s : Subscription) : string * string := (sb_endpointId s, sb_eventType s).

(** The delivery an outbox row names is one of its event. *)
Definition names_delivery (d : Db) : Prop :=
  forall i row D, outbox d !! i = Some row -> ob_deliveryId row = Some D ->
    exists dl, deliveries d !! D = Some dl /\ dl_eventId dl = ob_eventId row.

Record db_ok (d : Db) : Prop := {
  fk_apiKeys : refers ak_tenantId (apiKeys d) (tenants d);
  fk_endpoints : refers ep_tenantId (endpoints d) (tenants d);
  fk_subscriptions : refers sb_endpointId (subscriptions d) (endpoints d);
  fk_events : refers ev_tenantId (events d) (tenants d);
  fk_outbox : refers ob_eventId (outbox d) (events d);
  fk_delivery_event : refers dl_eventId (deliveries d) (events d);
  fk_delivery_endpoint : refers dl_endpointId (deliveries d) (endpoints d);
  fk_attempts : refers at_deliveryId (attempts d) (deliveries d);
  ok_names : names_delivery d;
  uq_tenants : unique_by tn_name (tenants d);
  uq_apiKeys : unique_by ak_keyHash (apiKeys d);
  uq_endpoints : unique_by url_key (endpoints d);
  uq_subscriptions : unique_by type_key (subscriptions d);
  uq_events : unique_by idempotency (events d);
  uq_deliveries : unique_by pair_key (deliveries d);
  uq_attempts : unique_by claim_of (attempts d);
  sq_subscriptions : ahead (subscriptions d) (subscription_seq d);
  sq_outbox : ahead (outbox d) (outbox_seq d);
  sq_attempts : ahead (attempts d) (attempt_seq d);
}.

(** What every step leaves in place. *)
Record grown (d d' : Db) : Prop := {
  gw_tenants : forall i, is_Some (tenants d !! i) -> is_Some (tenants d' !! i);
  gw_endpoints : forall i, is_Some (endpoints d !! i) -> is_Some (endpoints d' !! i);
  gw_events : forall i, is_Some (events d !! i) -> is_Some (events d' !! i);
  gw_deliveries : forall i dl, deliveries d !! i = Some dl ->
    exists dl', deliveries d' !! i = Some dl' /\ dl_eventId dl' = dl_eventId dl;
}.

#[export] Instance grown_preorder : PreOrder grown.
Proof.
  split; [split; eauto|]. intros d1 d2 d3 [A1 B1 C1 D1] [A2 B2 C2 D2]. split; [eauto..|].
  intros i dl H. destruct (D1 i dl H) as (x & Hx & <-). eauto.
Qed.

Definition fine (d d' : Db) : Prop := db_ok d' /\ grown d d'.

(** ** Changes of one table *)

Lemma ins_keeps {K A} `{Countable K} (m : gmap K A) i x j : is_Some (m !! j) -> is_Some (<[i := x]> m !! j).
Proof. intros Hj. rewrite lookup_insert_is_Some'. by right. Qed.

Lemma fine_apiKeys f d : db_ok d ->
  refers ak_tenantId (f (apiKeys d)) (tenants d) -> unique_by ak_keyHash (f (apiKeys d)) -> fine d (set_apiKeys f d).
Proof. intros []; split; split; cbn; eauto. Qed.

Lemma fine_tenants i t d : db_ok d -> (forall j t', tenants d !! j = Some t' -> tn_name t' <> tn_name t) ->
  fine d (set_tenants (insert i t) d).
Proof.
  intros [] Ht; split; split; cbn; eauto using ins_keeps; try (eapply refers_parents; [done|apply ins_keeps]).
  apply unique_by_insert; [done|]. intros j y Hj _. by eapply Ht.
Qed.

Lemma fine_endpoints i e d : db_ok d -> is_Some (tenants d !! ep_tenantId e) ->
  (forall j y, endpoints d !! j = Some y -> j <> i -> url_key y <> url_key e) -> fine d (set_endpoints (insert i e) d).
Proof.
  intros [] Ht He; split; split; cbn; eauto using ins_keeps; try (eapply refers_parents; [done|apply ins_keeps]).
  - by apply refers_insert.
  - by apply unique_by_insert.
Qed.

Lemma fine_subscriptions f n d : db_ok d ->
  refers sb_endpointId (f (subscriptions d)) (endpoints d) -> unique_by type_key (f (subscriptions d)) ->
  ahead (f (subscriptions d)) n -> fine d (set_subscriptions f n d).
Proof. intros []; split; split; cbn; eauto. Qed.

Lemma fine_events i ev d : db_ok d -> is_Some (tenants d !! ev_tenantId ev) ->
  (forall j y, events d !! j = Some y -> idempotency y <> idempotency ev) -> fine d (set_events (insert i ev) d).
Proof.
  intros [] Ht He; split; split; cbn; eauto using ins_keeps; try (eapply refers_parents; [done|apply ins_keeps]).
  - by apply refers_insert.
  - apply unique_by_insert; [done|]. intros j y Hj _. by eapply He.
Qed.

Lemma fine_deliveries i dl d : db_ok d ->
  is_Some (events d !! dl_eventId dl) -> is_Some (endpoints d !! dl_endpointId dl) ->
  (forall dl0, deliveries d !! i = Some dl0 -> dl_eventId dl = dl_eventId dl0) ->
  (forall j y, deliveries d !! j = Some y -> j <> i -> pair_key y <> pair_key dl) -> fine d (set_deliveries (insert i dl) d).
Proof.
  intros [] He Hp Hi Hu. assert (grown d (set_deliveries (insert i dl) d)) as Hg.
  { split; cbn; eauto. intros j y Hj. destruct (decide (i = j)) as [<-|Hne].
    - exists dl. rewrite lookup_insert_eq. split; [done|by apply Hi].
    - exists y. by rewrite lookup_insert_ne. }
  split; [|done]. split; cbn; eauto; try (eapply refers_parents; [done|apply ins_keeps]); try (by apply refers_insert).
  - intros j row D Hr Hd. destruct (ok_names0 j row D Hr Hd) as (y & Hy & <-). by apply (gw_deliveries _ _ Hg).
  - by apply unique_by_insert.
Qed.

Lemma fine_attempts f n d : db_ok d ->
  refers at_deliveryId (f (attempts d)) (deliveries d) -> unique_by claim_of (f (attempts d)) ->
  ahead (f (attempts d)) n -> fine d (set_attempts f n d).
Proof. intros []; split; split; cbn; eauto. Qed.

Lemma fine_outbox f n d : db_ok d ->
  refers ob_eventId (f (outbox d)) (events d) -> ahead (f (outbox d)) n -> names_delivery (set_outbox f n d) ->
  fine d (set_outbox f n d).
Proof. intros []; split; split; cbn; eauto. Qed.

(** ** A logic of statements *)

Section statements.
Context `{P : Platform}.

Definition triple {R} (K : Db -> Prop) (s : stm R) (Q : R -> Db -> Prop) : Prop :=
  forall w x w', db_ok (w_db w) -> K (w_db w) -> s w = (inr x, w') -> fine (w_db w) (w_db w') /\ Q x (w_db w').

(** Knowledge that no step takes away. *)
Definition persistent (K : Db -> Prop) : Prop := forall d d', grown d d' -> K d -> K d'.

Definition yes {R} (_ : R) (_ : Db) : Prop := True.

Lemma triple_bind {R R'} K Q (s : stm R) (k : R -> stm R') Q' :
  persistent K -> triple K s Q -> (forall x, triple (fun d => K d /\ Q x d) (k x) Q') -> triple K (sbind s k) Q'.
Proof.
  intros HK Hs Hk w y w' Hok Hw. unfold sbind. destruct (s w) as [[e|x] w1] eqn:E; [done|]. intros E'.
  destruct (Hs w x w1 Hok Hw E) as [[Hok1 Hg1] Hq]. destruct (Hk x w1 y w' Hok1) as [[Hok2 Hg2] Hq'].
  - split; [by eapply HK|done].
  - done.
  - split; [split; [done|by etrans]|done].
Qed.

Lemma triple_read {R} (K : Db -> Prop) (s : stm R) (Q : R -> Db -> Prop) :
  (forall w x w', K (w_db w) -> s w = (inr x, w') -> w_db w' = w_db w /\ Q x (w_db w)) -> triple K s Q.
Proof.
  intros Hs w x w' Hok Hw E. destruct (Hs w x w' Hw E) as [-> HQ]. split; [split; [done|reflexivity]|done].
Qed.

Lemma triple_ret {R} K (x : R) : triple K (sret x) yes.
Proof. apply triple_read. by intros w y w' _ [= <- <-]. Qed.

Lemma triple_pre {R} (K K' : Db -> Prop) (s : stm R) Q : (forall d, K' d -> K d) -> triple K s Q -> triple K' s Q.
Proof. intros HK Hs w x w' Hok Hw. by apply Hs, HK. Qed.

Lemma triple_uuid K : triple K suuid yes.
Proof. apply triple_read. by intros w y w' _ [= <- <-]. Qed.

(** *** Events and deliveries *)

Definition event_there (id : string) (d : Db) : Prop := is_Some (events d !! id).
Definition endpoint_there (id : string) (d : Db) : Prop := is_Some (endpoints d !! id).
Definition delivery_there (id eventId : string) (d : Db) : Prop :=
  exists dl, deliveries d !! id = Some dl /\ dl_eventId dl = eventId.

Lemma event_there_persistent id : persistent (event_there id).
Proof. intros d d' H. apply (gw_events _ _ H). Qed.
Lemma endpoint_there_persistent id : persistent (endpoint_there id).
Proof. intros d d' H. apply (gw_endpoints _ _ H). Qed.
Lemma delivery_there_persistent id ev : persistent (delivery_there id ev).
Proof. intros d d' H (dl & Hdl & <-). by apply (gw_deliveries _ _ H). Qed.
Lemma and_persistent K K' : persistent K -> persistent K' -> persistent (fun d => K d /\ K' d).
Proof. intros HK HK' d d' H [? ?]. split; [by eapply HK|by eapply HK']. Qed.
Lemma True_persistent : persistent (fun _ => True).
Proof. done. Qed.
Definition endpoints_there (ids : list string) (d : Db) : Prop := forall id, id ∈ ids -> endpoint_there id d.
Lemma endpoints_there_persistent ids : persistent (endpoints_there ids).
Proof. intros d d' H Hd id Hid. by eapply endpoint_there_persistent, Hd. Qed.

#[local] Hint Resolve event_there_persistent endpoint_there_persistent delivery_there_persistent
  endpoints_there_persistent and_persistent True_persistent : core.

Lemma triple_event_insert id t y p k : triple (fun _ => True) (event_insert id t y p k) (fun _ => event_there id).
Proof.
  intros w x w' Hok _. unfold event_insert. cbv zeta.
  destruct (event_by_key t k (w_db w)) eqn:Hk; [by destruct (events (w_db w) !! id), (tenants (w_db w) !! t)|].
  destruct (events (w_db w) !! id) eqn:Hid; [by destruct (tenants (w_db w) !! t)|].
  destruct (tenants (w_db w) !! t) eqn:Ht; [|done]. intros [= <- <-]. split.
  - apply fine_events; [done|by eexists|]. intros j ev Hj [= E1 E2]. by apply (event_by_key_None t k _ Hk j ev Hj).
  - unfold event_there. cbn. rewrite lookup_insert_eq. by eexists.
Qed.

Lemma delivery_taken_None id ev ep d : delivery_taken id ev ep d = false ->
  deliveries d !! id = None /\ forall j y, deliveries d !! j = Some y -> pair_key y <> (ev, ep).
Proof.
  unfold delivery_taken. destruct (deliveries d !! id); [done|]. intros Hx%bool_decide_eq_false. split; [done|].
  intros j y Hj [= E1 E2]. apply Hx, Exists_exists. exists (j, y). by rewrite elem_of_map_to_list.
Qed.

Lemma triple_delivery_create id ev ep :
  triple (fun d => event_there ev d /\ endpoint_there ep d) (delivery_create id ev ep) (fun _ => delivery_there id ev).
Proof.
  intros w x w' Hok [Hev Hep]. unfold delivery_create. destruct (delivery_taken id ev ep (w_db w)) eqn:Ht; [done|].
  apply delivery_taken_None in Ht as [Hid Hu]. intros [= <- <-]. split.
  - apply fine_deliveries; [done..| |].
    + intros dl0. by rewrite Hid.
    + intros j y Hj _. by eapply Hu.
  - exists (new_delivery ev ep (w_now w)). split; [apply lookup_insert_eq|done].
Qed.

Lemma triple_createMany ev ds :
  triple (fun d => event_there ev d /\ endpoints_there (snd <$> ds) d) (delivery_createMany ev ds) yes.
Proof.
  induction ds as [|[id ep] ds IH]; [apply triple_ret|]. eapply triple_bind; [auto| |].
  - eapply triple_pre, triple_delivery_create. intros d [? Hd]. split; [done|]. apply Hd. by left.
  - intros ?. eapply triple_pre, IH. intros d [[? Hd] _]. split; [done|]. intros ep' Hin. apply Hd. by right.
Qed.

Lemma triple_outbox_create ev D :
  triple (match D with Some D => delivery_there D ev | None => event_there ev end) (outbox_create ev D) yes.
Proof.
  intros w x w' Hok HK. unfold outbox_create. intros [= <- <-]. split; [|done].
  assert (is_Some (events (w_db w) !! ev)) as Hev.
  { destruct D; [|done]. destruct HK as (dl & Hdl & <-). by eapply fk_delivery_event. }
  apply fine_outbox; [done| | |].
  - apply refers_insert; [by apply fk_outbox|done].
  - by apply ahead_insert, sq_outbox.
  - intros i row D'. cbn. intros [[_ <-]|[_ Hr]]%lookup_insert_Some HD; [|by eapply ok_names]. cbn in HD. rewrite HD in HK. exact HK.
Qed.

Lemma triple_event_create t y p key : triple (fun _ => True) (event_create t y p key) event_there.
Proof.
  unfold event_create. eapply triple_bind; [done|apply triple_uuid|]. intros id.
  apply (triple_bind _ (fun _ => event_there id)); [auto|eapply triple_pre, triple_event_insert; done|].
  intros ?. apply triple_read. by intros w id' w' [_ ?] [= <- <-].
Qed.

Lemma triple_publish_body t b key : triple (fun _ => True) (publish_body t b key) yes.
Proof.
  unfold publish_body. apply (triple_bind _ event_there); [auto|apply triple_event_create|]. intros id.
  apply (triple_bind _ endpoints_there); [auto| |].
  { apply triple_read. intros w x w' _ [= <- <-]. split; [done|].
    intros ep (e & He & _)%fan_out_spec. by exists e. }
  intros l. apply (triple_bind _ (fun ds => endpoints_there (snd <$> ds))); [auto| |].
  { apply triple_read. intros w x w' [_ Hl]. rewrite number_deliveries_spec. intros [= <- <-]. split; [done|].
    by rewrite numbered_snd. }
  intros ds. apply (triple_bind _ yes); [auto| |intros; apply triple_ret].
  destruct ds as [|p ds]; [apply triple_ret|].
  apply (triple_pre (fun d => event_there id d /\ endpoints_there (snd <$> p :: ds) d)); [naive_solver|].
  eapply triple_bind; [auto|apply triple_createMany|]. intros ?.
  eapply triple_bind; [|eapply triple_pre, (triple_outbox_create id None); naive_solver|intros; apply triple_ret].
  auto.
Qed.

(** *** Rows that are updated in place *)

Lemma triple_delivery_update K D f :
  (forall d, dl_eventId (f d) = dl_eventId d /\ dl_endpointId (f d) = dl_endpointId d) ->
  triple K (delivery_update D f) yes.
Proof.
  intros Hf w x w' Hok _. unfold delivery_update. destruct (deliveries (w_db w) !! D) as [d|] eqn:Hd; [|done].
  intros [= _ <-]. split; [|done]. destruct (Hf d) as [E1 E2]. apply fine_deliveries; cbn; rewrite ?E1, ?E2; [done|..].
  - by eapply fk_delivery_event.
  - by eapply fk_delivery_endpoint.
  - intros d0. congruence.
  - intros j y Hj Hne E. apply Hne, (uq_deliveries _ Hok j D y d Hj Hd). unfold pair_key in *. cbn in E. congruence.
Qed.

Lemma triple_attempt_create K D n g : triple K (attempt_create D n g) yes.
Proof.
  intros w x w' Hok _. unfold attempt_create. cbv zeta. destruct (attempt_taken D n (w_db w)) eqn:Ht; [done|].
  destruct (deliveries (w_db w) !! D) eqn:HD; [|done]. intros [= _ <-]. split; [|done].
  apply fine_attempts; [done| | |by apply ahead_insert, sq_attempts].
  - apply refers_insert; [by apply fk_attempts|by eexists].
  - apply unique_by_insert; [by apply uq_attempts|]. intros j y Hj _ [= E1 E2].
    apply (proj1 (attempt_taken_false D n _) Ht j y Hj). done.
Qed.

Lemma triple_attempt_update K i f :
  (forall a, at_deliveryId (f a) = at_deliveryId a /\ at_attemptNo (f a) = at_attemptNo a) ->
  triple K (attempt_update i f) yes.
Proof.
  intros Hf w x w' Hok _. unfold attempt_update. destruct (attempts (w_db w) !! i) as [a|] eqn:Ha; [|done].
  destruct (text_ok _); [|done]. intros [= _ <-]. split; [|done]. destruct (Hf a) as [E1 E2].
  apply (fine_attempts (insert i (f a))); [done|..].
  - apply refers_insert; [by apply fk_attempts|]. rewrite E1. by eapply fk_attempts.
  - eapply unique_by_update; [by apply uq_attempts|done|]. unfold claim_of. by rewrite E1, E2.
  - eapply ahead_sub; [by apply sq_attempts|]. intros j [<-|Hj]%lookup_insert_is_Some'; [by eexists|done].
Qed.

Lemma triple_endpoint_update K i f :
  (forall e, ep_tenantId (f e) = ep_tenantId e /\ ep_url (f e) = ep_url e /\ ep_secretEnc (f e) = ep_secretEnc e) ->
  triple K (endpoint_update i f) yes.
Proof.
  intros Hf w x w' Hok _. unfold endpoint_update. destruct (endpoints (w_db w) !! i) as [e|] eqn:He; [|done].
  intros [= _ <-]. split; [|done]. destruct (Hf e) as (E1 & E2 & _). apply fine_endpoints; [done| |].
  - cbn. rewrite E1. by eapply fk_endpoints.
  - intros j y Hj Hne E. apply Hne, (uq_endpoints _ Hok j i y e Hj He). unfold url_key in *. cbn in E. congruence.
Qed.

Lemma triple_attempt_deleteMany K c : triple K (attempt_deleteMany c) yes.
Proof.
  intros w x w' Hok _ [= _ <-]. split; [|done].
  assert (forall i a, attempts (purged c (w_db w)) !! i = Some a -> attempts (w_db w) !! i = Some a) as Hsub
    by (intros i a [? _]%purged_lookup; done).
  apply (fine_attempts _ _ (w_db w)); [done|..].
  - eapply refers_sub; [by apply fk_attempts|]. intros i a Ha%Hsub. by exists a.
  - eapply unique_by_sub; [by apply uq_attempts|]. intros i a Ha%Hsub. by exists a.
  - eapply ahead_sub; [by apply sq_attempts|]. intros i [a Ha%Hsub]. by exists a.
Qed.

(** *** Endpoints and subscriptions *)

Lemma endpoint_by_url_None t u d : endpoint_by_url t u d = None ->
  forall j e, endpoints d !! j = Some e -> url_key e <> (t, u).
Proof.
  unfold endpoint_by_url. destruct (list_find _ _) as [[i [id e]]|] eqn:E; [done|]. intros _ j e Hj [= E1 E2].
  apply list_find_None in E. rewrite Forall_forall in E. apply (E (j, e)); [by apply elem_of_map_to_list|done].
Qed.

Lemma triple_endpoint_create K t url desc sec : triple K (endpoint_create t url desc sec) yes.
Proof.
  intros w x w' Hok _. unfold endpoint_create, sbind, suuid. cbv zeta. cbn [w_db drawn].
  destruct (endpoint_by_url t url (w_db w)) eqn:Hu; [done|]. destruct (endpoints (w_db w) !! _) eqn:He; [done|].
  destruct (tenants (w_db w) !! t) eqn:Ht; [|done]. intros [= _ <-]. split; [|done].
  apply (fine_endpoints _ _ (w_db w)); [done|by eexists|]. intros j y Hj _. by eapply endpoint_by_url_None.
Qed.

Lemma triple_endpoint_change K id b : triple K (endpoint_change id (apply_update b)) yes.
Proof.
  intros w x w' Hok _. unfold endpoint_change. destruct (endpoints (w_db w) !! id) as [e|] eqn:He; [|done].
  destruct (endpoint_by_url _ _ _) eqn:Hu; [done|]. intros [= _ <-]. split; [|done]. apply fine_endpoints; [done| |].
  - cbn. by eapply fk_endpoints.
  - intros j y Hj Hne. apply (endpoint_by_url_None _ _ _ Hu j). cbn. by rewrite lookup_delete_ne.
Qed.

Lemma triple_deleteMany K id : triple K (subscription_deleteMany id) yes.
Proof.
  intros w x w' Hok _ [= _ <-]. split; [|done].
  assert (forall i s, filter (fun p => sb_endpointId p.2 <> id) (subscriptions (w_db w)) !! i = Some s ->
    subscriptions (w_db w) !! i = Some s) as Hsub by (intros i s [Hi _]%map_lookup_filter_Some; done).
  apply fine_subscriptions; [done|..].
  - eapply refers_sub; [by apply fk_subscriptions|]. intros i s Hs%Hsub. by exists s.
  - eapply unique_by_sub; [by apply uq_subscriptions|]. intros i s Hs%Hsub. by exists s.
  - eapply ahead_sub; [by apply sq_subscriptions|]. intros i [s Hs%Hsub]. by exists s.
Qed.

Lemma triple_subscription_create K id y : triple K (subscription_create id y) yes.
Proof.
  intros w x w' Hok _. unfold subscription_create. cbv zeta. destruct (100 <? _); [done|].
  destruct (endpoints (w_db w) !! id) eqn:He; [|done]. destruct (subscribed (w_db w) id y) eqn:Hs; [done|].
  intros [= _ <-]. split; [|done]. apply fine_subscriptions; [done| | |by apply ahead_insert, sq_subscriptions].
  - apply refers_insert; [by apply fk_subscriptions|by eexists].
  - apply unique_by_insert; [by apply uq_subscriptions|]. intros j s Hj _ [= E1 E2].
    apply not_true_iff_false in Hs. apply Hs, subscribed_spec. by exists j, s.
Qed.

Lemma triple_subscriptions id types : triple (fun _ => True)
  (let+ _ := subscription_deleteMany id in subscription_createMany id types) yes.
Proof.
  eapply triple_bind; [done|apply triple_deleteMany|]. intros ?.
  induction types as [|y types IH]; [apply triple_ret|].
  eapply triple_bind; [by intros d d' _ ?|apply triple_subscription_create|]. intros ?.
  eapply triple_pre, IH. by intros d [? _].
Qed.

(** *** Tenants and keys *)

Definition tenant_there (id : string) (d : Db) : Prop := is_Some (tenants d !! id).

Lemma triple_tenant_create K name plan : triple K (tenant_create name plan) yes.
Proof.
  intros w x w' Hok _. unfold tenant_create, sbind, suuid. cbn [w_db drawn].
  destruct (tenant_by_name name (w_db w)) eqn:Hn; [done|]. destruct (tenants (w_db w) !! _); [done|].
  intros [= _ <-]. split; [|done]. apply (fine_tenants _ _ (w_db w)); [done|]. intros j t' Hj E.
  unfold tenant_by_name in Hn. destruct (list_find _ _) as [[i p]|] eqn:El; [done|]. apply list_find_None in El.
  rewrite Forall_forall in El. by apply (El (j, t')); [apply elem_of_map_to_list|].
Qed.

Lemma triple_apiKey_create K t key : triple K (apiKey_create t key) yes.
Proof.
  intros w x w' Hok _. unfold apiKey_create, sbind, suuid. cbv zeta. cbn [w_db drawn].
  destruct (key_by_hash (hashApiKey key) (w_db w)) eqn:Hh, (apiKeys (w_db w) !! randomUUID (w_draws w)),
    (tenants (w_db w) !! t) eqn:Ht; try done.
  intros [= _ <-]. split; [|done].
  apply (fine_apiKeys _ (w_db w)); [done|apply refers_insert; [by apply fk_apiKeys|by eexists]|].
  apply unique_by_insert; [by apply uq_apiKeys|]. intros j k Hj _. by eapply key_by_hash_None.
Qed.

Lemma triple_apiKey_update K id s : triple K (apiKey_update id (set_key_status s)) yes.
Proof.
  intros w x w' Hok _. unfold apiKey_update. destruct (apiKeys (w_db w) !! id) as [k|] eqn:Hk; [|done].
  intros [= _ <-]. split; [|done]. apply fine_apiKeys; [done| |].
  - apply refers_insert; [by apply fk_apiKeys|]. cbn. by eapply fk_apiKeys.
  - by eapply unique_by_update; [apply uq_apiKeys| |].
Qed.

Lemma triple_demote K t x : triple K (swrite (demote_active t x)) yes.
Proof.
  intros w y w' Hok _ [= _ <-]. split; [|done].
  assert (forall i k, apiKeys (demote_active t x (w_db w)) !! i = Some k ->
    exists k0, apiKeys (w_db w) !! i = Some k0 /\ ak_tenantId k0 = ak_tenantId k /\ ak_keyHash k0 = ak_keyHash k) as Hd.
  { intros i k. rewrite demote_active_lookup. intros (k0 & Hk0 & ->)%fmap_Some. exists k0. by case_bool_decide. }
  apply fine_apiKeys; [done|eapply refers_sub; [by apply fk_apiKeys|]|eapply unique_by_sub; [by apply uq_apiKeys|]];
    intros i k (k0 & ? & ? & ?)%Hd; by exists k0.
Qed.

Lemma triple_mark_published K ids now : triple K (swrite (mark_published ids now)) yes.
Proof.
  intros w y w' Hok _ [= _ <-]. split; [|done].
  assert (forall i m, outbox (mark_published ids now (w_db w)) !! i = Some m -> exists m0,
    outbox (w_db w) !! i = Some m0 /\ ob_eventId m0 = ob_eventId m /\ ob_deliveryId m0 = ob_deliveryId m) as Hm.
  { intros i m. cbn. rewrite map_lookup_imap. intros (m0 & Hm0 & [= <-])%bind_Some. exists m0. by case_bool_decide. }
  apply fine_outbox; [done|..].
  - eapply refers_sub; [by apply fk_outbox|]. intros i m (m0 & ? & ? & _)%Hm. by exists m0.
  - eapply ahead_sub; [by apply sq_outbox|]. intros i [m (m0 & ? & _)%Hm]. by exists m0.
  - intros i row D Hr HD. destruct (Hm i row Hr) as (m0 & Hm0 & E1 & E2). rewrite <- E2 in HD. rewrite <- E1.
    exact (ok_names _ Hok i m0 D Hm0 HD).
Qed.

End statements.

(** ** The programs *)

Section programs.
Context `{P : Platform}.
Variable cfg : Config.

Definition integrity_rel (w w' : World) : Prop := grown (w_db w) (w_db w').

#[export] Instance integrity_rel_preorder : PreOrder integrity_rel.
Proof. unfold integrity_rel. split; [intros w; reflexivity|]. intros w1 w2 w3 H1 H2. by etrans. Qed.

Definition under (K : Db -> Prop) (w w' : World) : Prop := K (w_db w) -> db_ok (w_db w) -> fine (w_db w) (w_db w').

Notation keeps_ok := (under (fun _ => True)).

Lemma under_preorder K : persistent K -> PreOrder (under K).
Proof.
  intros HK. split; [by intros w ? ?|]. intros w1 w2 w3 H1 H2 Hk Hok. destruct (H1 Hk Hok) as [Hok' Hg].
  destruct (H2 (HK _ _ Hg Hk) Hok') as [? ?]. split; [done|by etrans].
Qed.

#[export] Instance keeps_ok_preorder : PreOrder keeps_ok.
Proof. by apply under_preorder. Qed.

Lemma keeps_same w w' : w_db w' = w_db w -> keeps_ok w w'.
Proof. intros Hd _ Hok. rewrite Hd. by split. Qed.

Lemma under_triple K {R} (s : stm R) Q : triple K s Q -> acts (under K) (transaction s).
Proof.
  intros Hs. apply acts_call. intros w Hk Hok. specialize (Hs w).
  destruct (s w) as [[e|x] w'] eqn:E; [by split|]. by destruct (Hs x w' Hok Hk eq_refl).
Qed.

#[export] Instance integrity_footprint : Footprint keeps_ok.
Proof.
  split; [split|..].
  - apply _.
  - intros w w' Hd _ _. by apply keeps_same.
  - intros o w _ _. by apply keeps_same.
  - intros. eapply under_triple, triple_publish_body.
  - intros. eapply under_triple, triple_subscriptions.
  - intros. eapply under_triple, triple_apiKey_update.
  - intros. eapply under_triple, triple_bind; [done|apply triple_demote|intros ?; apply triple_apiKey_create].
  - intros. eapply under_triple, triple_bind; [done|apply triple_tenant_create|]. intros ?.
    eapply triple_bind; [by intros d d' _ ?|apply triple_apiKey_create|intros ?; apply triple_ret].
Qed.

Lemma create_integrity t b : acts keeps_ok (create cfg t b).
Proof.
  unfold create. apply acts_bind; [apply (assert_footprint keeps_ok)|]. intros _.
  apply acts_bind; [apply (fp_read keeps_ok)|]. intros [e|]; [done|].
  do 2 (apply acts_bind; [by apply (fp_local_step keeps_ok)|]; intros ?).
  apply acts_bind; [eapply under_triple, triple_endpoint_create|done].
Qed.

Lemma update_integrity t id b : acts keeps_ok (update_endpoint cfg t id b).
Proof.
  unfold update_endpoint. apply acts_bind; [apply (findScoped_footprint keeps_ok)|]. intros _.
  apply acts_bind; [destruct (ud_url b); [apply (assert_footprint keeps_ok)|done]|]. intros _. destruct (null_refused b); [done|].
  apply acts_bind; [eapply under_triple, triple_endpoint_change|done].
Qed.

Lemma handle_job_integrity wid job : acts keeps_ok (handle_job cfg wid job).
Proof.
  assert (forall D f, (forall d, dl_eventId (f d) = dl_eventId d /\ dl_endpointId (f d) = dl_endpointId d) ->
    acts keeps_ok (transaction (delivery_update D f))) as Hd by (intros; by eapply under_triple, triple_delivery_update).
  apply (handle_job_footprint keeps_ok); [|intros D t; by apply Hd].
  intros D. apply process_acts; try apply _.
  - intros. eapply under_triple, triple_attempt_create.
  - intros i f Hf. by eapply under_triple, triple_attempt_update.
  - intros i f Hf. by eapply under_triple, triple_endpoint_update.
  - exact Hd.
  - intros w w' [-> _]. by apply keeps_same.
  - intros w w' (E & _). by apply keeps_same.
  - intros w f. by apply keeps_same.
  - intros w op m labels v _. by apply keeps_same.
Qed.

Lemma tick_integrity k : acts keeps_ok (tick cfg k).
Proof. apply (tick_footprint keeps_ok). intros. eapply under_triple, triple_mark_published. Qed.

Lemma purge_integrity env : acts keeps_ok (purge env).
Proof.
  unfold purge. apply acts_bind; [apply (fp_now keeps_ok)|]. intros now. destruct (cutoff _ _); [|done].
  eapply under_triple, triple_attempt_deleteMany.
Qed.

(** *** Programs that rely on what they have read *)

Notation iwp := (wp (Tok := Z) (fun w _ => db_ok (w_db w)) integrity_rel).

Lemma iwp_under {B} (K : Db -> Prop) (p : prog World B) Q :
  persistent K -> acts (under K) p -> (forall r, Q r (fun w => K (w_db w)) ∅) -> iwp (fun w => K (w_db w)) ∅ p Q.
Proof.
  intros HK Hp HQ. pose proof (under_preorder K HK).
  apply (wp_acts_under _ _ (under K)); [apply _| |done| |done].
  - intros w w' _ Hk Hu Hok. by apply Hu.
  - intros w w' Hr. by apply HK.
Qed.

Lemma iwp_acts {B} (p : prog World B) Q :
  acts keeps_ok p -> (forall r, Q r (fun _ => True) ∅) -> iwp (fun _ => True) ∅ p Q.
Proof. apply (iwp_under (fun _ => True)). done. Qed.

(** A lookup that establishes what the rest relies on. *)
Lemma iwp_checked {A B} (K : A -> Db -> Prop) (f : Db -> option A) e (k : A -> prog World B) Q :
  (forall x, persistent (K x)) -> (forall x d, db_ok d -> f d = Some x -> K x d) -> (forall x, acts (under (K x)) (k x)) ->
  (forall r K, Q r K ∅) ->
  iwp (fun _ => True) ∅ (let* x := (let* x := db_read f in match x with None => Throw e | Some x => Ret x end) in k x) Q.
Proof.
  intros HK Hf Hk HQ. apply wp_bind, wp_bind.
  eapply wp_read with (K' := fun x w => match x with Some x => K x (w_db w) | None => True end); try done.
  - apply _.
  - intros [x|] w w' Hr; [by apply HK|done].
  - intros w X _ Hok. destruct (f (w_db w)) as [x|] eqn:E; [by apply Hf|done].
  - intros [x|]; [|apply HQ]. cbn. by apply iwp_under.
Qed.

Lemma iwp_ping t id Q : (forall r K, Q r K ∅) -> iwp (fun _ => True) ∅ (ping t id) Q.
Proof.
  intros HQ. apply (iwp_checked (fun _ => endpoint_there id)); [intros _; apply endpoint_there_persistent| | |done].
  - intros e d _ [He _]%find_scoped_Some. by exists e.
  - intros _. assert (forall B (p : prog World B), acts keeps_ok p -> acts (under (endpoint_there id)) p) as Hu.
    { intros B p. apply acts_mono. intros w w' H _. by apply H. }
    apply acts_bind; [by apply Hu, (fp_local_step keeps_ok)|]. intros ev.
    apply acts_bind; [by apply Hu, (fp_local_step keeps_ok)|]. intros dl.
    apply acts_bind; [|done]. eapply under_triple, (triple_bind _ (fun _ => event_there ev)).
    + apply endpoint_there_persistent.
    + eapply triple_pre, triple_event_insert. done.
    + intros ?. eapply triple_bind; [| |intros ?; eapply triple_pre, (triple_outbox_create ev (Some dl))].
      * apply and_persistent; [apply endpoint_there_persistent|apply event_there_persistent].
      * eapply triple_pre, triple_delivery_create. naive_solver.
      * naive_solver.
Qed.

Lemma iwp_redeliver t D Q : (forall r K, Q r K ∅) -> iwp (fun _ => True) ∅ (redeliver t D) Q.
Proof.
  intros HQ. apply (iwp_checked (fun dl => delivery_there D (dl_eventId dl)));
    [intros dl; apply delivery_there_persistent| | |done].
  - intros dl d _ [Hd _]%find_owned_Some. by exists dl.
  - intros dl. apply acts_bind; [|done]. eapply under_triple, triple_bind.
    + apply delivery_there_persistent.
    + by apply triple_delivery_update.
    + intros ?. eapply triple_pre, (triple_outbox_create _ (Some _)). naive_solver.
Qed.

(** ** The system *)

(** The processes of the system, and the purge at any time. *)
Inductive maintained : prog World unit -> Prop :=
| maintained_start p : startable cfg p -> maintained p
| maintained_purge env : maintained (discard (purge env)).

Lemma integrity_start p : maintained p -> iwp (fun _ => True) ∅ p any_post.
Proof.
  assert (forall B (q : prog World B), acts keeps_ok q -> iwp (fun _ => True) ∅ (discard q) any_post) as Hq.
  { intros B q Hq. apply wp_bind, iwp_acts; [done|]. by intros [|]. }
  intros [p' [t b|t e b|p'' []]|env]; [..|apply Hq, purge_integrity].
  - apply Hq, create_integrity.
  - apply Hq, update_integrity.
  - apply Hq, handle_job_integrity.
  - apply Hq, tick_integrity.
  - apply Hq, (controller_publish_footprint keeps_ok).
  - apply Hq, (getDeliveries_footprint keeps_ok).
  - apply Hq, (list_deliveries_footprint keeps_ok).
  - apply Hq, (get_attempts_footprint keeps_ok).
  - apply wp_bind, iwp_redeliver. by intros [|].
  - apply Hq, (fp_read keeps_ok).
  - apply Hq, (get_endpoint_footprint keeps_ok).
  - apply Hq, (setSubscriptions_footprint keeps_ok).
  - apply wp_bind, iwp_ping. by intros [|].
  - apply Hq, (canActivate_footprint keeps_ok).
  - apply Hq, (rotate_footprint keeps_ok).
  - apply Hq, (create_tenant_footprint keeps_ok).
  - apply Hq, (sampleQueue_footprint keeps_ok), (sample_footprint keeps_ok).
Qed.

Lemma empty_db_ok : db_ok empty_db.
Proof.
  split; unfold refers, unique_by, ahead, names_delivery; cbn; intros *; rewrite ?lookup_empty; try done.
  all: by intros [? ?].
Qed.

Lemma integrity_reachable w0 c :
  w_db w0 = empty_db -> rtc (pstep outside maintained) (w0, []) c -> db_ok (w_db c.1).
Proof.
  intros H0 Hc. destruct (pool_sound outside maintained (fun w (_ : gset Z) => db_ok (w_db w)) integrity_rel _)
    with (s0 := w0) (c := c) as [_ HI]; [|apply integrity_start|rewrite H0; apply empty_db_ok|done|done].
  intros w w' X HI Ho. destruct Ho. split; [done|]. unfold integrity_rel. cbn. reflexivity.
Qed.

End programs.

(** ** Properties *)

(** C10.  The database keeps its constraints: however the processes interleave, fail
    and crash, and whenever the purge of old attempts runs, in every state the system
    reaches from an empty database every foreign key refers to a row, an outbox row
    for one delivery names a delivery of its own event, every unique key of the schema
    is unique, and the sequences are ahead of the keys they have given out ([db_ok]).
    This covers the constraints the code never checks itself, and includes what the
    theorems about single operations assume of the database. *)
Theorem database_integrity `{P : Platform} cfg w0 w pool :
  w_db w0 = empty_db -> rtc (pstep outside (maintained cfg)) (w0, []) (w, pool) ->
  db_ok (w_db w) /\ deliveries_fk (w_db w) /\ outbox_fk (w_db w) /\ keys_unique (w_db w) /\ subs_wf (w_db w).
Proof.
  intros H0 Hc. pose proof (integrity_reachable cfg w0 (w, pool) H0 Hc) as Hok. cbn in Hok.
  split; [done|]. destruct Hok. split_and!.
  - intros id dl Hdl. by eapply fk_delivery_event0.
  - intros i row Hr. by eapply fk_outbox0.
  - intros i j k1 k2 H1 H2. by apply uq_apiKeys0.
  - intros i s Hs. apply sq_subscriptions0. by eexists.
Qed.

Lemma life_maintained : Forall (maintained (P := always 200) demo_cfg) life.
Proof. eapply Forall_impl; [exact life_startable|]. apply maintained_start. Qed.

Lemma database_integrity_witness :
  exists dl, deliveries (w_db after_life) !! "uuid-8" = Some dl /\
    is_Some (events (w_db after_life) !! dl_eventId dl) /\ is_Some (endpoints (w_db after_life) !! dl_endpointId dl) /\
    keys_unique (w_db after_life).
Proof.
  assert (bool_decide (is_Some (deliveries (w_db after_life) !! "uuid-8")) = true) as Hd by (vm_compute; reflexivity).
  apply bool_decide_eq_true in Hd as [dl Hd].
  destruct (rtc_story (outside (P := always 200)) (maintained (P := always 200) demo_cfg) life
    (world_at 1000 empty_db 200) [] life_maintained) as [pool Hr].
  destruct (database_integrity (P := always 200) demo_cfg (world_at 1000 empty_db 200) after_life pool eq_refl Hr)
    as (Hok & _ & _ & Hk & _).
  exists dl. exact (conj Hd (conj (fk_delivery_event _ Hok _ _ Hd) (conj (fk_delivery_endpoint _ Hok _ _ Hd) Hk))).
Defined.
