(* ===== verification/Authentic.v ===== *)
(** * Whose events go where: every request is authentic

    The system-wide guarantee to tenants, for all processes together: a delivery
    joins an event and an endpoint of the same tenant, and every request that ever
    leaves the system carries the stored event of a delivery, is signed under the
    secret of that delivery's endpoint, and goes to a URL which the event's own
    tenant has registered.  [registered t u] is any relation that covers the URLs
    the API calls of tenant [t] were given. *)

From S2P Require Import Prelude JsNumber Backoff Errors Effects Concurrency Json Platform Schema World Config TestPlatform.
From S2P Require Import Signature CircuitStore TenantLimiter SecretCipher EndpointCache HttpClient Processor Worker.
From S2P Require Import Relay RateLimit Events Deliveries Ssrf Endpoints Tenancy Footprint Ledger DeliveryPool.
From stdpp Require Import relations.
Open Scope Z_scope.
Open Scope hook_scope.

Section authentic.
Context `{P : Platform}.
Variable cfg : Config.
Variable registered : string -> string -> Prop.

(** ** The invariant *)

(** Rows stay, and what identifies them does not change. *)
Record grows (d d' : Db) : Prop := {
  gr_events : forall i ev, events d !! i = Some ev -> events d' !! i = Some ev;
  gr_deliveries : forall D dl, deliveries d !! D = Some dl -> exists dl', deliveries d' !! D = Some dl' /\
    dl_eventId dl' = dl_eventId dl /\ dl_endpointId dl' = dl_endpointId dl;
  gr_endpoints : forall i e, endpoints d !! i = Some e -> exists e', endpoints d' !! i = Some e' /\
    ep_tenantId e' = ep_tenantId e /\ ep_secretEnc e' = ep_secretEnc e;
}.

#[export] Instance grows_preorder : PreOrder grows.
Proof.
  split; [split; eauto|]. intros d1 d2 d3 [E1 D1 P1] [E2 D2 P2]. split; [auto| |].
  - intros D dl H. destruct (D1 D dl H) as (x & Hx & <- & <-). by apply D2.
  - intros i e H. destruct (P1 i e H) as (x & Hx & <- & <-). by apply P2.
Qed.

Definition owned (d : Db) (dl : Delivery) : Prop :=
  exists ev e, events d !! dl_eventId dl = Some ev /\ endpoints d !! dl_endpointId dl = Some e /\
    ev_tenantId ev = ep_tenantId e.

Record rows_ok (d : Db) : Prop := {
  ro_deliveries : forall D dl, deliveries d !! D = Some dl -> owned d dl;
  ro_endpoints : forall i e, endpoints d !! i = Some e -> registered (ep_tenantId e) (ep_url e);
}.

(** What a worker remembers of an endpoint. *)
Definition knows (d : Db) (ep : string) (v : EndpointConfig) : Prop :=
  exists e, endpoints d !! ep = Some e /\ decrypt cfg (ep_secretEnc e) = inr (ec_secret v) /\
    registered (ep_tenantId e) (ec_url v).

Definition authentic (d : Db) (rq : HttpRequest) : Prop :=
  exists D dl ev e secret sentAt,
    deliveries d !! D = Some dl /\ events d !! dl_eventId dl = Some ev /\
    endpoints d !! dl_endpointId dl = Some e /\ ev_tenantId ev = ep_tenantId e /\
    decrypt cfg (ep_secretEnc e) = inr secret /\ registered (ev_tenantId ev) (rq_url rq) /\
    rq_body rq = delivery_body (dl_eventId dl) ev /\
    rq_headers rq = delivery_headers D ev secret (rq_body rq) sentAt.

Record auth_ok (w : World) : Prop := {
  ao_rows : rows_ok (w_db w);
  ao_caches : forall wid ep c, cache_of w wid !! ep = Some c -> knows (w_db w) ep (ce_value c);
  ao_requests : forall rq, ObsHttp rq ∈ w_trace w -> authentic (w_db w) rq;
}.

Definition auth_rel (w w' : World) : Prop := grows (w_db w) (w_db w').

#[export] Instance auth_rel_preorder : PreOrder auth_rel.
Proof. unfold auth_rel. split; [intros w; reflexivity|]. intros w1 w2 w3 H1 H2. by etrans. Qed.

Lemma owned_grows d d' dl : grows d d' -> owned d dl -> owned d' dl.
Proof.
  intros H (ev & e & Hev & He & Ht). destruct (gr_endpoints _ _ H _ _ He) as (e' & He' & Ht' & _).
  exists ev, e'. split_and!; [by apply (gr_events _ _ H)|done|congruence].
Qed.

Lemma knows_grows d d' ep v : grows d d' -> knows d ep v -> knows d' ep v.
Proof.
  intros H (e & He & Hs & Hr). destruct (gr_endpoints _ _ H _ _ He) as (e' & He' & Ht & Hs').
  exists e'. by rewrite Ht, Hs'.
Qed.

Lemma authentic_grows d d' rq : grows d d' -> authentic d rq -> authentic d' rq.
Proof.
  intros H (D & dl & ev & e & secret & t & HD & Hev & He & Ht & Hs & Hr & Hb & Hh).
  destruct (gr_deliveries _ _ H _ _ HD) as (dl' & HD' & E1 & E2).
  destruct (gr_endpoints _ _ H _ _ He) as (e' & He' & E3 & E4).
  exists D, dl', ev, e', secret, t. rewrite E1, E2, E3, E4. split_and!; try done. by apply (gr_events _ _ H).
Qed.

(** Steps that send nothing and add nothing to a cache. *)
Lemma auth_step w w' :
  (rows_ok (w_db w) -> rows_ok (w_db w') /\ grows (w_db w) (w_db w')) ->
  (forall wid, cache_of w' wid ⊆ cache_of w wid) ->
  (forall rq, ObsHttp rq ∈ w_trace w' -> ObsHttp rq ∈ w_trace w) ->
  auth_ok w -> auth_ok w' /\ auth_rel w w'.
Proof.
  intros Hd Hc Ht [H1 H2 H3]. destruct (Hd H1) as [H1' Hg]. split; [|done]. split; [done| |].
  - intros wid ep c Hl. apply (knows_grows _ _ _ _ Hg), (H2 wid), (lookup_weaken _ _ _ _ Hl (Hc wid)).
  - intros rq Hrq. by apply (authentic_grows _ _ _ Hg), H3, Ht.
Qed.

(** ** Steps under what a program knows *)

Definition guarded (K : World -> Prop) (w w' : World) : Prop := K w -> auth_ok w -> auth_ok w' /\ auth_rel w w'.

Notation keeps_auth := (guarded (fun _ => True)).

Lemma guarded_preorder K : stable auth_rel K -> PreOrder (guarded K).
Proof.
  intros HK. split; [by intros w _ ?|]. intros w1 w2 w3 H1 H2 Hk H. destruct (H1 Hk H) as [H' Hr1].
  destruct (H2 (HK _ _ Hr1 Hk) H') as [? ?]. split; [done|]. by etrans.
Qed.

#[export] Instance keeps_auth_preorder : PreOrder keeps_auth.
Proof. by apply guarded_preorder. Qed.

Lemma acts_guarded K {B} (p : prog World B) : acts keeps_auth p -> acts (guarded K) p.
Proof. apply acts_mono. intros w w' H _. by apply H. Qed.

Notation awp := (wp (Tok := Z) (fun w _ => auth_ok w) auth_rel).

Lemma awp_guarded {B} K T (p : prog World B) Q :
  stable auth_rel K -> acts (guarded K) p -> (forall r, Q r K T) -> awp K T p Q.
Proof.
  intros HK Hp HQ. pose proof (guarded_preorder K HK).
  apply (wp_acts_under _ _ (guarded K)); [apply _| |done..]. intros w w' _ Hk Hg. by apply Hg.
Qed.

Lemma awp_acts {B} K T (p : prog World B) Q :
  stable auth_rel K -> acts keeps_auth p -> (forall r, Q r K T) -> awp K T p Q.
Proof. intros HK Hp. apply awp_guarded; [done|by apply acts_guarded]. Qed.

Lemma True_stable_auth : stable auth_rel (fun _ => True).
Proof. done. Qed.

(** ** Statements *)

Definition safe_rows (w w' : World) : Prop :=
  rows_ok (w_db w) -> rows_ok (w_db w') /\ grows (w_db w) (w_db w').

Lemma guarded_transaction K {R} (s : stm R) :
  db_only s -> (forall w x w', K w -> s w = (inr x, w') -> safe_rows w w') -> acts (guarded K) (transaction s).
Proof.
  intros Hd Hs. apply acts_call. intros w Hk. specialize (Hd w). specialize (Hs w).
  destruct Hd as (_ & _ & _ & Hc & Ht). destruct (s w) as [[e|x] w']; cbn in *;
    (apply auth_step; [|unfold cache_of; cbn; by rewrite Hc|cbn; by rewrite Ht]); [done|].
  by apply (Hs x w').
Qed.

Lemma guarded_statement K {R} (s : stm R) :
  db_only s -> (forall w, K w -> safe_rows w (s w).2) -> acts (guarded K) (transaction s).
Proof. intros Hd Hs. apply guarded_transaction; [done|]. intros w x w' Hk E. specialize (Hs w Hk). by rewrite E in Hs. Qed.

(** Statements on other tables. *)
Definition apart {R} (s : stm R) : Prop :=
  db_only s /\ forall w, events (w_db (s w).2) = events (w_db w) /\
    deliveries (w_db (s w).2) = deliveries (w_db w) /\ endpoints (w_db (s w).2) = endpoints (w_db w).

Lemma safe_same w w' :
  events (w_db w') = events (w_db w) -> deliveries (w_db w') = deliveries (w_db w) ->
  endpoints (w_db w') = endpoints (w_db w) -> safe_rows w w'.
Proof.
  intros He Hd Hp [H1 H2]. split; [split|split]; rewrite ?He, ?Hd, ?Hp; eauto.
  intros D dl HD. destruct (H1 D dl HD) as (ev & e & ?). exists ev, e. by rewrite He, Hp.
Qed.

Lemma safe_trans w1 w2 w3 : safe_rows w1 w2 -> safe_rows w2 w3 -> safe_rows w1 w3.
Proof. intros H1 H2 H. destruct (H1 H) as [H' ?]. destruct (H2 H') as [? ?]. split; [done|]. by etrans. Qed.

Lemma apart_bind {R R'} (s : stm R) (k : R -> stm R') : apart s -> (forall x, apart (k x)) -> apart (sbind s k).
Proof.
  intros [Hd Hs] Hk. split; [apply db_only_bind; [done|intros x; apply Hk]|].
  intros w. unfold sbind. specialize (Hs w). destruct (s w) as [[e|x] w1]; [done|]. cbn in Hs |- *.
  destruct Hs as (H1 & H2 & H3). destruct (proj2 (Hk x) w1) as (K1 & K2 & K3). split_and!; congruence.
Qed.

Lemma acts_apart {R} (s : stm R) : apart s -> acts keeps_auth (transaction s).
Proof. intros [Hd Hs]. apply guarded_statement; [done|]. intros w _. destruct (Hs w) as (? & ? & ?). by apply safe_same. Qed.

Lemma apart_subscription_createMany id types : apart (subscription_createMany id types).
Proof.
  induction types as [|y types IH]; [done|]. apply apart_bind; [|done]. split; intros w; unfold subscription_create;
    cbv zeta; destruct (100 <? _); try done; destruct (endpoints (w_db w) !! id); try done;
    by destruct (subscribed (w_db w) id y).
Qed.

Lemma apart_apiKey_update id f : apart (apiKey_update id f).
Proof. split; intros w; unfold apiKey_update; by destruct (apiKeys (w_db w) !! id). Qed.

Lemma apart_apiKey_create t key : apart (apiKey_create t key).
Proof.
  apply apart_bind; [done|]. intros id. split; intros w; cbv zeta;
    by destruct (key_by_hash (hashApiKey key) (w_db w)), (apiKeys (w_db w) !! id), (tenants (w_db w) !! t).
Qed.

Lemma apart_tenant_create name plan : apart (tenant_create name plan).
Proof.
  apply apart_bind; [done|]. intros id. split; intros w;
    by destruct (tenant_by_name name (w_db w)), (tenants (w_db w) !! id).
Qed.

Lemma apart_attempt_create D n g : apart (attempt_create D n g).
Proof.
  split; [apply db_only_attempt_create|]. intros w. unfold attempt_create.
  destruct (attempt_taken D n (w_db w)); [done|]. by destruct (deliveries (w_db w) !! D).
Qed.

Lemma apart_attempt_update i f : apart (attempt_update i f).
Proof.
  split; [apply db_only_attempt_update|]. intros w. unfold attempt_update.
  destruct (attempts (w_db w) !! i); [|done]. by destruct (text_ok _).
Qed.

(** Updates of rows that keep what identifies them. *)
Lemma safe_delivery_update D f w :
  (forall d, dl_eventId (f d) = dl_eventId d /\ dl_endpointId (f d) = dl_endpointId d) ->
  safe_rows w (delivery_update D f w).2.
Proof.
  intros Hf [H1 H2]. unfold delivery_update. destruct (deliveries (w_db w) !! D) as [d|] eqn:Hd; [|by split].
  destruct (Hf d) as [Hev Hep]. cbn.
  assert (owned (w_db w) (f d)) as Ho by (unfold owned; rewrite Hev, Hep; by apply (H1 D)).
  split; [split|split]; cbn; eauto.
  - intros D' dl [[_ <-]|[_ HD]]%lookup_insert_Some; [exact Ho|by apply (H1 D')].
  - intros D' dl HD. destruct (decide (D = D')) as [<-|Hne].
    + rewrite lookup_insert_eq. eexists. split; [done|]. cbn. by simplify_eq.
    + rewrite lookup_insert_ne by done. eauto.
Qed.

Lemma safe_endpoint_insert id e0 e w :
  endpoints (w_db w) !! id = Some e0 -> ep_tenantId e = ep_tenantId e0 -> ep_secretEnc e = ep_secretEnc e0 ->
  registered (ep_tenantId e) (ep_url e) -> safe_rows w (with_db (set_endpoints (insert id e)) w).
Proof.
  intros He Ht Hs Hr [H1 H2].
  assert (grows (w_db w) (set_endpoints (insert id e) (w_db w))) as Hg.
  { split; cbn; eauto. intros i e1 Hi. destruct (decide (id = i)) as [<-|Hne].
    - rewrite lookup_insert_eq. eexists. split; [done|]. by simplify_eq.
    - rewrite lookup_insert_ne by done. eauto. }
  split; [|exact Hg]. split; cbn.
  - intros D dl HD. apply (owned_grows _ _ _ Hg). by apply (H1 D).
  - intros i e1 [[_ <-]|[_ Hi]]%lookup_insert_Some; [done|by apply (H2 i)].
Qed.

Lemma safe_endpoint_update id f w :
  (forall e, ep_tenantId (f e) = ep_tenantId e /\ ep_url (f e) = ep_url e /\ ep_secretEnc (f e) = ep_secretEnc e) ->
  safe_rows w (endpoint_update id f w).2.
Proof.
  intros Hf H. unfold endpoint_update. destruct (endpoints (w_db w) !! id) as [e|] eqn:He; [|by split].
  destruct (Hf e) as (Ht & Hu & Hs). eapply safe_endpoint_insert; try done. cbn. rewrite Ht, Hu. by eapply ro_endpoints.
Qed.

(** A new endpoint, of a registered URL. *)
Lemma safe_endpoint_create t url desc sec w :
  registered t url -> safe_rows w (endpoint_create t url desc sec w).2.
Proof.
  intros Hr [H1 H2]. unfold endpoint_create, sbind, suuid. cbv beta iota zeta. cbn [w_db drawn].
  destruct (endpoint_by_url t url (w_db w)); [by split|].
  destruct (endpoints (w_db w) !! randomUUID (w_draws w)) eqn:Hf; [by split|].
  destruct (tenants (w_db w) !! t); [|by split]. cbn [snd].
  assert (grows (w_db w) (set_endpoints (insert (randomUUID (w_draws w))
    (mkEndpoint t url sec ACTIVE desc 0 (w_now w) (w_now w))) (w_db w))) as Hg.
  { split; cbn; eauto. intros i e Hi. exists e. rewrite lookup_insert_ne; [done|]. intros <-. congruence. }
  split; [|exact Hg]. split; cbn.
  - intros D dl HD. apply (owned_grows _ _ _ Hg). by apply (H1 D).
  - intros i e1 [[_ <-]|[_ Hi]]%lookup_insert_Some; [done|by apply (H2 i)].
Qed.

(** A change of an endpoint by its tenant. *)
Definition owner (id t : string) (w : World) : Prop :=
  exists e, endpoints (w_db w) !! id = Some e /\ ep_tenantId e = t.

Lemma owner_stable id t : stable auth_rel (owner id t).
Proof. intros w w' H (e & He & Ht). destruct (gr_endpoints _ _ H _ _ He) as (e' & ? & ? & _). exists e'. split; [done|congruence]. Qed.

Lemma safe_endpoint_change id t dto w :
  owner id t w -> (forall u, ud_url dto = Some (Some u) -> registered t u) ->
  safe_rows w (endpoint_change id (apply_update dto) w).2.
Proof.
  intros (e & He & <-) Hu H. unfold endpoint_change. rewrite He.
  destruct (endpoint_by_url _ _ _); [by split|]. eapply safe_endpoint_insert; try done. cbn.
  destruct (ud_url dto) as [[u|]|]; [by apply Hu|by eapply ro_endpoints..].
Qed.

(** A new event and deliveries of it to endpoints of its tenant. *)
Lemma safe_event_deliveries id ev now ds w w' :
  events (w_db w) !! id = None -> (forall D, D ∈ fst <$> ds -> deliveries (w_db w) !! D = None) ->
  (forall ep, ep ∈ snd <$> ds -> owner ep (ev_tenantId ev) w) ->
  events (w_db w') = <[id := ev]> (events (w_db w)) ->
  deliveries (w_db w') = insert_deliveries id now ds (deliveries (w_db w)) ->
  endpoints (w_db w') = endpoints (w_db w) -> safe_rows w w'.
Proof.
  intros Hev Hfr Hep E1 E2 E3 [H1 H2].
  assert (grows (w_db w) (w_db w')) as Hg.
  { split; rewrite ?E1, ?E2, ?E3; eauto.
    - intros i x Hi. rewrite lookup_insert_ne; [done|]. intros <-. congruence.
    - intros D dl HD. exists dl. split; [|done]. rewrite insert_deliveries_old; [done|]. intros Hin%Hfr. congruence. }
  split; [|exact Hg]. split; rewrite ?E3; [|done]. intros D dl. rewrite E2. intros [HD|[Hd Hin]]%insert_deliveries_new.
  - apply (owned_grows _ _ _ Hg). by apply (H1 D).
  - destruct (Hep _ Hin) as (e & He & Ht). exists ev, e. rewrite E1, E3, Hd, lookup_insert_eq. done.
Qed.

Lemma publish_auth t dto key : acts keeps_auth (transaction (publish_body t dto key)).
Proof.
  apply guarded_transaction; [apply db_only_publish_body|]. intros w res w' _ E.
  apply publish_body_inv in E as (_ & Hev & _ & Hfan & _ & Hfr & Hdb).
  eapply (safe_event_deliveries _ _ (w_now w) (pr_deliveries res)); [exact Hev|exact Hfr| |..];
    [|rewrite Hdb; unfold published_db; by destruct (pr_deliveries res)..].
  intros ep. rewrite Hfan. intros (e & He & Htn & _)%fan_out_spec. by exists e.
Qed.

Lemma ping_auth e t p k d ep : acts (guarded (owner ep t)) (transaction
  (let+ _ := event_insert e t "endpoint.ping" p k in let+ _ := delivery_create d e ep in outbox_create e (Some d))).
Proof.
  apply guarded_transaction; [repeat (apply db_only_bind; [apply db_only_event_insert || apply db_only_delivery_create|intros _]); apply db_only_outbox_create|].
  intros w x w' Ho. unfold sbind, event_insert, delivery_create. cbv beta zeta.
  destruct (event_by_key t k (w_db w)), (events (w_db w) !! e) eqn:He, (tenants (w_db w) !! t); try done.
  cbn [w_db with_db]. destruct (delivery_taken d e ep _) eqn:Ht; [done|]. intros [= <- <-].
  eapply (safe_event_deliveries e _ (w_now w) [(d, ep)]); [done| | |reflexivity..].
  - intros D HD. apply list_elem_of_singleton in HD as ->. unfold delivery_taken in Ht. cbn in Ht.
    cbn. by destruct (deliveries (w_db w) !! d).
  - intros y Hy. by apply list_elem_of_singleton in Hy as ->.
Qed.

#[export] Instance auth_footprint : Footprint keeps_auth.
Proof.
  split; [split|..].
  - apply _.
  - intros w w' Hd Hc Ht _. apply auth_step; [by rewrite Hd|unfold cache_of; by rewrite Hc|by rewrite Ht].
  - intros o w Ho _ _. apply auth_step; [done|done|]. intros rq [?|Hrq%list_elem_of_singleton]%elem_of_app; [done|].
    by rewrite <- Hrq in Ho.
  - apply publish_auth.
  - intros. apply acts_apart, apart_bind; [done|]. intros _. apply apart_subscription_createMany.
  - intros. apply acts_apart, apart_apiKey_update.
  - intros. apply acts_apart, apart_bind; [done|]. intros _. apply apart_apiKey_create.
  - intros. apply acts_apart, apart_bind; [apply apart_tenant_create|]. intros id.
    apply apart_bind; [apply apart_apiKey_create|done].
Qed.

(** ** The endpoints API *)

Lemma create_auth t dto : registered t (cd_url dto) -> acts keeps_auth (create cfg t dto).
Proof.
  intros Hr. unfold create. apply acts_bind; [apply (assert_footprint keeps_auth)|]. intros _.
  apply acts_bind; [apply (fp_read keeps_auth)|]. intros [e|]; [done|].
  apply acts_bind; [by apply (fp_local_step keeps_auth)|]. intros secret.
  apply acts_bind; [by apply (fp_local_step keeps_auth)|]. intros enc. apply acts_bind; [|done].
  apply guarded_statement; [|intros w _; by apply safe_endpoint_create].
  apply db_only_bind; [done|]. intros id w. cbv zeta.
  by destruct (endpoint_by_url t (cd_url dto) (w_db w)), (endpoints (w_db w) !! id), (tenants (w_db w) !! t).
Qed.

(** What follows the check that the endpoint is the tenant's. *)
Lemma awp_findScoped {B} t id (k : Endpoint -> prog World B) Q :
  (forall e, acts (guarded (owner id t)) (k e)) -> (forall r K, Q r K ∅) ->
  awp (fun _ => True) ∅ (bind (findScoped t id) k) Q.
Proof.
  intros Hk HQ. unfold findScoped. apply wp_bind, wp_bind.
  eapply wp_read with (K' := fun x => match x with Some _ => owner id t | None => fun _ => True end); try done.
  - apply _.
  - intros [e|]; [apply owner_stable|done].
  - intros w X _ _. destruct (find_scoped t id (w_db w)) as [e|] eqn:E; [|done]. apply find_scoped_Some in E. by exists e.
  - intros [e|]; [|apply HQ]. change (awp (owner id t) ∅ (k e) Q).
    apply awp_guarded; [apply owner_stable|apply Hk|done].
Qed.

Lemma update_auth t id dto Q :
  (forall u, ud_url dto = Some (Some u) -> registered t u) -> (forall r K, Q r K ∅) ->
  awp (fun _ => True) ∅ (update_endpoint cfg t id dto) Q.
Proof.
  intros Hu HQ. apply awp_findScoped; [|done]. intros _. apply acts_bind.
  - apply acts_guarded. destruct (ud_url dto); [apply (assert_footprint keeps_auth)|done].
  - intros _. destruct (null_refused dto); [done|]. apply acts_bind; [|done].
    apply guarded_statement; [|intros w Ho; by eapply safe_endpoint_change].
    intros w. unfold endpoint_change. destruct (endpoints (w_db w) !! id); [|done]. by destruct (endpoint_by_url _ _ _).
Qed.

Lemma ping_wp t id Q : (forall r K, Q r K ∅) -> awp (fun _ => True) ∅ (ping t id) Q.
Proof.
  intros HQ. apply awp_findScoped; [|done]. intros _.
  do 2 (apply acts_bind; [by apply acts_guarded, (fp_local_step keeps_auth)|]; intros ?).
  apply acts_bind; [apply ping_auth|done].
Qed.

(** ** The worker *)

Lemma acts_delivery_update D f :
  (forall d, dl_eventId (f d) = dl_eventId d /\ dl_endpointId (f d) = dl_endpointId d) ->
  acts keeps_auth (transaction (delivery_update D f)).
Proof. intros Hf. apply guarded_statement; [apply db_only_delivery_update|]. intros w _. by apply safe_delivery_update. Qed.

Lemma acts_endpoint_update id f :
  (forall e, ep_tenantId (f e) = ep_tenantId e /\ ep_url (f e) = ep_url e /\ ep_secretEnc (f e) = ep_secretEnc e) ->
  acts keeps_auth (transaction (endpoint_update id f)).
Proof. intros Hf. apply guarded_statement; [apply db_only_endpoint_update|]. intros w _. by apply safe_endpoint_update. Qed.

(** Forgetting a cache entry. *)
Lemma auth_cache_delete wid ep w : keeps_auth w (cache_update wid (delete ep) w).
Proof.
  intros _. apply auth_step; [done| |done]. intros wid'. rewrite cache_of_update. destruct (decide (wid = wid')) as [<-|]; [|done].
  apply delete_subseteq.
Qed.

Lemma settle_failure_auth wid D ep n c : acts keeps_auth (settle_failure cfg wid D ep n c).
Proof.
  unfold settle_failure. apply acts_bind; [fp_count|intros _].
  apply acts_bind; [apply (fp_circuit keeps_auth), failure_acts|intros [disable k]].
  apply acts_bind; [by apply acts_endpoint_update|intros _].
  apply acts_bind; [destruct disable; [apply acts_update; intros w; apply auth_cache_delete|done]|intros _].
  apply acts_bind; [by apply acts_delivery_update|intros _]. apply acts_bind; [fp_count|done].
Qed.

Lemma settle_success_auth D ep n : acts keeps_auth (settle_success D ep n).
Proof.
  unfold settle_success. apply acts_bind; [apply (fp_circuit keeps_auth), success_acts|intros _].
  apply acts_bind; [by apply acts_endpoint_update|intros _]. apply acts_bind; [by apply acts_delivery_update|intros _].
  apply acts_bind; [fp_count|done].
Qed.

Lemma finishFailure_auth D i n c b t : acts keeps_auth (finishFailure cfg D i n c b t).
Proof.
  unfold finishFailure. apply acts_bind; [apply acts_apart, apart_attempt_update|intros _].
  apply acts_bind; [by apply acts_delivery_update|done].
Qed.

Lemma claim_auth D n g : acts keeps_auth (claim D n g).
Proof.
  apply acts_catch; [|intros e; by destruct (is_P2002 e)].
  apply acts_bind; [apply acts_apart, apart_attempt_create|done].
Qed.

Section sending.
Context (K : World -> Prop) (K_stable : stable auth_rel K).

#[local] Instance guarded_K_preorder : PreOrder (guarded K).
Proof. by apply guarded_preorder. Qed.

(** An exchange whose request is authentic as far as the program knows. *)
Lemma exchange_auth rq t : (forall w, K w -> auth_ok w -> authentic (w_db w) rq) -> acts (guarded K) (http_exchange rq t).
Proof.
  intros Hrq. apply acts_call. intros w Hk H. specialize (Hrq w Hk H).
  assert (forall d, auth_ok (elapse d (observe (ObsHttp rq) (drawn w))) /\
    auth_rel w (elapse d (observe (ObsHttp rq) (drawn w)))) as Hok.
  { intros d. split; [|unfold auth_rel; reflexivity]. destruct H as [H1 H2 H3]. split; [exact H1|exact H2|].
    intros rq' [?|[= ->]%list_elem_of_singleton]%elem_of_app; [by apply H3|exact Hrq]. }
  destruct (http_reply (w_draws w) rq) as [st text lat|e lat]; cbv beta iota zeta; destruct (t <? lat); apply Hok.
Qed.

Lemma send_auth url headers body t :
  (forall w, K w -> auth_ok w -> authentic (w_db w) (mkRequest url headers body)) ->
  acts (guarded K) (send cfg url headers body t).
Proof.
  intros Hrq. assert (forall B (p : prog World B), acts keeps_auth p -> acts (guarded K) p) as Hk
    by (intros; by apply acts_guarded).
  assert (forall addrs, acts (guarded K) (connect addrs ;; http_exchange (mkRequest url headers body) t)) as Hc.
  { intros addrs. apply acts_bind; [apply Hk, (connect_footprint keeps_auth)|intros _]. by apply exchange_auth. }
  unfold send. apply acts_bind; [by apply acts_query, _|intros startedAt]. apply acts_catch.
  - apply acts_bind; [apply Hk, (check_literal_footprint keeps_auth)|intros _]. apply acts_bind.
    + unfold request. apply acts_bind; [by apply acts_query, _|]. intros []; [by apply exchange_auth|].
      destruct (parse_url _) as [u|]; [|done]. destruct (negb _); [apply Hc|].
      apply acts_bind; [apply Hk, (fp_dns keeps_auth)|intros addrs]. destruct (lookup_hook cfg addrs); [done|apply Hc].
    + intros [st text]. apply acts_bind; [by apply acts_query, _|]. intros now. by destruct (_ && _).
  - intros e. apply acts_bind; [by apply acts_query, _|done].
Qed.

Lemma run_attempt_auth wid D d ep headers body n i :
  (forall w, K w -> auth_ok w -> authentic (w_db w) (mkRequest (ec_url ep) headers body)) ->
  acts (guarded K) (run_attempt cfg wid D d ep headers body n i).
Proof.
  intros Hrq. assert (forall B (p : prog World B), acts keeps_auth p -> acts (guarded K) p) as Hk
    by (intros; by apply acts_guarded).
  unfold run_attempt. apply acts_bind; [apply Hk, (fp_circuit keeps_auth), allow_acts|]. intros []; cbn [negb].
  - apply acts_bind; [by apply send_auth|intros o]. apply Hk. apply acts_bind; [fp_count|intros _].
    apply acts_bind; [apply acts_apart, apart_attempt_update|intros _].
    destruct o; [apply settle_success_auth|apply settle_failure_auth].
  - apply Hk. do 3 (apply acts_bind; [fp_count|intros _]). apply finishFailure_auth.
Qed.

End sending.

(** What a worker has read of the delivery. *)
Definition reads (D : string) (d : Delivery) (ev : Event) (w : World) : Prop :=
  events (w_db w) !! dl_eventId d = Some ev /\
  exists dl, deliveries (w_db w) !! D = Some dl /\ dl_eventId dl = dl_eventId d /\ dl_endpointId dl = dl_endpointId d.

Lemma reads_stable D d ev : stable auth_rel (reads D d ev).
Proof.
  intros w w' H (Hev & dl & HD & E1 & E2). destruct (gr_deliveries _ _ H _ _ HD) as (dl' & ? & ? & ?).
  split; [by apply (gr_events _ _ H)|]. exists dl'. split_and!; congruence.
Qed.

Lemma knows_stable ep v : stable auth_rel (fun w => knows (w_db w) ep v).
Proof. intros w w' H. by apply knows_grows. Qed.

Lemma reads_authentic D d ev v sentAt w :
  reads D d ev w /\ knows (w_db w) (dl_endpointId d) v -> auth_ok w ->
  let body := delivery_body (dl_eventId d) ev in
  authentic (w_db w) (mkRequest (ec_url v) (delivery_headers D ev (ec_secret v) body sentAt) body).
Proof.
  intros [(Hev & dl & HD & E1 & E2) (e & He & Hs & Hr)] H.
  destruct (ro_deliveries _ (ao_rows _ H) D dl HD) as (ev' & e' & Hev' & He' & Ht).
  rewrite E1 in Hev'. rewrite E2 in He'. assert (ev' = ev) as -> by congruence. assert (e' = e) as -> by congruence.
  exists D, dl, ev, e, (ec_secret v), sentAt. cbn. rewrite Ht, E1, E2. done.
Qed.

Lemma awp_get wid ep (K : World -> Prop) Q :
  stable auth_rel K -> (forall r K', stable auth_rel K' -> (forall v, r <> inr (Some v)) -> Q r K' ∅) ->
  (forall v K', stable auth_rel K' -> (forall w, K' w -> K w /\ knows (w_db w) ep v) -> Q (inr (Some v)) K' ∅) ->
  awp K ∅ (get cfg wid ep) Q.
Proof.
  intros HK Hno Hyes. unfold get. apply wp_bind.
  assert (forall v, stable auth_rel (fun w => K w /\ knows (w_db w) ep v)) as HKv
    by (intros v w w' H [? ?]; split; [by eapply HK|by eapply knows_stable]).
  eapply wp_read with (K' := fun x w => K w /\ match x with Some v => knows (w_db w) ep v | None => True end).
  - apply _.
  - done.
  - intros [v|]; [apply HKv|]. intros w w' H [? _]. split; [by eapply HK|done].
  - intros w X Hk H. split; [done|]. unfold cache_lookup. destruct (cache_of w wid !! ep) as [c|] eqn:Hc; [|done].
    destruct (w_now w <? ce_expiresAt c); [|done]. by eapply ao_caches.
  - intros e. by apply Hno.
  - intros [v|]; [by apply Hyes|]. set (row_known := fun (row : option Endpoint) (w : World) => K w /\ match row with
      | Some e => forall secret, decrypt cfg (ep_secretEnc e) = inr secret ->
          knows (w_db w) ep (mkEndpointConfig (ep_url e) secret (ep_status e)) | None => True end).
    assert (forall row, stable auth_rel (row_known row)) as Hrow.
    { intros row w w' H [? Hr]. split; [by eapply HK|]. destruct row; [|done]. intros s Hs. by eapply knows_stable, Hr. }
    assert (stable auth_rel (fun w => K w /\ True)) as HK1 by (intros w w' H [? _]; split; [by eapply HK|done]).
    apply wp_bind. eapply wp_read with (K' := row_known).
    + apply _.
    + done.
    + done.
    + intros w X [Hk _] H. split; [done|]. destruct (endpoints (w_db w) !! ep) as [e|] eqn:He; [|done].
      intros s Hs. exists e. split_and!; [done|done|]. by apply (ro_endpoints _ (ao_rows _ H) ep).
    + intros e. by apply Hno.
    + intros [e|]; [|by apply Hno]. destruct (decrypt cfg (ep_secretEnc e)) as [x|secret] eqn:Hs; [by apply Hno|].
      set (v := mkEndpointConfig (ep_url e) secret (ep_status e)).
      apply wp_bind, wp_call.
      * apply _.
      * apply Hrow.
      * intros w X [_ Hk] _ H. specialize (Hk secret Hs). cbn [snd].
        split; [|unfold auth_rel; reflexivity]. destruct H as [H1 H2 H3]. split; [exact H1| |exact H3].
        intros wid' ep' c. rewrite cache_of_update. destruct (decide (wid = wid')) as [<-|]; [|by apply H2].
        intros [[<- <-]|[_ Hc]]%lookup_insert_Some; [exact Hk|by apply (H2 wid)].
      * intros [y|y]; [by apply Hno|]. apply Hyes; [apply Hrow|]. intros w [Hk Hv]. split; [done|by apply Hv].
Qed.

Lemma awp_process wid D Q :
  (forall r K, stable auth_rel K -> Q r K ∅) -> awp (fun _ => True) ∅ (process cfg wid D) Q.
Proof.
  intros HQ. assert (forall K r, stable auth_rel K -> awp K ∅ (skip r) Q) as Hskip.
  { intros K r HK. apply awp_acts; [done|apply (skip_footprint keeps_auth)|auto]. }
  unfold process. apply wp_bind.
  eapply wp_read with (K' := fun x => match x with Some (d, ev) => reads D d ev | None => fun _ => True end).
  - apply _.
  - done.
  - intros [[d ev]|]; [apply reads_stable|done].
  - intros w X _ _. destruct (find_delivery D (w_db w)) as [[d ev]|] eqn:E; [|done].
    apply find_delivery_Some in E as [Hd Hev]. split; [done|]. by exists d.
  - intros e. by apply HQ.
  - intros [[d ev]|]; [|by apply Hskip]. destruct (_ || _); [apply Hskip, reads_stable|].
    apply wp_bind, awp_get; [apply reads_stable| |].
    + intros [e|[v|]] K HK Hr; [by apply HQ|by destruct (Hr v)|by apply Hskip].
    + intros v K HK Hv. destruct (negb _); [by apply Hskip|]. apply wp_bind, awp_acts; [done|apply (fp_now keeps_auth)|].
      intros [e|now]; [by apply HQ|]. apply wp_bind, awp_acts; [done|apply claim_auth|].
      intros [e|[i|]]; [by apply HQ| |by apply Hskip]. apply awp_guarded; [done| |auto].
      apply run_attempt_auth; [done|]. intros w Hk H. by apply reads_authentic; [apply Hv|].
Qed.

(** The handler around the processing. *)
Lemma awp_handle_job wid job Q :
  (forall r K, stable auth_rel K -> Q r K ∅) -> awp (fun _ => True) ∅ (handle_job cfg wid job) Q.
Proof.
  intros HQ. pose proof True_stable_auth as HK. unfold handle_job. apply wp_bind, awp_acts; [done| |].
  { destruct (jd_tenantId (job_data job)); [done|apply (fp_read keeps_auth)]. }
  intros [e|[[|ch t]|]]; [by apply HQ|by apply awp_process| |by apply awp_process].
  apply wp_bind, awp_acts; [done|apply (fp_redis keeps_auth), acquire_acts|]. intros [e|[]]; [by apply HQ| |]; cbn [negb].
  - apply wp_finally.
    assert (forall r K, stable auth_rel K -> awp K ∅ (release cfg (String ch t)) (fun r' K' T' =>
      match r' with inl e => Q (inl e) K' T' | inr _ => Q r K' T' end)) as Hrel.
    { intros r K HK'. apply awp_acts; [done|apply (fp_redis keeps_auth), release_acts|].
      intros [e|_]; by apply HQ. }
    unfold process_and_retry. apply wp_bind, awp_process. intros [e|res] K HK'; [by apply Hrel|].
    case_bool_decide; [|by apply Hrel]. apply awp_acts; [done| |intros r; by apply Hrel].
    apply (schedule_retry_footprint keeps_auth). intros now. by apply acts_delivery_update.
  - apply awp_acts; [done| |intros r; by apply HQ]. apply acts_bind; [fp_count|intros _].
    apply acts_bind; [apply (fp_now keeps_auth)|intros now]. apply acts_bind; [apply (moveToDelayed_footprint keeps_auth)|done].
Qed.

(** ** The system *)

(** The API calls that hand over a URL do so for the tenant it is registered for. *)
Inductive startable_as : prog World unit -> Prop :=
| as_create t dto : registered t (cd_url dto) -> startable_as (discard (create cfg t dto))
| as_update t e dto : (forall u, ud_url dto = Some (Some u) -> registered t u) ->
    startable_as (discard (update_endpoint cfg t e dto))
| as_routine p : routine cfg p -> startable_as p.

(** Around the processes, caches are lost but not made up. *)
Definition surroundings (w w' : World) : Prop :=
  outside w w' /\ forall wid, cache_of w' wid ⊆ cache_of w wid.

Lemma surroundings_auth w w' : surroundings w w' -> auth_ok w -> auth_ok w' /\ auth_rel w w'.
Proof. intros [Ho Hc]. destruct Ho. by apply auth_step. Qed.

Lemma redeliver_auth t D : acts keeps_auth (redeliver t D).
Proof.
  unfold redeliver, requireOwned. apply acts_bind; [fp|]. intros d. apply acts_bind; [|done].
  apply guarded_transaction; [by apply db_only_bind; [apply db_only_delivery_update|]|].
  intros w x w' _. unfold sbind. pose proof (safe_delivery_update D set_pending w ltac:(done)) as H.
  destruct (delivery_update D set_pending w) as [[e|y] w1]; [done|]. intros [= _ <-].
  eapply safe_trans; [exact H|by apply safe_same].
Qed.

Lemma as_start_ok p : startable_as p -> awp (fun _ => True) ∅ p any_post.
Proof.
  assert (forall B (q : prog World B), acts keeps_auth q -> awp (fun _ => True) ∅ (discard q) any_post) as Hq.
  { intros B q Hq. apply wp_bind, awp_acts; [done|done|]. by intros [|]. }
  intros [t dto Hr|t e dto Hr|p' []].
  - by apply Hq, create_auth.
  - apply wp_bind, update_auth; [done|]. by intros [|].
  - apply wp_bind, awp_handle_job. by intros [|].
  - apply Hq, (tick_footprint keeps_auth). intros ids now. by apply acts_apart.
  - apply Hq, (controller_publish_footprint keeps_auth).
  - apply Hq, (getDeliveries_footprint keeps_auth).
  - apply Hq, (list_deliveries_footprint keeps_auth).
  - apply Hq, (get_attempts_footprint keeps_auth).
  - apply Hq, redeliver_auth.
  - apply Hq, (fp_read keeps_auth).
  - apply Hq, (get_endpoint_footprint keeps_auth).
  - apply Hq, (setSubscriptions_footprint keeps_auth).
  - apply wp_bind, ping_wp. by intros [|].
  - apply Hq, (canActivate_footprint keeps_auth).
  - apply Hq, (rotate_footprint keeps_auth).
  - apply Hq, (create_tenant_footprint keeps_auth).
  - apply Hq, (sampleQueue_footprint keeps_auth), (sample_footprint keeps_auth).
Qed.

Lemma fresh_auth_ok w : fresh_start w -> w_caches w = ∅ -> auth_ok w.
Proof.
  intros [Hd Ht] Hc. split.
  - split; rewrite Hd; intros ? ? H; cbn in H; by rewrite lookup_empty in H.
  - intros wid ep c. unfold cache_of. by rewrite Hc, lookup_empty.
  - rewrite Ht. intros rq H. by apply elem_of_nil in H.
Qed.

Lemma auth_reachable w0 c :
  fresh_start w0 -> w_caches w0 = ∅ -> rtc (pstep surroundings startable_as) (w0, []) c -> auth_ok c.1.
Proof.
  intros H0 Hc0 Hc. destruct (pool_sound surroundings startable_as (fun w (_ : gset Z) => auth_ok w) auth_rel _)
    with (s0 := w0) (c := c) as [_ HI]; [| |by apply fresh_auth_ok|done|done].
  - intros w w' X HI Ho. by apply surroundings_auth.
  - apply as_start_ok.
Qed.

(** ** Properties *)

(** C9.  Tenants are isolated: however the processes interleave, fail and crash, in
    every state the system reaches from an empty database each delivery joins an
    event and an endpoint of the same tenant, and each endpoint has a URL its own
    tenant has registered. *)
Theorem tenants_isolated w0 w pool :
  fresh_start w0 -> w_caches w0 = ∅ -> rtc (pstep surroundings startable_as) (w0, []) (w, pool) ->
  (forall D dl, deliveries (w_db w) !! D = Some dl ->
     exists ev e, events (w_db w) !! dl_eventId dl = Some ev /\ endpoints (w_db w) !! dl_endpointId dl = Some e /\
       ev_tenantId ev = ep_tenantId e) /\
  (forall i e, endpoints (w_db w) !! i = Some e -> registered (ep_tenantId e) (ep_url e)).
Proof.
  intros H0 Hc0 Hc. destruct (auth_reachable w0 (w, pool) H0 Hc0 Hc) as [[H1 H2] _ _]. by split.
Qed.

(** C5.  Every request is authentic: however the processes interleave, fail and
    crash, each request that ever left the system was for a delivery in the
    database, carried the JSON of that delivery's event, was signed under the
    secret of the delivery's endpoint, an endpoint of the event's tenant, and went
    to a URL which this tenant itself had registered (endpoint URLs changing and
    workers caching them notwithstanding). *)
Theorem requests_authentic w0 w pool rq :
  fresh_start w0 -> w_caches w0 = ∅ -> rtc (pstep surroundings startable_as) (w0, []) (w, pool) ->
  ObsHttp rq ∈ w_trace w ->
  exists D dl ev e secret sentAt,
    deliveries (w_db w) !! D = Some dl /\ events (w_db w) !! dl_eventId dl = Some ev /\
    endpoints (w_db w) !! dl_endpointId dl = Some e /\ ev_tenantId ev = ep_tenantId e /\
    decrypt cfg (ep_secretEnc e) = inr secret /\ registered (ev_tenantId ev) (rq_url rq) /\
    rq_body rq = delivery_body (dl_eventId dl) ev /\
    rq_headers rq = delivery_headers D ev secret (rq_body rq) sentAt.
Proof. intros H0 Hc0 Hc. apply (ao_requests _ (auth_reachable w0 (w, pool) H0 Hc0 Hc)). Qed.

End authentic.

(** ** The demo life *)

(** The one URL that is registered in [life]. *)
Definition life_registered (t u : string) : Prop := t = "uuid-1" /\ u = "https://a.example/hook".

Lemma life_startable_as : Forall (startable_as (P := always 200) demo_cfg life_registered) life.
Proof.
  unfold life. repeat constructor.
Qed.

Lemma tenants_isolated_witness :
  exists dl ev e, deliveries (w_db after_life) !! "uuid-8" = Some dl /\
    events (w_db after_life) !! dl_eventId dl = Some ev /\ endpoints (w_db after_life) !! dl_endpointId dl = Some e /\
    ev_tenantId ev = ep_tenantId e /\ ep_url e = "https://a.example/hook".
Proof.
  assert (bool_decide (is_Some (deliveries (w_db after_life) !! "uuid-8")) = true) as Hd by (vm_compute; reflexivity).
  apply bool_decide_eq_true in Hd as [dl Hd].
  destruct (rtc_story (surroundings (P := always 200)) (startable_as (P := always 200) demo_cfg life_registered) life
    (world_at 1000 empty_db 200) [] life_startable_as) as [pool Hr].
  destruct (tenants_isolated (P := always 200) demo_cfg life_registered (world_at 1000 empty_db 200) after_life pool
    (conj eq_refl eq_refl) eq_refl Hr) as [H1 H2].
  destruct (H1 "uuid-8" dl Hd) as (ev & e & Hev & He & Ht). exists dl, ev, e.
  exact (conj Hd (conj Hev (conj He (conj Ht (proj2 (H2 _ e He)))))).
Defined.

(** The only request of a trace. *)
Definition only_request `{P : Platform} (w : World) : option HttpRequest :=
  match requests w with [ObsHttp rq] => Some rq | _ => None end.

Lemma only_request_in `{P : Platform} w rq : only_request w = Some rq -> ObsHttp rq ∈ w_trace w.
Proof.
  unfold only_request. destruct (requests w) as [|[| rq'| | |] [|]] eqn:E; try done. intros [= ->].
  assert (ObsHttp rq ∈ requests w) as Hr by (rewrite E; by left). unfold requests in Hr.
  apply list_elem_of_In, filter_In in Hr as [Hr _]. by apply list_elem_of_In.
Qed.

Lemma requests_authentic_witness :
  exists rq D dl ev, ObsHttp rq ∈ w_trace after_life /\ rq_url rq = "https://a.example/hook" /\
    deliveries (w_db after_life) !! D = Some dl /\ events (w_db after_life) !! dl_eventId dl = Some ev /\
    rq_body rq = delivery_body (dl_eventId dl) ev.
Proof.
  assert (bool_decide (is_Some (only_request (P := always 200) after_life)) = true) as Hrq by (vm_compute; reflexivity).
  apply bool_decide_eq_true in Hrq as [rq Hrq]. apply only_request_in in Hrq as Hin. clear Hrq.
  destruct (rtc_story (surroundings (P := always 200)) (startable_as (P := always 200) demo_cfg life_registered) life
    (world_at 1000 empty_db 200) [] life_startable_as) as [pool Hr].
  destruct (requests_authentic (P := always 200) demo_cfg life_registered (world_at 1000 empty_db 200) after_life pool rq
    (conj eq_refl eq_refl) eq_refl Hr Hin) as (D & dl & ev & e & secret & t & HD & Hev & _ & _ & _ & [_ Hu] & Hb & _).
  exists rq, D, dl, ev. exact (conj Hin (conj Hu (conj HD (conj Hev Hb)))).
Defined.
