(* ===== verification/EndToEnd.v ===== *)
(** * From publication to processing: sender and receiver together

    The platform sends at least once ([OutboxPool.v]) and only authentic requests
    ([Authentic.v]); the reference receiver drops repetitions ([Receiver.v]).
    Together: a delivery that reaches the receiver in time is processed once. *)

From S2P Require Import Prelude JsNumber Backoff Errors Effects Concurrency Json Platform Schema World Config TestPlatform.
From S2P Require Import Signature CircuitStore TenantLimiter SecretCipher EndpointCache HttpClient Processor Worker.
From S2P Require Import Relay RateLimit Events Deliveries Ssrf Endpoints Tenancy Footprint Ledger DeliveryPool Authentic.
From S2P Require Import Receiver.
From stdpp Require Import relations.
Open Scope Z_scope.

Section end_to_end.
Context `{P : Platform}.
Variable cfg : Config.
Variable registered : string -> string -> Prop.

(** What the receiver gets of a request: [fetch] sends a text in UTF-8. *)
Definition as_hook (rq : HttpRequest) : HookRequest := mkHookRequest (rq_headers rq) (utf8_encode (rq_body rq)).

Definition timestamp_of (rq : HttpRequest) : string := default EmptyString (header "x-hookrelay-timestamp" (as_hook rq)).

Lemma headers_delivery D ev secret body sentAt url :
  request_delivery (mkRequest url (delivery_headers D ev secret body sentAt) body) = Some D.
Proof. done. Qed.

Lemma timestamp_delivered D ev secret body sentAt url :
  timestamp_of (mkRequest url (delivery_headers D ev secret body sentAt) body) = decZ (sentAt / 1000).
Proof.
  unfold timestamp_of, as_hook. rewrite (header_some "x-hookrelay-timestamp" (decZ (sentAt / 1000))); [done|reflexivity|].
  apply decZ_not_empty.
Qed.

(** C6.  Sender and receiver together process each delivery once: in any state the
    concurrent system reaches, take any requests it ever sent (retries,
    repetitions, requests of other deliveries) and any others from elsewhere, in
    any order and at any times; a receiver that has the endpoint's secret and has
    not processed delivery [D] processes it exactly once if at least one of the
    requests sent for [D] arrives within the tolerance of its timestamp. *)
Theorem processed_exactly_once w0 w pool rq D dl ev e secret arrivedAt rqs s :
  fresh_start w0 -> w_caches w0 = ∅ ->
  rtc (pstep surroundings (startable_as cfg registered)) (w0, []) (w, pool) ->
  ObsHttp rq ∈ w_trace w -> request_delivery rq = Some D -> D <> EmptyString ->
  deliveries (w_db w) !! D = Some dl -> events (w_db w) !! dl_eventId dl = Some ev ->
  integral (ev_payload ev) = true ->
  endpoints (w_db w) !! dl_endpointId dl = Some e -> decrypt cfg (ep_secretEnc e) = inr secret ->
  secret ∈ rv_secrets s -> rv_processed s !! D = None ->
  (arrivedAt, as_hook rq) ∈ rqs -> out_of_tolerance arrivedAt (timestamp_of rq) = false ->
  count_received D (receive rqs s).1 = 1%nat /\ is_Some (rv_processed (receive rqs s).2 !! D).
Proof.
  intros H0 Hc0 Hc Hin Hrq HD Hdl Hev Hp He Hs Hsec Hpr Harr Htol.
  destruct (ao_requests _ _ _ (auth_reachable cfg registered w0 (w, pool) H0 Hc0 Hc) rq Hin)
    as (D' & dl' & ev' & e' & secret' & sentAt & HD' & Hev' & He' & _ & Hs' & _ & Hb & Hh). cbn [fst] in HD', Hev', He'.
  destruct rq as [url headers body]. cbn in Hb, Hh. subst body headers.
  rewrite headers_delivery in Hrq. injection Hrq as ->. rewrite timestamp_delivered in Htol.
  rewrite Hdl in HD'. injection HD' as <-. rewrite Hev in Hev'. injection Hev' as <-.
  rewrite He in He'. injection He' as <-. rewrite Hs in Hs'. injection Hs' as <-.
  exact (receive_once rqs s D (dl_eventId dl) ev secret arrivedAt sentAt HD Hsec Hp Hpr Harr Htol).
Qed.

End end_to_end.

(** ** The demo life, received twice *)

Section sample.
Context `{P : Platform}.
Variable cfg : Config.

(** The only request sent, and the rows of delivery [D]. *)
Definition sample (D : string) (w : World) : option (HttpRequest * Delivery * Event * Endpoint * string) :=
  rq ← only_request w;
  dl ← deliveries (w_db w) !! D;
  ev ← events (w_db w) !! dl_eventId dl;
  e ← endpoints (w_db w) !! dl_endpointId dl;
  match decrypt cfg (ep_secretEnc e) with
  | inr secret =>
      if bool_decide (request_delivery rq = Some D) && integral (ev_payload ev) &&
         negb (out_of_tolerance 2000 (timestamp_of rq))
      then Some (rq, dl, ev, e, secret) else None
  | inl _ => None
  end.

Lemma sample_Some D w rq dl ev e secret :
  sample D w = Some (rq, dl, ev, e, secret) ->
  ObsHttp rq ∈ w_trace w /\ request_delivery rq = Some D /\
  deliveries (w_db w) !! D = Some dl /\ events (w_db w) !! dl_eventId dl = Some ev /\
  integral (ev_payload ev) = true /\ endpoints (w_db w) !! dl_endpointId dl = Some e /\
  decrypt cfg (ep_secretEnc e) = inr secret /\ out_of_tolerance 2000 (timestamp_of rq) = false.
Proof.
  unfold sample. intros (rq' & Hrq & (dl' & Hdl & (ev' & Hev & (e' & He & H)%bind_Some)%bind_Some)%bind_Some)%bind_Some.
  destruct (decrypt cfg (ep_secretEnc e')) as [|x] eqn:Hs; [done|].
  destruct (_ && _ && _) eqn:Hb; [|done]. injection H as -> -> -> -> ->.
  apply andb_true_iff in Hb as [[Hd%bool_decide_eq_true Hi]%andb_true_iff Ht%negb_true_iff].
  split; [by apply only_request_in|]. done.
Qed.

End sample.

Lemma processed_exactly_once_witness :
  exists rq secret, count_received "uuid-8"
    (receive (P := always 200) [(2000, as_hook (P := always 200) rq); (9000, as_hook (P := always 200) rq)] (mkReceiver [secret] ∅)).1 = 1%nat.
Proof.
  assert (bool_decide (is_Some (sample (P := always 200) demo_cfg "uuid-8" after_life)) = true) as H by (vm_compute; reflexivity).
  apply bool_decide_eq_true in H as [[[[[rq dl] ev] e] secret] H]. apply sample_Some in H as (H1 & H2 & H3 & H4 & H5 & H6 & H7 & H8).
  destruct (rtc_story (surroundings (P := always 200)) (startable_as (P := always 200) demo_cfg life_registered) life
    (world_at 1000 empty_db 200) [] life_startable_as) as [pool Hr].
  exists rq, secret.
  refine (proj1 (processed_exactly_once (P := always 200) demo_cfg life_registered (world_at 1000 empty_db 200) after_life pool
    rq "uuid-8" dl ev e secret 2000 [(2000, as_hook (P := always 200) rq); (9000, as_hook (P := always 200) rq)] (mkReceiver [secret] ∅)
    (conj eq_refl eq_refl) eq_refl Hr H1 H2 _ H3 H4 H5 H6 H7 _ eq_refl _ H8)).
  - discriminate.
  - by left.
  - by left.
Defined.
