(* ===== verification/Completion.v ===== *)
(** * Deliveries complete

    The good case, from any reachable state: a delivery that nothing stands in the way
    of ([unhindered]: its endpoint is ACTIVE and answers, its breaker is closed, its
    next attempt is not claimed) is handed to the queue by undisturbed passes of the
    relay, and whichever worker gets its job sends one request, which the receiver
    accepts, and records SUCCEEDED. *)

From S2P Require Import Prelude JsNumber Backoff Errors Effects Concurrency Json IpAddress Platform Schema World Config TestPlatform.
From S2P Require Import Circuit CircuitStore TenantLimiter SecretCipher EndpointCache HttpClient Processor Worker Sends.
From S2P Require Import Relay Footprint Ledger DeliveryPool OutboxPool Receiver EndToEnd.
From stdpp Require Import relations.
Open Scope Z_scope.
Open Scope hook_scope.

Section completion.
Context `{P : Platform}.
Variable cfg : Config.

(** ** A request that is answered *)

(** The host may be connected to, and every request is answered in time with a 2xx and
    a body that the column takes. *)
Record healthy (url : string) : Prop := {
  he_host : exists u, parse_url url = Some u /\
    let h := strip_brackets (url_hostname u) in
    if isIP h =? 0 then forall n, exists addrs, dns_lookup n h = inr addrs /\ lookup_hook cfg addrs = None
    else public_address cfg h;
  he_reply : forall n rq, rq_url rq = url -> exists st text lat, http_reply n rq = Responds st text lat /\
    200 <= st < 300 /\ lat <= HR_DELIVERY_TIMEOUT_MS cfg /\ text_ok (slice BODY_HEAD_LIMIT text) = true;
}.

Lemma check_literal_healthy url : healthy url -> check_literal cfg url = Ret tt.
Proof.
  intros [(u & Hu & Hh) _]. unfold check_literal, public_address in *. destruct (allowPrivate cfg); [done|]. rewrite Hu.
  destruct (isIP _ =? 0); [done|]. cbn [negb]. by rewrite Hh.
Qed.

(** What the exchange leaves: one request in the trace. *)
Lemma exec_exchange_healthy w rq : healthy (rq_url rq) ->
  exists st text w', exec (http_exchange rq (HR_DELIVERY_TIMEOUT_MS cfg)) w = (inr (st, text), w') /\
    200 <= st < 300 /\ text_ok (slice BODY_HEAD_LIMIT text) = true /\ requests w' = requests w ++ [ObsHttp rq].
Proof.
  intros [_ Hr]. destruct (Hr (w_draws w) rq eq_refl) as (st & text & lat & Hrep & Hst & Hlat & Htext).
  exists st, text. unfold http_exchange. rewrite exec_call, Hrep.
  destruct (Z.ltb_spec (HR_DELIVERY_TIMEOUT_MS cfg) lat); [lia|]. eexists. split; [reflexivity|]. split; [done|]. split; [done|].
  unfold requests. cbn. by rewrite List.filter_app.
Qed.

Lemma exec_request_healthy w rq : healthy (rq_url rq) ->
  exists st text w', exec (request cfg rq (HR_DELIVERY_TIMEOUT_MS cfg)) w = (inr (st, text), w') /\
    200 <= st < 300 /\ text_ok (slice BODY_HEAD_LIMIT text) = true /\ requests w' = requests w ++ [ObsHttp rq].
Proof.
  intros Hh. pose proof Hh as [(u & Hu & Hhost) _]. unfold request. rewrite exec_bind, exec_query.
  destruct (socket_pooled _ _); [by apply exec_exchange_healthy|]. rewrite Hu.
  assert (forall a w1, requests w1 = requests w -> exists st text w',
    exec (connect a ;; http_exchange rq (HR_DELIVERY_TIMEOUT_MS cfg)) w1 = (inr (st, text), w') /\
    200 <= st < 300 /\ text_ok (slice BODY_HEAD_LIMIT text) = true /\ requests w' = requests w ++ [ObsHttp rq]) as Hc.
  { intros a w1 <-. unfold connect. rewrite exec_bind, exec_update. rewrite <- (requests_observe (ObsConnect a) w1) by done.
    by apply exec_exchange_healthy. }
  cbv zeta in Hhost. cbn [rq_url] in Hu. destruct (isIP _ =? 0); cbn [negb]; [|by apply Hc].
  rewrite exec_bind. unfold dnsLookup. rewrite exec_call. destruct (Hhost (w_draws w)) as (addrs & -> & ->). by apply Hc.
Qed.

Lemma exec_send_healthy w url headers body : healthy url ->
  exists st head d w', exec (send cfg url headers body (HR_DELIVERY_TIMEOUT_MS cfg)) w = (inr (Ok st head d), w') /\
    text_ok head = true /\ requests w' = requests w ++ [ObsHttp (mkRequest url headers body)] /\ sends_safely cfg w w'.
Proof.
  intros Hh. destruct (exec_send_frame cfg w url headers body (HR_DELIVERY_TIMEOUT_MS cfg)) as (o & w' & He & Hsafe).
  revert He. unfold send. rewrite exec_bind, exec_Date_now, exec_catch, (check_literal_healthy _ Hh). cbn [bind].
  destruct (exec_request_healthy w (mkRequest url headers body) Hh) as (st & text & w1 & Hrq & Hst & Htext & Hreq).
  rewrite exec_bind, Hrq, exec_bind, exec_Date_now.
  assert ((200 <=? st) && (st <? 300) = true) as -> by (apply andb_true_intro; split; lia).
  cbn [exec]. intros [= <- <-]. eexists st, _, _, w1. done.
Qed.

(** ** A delivery that nothing stands in the way of *)

Record unhindered (wid : nat) (D : string) (w : World) (d : Delivery) (ev : Event) (ep : EndpointConfig) : Prop := {
  un_found : find_delivery D (w_db w) = Some (d, ev);
  un_todo : is_done d = false;
  un_free : attempt_taken D (dl_attemptCount d + 1) (w_db w) = false;
  un_endpoint : effective_endpoint cfg w wid (dl_endpointId d) = inr (Some ep);
  un_active : ec_status ep = ACTIVE;
  un_row : is_Some (endpoints (w_db w) !! dl_endpointId d);
  un_breaker : exists s, circuit_at w (dl_endpointId d) s /\ state s = CLOSED;
  un_healthy : healthy (ec_url ep);
}.

(** What processing it leaves. *)
Definition completed (D : string) (w w' : World) (d : Delivery) (ev : Event) (ep : EndpointConfig) : Prop :=
  (exists d', deliveries (w_db w') !! D = Some d' /\ dl_status d' = SUCCEEDED /\ dl_attemptCount d' = dl_attemptCount d + 1) /\
  requests w' = requests w ++ [ObsHttp (delivery_request D (dl_eventId d) ev ep (w_now w))].

Lemma exec_allow_closed w ep s : circuit_at w ep s -> state s = CLOSED -> exec (allow cfg ep) w = (inr true, w).
Proof.
  intros Hs Hc. rewrite (exec_allow cfg w ep s Hs). unfold decideAttempt. rewrite Hc. cbn [negb]. rewrite Hc. done.
Qed.

Lemma exec_settle_success_ok w D ep n d :
  deliveries (w_db w) !! D = Some d -> is_Some (endpoints (w_db w) !! ep) ->
  exists w', exec (settle_success D ep n) w = (inr RSucceeded, w') /\ requests w' = requests w /\
    deliveries (w_db w') !! D = Some (touch_delivery (w_now w) (set_succeeded n d)).
Proof.
  intros Hd [e He]. unfold settle_success. rewrite exec_bind, exec_success, exec_bind.
  assert (exec (transaction (endpoint_update ep reset_failures)) (settled w ep onSuccess) =
    (inr tt, with_db (set_endpoints (insert ep (touch_endpoint (w_now w) (reset_failures e)))) (settled w ep onSuccess))) as ->.
  { rewrite exec_transaction. unfold endpoint_update. cbn. by rewrite He. }
  rewrite exec_bind, (exec_delivery_update _ _ _ d) by done. rewrite exec_bind, exec_inc. cbn [exec].
  eexists. split; [reflexivity|]. split; [by rewrite requests_observe|]. cbn. apply lookup_insert_eq.
Qed.

Lemma exec_run_attempt_healthy w wid D d ep headers body n id a :
  attempts (w_db w) !! id = Some a -> deliveries (w_db w) !! D = Some d -> is_Some (endpoints (w_db w) !! dl_endpointId d) ->
  (exists s, circuit_at w (dl_endpointId d) s /\ state s = CLOSED) -> healthy (ec_url ep) ->
  exists w', exec (run_attempt cfg wid D d ep headers body n id) w = (inr RSucceeded, w') /\
    requests w' = requests w ++ [ObsHttp (mkRequest (ec_url ep) headers body)] /\
    exists now, deliveries (w_db w') !! D = Some (touch_delivery now (set_succeeded n d)).
Proof.
  intros Ha Hd He (s & Hs & Hc) Hh. unfold run_attempt. rewrite exec_bind, (exec_allow_closed _ _ _ Hs Hc). cbn [negb].
  rewrite exec_bind. destruct (exec_send_healthy w (ec_url ep) headers body Hh) as (st & head & du & w1 & -> & Ht & Hr & Hsafe).
  destruct Hsafe as (Hdb & _). rewrite exec_bind, exec_observe_seconds, exec_bind, (exec_attempt_update _ _ _ a) by (cbn; by rewrite Hdb).
  cbn [set_outcome at_responseBodyHead default from_option outcome_bodyHead]. unfold Datatypes.id. rewrite Ht.
  set (w2 := with_db _ _). destruct (exec_settle_success_ok w2 D (dl_endpointId d) n d) as (w' & -> & Hr' & Hd').
  { cbn. by rewrite Hdb. } { cbn. by rewrite Hdb. }
  exists w'. split; [done|]. split; [|by eexists]. rewrite Hr'. subst w2. unfold requests at 1. cbn.
  by rewrite List.filter_app, app_nil_r.
Qed.

Lemma exec_get_caches w wid id v : effective_endpoint cfg w wid id = inr (Some v) ->
  exists f, exec (get cfg wid id) w = (inr (Some v), with_caches f w).
Proof.
  unfold effective_endpoint. rewrite exec_get. destruct (cache_lookup wid id w) as [c|].
  - intros [= ->]. exists (fun c => c). by destruct w.
  - intros ->. by eexists.
Qed.

Lemma exec_process_unhindered wid D w d ev ep : unhindered wid D w d ev ep ->
  exists w', exec (process cfg wid D) w = (inr RSucceeded, w') /\ completed D w w' d ev ep.
Proof.
  intros [Hf Hdone Hfree Hep Hact Hrow Hbr Hh]. unfold process. rewrite exec_bind, exec_db_read, Hf. fold (is_done d). rewrite Hdone.
  rewrite exec_bind. destruct (exec_get_caches _ _ _ _ Hep) as [f ->]. rewrite (bool_decide_eq_true_2 _ Hact). cbn [negb].
  pose proof Hf as [Hd _]%find_delivery_Some. rewrite exec_bind, exec_Date_now. cbv zeta. rewrite exec_bind.
  rewrite (exec_claim (with_caches f w) D _ _ d) by done. cbn [w_db with_caches]. rewrite Hfree. set (w2 := with_db _ _).
  edestruct (exec_run_attempt_healthy w2 wid D d ep) as (w' & -> & Hr & now & Hd'); [|exact Hd|exact Hrow|exact Hbr|exact Hh|].
  { cbn. apply lookup_insert_eq. }
  exists w'. split; [done|]. split; [|exact Hr]. by eexists.
Qed.

(** ** The job *)

(** The tenant whose slot the handler takes. *)
Definition tenant_of_job (job : Job) (w : World) : option string :=
  match jd_tenantId (job_data job) with
  | Some t => Some t
  | None => delivery_tenant (jd_deliveryId (job_data job)) (w_db w)
  end.

Definition slot_free (w : World) (t : string) : Prop :=
  exists h x, 0 <= h < HR_TENANT_CONCURRENCY cfg /\ slots w t h x.

Lemma slot_key_not_circuit t ep : keyOf ep <> slot_key t.
Proof. unfold keyOf, slot_key. intros H. by apply (f_equal (String.get 3)) in H. Qed.

(** A slot leaves the delivery unhindered. *)
Lemma unhindered_redis wid D w d ev ep r' t :
  (forall k, k <> slot_key t -> r_lookup r' (w_now w) k = r_lookup (w_redis w) (w_now w) k) ->
  unhindered wid D w d ev ep -> unhindered wid D (with_redis r' w) d ev ep.
Proof.
  intros Hfr [Hf Hdone Hfree Hep Hact Hrow (s & Hs & Hc) Hh]. split; try done. exists s. split; [|exact Hc].
  unfold circuit_at. cbn [w_redis w_now with_redis]. rewrite Hfr by apply slot_key_not_circuit. exact Hs.
Qed.

Lemma exec_handle_job_unhindered wid job w d ev ep :
  0 < HR_TENANT_CONCURRENCY cfg -> 0 < HR_TENANT_SLOT_TTL_SEC cfg ->
  unhindered wid (jd_deliveryId (job_data job)) w d ev ep ->
  (forall t, tenant_of_job job w = Some t -> slot_free w t) ->
  exists w', exec (handle_job cfg wid job) w = (inr RSucceeded, w') /\
    completed (jd_deliveryId (job_data job)) w w' d ev ep.
Proof.
  intros Hmax Httl Hun Hslot. unfold handle_job.
  assert (exec (match jd_tenantId (job_data job) with
    | Some t => Ret (Some t) | None => db_read (delivery_tenant (jd_deliveryId (job_data job))) end) w =
    (inr (tenant_of_job job w), w)) as Ht by (unfold tenant_of_job; by destruct (jd_tenantId (job_data job))).
  rewrite exec_bind, Ht. destruct (tenant_of_job job w) as [t|] eqn:E; [|by apply exec_process_unhindered].
  destruct (Hslot t eq_refl) as (h & x & Hh & Hs). destruct t as [|c t0]; [by apply exec_process_unhindered|]. set (t := String c t0) in *.
  destruct (exec_acquire_redis cfg w t h x Hmax Httl ltac:(lia) Hs) as (r' & Hacq & _ & Hfr).
  rewrite exec_bind, Hacq. rewrite (proj2 (Z.ltb_lt _ _)) by lia. cbn [negb]. rewrite exec_finally. unfold process_and_retry.
  destruct (exec_process_unhindered wid _ _ d ev ep (unhindered_redis _ _ _ _ _ _ _ _ Hfr Hun)) as (w2 & Hp & Hc).
  rewrite exec_bind, Hp. cbn [exec].
  destruct (never_throws_exec _ w2 (release_never_throws cfg t)) as ([] & w3 & Er).
  pose proof (acts_exec _ _ _ _ _ (release_acts cfg t) Er) as Hw3. rewrite bool_decide_eq_false_2 by done. cbn [exec]. rewrite Er.
  exists w3. split; [done|]. unfold redis_step in Hw3. rewrite Hw3. exact Hc.
Qed.

(** ** The relay in between *)

(** What undisturbed passes of the relay change. *)
Definition polled (w w' : World) : Prop :=
  exists f seq q l, w' = mkWorld (set_outbox f seq (w_db w)) (w_redis w) q (w_now w) (w_draws w) (w_caches w) (w_trace w ++ l) /\
    List.filter is_http l = [].

#[local] Instance polled_preorder : PreOrder polled.
Proof.
  split.
  - intros w. exists id, (outbox_seq (w_db w)), (w_queue w), []. split; [|done]. rewrite app_nil_r. by destruct w as [[]].
  - intros w1 w2 w3 (f & s & q & l & -> & Hl) (f' & s' & q' & l' & -> & Hl').
    exists (f' ∘ f), s', q', (l ++ l'). split; [by rewrite app_assoc|]. by rewrite List.filter_app, Hl, Hl'.
Qed.

Lemma polled_observe w o : is_http o = false -> polled w (observe o w).
Proof.
  intros Ho. exists id, (outbox_seq (w_db w)), (w_queue w), [o]. split; [by destruct w as [[]]|]. cbn. by rewrite Ho.
Qed.

Lemma tick_polled k : acts polled (tick cfg k).
Proof.
  assert (forall op m labels v, acts polled (metric_call op m labels v)) as Hm
    by (intros; apply acts_update; intros w; by apply polled_observe).
  unfold tick. apply acts_bind; [apply acts_db_read, _|]. intros [|m b]; [done|].
  apply acts_bind.
  { generalize (m :: b). clear m b. intros b. induction b as [|m b IH]; [done|]. cbn [enqueue_batch]. apply acts_bind.
    - apply acts_catch; [|done]. apply acts_bind; [|done]. apply acts_update. intros w.
      exists id, (outbox_seq (w_db w)), (q_add_bulk (jobs_of cfg m) (w_queue w)), [ObsEnqueue (jobs_of cfg m)].
      split; [by destruct w as [[]]|done].
    - intros []; [|done]. apply acts_bind; [exact IH|done]. }
  intros [|i ids]; [done|]. apply acts_bind; [apply acts_query, _|]. intros now. apply acts_bind.
  { unfold transaction. apply acts_call. intros w. cbn. unfold mark_published. by eexists _, _, _, [] ; rewrite app_nil_r. }
  intros _. unfold after_marking. apply acts_bind; [apply Hm|]. intros _. apply acts_bind; [apply acts_db_read, _|].
  intros n. apply acts_bind; [apply Hm|done].
Qed.

Lemma polls_polled m k w : polled w (polls cfg m k w).
Proof.
  revert w. induction m as [|m IH]; intros w; [reflexivity|]. cbn [polls]. etrans; [|apply IH].
  destruct (exec (tick cfg k) w) as [r w'] eqn:E. exact (acts_exec _ _ _ _ _ (tick_polled k) E).
Qed.

Lemma polled_requests w w' : polled w w' -> requests w' = requests w.
Proof. intros (f & s & q & l & -> & Hl). unfold requests. cbn. by rewrite List.filter_app, Hl, app_nil_r. Qed.

Lemma polled_unhindered wid D w w' d ev ep : polled w w' -> unhindered wid D w d ev ep -> unhindered wid D w' d ev ep.
Proof. intros (f & s & q & l & -> & Hl) []. by split. Qed.

(** ** Property *)

(** C7.  Deliveries complete: from any state the concurrent system can be in, take a
    delivery that nothing stands in the way of.  Undisturbed passes of the relay, as
    many as the backlog needs, put a job for it in the queue; a worker that handles a
    job for it while its tenant has a free slot answers SUCCEEDED, leaves the delivery
    SUCCEEDED with one attempt more, and sends exactly one request, which every
    receiver that has the secret and gets it within the tolerance accepts as this
    delivery. *)
Theorem deliveries_complete w0 w pool m k wid D d ev ep :
  0 < HR_TENANT_CONCURRENCY cfg -> 0 < HR_TENANT_SLOT_TTL_SEC cfg ->
  fresh_start w0 -> rtc (pstep outside (startable cfg)) (w0, []) (w, pool) ->
  (0 < k)%nat -> (count_pending (w_db w) <= m * k)%nat ->
  unhindered wid D w d ev ep ->
  let w1 := polls cfg m k w in
  (exists job, job ∈ enqueued w1 /\ jd_deliveryId (job_data job) = D) /\
  forall job, jd_deliveryId (job_data job) = D -> (forall t, tenant_of_job job w1 = Some t -> slot_free w1 t) ->
    exists w2 rq, exec (handle_job cfg wid job) w1 = (inr RSucceeded, w2) /\
      (exists d', deliveries (w_db w2) !! D = Some d' /\ dl_status d' = SUCCEEDED /\
         dl_attemptCount d' = dl_attemptCount d + 1) /\
      requests w2 = requests w ++ [ObsHttp rq] /\
      forall arrivedAt s, D <> EmptyString -> integral (ev_payload ev) = true -> fresh_enough arrivedAt (w_now w) ->
        ec_secret ep ∈ rv_secrets s ->
        verify arrivedAt (rv_secrets s) (as_hook rq) = Accepted D (delivery_json (dl_eventId d) ev).
Proof.
  intros Hmax Httl H0 Hc Hk Hm Hun w1. pose proof (polls_polled m k w) as Hp. fold w1 in Hp.
  pose proof (polled_unhindered _ _ _ _ _ _ _ Hp Hun) as Hun1. split.
  - apply (polled_has_job cfg w0 w pool m k H0 Hc Hk Hm D d). by destruct (find_delivery_Some _ _ _ _ (un_found _ _ _ _ _ _ Hun1)).
  - intros job <- Hslot. destruct (exec_handle_job_unhindered wid job w1 d ev ep Hmax Httl Hun1 Hslot) as (w2 & He & Hd & Hr).
    eexists w2, _. split; [exact He|]. split; [exact Hd|]. split; [by rewrite Hr, (polled_requests _ _ Hp)|].
    intros arrivedAt s HD Hi Hfr Hs. apply (verify_delivered arrivedAt (rv_secrets s) _ (dl_eventId d) ev (ec_secret ep) (w_now w1)); try done.
    apply fresh_in_tolerance. destruct Hp as (f & s' & q & l & -> & _). exact Hfr.
Qed.

End completion.

(** ** A published event, before the relay's pass *)

Definition waiting_job : Job := mkJob "deliver" (mkJobData "uuid-8" (Some "uuid-1")) "dlv-uuid-8" 8.

(** The decidable part of [unhindered]. *)
Definition ready_to_go (w : World (P := always 200)) (D : string) : bool :=
  match find_delivery D (w_db w) with
  | Some (d, ev) =>
      negb (is_done d) && negb (attempt_taken D (dl_attemptCount d + 1) (w_db w)) &&
      bool_decide (is_Some (endpoints (w_db w) !! dl_endpointId d)) &&
      bool_decide (r_lookup (w_redis w) (w_now w) (keyOf (dl_endpointId d)) = None) &&
      match effective_endpoint demo_cfg w 0 (dl_endpointId d) with
      | inr (Some ep) => bool_decide (ec_status ep = ACTIVE)
      | _ => false
      end
  | None => false
  end.

Lemma always_healthy url : healthy (P := always 200) demo_cfg url.
Proof.
  split.
  - eexists. split; [reflexivity|]. cbv zeta. change (isIP _ =? 0) with true. intros n. eexists. split; [reflexivity|]. vm_compute. reflexivity.
  - intros n rq _. exists 200, "ok", 20. split; [reflexivity|]. split; [lia|]. split; [cbn; lia|]. vm_compute. reflexivity.
Qed.

Lemma ready_unhindered w D : ready_to_go w D = true -> exists d ev ep, unhindered (P := always 200) demo_cfg 0 D w d ev ep.
Proof.
  unfold ready_to_go. destruct (find_delivery D (w_db w)) as [[d ev]|] eqn:Hf; [|done].
  intros [[[[H1%negb_true_iff H2%negb_true_iff]%andb_true_iff H3%bool_decide_eq_true]%andb_true_iff
    H4%bool_decide_eq_true]%andb_true_iff H5]%andb_true_iff.
  destruct (effective_endpoint _ _ _ _) as [e|[ep|]] eqn:He; [done| |done]. apply bool_decide_eq_true in H5.
  exists d, ev, ep. split; try done; [|apply always_healthy]. exists EMPTY_CIRCUIT. split; [by right|done].
Qed.

Lemma deliveries_complete_witness (P0 := always 200) :
  exists w2, exec (handle_job demo_cfg 0 waiting_job) (polls demo_cfg 1 10 before_relay) = (inr RSucceeded, w2).
Proof.
  assert (ready_to_go before_relay "uuid-8" = true) as Hr by (vm_compute; reflexivity).
  destruct (ready_unhindered _ _ Hr) as (d & ev & ep & Hun).
  assert (count_pending (w_db before_relay) = 1%nat) as Hp by (vm_compute; reflexivity).
  assert (r_lookup (w_redis (polls demo_cfg 1 10 before_relay)) (w_now (polls demo_cfg 1 10 before_relay)) (slot_key "uuid-1") = None) as Hs
    by (vm_compute; reflexivity).
  destruct (rtc_story (outside (P := always 200)) (startable (P := always 200) demo_cfg) (take 4 life)
    (world_at 1000 empty_db 200) [] (Forall_take _ 4 _ life_startable)) as [pool Hc].
  destruct (deliveries_complete (P := always 200) demo_cfg (world_at 1000 empty_db 200) before_relay pool 1 10 0 "uuid-8" d ev ep
    ltac:(vm_compute; reflexivity) ltac:(vm_compute; reflexivity) (conj eq_refl eq_refl) Hc ltac:(lia) ltac:(rewrite Hp; lia) Hun) as [_ H].
  destruct (H waiting_job eq_refl) as (w2 & rq & He & _); [|exists w2; exact He].
  intros t Ht. injection Ht as <-. exists 0, 0. split; [vm_compute; split; [discriminate|reflexivity]|]. left. split; [reflexivity|exact Hs].
Defined.
