(* ===== verification/Boot.v ===== *)
(** * The processes: entry points and modules

    [main.ts], [relay/main.ts], [worker/main.ts] and the modules they start from.  A
    bootstrap is a function from what the process finds in its environment to the
    process that runs then, or the exception that ends it ([void bootstrap()] leaves
    a rejection unhandled, which stops Node).  NestJS builds the providers of the
    module and runs [onModuleInit] before a bootstrap goes on.  The URL parser, the
    connection to the database, sockets and BullMQ's [Worker] are arguments.  The
    processes of one deployment are configured apart; the theorem says on what they
    then agree. *)

From S2P Require Import Prelude Errors Effects Json IpAddress Base64 ToNumber RedisConnection Platform Schema Registry World Config TestPlatform.
From S2P Require Import SecretCipher Queue RateLimit DeliveryPool RelayLoop Metrics WorkerLoop.
Open Scope Z_scope.
Open Scope hook_scope.

(** ** The modules *)

(** The variables of the process, and those of the [.env] file beside it. *)
Record Environment := mkEnvironment {
  process_env : gmap string string;
  env_file : gmap string string;
}.

(** [ignoreEnvFile: process.env.NODE_ENV === 'test'] *)
Definition ignoreEnvFile (e : Environment) : bool := bool_decide (process_env e !! "NODE_ENV" = Some "test").

(** What [validate] is given: a variable of the process comes before one of the file. *)
Definition variables (e : Environment) : gmap string string :=
  process_env e ∪ (if ignoreEnvFile e then ∅ else env_file e).

(** [ConfigModule.forRoot], the same in the three modules. *)
Definition forRoot (e : Environment) : exn + Config := validateEnv (variables e).

(** [LoggerModule.forRoot({ pinoHttp })]: the transport, and the paths that are redacted. *)
Record PinoHttp := mkPinoHttp {
  pn_level : string;
  pn_transport : option string;
  pn_redact : list string;
}.

(** [process.env] itself: the configuration module copies only what the whitelisting
    [validateEnv] returns into it, and that has neither variable. *)
Definition pinoHttp (e : Environment) : PinoHttp :=
  mkPinoHttp (default "info" (process_env e !! "LOG_LEVEL"))
    (if bool_decide (process_env e !! "NODE_ENV" = Some "production") then None else Some "pino-pretty")
    ["req.headers.authorization"; "req.headers[" +:+ quoted "x-admin-key" +:+ "]"].

(** The connections that ioredis opens, by URL and options. *)
Record RedisClient := mkRedisClient {
  rc_url : string;
  rc_maxRetriesPerRequest : Z;
  rc_enableOfflineQueue : bool;
  rc_lazyConnect : bool;
  rc_connectTimeout : option Z;
}.

(** The constructor of [PublishRateLimiter]: no connection when both limits are off. *)
Definition limiter_redis (cfg : Config) : option RedisClient :=
  if has_redis cfg then Some (mkRedisClient (REDIS_URL cfg) 1 false true (Some 500)) else None.

(** The provider of [WORKER_REDIS_TOKEN]: it fails early, for breaker and limiter. *)
Definition worker_redis (cfg : Config) : RedisClient := mkRedisClient (REDIS_URL cfg) 2 false false None.

Definition DELIVERY_QUEUE : string := "delivery".

(** A [Queue] of BullMQ. *)
Record QueueClient := mkQueueClient { qc_name : string; qc_connection : ConnectionOptions }.

(** ** The processes *)

Record ApiProcess := mkApiProcess {
  ap_config : Config;
  ap_registry : Registry;
  ap_limiter : option RedisClient;
  ap_pinoHttp : PinoHttp;
  ap_port : Z;
}.

Record RelayProcess `{P : Platform} := mkRelayProcess {
  rp_config : Config;
  rp_queue : QueueClient;
  rp_registry : Registry;
  rp_loop : Loop;
}.

Arguments mkRelayProcess {P} _ _ _ _.

Record WorkerProcess `{P : Platform} := mkWorkerProcess {
  wp_config : Config;
  wp_queue : QueueClient;
  wp_consumer : QueueClient;       (** the [Worker] of BullMQ, from [start] *)
  wp_redis : RedisClient;
  wp_service : Service;
}.

Arguments mkWorkerProcess {P} _ _ _ _ _.

(** Steps of a bootstrap that may throw. *)
Definition and_then {A B} (r : exn + A) (f : A -> exn + B) : exn + B :=
  match r with inl e => inl e | inr x => f x end.

Notation "'let?' x := r 'in' q" := (and_then r (fun x => q))
  (at level 10, x pattern, r at level 100, q at level 200) : hook_scope.

Section boot.
Context `{P : Platform}.
(** [new URL], and the [TypeError] it throws *)
Context (new_URL : string -> option RedisURL) (invalid_url : string -> exn).
(** [$connect] of Prisma, [listen] of a server, and the check of the concurrency in
    the constructor of BullMQ's [Worker] *)
Context (connect : string -> exn + unit) (listen : Z -> exn + unit) (new_Worker : Z -> exn + unit).

(** The provider of [DELIVERY_QUEUE_TOKEN]. *)
Definition queue_provider (cfg : Config) : exn + QueueClient :=
  match redisConnectionFromUrl new_URL (REDIS_URL cfg) with
  | Some o => inr (mkQueueClient DELIVERY_QUEUE o)
  | None => inl (invalid_url (REDIS_URL cfg))
  end.

(** [startMetricsServer], from the [start] of the relay and the worker. *)
Definition start_metrics (cfg : Config) (c : Component) : exn + Registry :=
  if metrics_enabled (HR_METRICS_PORT cfg) then
    let? _ := listen (HR_METRICS_PORT cfg) in inr (ensureDefaultMetrics (labelComponent c registry))
  else inr registry.

(** [main.ts] with [AppModule]: the metrics belong to the API whatever
    [HR_METRICS_PORT] says. *)
Definition bootstrap_api (e : Environment) : exn + ApiProcess :=
  let r := ensureDefaultMetrics (labelComponent api_component registry) in
  let? cfg := forRoot e in
  let? _ := connect (DATABASE_URL cfg) in
  let? _ := listen (PORT cfg) in
  inr (mkApiProcess cfg r (limiter_redis cfg) (pinoHttp e) (PORT cfg)).

(** [relay/main.ts] with [RelayModule]. *)
Definition bootstrap_relay (e : Environment) : exn + RelayProcess :=
  let? cfg := forRoot e in
  let? queue := queue_provider cfg in
  let? _ := connect (DATABASE_URL cfg) in
  let? r := start_metrics cfg relay_component in
  inr (mkRelayProcess cfg queue r (RelayLoop.start idle)).

(** [worker/main.ts] with [WorkerModule]. *)
Definition bootstrap_worker (e : Environment) : exn + WorkerProcess :=
  let? cfg := forRoot e in
  let? queue := queue_provider cfg in
  let redis := worker_redis cfg in
  let? _ := connect (DATABASE_URL cfg) in
  let? _ := start_metrics cfg worker_component in
  let? consumer := queue_provider cfg in
  let? _ := new_Worker (HR_WORKER_CONCURRENCY cfg) in
  inr (mkWorkerProcess cfg queue consumer redis (WorkerLoop.start cfg boot)).

(** [SIGTERM]: the relay and the worker have called [enableShutdownHooks], the API has
    not, so that its process just ends ([None]). *)
Definition terminate_api (p : ApiProcess) : option ApiProcess := None.
Definition terminate_relay (p : RelayProcess) : option RelayProcess :=
  Some (mkRelayProcess (rp_config p) (rp_queue p) (rp_registry p) (RelayLoop.onApplicationShutdown (rp_loop p))).
Definition terminate_worker (p : WorkerProcess) : option WorkerProcess :=
  Some (mkWorkerProcess (wp_config p) (wp_queue p) (wp_consumer p) (wp_redis p)
    (WorkerLoop.onApplicationShutdown (wp_service p))).

(** ** What a process that runs has *)

Lemma and_then_inr {A B} (r : exn + A) (f : A -> exn + B) y :
  and_then r f = inr y -> exists x, r = inr x /\ f x = inr y.
Proof. destruct r as [e|x]; [done|]. by exists x. Qed.

(** An environment that is not valid stops every bootstrap with the error of
    [validateEnv]. *)
Theorem invalid_environment_stops e x :
  forRoot e = inl x -> bootstrap_api e = inl x /\ bootstrap_relay e = inl x /\ bootstrap_worker e = inl x.
Proof. intros H. unfold bootstrap_api, bootstrap_relay, bootstrap_worker. by rewrite H. Qed.

Lemma queue_provider_inv cfg q :
  queue_provider cfg = inr q ->
  exists url, new_URL (REDIS_URL cfg) = Some url /\ q = mkQueueClient DELIVERY_QUEUE (options_of url).
Proof.
  unfold queue_provider, redisConnectionFromUrl. destruct (new_URL (REDIS_URL cfg)) as [url|]; [|done].
  intros [= <-]. by exists url.
Qed.

Lemma start_metrics_inv cfg c r :
  start_metrics cfg c = inr r ->
  r = if metrics_enabled (HR_METRICS_PORT cfg) then mkRegistry true 1 (Some c) else registry.
Proof.
  unfold start_metrics. destruct (metrics_enabled _); [|by intros [= <-]].
  intros (? & _ & [= <-])%and_then_inr. done.
Qed.

(** The bootstraps, as conditions on what they need. *)
Lemma bootstrap_api_inv e p :
  bootstrap_api e = inr p <->
  exists cfg, forRoot e = inr cfg /\ connect (DATABASE_URL cfg) = inr tt /\ listen (PORT cfg) = inr tt /\
    p = mkApiProcess cfg (mkRegistry true 1 (Some api_component)) (limiter_redis cfg) (pinoHttp e) (PORT cfg).
Proof.
  unfold bootstrap_api. split.
  - intros (cfg & H1 & ([] & H2 & ([] & H3 & [= <-])%and_then_inr)%and_then_inr)%and_then_inr. by exists cfg.
  - intros (cfg & H1 & H2 & H3 & ->). by rewrite H1; cbn; rewrite H2; cbn; rewrite H3.
Qed.

Lemma bootstrap_relay_inv e p :
  bootstrap_relay e = inr p ->
  exists cfg url, forRoot e = inr cfg /\ new_URL (REDIS_URL cfg) = Some url /\ connect (DATABASE_URL cfg) = inr tt /\
    p = mkRelayProcess cfg (mkQueueClient DELIVERY_QUEUE (options_of url))
      (if metrics_enabled (HR_METRICS_PORT cfg) then mkRegistry true 1 (Some relay_component) else registry)
      (mkLoop true false []).
Proof.
  unfold bootstrap_relay.
  intros (cfg & H1 & (q & (url & H2 & ->)%queue_provider_inv & ([] & H3 & (r & ->%start_metrics_inv & [= <-])%and_then_inr)
    %and_then_inr)%and_then_inr)%and_then_inr. by exists cfg, url.
Qed.

Lemma bootstrap_worker_inv e p :
  bootstrap_worker e = inr p ->
  exists cfg url, forRoot e = inr cfg /\ new_URL (REDIS_URL cfg) = Some url /\ connect (DATABASE_URL cfg) = inr tt /\
    new_Worker (HR_WORKER_CONCURRENCY cfg) = inr tt /\
    p = mkWorkerProcess cfg (mkQueueClient DELIVERY_QUEUE (options_of url)) (mkQueueClient DELIVERY_QUEUE (options_of url))
      (worker_redis cfg) (WorkerLoop.start cfg boot).
Proof.
  unfold bootstrap_worker.
  intros (cfg & H1 & (q & (url & H2 & ->)%queue_provider_inv & ([] & H3 & (r & _ & (q2 & (url2 & H4 & ->)%queue_provider_inv &
    ([] & H5 & [= <-])%and_then_inr)%and_then_inr)%and_then_inr)%and_then_inr)%and_then_inr)%and_then_inr.
  exists cfg, url. rewrite H2 in H4. by injection H4 as <-.
Qed.

(** A string of the accepted configuration is the variable itself. *)
Lemma forRoot_strings e cfg :
  forRoot e = inr cfg ->
  variables e !! "DATABASE_URL" = Some (DATABASE_URL cfg) /\ variables e !! "HR_SECRET_KEY" = Some (HR_SECRET_KEY cfg) /\
  variables e !! "REDIS_URL" = Some (REDIS_URL cfg) /\ String.length (from_base64 (HR_SECRET_KEY cfg)) = 32%nat.
Proof.
  unfold forRoot, validateEnv. destruct (EnvSchema (variables e)) as [v|] eqn:E; [|done].
  destruct (_ =? _)%nat eqn:Hk; [|done]. intros [= <-]. apply Nat.eqb_eq in Hk. unfold EnvSchema in E.
  repeat match type of E with (_ ≫= _) = Some _ => apply bind_Some in E as (? & ? & E) end.
  apply (inj Some) in E. subst v. cbn [HR_SECRET_KEY DATABASE_URL REDIS_URL] in *.
  assert (forall name n s, string_field (variables e) name n = Some s -> variables e !! name = Some s) as Hs.
  { intros name n s (t & Ht & Hn)%bind_Some. destruct (n <=? _)%nat; [|done]. congruence. }
  split_and!; eauto.
Qed.

(** Two processes were given the same value of a variable. *)
Definition agree (name : string) (e e' : Environment) : Prop := variables e !! name = variables e' !! name.

(** C26.  The processes of a deployment, each started from its own environment, work
    together as soon as they were given the same [REDIS_URL] and [HR_SECRET_KEY]: the
    worker decrypts every secret that the API has encrypted, under a key of 32 bytes;
    the relay adds its jobs to the queue that the worker consumes and samples, on the
    same server; the worker starts as the process of [WorkerLoop.v] and the relay as the
    loop of [RelayLoop.v], so that what is proved there holds from the first step; and
    no process collects the default metrics twice or under another one's label. *)
Theorem processes_agree `{!GcmLaws P} eA eR eW api relay worker :
  bootstrap_api eA = inr api -> bootstrap_relay eR = inr relay -> bootstrap_worker eW = inr worker ->
  agree "REDIS_URL" eR eW -> agree "HR_SECRET_KEY" eA eW ->
  (forall iv secret, iv <> EmptyString -> secret <> EmptyString ->
     decrypt (wp_config worker) (seal (ap_config api) iv secret) = inr secret) /\
  String.length (cipher_key (wp_config worker)) = 32%nat /\
  rp_queue relay = wp_queue worker /\ wp_queue worker = wp_consumer worker /\
  qc_name (wp_consumer worker) = DELIVERY_QUEUE /\
  (exists url, new_URL (rc_url (wp_redis worker)) = Some url /\ co_host (qc_connection (wp_consumer worker)) = ru_hostname url) /\
  (forall counts w others, rtc (serve (wp_config worker) counts) (w, boot, others) (w, wp_service worker, others)) /\
  (forall w others, rtc (loop_step (rp_config relay)) (w, idle, others) (w, rp_loop relay, others)) /\
  Forall (fun r => rg_collected r <= 1)%nat [ap_registry api; rp_registry relay; sv_registry (wp_service worker)] /\
  rg_defaultLabels (ap_registry api) = Some api_component /\
  rg_defaultLabels (rp_registry relay) ∈ [None; Some relay_component] /\
  rg_defaultLabels (sv_registry (wp_service worker)) ∈ [None; Some worker_component].
Proof.
  intros (cA & HA & _ & _ & ->)%bootstrap_api_inv (cR & uR & HR & HuR & _ & ->)%bootstrap_relay_inv
    (cW & uW & HW & HuW & _ & _ & ->)%bootstrap_worker_inv Hredis Hsecret.
  apply forRoot_strings in HA as (_ & HsA & _ & _), HR as (_ & _ & HrR & _), HW as (_ & HsW & HrW & Hlen).
  unfold agree in *. rewrite HrR, HrW in Hredis. injection Hredis as Hredis. rewrite HsA, HsW in Hsecret. injection Hsecret as Hsecret.
  rewrite Hredis, HuW in HuR. injection HuR as <-.
  cbn [wp_config ap_config rp_config rp_queue wp_queue wp_consumer wp_redis wp_service rp_loop ap_registry rp_registry rc_url qc_name
    qc_connection worker_redis].
  split_and!; try done.
  - intros iv secret Hiv Hs. assert (seal cA iv secret = seal cW iv secret) as -> by (unfold seal, cipher_key; by rewrite Hsecret).
    by apply decrypt_seal.
  - by exists uW.
  - intros counts w others. apply rtc_once. by apply serve_start.
  - intros w others. apply rtc_once, loop_start.
  - rewrite !Forall_cons. unfold WorkerLoop.start. cbn. split_and!; [lia|..]; try (destruct (metrics_enabled _); cbn; lia). constructor.
  - destruct (metrics_enabled _); cbn; set_solver.
  - unfold WorkerLoop.start. cbn. destruct (metrics_enabled _); cbn; set_solver.
Qed.

End boot.

(** ** A deployment of three processes

    The relay and the worker open a scrape port; the relay reads part of its variables
    from a file. *)

Definition demo_redis_url : RedisURL := mkRedisURL "redis:" "" "" "cache" "6379" "".

Definition accepting (z : Z) : exn + unit := if 0 <? z then inr tt else inl (Error "out of range").

Definition api_env : Environment := mkEnvironment minimal_env ∅.
Definition relay_env : Environment := mkEnvironment {[ "HR_METRICS_PORT" := "9092" ]} minimal_env.
Definition worker_env : Environment := mkEnvironment (<["HR_METRICS_PORT" := "9091"]> minimal_env) ∅.

(** The same configuration with another scrape port. *)
Definition scraped (port : Z) : Config :=
  let c := default_config in
  mkConfig (DATABASE_URL c) (HR_ADMIN_KEY c) (HR_SECRET_KEY c) false false 3000 (REDIS_URL c) 500 10000 10 30000 14400000 8
    3 200 60 10 300000 50 60 600 port.

Definition demo_queue : QueueClient := mkQueueClient DELIVERY_QUEUE (options_of demo_redis_url).

Section demo.
#[local] Instance demo_platform : Platform := always 200.

Definition demo_api : ApiProcess :=
  mkApiProcess default_config (mkRegistry true 1 (Some api_component)) (limiter_redis default_config) (pinoHttp api_env) 3000.

Definition demo_relay : RelayProcess :=
  mkRelayProcess (scraped 9092) demo_queue (mkRegistry true 1 (Some relay_component)) (RelayLoop.start idle).

Definition demo_worker : WorkerProcess :=
  mkWorkerProcess (scraped 9091) demo_queue demo_queue (worker_redis (scraped 9091)) (WorkerLoop.start (scraped 9091) boot).

Lemma demo_api_boots : bootstrap_api (fun _ => inr tt) accepting api_env = inr demo_api.
Proof. vm_compute. reflexivity. Qed.

Lemma relay_env_valid : forRoot relay_env = inr (scraped 9092).
Proof. vm_compute. reflexivity. Qed.

Lemma worker_env_valid : forRoot worker_env = inr (scraped 9091).
Proof. vm_compute. reflexivity. Qed.

Lemma demo_relay_boots :
  bootstrap_relay (fun _ => Some demo_redis_url) (fun _ => Error "Invalid URL") (fun _ => inr tt) accepting relay_env = inr demo_relay.
Proof. unfold bootstrap_relay. rewrite relay_env_valid. reflexivity. Qed.

Lemma demo_worker_boots :
  bootstrap_worker (fun _ => Some demo_redis_url) (fun _ => Error "Invalid URL") (fun _ => inr tt) accepting accepting worker_env =
    inr demo_worker.
Proof. unfold bootstrap_worker. rewrite worker_env_valid. reflexivity. Qed.

Lemma demo_agree : agree "REDIS_URL" relay_env worker_env /\ agree "HR_SECRET_KEY" api_env worker_env.
Proof. unfold agree. split; vm_compute; reflexivity. Qed.

Lemma processes_agree_witness :
  decrypt (wp_config demo_worker) (seal (ap_config demo_api) "0123456789ab" "whsec_abc") = inr "whsec_abc" /\
  rp_queue demo_relay = wp_queue demo_worker.
Proof.
  destruct (processes_agree (P := demo_platform) (GcmLaws0 := always_gcm_laws 200) _ _ _ _ _ _ _ _ _ _ _ demo_api_boots demo_relay_boots demo_worker_boots
    (proj1 demo_agree) (proj2 demo_agree)) as (H1 & _ & H3 & _).
  split; [apply H1; discriminate|exact H3].
Defined.

End demo.

(** Under [NODE_ENV=test] the file does not count. *)
Example test_ignores_file :
  forRoot (mkEnvironment {[ "NODE_ENV" := "test" ]} minimal_env) = inl (Error "환경변수 검증 실패").
Proof. vm_compute. reflexivity. Qed.

(** The schema takes any integer: no bound on the concurrency is checked before BullMQ
    sees it. *)
Example concurrency_not_checked :
  HR_WORKER_CONCURRENCY <$> (match forRoot (mkEnvironment (<["HR_WORKER_CONCURRENCY" := "0"]> minimal_env) ∅) with
                             | inr cfg => Some cfg | inl _ => None end) = Some 0.
Proof. vm_compute. reflexivity. Qed.
