(* ===== verification/Bench.v ===== *)
(** * The load scripts: [bench/k6]

    One iteration of each k6 script, as a program over a virtual user: the deployment
    under load, what the script has drawn, a log of its requests and the values it has
    given to k6's metrics and checks.  k6 itself is an argument: the network (a failed
    request is an answer with status 0), the clock, what happens during a [sleep], the
    random sources and the selector of [Response.json].  The theorems bound what an
    iteration does and say what a sample of the delivery metrics shows of the database;
    one example shows what it does not. *)

From S2P Require Import Receiver.
From S2P Require Import Prelude JsNumber ToNumber Errors Effects Json IpAddress Platform Schema World Config TestPlatform.
From S2P Require Import Processor RateLimit Events Deliveries Endpoints Tenancy Dtos Api Wire Answers Console Onboarding.
Open Scope Z_scope.
Open Scope hook_scope.

(** ** The environment: [__ENV] *)

Definition Env := string -> option string.

(** [(__ENV.BASE || 'http://localhost:3000').replace(/\/$/, '')] *)
Fixpoint without_trailing_slash (s : string) : string :=
  match s with
  | EmptyString | String "/" EmptyString => EmptyString
  | String c s => String c (without_trailing_slash s)
  end.

Definition base_url (env : Env) : string :=
  without_trailing_slash (default "http://localhost:3000" (given (env "BASE"))).

(** [`Bearer ${value}`] *)
Definition bearer_value (key : option string) : string := "Bearer " +:+ default "undefined" key.

(** ** [options] *)

(** A scenario of a constant arrival rate. *)
Record Arrival := mkArrival {
  ar_rate : number;
  ar_timeUnit : string;
  ar_duration : string;
  ar_preAllocatedVUs : Z;
  ar_maxVUs : Z;
}.

(** [Number(__ENV.RPS || rps)] and [__ENV.DURATION || duration] *)
Definition arrival (env : Env) (rps duration : string) (preAllocatedVUs maxVUs : Z) : Arrival :=
  mkArrival (ToNumber.Number (default rps (given (env "RPS")))) "1s" (default duration (given (env "DURATION"))) preAllocatedVUs maxVUs.

Definition publish_scenario (env : Env) : Arrival := arrival env "100" "30s" 50 200.
Definition neighbor_scenario (env : Env) : Arrival := arrival env "20" "20s" 30 80.

(** The thresholds of [publish.js], by metric. *)
Definition publish_thresholds : list (string * list string) :=
  [("publish_ok", ["rate>0.95"]); ("http_req_duration", ["p(95)<500"])].

(** [vus] and [duration] of [dlq-redeliver.js] *)
Definition redeliver_options (env : Env) : Z * string := (5, default "15s" (given (env "DURATION"))).

(** ** A virtual user *)

(** [r.body] is null when there is none; the duration is in ms. *)
Record K6Response := mkK6 {
  k6_status : Z;
  k6_body : option string;
  k6_duration : Z;
}.

(** The log is what k6's own metrics see, with the deployment at the answer. *)
Record Vu (X : Type) := mkVu {
  vu_net : X;
  vu_drawn : nat;
  vu_log : list (FetchRequest * K6Response * X);
  vu_samples : list (string * Z);
  vu_checks : list (string * bool);
}.
Arguments mkVu {X}.
Arguments vu_net {X}.
Arguments vu_drawn {X}.
Arguments vu_log {X}.
Arguments vu_samples {X}.
Arguments vu_checks {X}.

Section k6.
Context {X : Type}.
Variable net : FetchRequest -> X -> K6Response * X.
Variable now : X -> Z.
(** What the world does while a script sleeps, for so many ms. *)
Variable meanwhile : Z -> X -> X.
(** [uuidv4()] and [Math.random() * 2^53], by draw *)
Context (uuid : nat -> string) (random : nat -> Z).
(** [res.json(selector)]: [None] for undefined. *)
Variable select : string -> string -> option json.
Variable env : Env.

Notation script := (prog (Vu X)).
Notation BASE := (base_url env).

(** *** What the scripts use of k6 *)

Definition http (rq : FetchRequest) : script K6Response :=
  call Local (fun s => let '(res, x) := net rq (vu_net s) in
    (inr res, mkVu x (vu_drawn s) (vu_log s ++ [(rq, res, x)]) (vu_samples s) (vu_checks s))).

Definition sleep (ms : Z) : script unit :=
  update Local (fun s => mkVu (meanwhile ms (vu_net s)) (vu_drawn s) (vu_log s) (vu_samples s) (vu_checks s)).

Definition date_now : script Z := query Local (fun s => now (vu_net s)).

(** [metric.add(value)] *)
Definition add (metric : string) (value : Z) : script unit :=
  update Local (fun s => mkVu (vu_net s) (vu_drawn s) (vu_log s) (vu_samples s ++ [(metric, value)]) (vu_checks s)).

Definition check (name : string) (passed : bool) : script unit :=
  update Local (fun s => mkVu (vu_net s) (vu_drawn s) (vu_log s) (vu_samples s) (vu_checks s ++ [(name, passed)])).

Definition draw {A} (source : nat -> A) : script A :=
  call Local (fun s => (inr (source (vu_drawn s)), mkVu (vu_net s) (S (vu_drawn s)) (vu_log s) (vu_samples s) (vu_checks s))).

(** [res.json()] throws on a body that is not JSON. *)
Definition json_of (res : K6Response) : script json :=
  match k6_body res with
  | Some text => match parse text with Some j => Ret j | None => Throw (EJs "GoError" None "cannot parse json" None) end
  | None => Throw (EJs "GoError" None "the body is null" None)
  end.

(** [res.json(name)] *)
Definition json_at (res : K6Response) (name : string) : script (option json) :=
  match k6_body res with
  | Some text => Ret (select text name)
  | None => Throw (EJs "GoError" None "the body is null" None)
  end.

(** [value.name]: null has no properties. *)
Definition js_member (name : string) (value : option json) : script (option json) :=
  match value with
  | None | Some JNull => Throw (EJs "TypeError" None "Cannot read property" None)
  | Some j => Ret (field name j)
  end.

(** [value[0]] of a value that is not null *)
Definition first_item (value : json) : option json :=
  match value with
  | JArr l => hd_error l
  | JStr (String c _) => Some (JStr (String c EmptyString))
  | j => field "0" j
  end.

Definition authorized (key : option string) : Headers := headers_set "Authorization" (bearer_value key) ∅.

Definition authorized_get (url : string) (key : option string) : FetchRequest := mkFetch url (Some "GET") (authorized key) None.

(** The publication of both scripts that publish: an id in the payload. *)
Definition event_request (idName : string) (key : option string) (id idempotencyKey : string) : FetchRequest :=
  mkFetch (BASE +:+ "/events") (Some "POST")
    (headers_set "Idempotency-Key" idempotencyKey (headers_set "Content-Type" "application/json" (authorized key)))
    (Some (stringify (JObj [("type", JStr "order.created"); ("payload", JObj [(idName, JStr id)])]))).

Definition publish_event (idName : string) (key : option string) : script K6Response :=
  let* id := draw uuid in
  let* idempotencyKey := draw uuid in
  http (event_request idName key id idempotencyKey).

(** *** [publish.js] *)

Definition publish_iteration : script unit :=
  let* res := publish_event "orderId" (env "KEY") in
  add "publish_ms" (k6_duration res) ;;
  add "publish_ok" (if k6_status res =? 202 then 1 else 0) ;;
  check "202 accepted" (k6_status res =? 202) ;;
  sleep 1.

(** *** [noisy-neighbor.js] *)

Definition poll_request (key : option string) (eventId : option json) : FetchRequest :=
  authorized_get (BASE +:+ "/events/" +:+ show eventId +:+ "/deliveries") key.

(** [body.deliveries && body.deliveries[0] && body.deliveries[0].status] *)
Definition first_status (body : json) : script (option json) :=
  let* deliveries := js_member "deliveries" (Some body) in
  match deliveries with
  | Some l =>
      if truthy (Some l) then
        let first := first_item l in
        if truthy first then js_member "status" first else Ret first
      else Ret (Some l)
  | None => Ret None
  end.

(** What one round finds: undefined unless the answer is 200. *)
Definition poll_status (res : K6Response) : script (option json) :=
  if k6_status res =? 200 then let* body := json_of res in first_status body else Ret None.

(** [st === 'SUCCEEDED'] *)
Definition is_succeeded (st : option json) : bool :=
  match st with Some (JStr s) => String.eqb s "SUCCEEDED" | _ => false end.

(** The loop, with the rounds left. *)
Fixpoint polling (rounds : nat) (started : Z) (key : option string) (eventId : option json) (trend : string) : script unit :=
  match rounds with
  | O => Ret tt
  | S rounds =>
      let* res := http (poll_request key eventId) in
      let* st := poll_status res in
      if is_succeeded st then
        let* ended := date_now in add trend (ended - started)
      else sleep 200 ;; polling rounds started key eventId trend
  end.

Definition waitSucceeded (key : option string) (eventId : option json) (trend : string) : script unit :=
  let* started := date_now in polling 40 started key eventId trend.

Definition wait_for (published : K6Response) (key : option string) (trend : string) : script unit :=
  if k6_status published =? 202 then
    let* eventId := json_at published "eventId" in waitSucceeded key eventId trend
  else Ret tt.

Definition neighbor_iteration : script unit :=
  let* a := publish_event "id" (env "KEY_A") in
  let* b := publish_event "id" (env "KEY_B") in
  check "A 202" (k6_status a =? 202) ;;
  check "B 202" (k6_status b =? 202) ;;
  wait_for a (env "KEY_A") "tenant_a_delivery_ms" ;;
  wait_for b (env "KEY_B") "tenant_b_delivery_ms".

(** *** [dlq-redeliver.js] *)

(** [rows[Math.floor(Math.random() * rows.length)]] *)
Definition row_at (rows : list json) (k : Z) : option json :=
  match floor_random_mul k (Fin (Z.of_nat (length rows))) with
  | Fin i => if i <? 0 then None else rows !! Z.to_nat i
  | _ => None
  end.

Definition redeliver_request (key : option string) (id : option json) : FetchRequest :=
  mkFetch (BASE +:+ "/deliveries/" +:+ show id +:+ "/redeliver") (Some "POST") (authorized key) None.

(** A [deliveries] that is a string or an object of its own, which the API never
    sends, is not followed. *)
Definition redeliver_iteration : script unit :=
  let* list := http (authorized_get (BASE +:+ "/deliveries?status=DEAD") (env "KEY")) in
  if negb (k6_status list =? 200) then Ret tt else
  let* body := json_of list in
  let* deliveries := js_member "deliveries" (Some body) in
  match (if truthy deliveries then deliveries else Some (JArr [])) with
  | Some (JArr []) => Ret tt
  | Some (JArr rows) =>
      let* k := draw random in
      let* id := js_member "deliveryId" (row_at rows k) in
      let* res := http (redeliver_request (env "KEY") id) in
      let redelivered := (k6_status res =? 201) || (k6_status res =? 200) in
      check "redeliver 201/200" redelivered ;;
      if redelivered then add "redelivered" 1 else Ret tt
  | _ => Throw (EJs "TypeError" None "not an array of rows" None)
  end.

End k6.

(** ** In front of the API *)

Section bench.
Context `{P : Platform}.
Variable cfg : Config.
Context (legacyDate : json -> option Z) (uuid_ok : string -> bool).
Context (is_url : string -> bool) (dto_message : json -> list string).
Context (decode not_found bad_json : string -> string) (reason : Z -> string).
Variable exposition : exn + string.
Variable elsewhere : FetchRequest -> World -> K6Response * World.
Variable meanwhile : Z -> World -> World.
Variable uuid : nat -> string.
Variable select : string -> string -> option json.
Variable env : Env.

Notation server := (api_server cfg legacyDate uuid_ok is_url dto_message decode not_found bad_json reason exposition).
Notation BASE := (base_url env).

(** The API at the script's base URL; no answer is a status of 0. *)
Definition bench_net (rq : FetchRequest) (w : World) : K6Response * World :=
  match after_prefix BASE (fr_url rq) with
  | Some path =>
      let '(r, w') := exec (server (to_http path rq)) w in
      (match r with
       | inr res => mkK6 (rs_status res) (Some (rs_text res)) (w_now w' - w_now w)
       | inl _ => mkK6 0 None (w_now w' - w_now w)
       end, w')
  | None => elsewhere rq w
  end.

(** The members of a printed object are selected by name. *)
Definition selects : Prop :=
  forall l name, integral (JObj l) = true -> select (stringify (JObj l)) name = field name (JObj l).

(** The ids of events are written into paths as they are. *)
Definition plain_ids : Prop := forall i, plain (randomUUID i) = true /\ decode (randomUUID i) = randomUUID i.

Lemma after_prefix_app p s : after_prefix p (p +:+ s) = Some s.
Proof. induction p as [|c p IH]; [done|]. change (String c p +:+ s) with (String c (p +:+ s)). cbn. by rewrite Ascii.eqb_refl. Qed.

Lemma exec_bench_net path rq w :
  is_head (to_http path rq) = false -> fr_url rq = BASE +:+ path ->
  exists res w', exec (server (to_http path rq)) w = (inr res, w') /\ proper decode reason exposition (to_http path rq) res /\
    bench_net rq w = (mkK6 (rs_status res) (Some (rs_text res)) (w_now w' - w_now w), w').
Proof.
  intros Hh Hu. destruct (server_proper cfg legacyDate uuid_ok is_url dto_message decode not_found bad_json reason exposition
    (to_http path rq) w Hh) as (res & w' & Hx & Hp).
  exists res, w'. split; [exact Hx|]. split; [exact Hp|]. unfold bench_net. by rewrite Hu, after_prefix_app, Hx.
Qed.

Lemma refused_not_ok e : refused e -> rs_ok (http_response reason (inl e)) = true -> False.
Proof.
  intros He%refused_status Hok. unfold rs_ok in Hok. cbn [http_response rs_status] in Hok.
  apply andb_prop in Hok as [_ H2]. apply Z.leb_le in H2. lia.
Qed.

(** What a successful call of a tenant has done. *)
Lemma exec_call_inv rq c w res w' :
  dispatch decode rq = CallRoute c -> is_head rq = false -> exec (server rq) w = (inr res, w') -> rs_ok res = true ->
  exists t plan a w1 tr, guard_result (hq_headers rq !! "authorization") w = inr (t, plan) /\
    exec (handle cfg legacyDate uuid_ok is_url dto_message t plan c) w = (inr a, w1) /\ w' = traced tr w1 /\
    fits c a = true /\ res = http_response reason (inr (success_status c, a)).
Proof.
  intros Hd Hh Hx Hok. unfold api_server, serve_route in Hx. rewrite Hd, Hh, !exec_bind in Hx.
  assert (service_faults (fun _ => NoFault)) as Hs by (intros n e [H|H]; discriminate H).
  pose proof (yields_run _ _ _ _ 0 w Hs (answers_tenant_route cfg legacyDate uuid_ok is_url dto_message
    decode not_found bad_json reason false (hq_headers rq !! "authorization") c)) as Ha.
  rewrite (run_no_fault 0 _ w) in Ha. unfold tenant_route, respond in Ha, Hx. rewrite exec_catch, !exec_bind in Ha, Hx.
  destruct (exec_canActivate (hq_headers rq !! "authorization") w) as (w2 & E & _). rewrite E in Ha, Hx.
  destruct (guard_result (hq_headers rq !! "authorization") w) as [e|[t plan]] eqn:Eg.
  { cbn -[http_response GlobalExceptionFilter_catch] in Ha, Hx. injection Hx as <- _. by eapply refused_not_ok in Hok. }
  rewrite (exec_guard _ _ _ _ Eg) in E. injection E as <-. cbn [fst snd] in Ha, Hx.
  destruct (exec (handle cfg legacyDate uuid_ok is_url dto_message t plan c) w) as [r w1] eqn:Ex.
  destruct (exec_intercept (call_path c) (method_label false c) (call_route c) (success_status c) _ _ _ _ Ex) as [tr Et].
  rewrite Et in Ha, Hx. destruct r as [e|a]; cbn -[http_response GlobalExceptionFilter_catch] in Ha, Hx; injection Hx as <- <-.
  { by eapply refused_not_ok in Hok. }
  destruct Ha as [_ Ha]. by exists t, plan, a, w1, tr.
Qed.

(** The event is of the key's tenant and its first delivery has succeeded. *)
Definition succeeded_in (key : option string) (id : string) (w : World) : Prop :=
  exists t plan ev d rest, guard_result (Some (bearer_value key)) w = inr (t, plan) /\
    find_event t id (w_db w) = Some ev /\ event_deliveries_view id (w_db w) = d :: rest /\ ed_status d = SUCCEEDED.

Lemma poll_dispatch key id : plain id = true -> decode id = id -> id <> EmptyString ->
  dispatch decode (to_http ("/events/" +:+ id +:+ "/deliveries") (poll_request env key (Some (JStr id)))) =
    CallRoute (GetEventDeliveries id).
Proof.
  intros Hp Hd Hne. unfold dispatch. change (json_body _) with (Read (JObj [])).
  change (String.eqb (hq_method _) "OPTIONS") with false. cbn iota.
  change (hq_url _) with ("/events/" +:+ id +:+ "/deliveries").
  rewrite (with_id_url (fun _ => id) (fun _ => Hp) "/events/" id "/deliveries") by done.
  change (split_on "/" ("/events/" +:+ id +:+ "/deliveries"))
    with (split_on "/" (String "/" ("events" +:+ String "/" (id +:+ String "/" "deliveries")))).
  rewrite (proj2 (split_path "events" id "deliveries" eq_refl Hp eq_refl)).
  change (drop_slash ["events"; id; "deliveries"]) with ["events"; id; "deliveries"].
  unfold route_of. assert (existsb (String.eqb EmptyString) ["events"; id; "deliveries"] = false) as -> by (by destruct id).
  cbn. by rewrite Hd.
Qed.

Definition event_body (name id : string) : list (string * json) :=
  [("type", JStr "order.created"); ("payload", JObj [(name, JStr id)])].

Lemma event_dispatch name key id ik :
  Z.of_nat (String.length (stringify (JObj (event_body name id)))) <= BODY_LIMIT ->
  dispatch decode (to_http "/events" (event_request env name key id ik)) =
    CallRoute (PostEvent (Some ik) (JObj (event_body name id))).
Proof.
  intros Hl. unfold dispatch, to_http, event_request. cbn [fr_headers fr_body fr_method].
  rewrite (json_body_object _ _ _ (event_body name id)); [|done|by apply lookup_insert_ne_Some || done|exact Hl].
  cbn. done.
Qed.

Lemma event_too_large name key id ik :
  BODY_LIMIT < Z.of_nat (String.length (stringify (JObj (event_body name id)))) ->
  dispatch decode (to_http "/events" (event_request env name key id ik)) = BodyTooLarge.
Proof.
  intros Hl. unfold dispatch, json_body, to_http, event_request. cbn [fr_headers fr_body fr_method hq_headers hq_body hq_method].
  fold (event_body name id). change (default "GET" (Some "POST")) with "POST". cbn [String.eqb Ascii.eqb Bool.eqb].
  destruct (stringify (JObj (event_body name id))) as [|c text] eqn:E; [discriminate E|].
  assert (forall h : Headers, headers_set "Idempotency-Key" ik (headers_set "Content-Type" "application/json" h) !! "content-type" =
    Some "application/json") as -> by (intros h; etrans; [by apply lookup_insert_ne|apply lookup_insert_eq]).
  change (String.eqb (media_type "application/json") "application/json") with true. cbn iota.
  by rewrite (proj2 (Z.ltb_lt _ _) Hl).
Qed.

(** No route, or a refused body: no success. *)
Lemma unanswered_not_ok rq res :
  dispatch decode rq = NoRoute \/ dispatch decode rq = BodyTooLarge ->
  proper decode reason exposition rq res -> rs_ok res = true -> False.
Proof. intros Hd Hp Hok. pose proof (proper_ok _ _ _ _ _ Hp Hok) as H. by destruct Hd as [E|E]; rewrite E in H. Qed.

Lemma poll_authorization key id path :
  hq_headers (to_http path (poll_request env key id)) !! "authorization" = Some (bearer_value key).
Proof. apply lookup_insert_eq. Qed.

Lemma event_authorization name key id ik path :
  hq_headers (to_http path (event_request env name key id ik)) !! "authorization" = Some (bearer_value key).
Proof.
  etrans; [by apply lookup_insert_ne|]. etrans; [by apply lookup_insert_ne|]. apply lookup_insert_eq.
Qed.

(** *** A round *)

Lemma first_status_deliveries {X} id type at_ l (s : Vu X) :
  exec (first_status (answer_json (EventDeliveries id type at_ l))) s =
    (inr (match l with d :: _ => Some (JStr (status_text (ed_status d))) | [] => None end), s).
Proof. by destruct l as [|d l]. Qed.

Lemma exec_getDeliveries_inv t plan id a w w1 :
  exec (handle cfg legacyDate uuid_ok is_url dto_message t plan (GetEventDeliveries id)) w = (inr a, w1) ->
  w1 = w /\ exists ev, find_event t id (w_db w) = Some ev /\
    a = EventDeliveries id (ev_type ev) (ev_createdAt ev) (event_deliveries_view id (w_db w)).
Proof.
  cbn [handle]. unfold events_deliveries, uuid_param, getDeliveries. destruct (uuid_ok id); [|done].
  cbn [bind]. rewrite !exec_bind, exec_db_read. destruct (find_event t id (w_db w)) as [ev|]; [|done].
  rewrite exec_bind, exec_db_read. cbn [exec fst snd]. intros [= <- <-]. split; [done|]. by exists ev.
Qed.

Lemma poll_round key id w : plain id = true -> decode id = id ->
  exists st, (forall s : Vu World, exec (poll_status (bench_net (poll_request env key (Some (JStr id))) w).1) s = (inr st, s)) /\
    (is_succeeded st = true -> succeeded_in key id (bench_net (poll_request env key (Some (JStr id))) w).2).
Proof.
  intros Hp Hd. destruct (exec_bench_net ("/events/" +:+ id +:+ "/deliveries") (poll_request env key (Some (JStr id))) w eq_refl eq_refl)
    as (res & w' & Hx & Hpr & ->). cbn [fst snd]. unfold poll_status. cbn [k6_status].
  destruct (Z.eqb_spec (rs_status res) 200) as [Hs|Hs]; [|by exists None].
  assert (rs_ok res = true) as Hok by (unfold rs_ok; by rewrite Hs).
  destruct (decide (id = EmptyString)) as [->|Hne].
  { exfalso. refine (unanswered_not_ok _ _ _ Hpr Hok). by left. }
  destruct (exec_call_inv _ _ _ _ _ (poll_dispatch key id Hp Hd Hne) eq_refl Hx Hok) as (t & plan & a & w1 & tr & Hg & Ha & -> & _ & ->).
  rewrite poll_authorization in Hg. apply exec_getDeliveries_inv in Ha as (-> & ev & Hev & ->).
  unfold json_of. cbn [k6_body http_response rs_text]. rewrite parse_stringify by apply answer_integral. cbn [bind].
  eexists. split; [intros s; apply first_status_deliveries|].
  destruct (event_deliveries_view id (w_db w)) as [|d rest] eqn:El; [done|]. intros Hst.
  exists t, plan, ev, d, rest. split_and!; [done..|]. by destruct (ed_status d).
Qed.

(** *** A publication *)

Lemma typed_event_id t b ik : typed (fun r => exists i, pr_eventId r = randomUUID i) (publish t b ik).
Proof.
  unfold publish. cbv zeta. destruct (_ <? _); [cbn; lia|]. apply typed_catch.
  - apply typed_transaction; [apply private_publish_body|]. intros w r. unfold publish_body, event_create, sbind, suuid, sread.
    destruct (event_insert _ _ _ _ _ _) as [[e|[]] w1]; [done|]. cbn. destruct (number_deliveries _ _) as [[e|ds] w2]; [done|].
    destruct ds; [intros [= <-]; by eexists|]. destruct (delivery_createMany _ _ _) as [[e|[]] w3]; [done|].
    intros [= <-]. by eexists.
  - intros e He. destruct (is_unique_violation e); [|exact He].
    eapply typed_bind; [apply typed_db_read|]. intros [id|] _; cbn; [lia|exact He].
Qed.

Lemma exec_publish_inv t plan ik body a w w1 :
  exec (handle cfg legacyDate uuid_ok is_url dto_message t plan (PostEvent ik body)) w = (inr a, w1) ->
  exists r i ev, a = Published r /\ pr_eventId r = randomUUID i /\ find_event t (pr_eventId r) (w_db w1) = Some ev.
Proof.
  cbn [handle]. unfold events_publish, controller_publish, dto. destruct (read_PublishEventDto body) as [d|]; [|done].
  cbn [bind]. destruct (key_rejected ik); [done|]. rewrite !exec_bind.
  destruct (exec (consume cfg t plan) w) as [[e|[]] w2]; [done|]. rewrite exec_bind.
  assert (service_faults (fun _ => NoFault)) as Hs by (intros n e [H|H]; discriminate H).
  pose proof (run_publish (fun _ => NoFault) 0 t d (default EmptyString ik) w2) as Hc.
  pose proof (yields_run _ _ _ _ 0 w2 Hs (typed_event_id t d (default EmptyString ik))) as Hi.
  rewrite <- (run_no_fault 0 (publish t d (default EmptyString ik)) w2).
  destruct (run _ _ _ _) as [[[e|r] w3] n3]; cbn [fst snd] in *; [done|]. rewrite exec_bind, exec_inc.
  cbn [exec]. intros [= <- <-]. destruct Hi as [i Hi].
  destruct Hc as (_ & _ & Hc). destruct (Hc r eq_refl) as (_ & _ & _ & _ & _ & _ & Hd).
  eexists r, i, _. split; [done|]. split; [exact Hi|]. unfold find_event. cbn [w_db observe]. rewrite Hd, published_db_events, lookup_insert_eq.
  cbn. by rewrite bool_decide_eq_true_2.
Qed.

(** *** What an iteration leaves *)

Notation vu := (Vu World).
Notation entry := (FetchRequest * K6Response * World)%type.

(** From one state of the script to a later one: requests, samples and checks are added. *)
Definition grown (log : list entry) (l : list (string * Z)) (cs : list (string * bool)) (s s' : vu) : Prop :=
  vu_log s' = vu_log s ++ log /\ vu_samples s' = vu_samples s ++ l /\ vu_checks s' = vu_checks s ++ cs.

Lemma grown_trans log1 l1 cs1 log2 l2 cs2 s1 s2 s3 :
  grown log1 l1 cs1 s1 s2 -> grown log2 l2 cs2 s2 s3 -> grown (log1 ++ log2) (l1 ++ l2) (cs1 ++ cs2) s1 s3.
Proof. intros (H1 & H2 & H3) (H4 & H5 & H6). unfold grown. by rewrite H4, H5, H6, H1, H2, H3, !app_assoc. Qed.

(** The event was accepted for the key in one of the requests. *)
Definition published (key : option string) (id : string) (log : list entry) : Prop :=
  exists payloadId ik res w, (event_request env "id" key payloadId ik, res, w) ∈ log /\ k6_status res = 202 /\
    is_Some (events (w_db w) !! id).

(** What a wait adds to its metric, from the first to the last request of [log]: nothing,
    or the time until a poll found the event's first delivery SUCCEEDED, in the state
    [seen]. *)
Inductive sampled (trend : string) (key : option string) (started : Z) (log : list entry) :
    list (string * Z) -> option World -> Prop :=
| sampled_none : sampled trend key started log [] None
| sampled_one id res w :
    published key id log -> (poll_request env key (Some (JStr id)), res, w) ∈ log -> succeeded_in key id w ->
    sampled trend key started log [(trend, w_now w - started)] (Some w).

Lemma sampled_more trend key started log log' l seen :
  (forall e, e ∈ log -> e ∈ log') -> sampled trend key started log l seen -> sampled trend key started log' l seen.
Proof.
  intros Hl [|id res w (p & ik & r & w0 & Hin & H1 & H2) H3 H4]; [constructor|].
  apply sampled_one with id res; [|by apply Hl|done]. exists p, ik, r, w0. split; [by apply Hl|done].
Qed.

Lemma exec_http rq (s : vu) :
  exec (http bench_net rq) s =
    (inr (bench_net rq (vu_net s)).1, mkVu (bench_net rq (vu_net s)).2 (vu_drawn s)
      (vu_log s ++ [(rq, (bench_net rq (vu_net s)).1, (bench_net rq (vu_net s)).2)]) (vu_samples s) (vu_checks s)).
Proof. unfold http. rewrite exec_call. by destruct (bench_net rq (vu_net s)). Qed.

Lemma exec_polling n started key id trend published_log (s : vu) :
  plain id = true -> decode id = id -> published key id published_log ->
  exists log l seen s',
    exec (polling bench_net w_now meanwhile env n started key (Some (JStr id)) trend) s = (inr tt, s') /\
    grown log l [] s s' /\ (length log <= n)%nat /\ sampled trend key started (published_log ++ log) l seen /\
    forall w, seen = Some w -> vu_net s' = w.
Proof.
  intros Hp Hd Hpub. revert s. induction n as [|n IH]; intros s.
  - exists [], [], None, s. cbn. unfold grown. rewrite !app_nil_r. split_and!; [done..|constructor|done].
  - cbn [polling]. rewrite exec_bind, exec_http.
    destruct (poll_round key id (vu_net s) Hp Hd) as (st & Hst & Hdl).
    destruct (bench_net (poll_request env key (Some (JStr id))) (vu_net s)) as [res w] eqn:En. cbn [fst snd] in *.
    rewrite exec_bind, Hst. destruct (is_succeeded st) eqn:Es.
    + unfold date_now, add. autorewrite with exec. cbn [vu_net]. eexists [_], [_], (Some w), _. split; [reflexivity|].
      split; [unfold grown; cbn; by rewrite app_nil_r|]. split; [cbn; lia|]. split; [|by intros ? [= <-]].
      apply sampled_one with id res; [|apply elem_of_app; right; by left|by apply Hdl].
      destruct Hpub as (p & ik & r & w0 & Hin & H). exists p, ik, r, w0. split; [by apply elem_of_app; left|done].
    + rewrite exec_bind. unfold sleep. rewrite exec_update. cbn [vu_net vu_drawn vu_log vu_samples vu_checks].
      match goal with |- context [exec _ ?s1] => destruct (IH s1) as (log & l & seen & s' & Hx & Hg & Hn & Hs & Hw) end.
      exists ((poll_request env key (Some (JStr id)), res, w) :: log), l, seen, s'. split; [exact Hx|].
      split; [|split; [cbn; lia|split; [|exact Hw]]].
      * destruct Hg as (H1 & H2 & H3). cbn in H1, H2, H3. unfold grown. rewrite H1, H2, H3, <- app_assoc. done.
      * eapply sampled_more; [|exact Hs]. intros e. rewrite !elem_of_app, elem_of_cons. tauto.
Qed.

Hypothesis Hselect : selects.
Hypothesis Hids : plain_ids.

Lemma exec_publish_event key (s : vu) :
  exists res s' log, exec (publish_event bench_net uuid env "id" key) s = (inr res, s') /\ grown log [] [] s s' /\ length log = 1%nat /\
    (k6_status res = 202 -> exists id, published key id log /\ plain id = true /\ decode id = id /\
       forall s1 : vu, exec (json_at select res "eventId") s1 = (inr (Some (JStr id)), s1)).
Proof.
  unfold publish_event, draw. rewrite exec_bind, exec_call. cbn [vu_net vu_drawn vu_log vu_samples vu_checks].
  rewrite exec_bind, exec_call. cbn [vu_net vu_drawn vu_log vu_samples vu_checks]. rewrite exec_http.
  cbn [vu_net vu_drawn vu_log vu_samples vu_checks].
  set (rq := event_request env "id" key _ _).
  destruct (exec_bench_net "/events" rq (vu_net s) eq_refl eq_refl) as (res & w' & Hx & Hpr & ->). cbn [fst snd].
  eexists _, _, [_]. split; [reflexivity|]. split; [unfold grown; cbn; by rewrite !app_nil_r|]. split; [done|].
  cbn [k6_status]. intros Hs. assert (rs_ok res = true) as Hok by (unfold rs_ok; by rewrite Hs).
  destruct (Z.le_gt_cases (Z.of_nat (String.length (stringify (JObj (event_body "id" (uuid (vu_drawn s))))))) BODY_LIMIT) as [Hl|Hl].
  2:{ exfalso. refine (unanswered_not_ok _ _ _ Hpr Hok). right. by apply event_too_large. }
  destruct (exec_call_inv _ _ _ _ _ (event_dispatch "id" key _ _ Hl) eq_refl Hx Hok) as (t & plan & a & w1 & tr & Hg & Ha & -> & _ & ->).
  rewrite event_authorization in Hg. apply exec_publish_inv in Ha as (r & i & ev & -> & Hi & Hev).
  exists (pr_eventId r). split; [|rewrite Hi; split; [apply Hids|split; [apply Hids|]]].
  - eexists _, _, _, _. split; [by left|]. split; [exact Hs|]. cbn [w_db traced].
    unfold find_event in Hev. destruct (events (w_db w1) !! pr_eventId r); [by eexists|done].
  - intros s1. unfold json_at. cbn [k6_body http_response rs_text answer_json]. rewrite Hselect by exact (answer_integral (Published r)).
    cbn. by rewrite Hi.
Qed.

Lemma exec_wait_for res key trend published_log (s : vu) :
  (k6_status res = 202 -> exists id, published key id published_log /\ plain id = true /\ decode id = id /\
     forall s1 : vu, exec (json_at select res "eventId") s1 = (inr (Some (JStr id)), s1)) ->
  exists log l seen s', exec (wait_for bench_net w_now meanwhile select env res key trend) s = (inr tt, s') /\
    grown log l [] s s' /\ (length log <= 40)%nat /\ sampled trend key (w_now (vu_net s)) (published_log ++ log) l seen /\
    forall w, seen = Some w -> vu_net s' = w.
Proof.
  intros Hres. unfold wait_for. destruct (Z.eqb_spec (k6_status res) 202) as [Hs|_].
  - destruct (Hres Hs) as (id & Hpub & Hp & Hd & Hj). rewrite exec_bind, Hj. unfold waitSucceeded, date_now.
    rewrite exec_bind, exec_query. by apply exec_polling.
  - exists [], [], None, s. unfold grown. rewrite !app_nil_r. split_and!; [done..|cbn; lia|constructor|done].
Qed.

(** *** A redelivery *)

Lemma redeliver_dispatch key id : plain id = true -> decode id = id -> id <> EmptyString ->
  dispatch decode (to_http ("/deliveries/" +:+ id +:+ "/redeliver") (redeliver_request env key (Some (JStr id)))) =
    CallRoute (PostRedeliver id).
Proof.
  intros Hp Hd Hne. unfold dispatch. change (json_body _) with (Read (JObj [])).
  change (String.eqb (hq_method _) "OPTIONS") with false. cbn iota.
  change (hq_url _) with ("/deliveries/" +:+ id +:+ "/redeliver").
  rewrite (with_id_url (fun _ => id) (fun _ => Hp) "/deliveries/" id "/redeliver") by done.
  change (split_on "/" ("/deliveries/" +:+ id +:+ "/redeliver"))
    with (split_on "/" (String "/" ("deliveries" +:+ String "/" (id +:+ String "/" "redeliver")))).
  rewrite (proj2 (split_path "deliveries" id "redeliver" eq_refl Hp eq_refl)).
  change (drop_slash ["deliveries"; id; "redeliver"]) with ["deliveries"; id; "redeliver"].
  unfold route_of. assert (existsb (String.eqb EmptyString) ["deliveries"; id; "redeliver"] = false) as -> by (by destruct id).
  cbn. by rewrite Hd.
Qed.

Lemma exec_redeliver_inv t plan id a w w1 :
  exec (handle cfg legacyDate uuid_ok is_url dto_message t plan (PostRedeliver id)) w = (inr a, w1) ->
  exists dl, find_owned t id (w_db w) = Some dl /\ w_db w1 = redelivered_db id dl (w_now w) (w_db w).
Proof.
  cbn [handle]. unfold deliveries_redeliver, uuid_param, redeliver, requireOwned. destruct (uuid_ok id); [|done].
  cbn [bind]. rewrite !exec_bind, exec_db_read. destruct (find_owned t id (w_db w)) as [dl|] eqn:Ho; [|done].
  apply find_owned_Some in Ho as Hf. destruct Hf as [Hdl _]. cbn [exec]. rewrite exec_bind, exec_transaction.
  unfold sbind, delivery_update, outbox_create. rewrite Hdl. cbn [exec]. intros [= _ <-]. by exists dl.
Qed.

(** What the counter [redelivered] counts: an answer that the script takes for a success
    is a 201, never the 202 of the script's comment, and the delivery is the key's
    tenant's and PENDING again. *)
Lemma redelivered_pending key id w :
  plain id = true -> decode id = id ->
  let '(res, w') := bench_net (redeliver_request env key (Some (JStr id))) w in
  200 <= k6_status res <= 299 ->
  k6_status res = 201 /\ exists t plan dl, guard_result (Some (bearer_value key)) w = inr (t, plan) /\
    find_owned t id (w_db w) = Some dl /\ dl_status <$> deliveries (w_db w') !! id = Some PENDING.
Proof.
  intros Hp Hd. destruct (exec_bench_net ("/deliveries/" +:+ id +:+ "/redeliver") (redeliver_request env key (Some (JStr id))) w eq_refl eq_refl)
    as (res & w' & Hx & Hpr & ->). cbn [k6_status]. intros Hs.
  assert (rs_ok res = true) as Hok by (unfold rs_ok; apply andb_true_intro; split; apply Z.leb_le; lia).
  destruct (decide (id = EmptyString)) as [->|Hne].
  { exfalso. refine (unanswered_not_ok _ _ _ Hpr Hok). by left. }
  destruct (exec_call_inv _ _ _ _ _ (redeliver_dispatch key id Hp Hd Hne) eq_refl Hx Hok) as (t & plan & a & w1 & tr & Hg & Ha & -> & _ & ->).
  split; [done|]. apply exec_redeliver_inv in Ha as (dl & Ho & Hdb). exists t, plan, dl.
  split; [etrans; [|exact Hg]; f_equal; symmetry; apply lookup_insert_eq|]. split; [exact Ho|].
  cbn [w_db traced]. rewrite Hdb. cbn. by rewrite lookup_insert_eq.
Qed.

(** ** Properties *)

(** C36.  What an iteration of the noisy-neighbour script measures: in front of the API it
    ends without an exception, after at most 82 requests, two checks and a sample per
    tenant at most.  A sample means that the event this iteration has published with the
    tenant's key was stored, and that in the state [w] of one of its polls the event is
    this tenant's and its first delivery SUCCEEDED; its value is the time up to [w].  For
    the second tenant this time starts only when the first one's delivery has been seen,
    not at the publication: the metric leaves out everything that happens to it while the
    script waits for the other tenant. *)
Theorem neighbor_samples (s : vu) :
  exists s' log la lb a b startA startB seenA seenB,
    exec (neighbor_iteration bench_net w_now meanwhile uuid select env) s = (inr tt, s') /\
    grown log (la ++ lb) [("A 202", a); ("B 202", b)] s s' /\ (length log <= 82)%nat /\
    sampled "tenant_a_delivery_ms" (env "KEY_A") startA log la seenA /\
    sampled "tenant_b_delivery_ms" (env "KEY_B") startB log lb seenB /\
    forall w, seenA = Some w -> startB = w_now w.
Proof.
  unfold neighbor_iteration.
  destruct (exec_publish_event (env "KEY_A") s) as (ra & s1 & log1 & E1 & G1 & N1 & P1). rewrite exec_bind, E1.
  destruct (exec_publish_event (env "KEY_B") s1) as (rb & s2 & log2 & E2 & G2 & N2 & P2). rewrite exec_bind, E2.
  unfold check. rewrite exec_bind, exec_update, exec_bind, exec_update, exec_bind. cbn [vu_net vu_drawn vu_log vu_samples vu_checks].
  match goal with |- context [exec (wait_for _ _ _ _ _ ra _ _) ?s3] => set (sA := s3);
    destruct (exec_wait_for ra (env "KEY_A") "tenant_a_delivery_ms" log1 sA P1) as (log3 & la & seenA & s4 & E3 & G3 & N3 & S3 & W3) end.
  rewrite E3.
  destruct (exec_wait_for rb (env "KEY_B") "tenant_b_delivery_ms" log2 s4 P2) as (log4 & lb & seenB & s5 & E4 & G4 & N4 & S4 & W4).
  rewrite E4.
  assert (grown [] [] [("A 202", k6_status ra =? 202); ("B 202", k6_status rb =? 202)] s2 sA) as GA
    by (unfold grown, sA; cbn; by rewrite !app_nil_r, <- app_assoc).
  pose proof (grown_trans _ _ _ _ _ _ _ _ _ G1 (grown_trans _ _ _ _ _ _ _ _ _ G2 (grown_trans _ _ _ _ _ _ _ _ _ GA
    (grown_trans _ _ _ _ _ _ _ _ _ G3 G4)))) as G. cbn [app] in G.
  exists s5, (log1 ++ log2 ++ log3 ++ log4), la, lb. do 6 eexists. split; [reflexivity|]. split; [exact G|].
  split; [rewrite !length_app; lia|]. split; [|split].
  - eapply sampled_more; [|exact S3]. intros e. rewrite !elem_of_app. tauto.
  - eapply sampled_more; [|exact S4]. intros e. rewrite !elem_of_app. tauto.
  - intros w Hw. by rewrite (W3 w Hw).
Qed.

End bench.

(** ** An iteration in front of the API *)

Definition select_parsed (text name : string) : option json := j ← parse text; field name j.

Lemma select_parsed_selects : selects select_parsed.
Proof. intros l name Hi. unfold select_parsed. by rewrite parse_stringify. Qed.

Definition bench_env (name : string) : option string :=
  if String.eqb name "BASE" then Some "http://localhost:8080/api/"
  else if String.eqb name "KEY_A" then Some "sk_live_one" else None.

Example base_of_env : base_url bench_env = "http://localhost:8080/api" /\ base_url (fun _ => None) = "http://localhost:3000".
Proof. by split. Qed.

Section demo.
#[local] Instance demo_platform : Platform := always 200.

Lemma neighbor_samples_witness :
  exists s' log, exec (neighbor_iteration (bench_net demo_cfg (fun _ => None) (fun _ => true) (fun _ => true) (fun _ => ["Bad Request"])
      (fun s => s) (fun _ => "Not Found") (fun _ => "Bad JSON") (fun _ => EmptyString) (inr EmptyString)
      (fun _ w => (mkK6 0 None 0, w)) bench_env) w_now elapse randomUUID select_parsed bench_env)
      (mkVu api_world 0%nat [] [] []) = (inr tt, s') /\
    vu_log s' = log /\ (length log <= 82)%nat.
Proof.
  destruct (neighbor_samples demo_cfg (fun _ => None) (fun _ => true) (fun _ => true) (fun _ => ["Bad Request"])
      (fun s => s) (fun _ => "Not Found") (fun _ => "Bad JSON") (fun _ => EmptyString) (inr EmptyString)
      (fun _ w => (mkK6 0 None 0, w)) elapse randomUUID select_parsed bench_env select_parsed_selects
      (fun i => conj (uuid_plain i) eq_refl) (mkVu api_world 0%nat [] [] []))
    as (s' & log & la & lb & a & b & startA & startB & seenA & seenB & Hx & (Hg & _) & Hn & _).
  exists s', log. split; [exact Hx|]. split; [exact Hg|exact Hn].
Defined.

End demo.

(** ** What the metric of the second tenant leaves out

    A deployment of which only the clock is followed: the first tenant's delivery
    succeeds after 2,800 ms, the second one's after 2,000 ms.  The script reports 2,800
    and 0: the second tenant's wait is hidden behind the first one's. *)

Definition clocked (rq : FetchRequest) (clock : Z) : K6Response * Z :=
  let answer status j := (mkK6 status (Some (stringify j)) 0, clock) in
  let delivery (succeeded : bool) := JObj [("deliveries", JArr [JObj [("status", JStr (if succeeded then "SUCCEEDED" else "PENDING"))]])] in
  if String.eqb (fr_url rq) "http://localhost:3000/events" then
    answer 202 (JObj [("eventId", JStr (if bool_decide (fr_headers rq !! "authorization" = Some "Bearer a") then "a" else "b"))])
  else if String.eqb (fr_url rq) "http://localhost:3000/events/a/deliveries" then answer 200 (delivery (2800 <=? clock))
  else answer 200 (delivery (2000 <=? clock)).

Definition two_tenants (name : string) : option string :=
  if String.eqb name "KEY_A" then Some "a" else if String.eqb name "KEY_B" then Some "b" else None.

Example second_tenant_hidden :
  vu_samples (exec (neighbor_iteration clocked (fun clock => clock) Z.add (fun _ => "uuid") select_parsed two_tenants)
    (mkVu 0 0%nat [] [] [])).2 = [("tenant_a_delivery_ms", 2800); ("tenant_b_delivery_ms", 0)].
Proof. vm_compute. reflexivity. Qed.

(** A redelivery of the one row that is listed. *)
Example redelivers_a_row :
  let net rq (clock : Z) := (if String.eqb (fr_url rq) "http://localhost:3000/deliveries?status=DEAD"
    then mkK6 200 (Some (stringify (JObj [("deliveries", JArr [JObj [("deliveryId", JStr "d1")]])]))) 5
    else mkK6 201 (Some "{}") 7, clock) in
  let s := (exec (redeliver_iteration net (fun _ => 2 ^ 52) two_tenants) (mkVu 0 0%nat [] [] [])).2 in
  vu_samples s = [("redelivered", 1)] /\ map (fun e => fr_url e.1.1) (vu_log s) =
    ["http://localhost:3000/deliveries?status=DEAD"; "http://localhost:3000/deliveries/d1/redeliver"].
Proof. vm_compute. by split. Qed.
